(** * The analysis engine of the M365 Analyst Agent extension

    A shallow embedding of [src/modules/AnalysisEngine.ts]: the class
    [SimpleLinearRegression], the five analyzers of [AnalysisEngine]
    ([identifyTrends], [findCorrelations], [detectAnomalies],
    [performSegmentation], [generatePredictions]), the column classifier
    ([getNumericColumns], [getDateColumn], [isDateValue]), the report
    generators and the entry point [generateInsights]; and, of the class
    [DataIntegrator] that supplies the records, [parseCsvContent] and
    [cleanData].

    - A JavaScript Number is an IEEE 754 binary64 value: Rocq's primitive
      [float], whose operations round to nearest-even exactly as the
      engine's [+ - * /] do.  [NaN], the infinities and the signed zeros are
      therefore part of the model.
    - A record of the dataset is the list of its own properties in the order
      [Object.keys] lists them; a cell is a value of type [any].
    - [insights.push] inside [try { } catch { }] is a state-and-exception
      monad: the array survives a throw, the handler resumes.
    - What the engine imports and the runtime parses from text
      ([simple-statistics], [ml-kmeans], [parseFloat] and [Date] on strings)
      is a [Host] record: every theorem holds for every host. *)

From Stdlib Require Import ZArith List Bool Lia String Ascii DecimalString.
From Stdlib Require Import Permutation Sorted.
From Stdlib Require Import Floats.
From Stdlib Require Uint63.
Import ListNotations.

Set Warnings "-inexact-float".

Local Open Scope bool_scope.
Local Open Scope list_scope.

(** [length] is a list's, as [array.length]; a string's is [String.length]. *)
Local Abbreviation length := List.length (only parsing).

(* ================================================================== *)
(** * Part 1. JavaScript numbers                                        *)
(* ================================================================== *)

Module Num.

Local Open Scope float_scope.

(** [ToBoolean] of a Number: [+0], [-0] and [NaN] are falsy. *)
Definition truthy (x : float) : bool := negb (is_zero x || is_nan x).

(** A Number that is the integer [n] ([array.length], a loop index). *)
Definition of_nat (n : nat) : float := of_uint63 (Uint63.of_Z (Z.of_nat n)).

(** The integer [z] as a Number, for [|z| < 2^63]. *)
Definition of_Z (z : Z) : float :=
  match z with
  | Z0 => zero
  | Zpos _ => of_uint63 (Uint63.of_Z z)
  | Zneg p => - of_uint63 (Uint63.of_Z (Zpos p))
  end.

(** [m * 2^e] rounded towards minus infinity, and towards zero. *)
Definition scale_floor (m : Z) (e : Z) : Z :=
  match e with
  | Zneg p => Z.shiftr m (Zpos p)
  | _ => Z.shiftl m e
  end.

Definition scale_trunc (s : bool) (m : positive) (e : Z) : Z :=
  let a := scale_floor (Zpos m) e in if s then Z.opp a else a.

(** [Math.floor]. A finite Number with a non-negative exponent is an
    integer already; [-0], [NaN] and the infinities are returned as they
    are.  [Math.floor(0.5)] is [+0] and [Math.floor(-0.5)] is [-1]. *)
Definition Math_floor (x : float) : float :=
  match Prim2SF x with
  | S754_finite s m e =>
      if (0 <=? e)%Z then x
      else of_Z (scale_floor (if s then Zneg m else Zpos m) e)
  | _ => x
  end.

(** [ToIntegerOrInfinity] followed by the conversion back to a Number, on a
    finite argument: truncation towards zero. *)
Definition truncate (x : float) : float :=
  match Prim2SF x with
  | S754_finite s m e => if (0 <=? e)%Z then x else of_Z (scale_trunc s m e)
  | _ => x
  end.

Definition Math_abs (x : float) : float := abs x.

Definition is_neg_zero (x : float) : bool := is_zero x && get_sign x.
Definition is_pos_zero (x : float) : bool := is_zero x && negb (get_sign x).

(** [Math.min(...args)] as ECMAScript gives it: [lowest] starts at
    [+Infinity]; a [NaN] argument returns [NaN]; [-0] is below [+0]. *)
Fixpoint Math_min_from (lowest : float) (args : list float) : float :=
  match args with
  | [] => lowest
  | number :: rest =>
      if is_nan number then nan
      else if is_neg_zero number && is_pos_zero lowest
           then Math_min_from neg_zero rest
      else if number <? lowest then Math_min_from number rest
      else Math_min_from lowest rest
  end.

Definition Math_min (a b : float) : float := Math_min_from infinity [a; b].

(** [Math.pow(x, 2)]: the engine only ever squares. *)
Definition Math_pow2 (x : float) : float := x * x.

(** [TimeClip]: the time value a [Date] built from the Number [t] holds. *)
Definition msPerDayLimit : float := 8.64e15.

Definition TimeClip (t : float) : float :=
  if negb (is_finite t) then nan
  else if msPerDayLimit <? abs t then nan
  else truncate t + 0.

(** The integer a Number holds when it is integral, for display. *)
Definition integral_value (x : float) : option Z :=
  match Prim2SF x with
  | S754_zero _ => Some 0%Z
  | S754_finite s m e =>
      if (0 <=? e)%Z then Some (scale_trunc s m e)
      else if Z.eqb (Z.shiftl (scale_floor (Zpos m) e) (- e)) (Zpos m)
           then Some (scale_trunc s m e) else None
  | _ => None
  end.

(** ** An order-preserving reading of a Number as an integer

    Every comparison of two Numbers that are not [NaN] is the comparison of
    their ranks: sign, then exponent, then mantissa.  Both zeros have rank
    0 and the infinities have the ranks [TOP] and [-TOP]. *)
Definition TOP : Z := Eval cbv in (2 ^ 70)%Z.
Definition two53 : Z := Eval cbv in (2 ^ 53)%Z.

Definition rank (x : spec_float) : Z :=
  match x with
  | S754_zero _ => 0
  | S754_nan => 0
  | S754_infinity s => if s then - TOP else TOP
  | S754_finite s m e =>
      let r := ((e + 1075) * two53 + Zpos m)%Z in if s then (- r)%Z else r
  end.

Definition frank (x : float) : Z := rank (Prim2SF x).

Definition is_nan_sf (x : spec_float) : bool :=
  match x with S754_nan => true | _ => false end.

(** Not [NaN], with sign bit [s]. *)
Definition signed (s : bool) (x : spec_float) : Prop :=
  match x with
  | S754_zero s' | S754_infinity s' | S754_finite s' _ _ => s' = s
  | S754_nan => False
  end.

(** Neither [NaN] nor a zero, with sign bit [s]. *)
Definition strictly (s : bool) (x : spec_float) : Prop :=
  match x with
  | S754_infinity s' | S754_finite s' _ _ => s' = s
  | _ => False
  end.

(** [0 <= x]. *)
Definition nonneg (x : spec_float) : Prop :=
  match x with
  | S754_zero _ | S754_infinity false | S754_finite false _ _ => True
  | _ => False
  end.

Definition finite_positive (x : float) : Prop :=
  exists m e, Prim2SF x = S754_finite false m e.

(** [100], as the format holds it: [25 * 2^48 * 2^-46]. *)
Definition hundred : spec_float := S754_finite false 7036874417766400 (-46).

(** [3] and [9], as the format holds them. *)
Definition three_sf : spec_float := S754_finite false 6755399441055744 (-51).
Definition nine_sf : spec_float := S754_finite false 5066549580791808 (-49).

(** [1], as the format holds it. *)
Definition one_sf : spec_float := S754_finite false 4503599627370496 (-52).

(** [NaN], or a Number whose sign bit is clear. *)
Definition unsigned_or_nan (x : float) : Prop :=
  match Prim2SF x with
  | S754_nan => True
  | S754_zero s | S754_infinity s | S754_finite s _ _ => s = false
  end.

(** The mantissa of an operand of [SFsub] once aligned, with its sign. *)
Definition aligned (s : bool) (m : positive) (e ez : Z) : Z :=
  cond_Zopp s (Zpos (fst (shl_align m e ez))).

(** [x] is the rational [z / 2^j], held exactly: a zero when [z] is 0, and
    otherwise the mantissa and exponent that give this value. *)
Definition exactly (x : spec_float) (z j : Z) : Prop :=
  match z with
  | Z0 => exists s, x = S754_zero s
  | _ => exists m e, x = S754_finite (z <? 0)%Z m e /\
                     (e + j <= 0)%Z /\ Zpos m = (Z.abs z * 2 ^ (- (e + j)))%Z
  end.

Definition holds (x : float) (z j : Z) : Prop := exactly (Prim2SF x) z j.

End Num.

(* ================================================================== *)
(** * Part 2. Values, records and the host                              *)
(* ================================================================== *)

(** A cell of a record: TypeScript's [any], restricted to the scalars a
    parsed CSV, JSON or Excel sheet holds. *)
Inductive any : Type :=
| VUndefined
| VNull
| VBoolean (b : bool)
| VNumber (n : float)
| VString (s : string).

(** A record is the list of its own enumerable string-keyed properties, in
    the order [Object.keys] lists them. *)
Definition record : Type := list (string * any).
Definition dataset : Type := list record.

Definition Object_keys (row : record) : list string := map fst row.

(** [row[key]]: the property's value, [undefined] when there is none. *)
Fixpoint get (row : record) (key : string) : any :=
  match row with
  | [] => VUndefined
  | (k, v) :: rest => if String.eqb k key then v else get rest key
  end.

(** The outcome of a call: a value, or a thrown error. *)
Inductive completion (A : Type) : Type :=
| Normal (a : A)
| Throw (error : string).
Arguments Normal {A} a.
Arguments Throw {A} error.

Definition point : Type := (float * float)%type.

(** An entry of [result.clusters].  [ml-kmeans] 6 stores one cluster label
    per point; [performSegmentation] reads [cluster.length] from it, which
    only an array of member points has. *)
Inductive cluster : Type :=
| ClusterLabel (label : float)
| ClusterMembers (members : list point).

Record KMeansResult : Type := {
  clusters : list cluster;
  centroids : list point
}.

(** What the engine calls and does not define. *)
Record Host : Type := {
  (** [parseFloat] applied to a String. *)
  parseFloat_string : string -> float;
  (** [ToNumber] applied to a String, as [isFinite] does. *)
  Number_string : string -> float;
  (** [Date.parse]: the time value of a date string, [NaN] when it is none.
      Outside the ISO format ECMAScript leaves it to the implementation. *)
  Date_parse : string -> float;
  (** [simple-statistics]. *)
  sampleCorrelation : list float -> list float -> completion float;
  mean : list float -> completion float;
  standardDeviation : list float -> completion float;
  (** [ml-kmeans], with its random initialization. *)
  kmeans : list point -> float -> completion KMeansResult
}.

(** ** A reference host

    [simple-statistics] 7.8 as published: Kahan-Babuska summation, the
    population standard deviation, and Pearson's r as
    [cov / sd(x) / sd(y)] with Bessel's correction.  Text is parsed only in
    the shapes the examples below use: an optional sign and decimal digits
    with an optional fraction. *)
Module Reference.

Local Open Scope float_scope.

Definition sum_step (st : float * float) (xi : float) : float * float :=
  let '(sum, correction) := st in
  let transition := sum + xi in
  let correction :=
    if abs xi <=? abs sum then correction + ((sum - transition) + xi)
    else correction + ((xi - transition) + sum) in
  (transition, correction).

Definition sum (x : list float) : float :=
  match x with
  | [] => 0
  | x0 :: rest => let '(s, c) := fold_left sum_step rest (x0, 0) in s + c
  end.

Definition mean (x : list float) : completion float :=
  match x with
  | [] => Throw "mean requires at least one data point"
  | _ => Normal (sum x / Num.of_nat (length x))
  end.

Definition sumSquaredDeviations (x : list float) (m : float) : float :=
  fold_left (fun acc xi => acc + (xi - m) * (xi - m)) x 0.

Definition variance (x : list float) : completion float :=
  match mean x with
  | Throw e => Throw "variance requires at least one data point"
  | Normal m => Normal (sumSquaredDeviations x m / Num.of_nat (length x))
  end.

Definition standardDeviation (x : list float) : completion float :=
  match x with
  | [_] => Normal 0
  | _ => match variance x with
         | Throw e => Throw e
         | Normal v => Normal (sqrt v)
         end
  end.

Definition sampleVariance (x : list float) : completion float :=
  match x, mean x with
  | _ :: _ :: _, Normal m =>
      Normal (sumSquaredDeviations x m / Num.of_nat (length x - 1))
  | _, _ => Throw "sampleVariance requires at least two data points"
  end.

Definition sampleCovariance (x y : list float) : completion float :=
  if negb (length x =? length y)%nat
  then Throw "sampleCovariance requires samples with equal lengths"
  else match x, mean x, mean y with
       | _ :: _ :: _, Normal xmean, Normal ymean =>
           let s := fold_left (fun acc '(xi, yi) =>
                                 acc + (xi - xmean) * (yi - ymean))
                              (combine x y) 0 in
           Normal (s / Num.of_nat (length x - 1))
       | _, _, _ => Throw "sampleCovariance requires at least two data points"
       end.

Definition sampleCorrelation (x y : list float) : completion float :=
  match sampleCovariance x y, sampleVariance x, sampleVariance y with
  | Normal cov, Normal vx, Normal vy => Normal (cov / sqrt vx / sqrt vy)
  | Throw e, _, _ => Throw e
  | _, Throw e, _ => Throw e
  | _, _, Throw e => Throw e
  end.

(** Decimal text: [digits] and [digits.digits], with an optional sign. *)
Definition digit_of (c : ascii) : option Z :=
  let n := Z.of_N (N_of_ascii c) in
  if (48 <=? n)%Z && (n <=? 57)%Z then Some (n - 48)%Z else None.

Fixpoint read_digits (s : string) (acc : Z) (count : Z) : Z * Z * string :=
  match s with
  | String c rest =>
      match digit_of c with
      | Some d => read_digits rest (10 * acc + d)%Z (count + 1)%Z
      | None => (acc, count, s)
      end
  | EmptyString => (acc, count, s)
  end.

(** [m / 10^k] rounded to the nearest Number, ties to even: the quotient is
    taken with 64 bits to spare and a sticky bit. *)
Definition decimal_to_float (negative : bool) (m : Z) (k : Z) : float :=
  let scale := (Z.log2 (10 ^ k) + 128)%Z in
  let q := ((m * 2 ^ scale) / 10 ^ k)%Z in
  let r := ((m * 2 ^ scale) mod 10 ^ k)%Z in
  let q := (2 * q + (if (r =? 0)%Z then 0 else 1))%Z in
  let v := SF2Prim (binary_normalize prec emax q (- scale - 1) false) in
  if negative then - v else v.

(** The longest decimal prefix, and what follows it. *)
Definition read_decimal (s : string) : option (float * string) :=
  let '(negative, s) :=
    match s with
    | String "-"%char rest => (true, rest)
    | String "+"%char rest => (false, rest)
    | _ => (false, s)
    end in
  let '(ip, n1, s1) := read_digits s 0%Z 0%Z in
  match s1 with
  | String "."%char rest =>
      let '(m, n2, s2) := read_digits rest ip 0%Z in
      if (n1 + n2 =? 0)%Z then None
      else Some (decimal_to_float negative m n2, s2)
  | _ => if (n1 =? 0)%Z then None
         else Some (decimal_to_float negative ip 0, s1)
  end.

Definition parseFloat_string (s : string) : float :=
  match read_decimal s with
  | Some (v, _) => v
  | None => nan
  end.

Definition Number_string (s : string) : float :=
  match s with
  | EmptyString => 0
  | _ => match read_decimal s with
         | Some (v, EmptyString) => v
         | _ => nan
         end
  end.

(** No date text is recognized. *)
Definition Date_parse (s : string) : float := nan.

(** Every point in cluster 0 and one centroid per requested cluster. *)
Definition kmeans (points : list point) (k : float) : completion KMeansResult :=
  Normal {| clusters := map (fun _ => ClusterLabel 0) points;
            centroids := match Num.integral_value k with
                         | Some n => repeat (hd (0, 0) points) (Z.to_nat n)
                         | None => []
                         end |}.

Definition host : Host :=
  Build_Host parseFloat_string Number_string Date_parse
             sampleCorrelation mean standardDeviation kmeans.

End Reference.

(* ================================================================== *)
(** * Part 3. The engine                                                *)
(* ================================================================== *)

(** ** Arrays *)

(** [array.reduce((total, xi, i) => ..., init)]. *)
Fixpoint reduce_from {A B : Type} (f : B -> A -> nat -> B) (i : nat)
  (total : B) (l : list A) : B :=
  match l with
  | [] => total
  | xi :: rest => reduce_from f (S i) (f total xi i) rest
  end.

Definition reduce {A B : Type} (f : B -> A -> nat -> B) (init : B)
  (l : list A) : B := reduce_from f 0 init l.

(** [array.map((xi, i) => ...)]. *)
Fixpoint mapi_from {A B : Type} (f : A -> nat -> B) (i : nat) (l : list A) : list B :=
  match l with
  | [] => []
  | xi :: rest => f xi i :: mapi_from f (S i) rest
  end.

Definition mapi {A B : Type} (f : A -> nat -> B) (l : list A) : list B :=
  mapi_from f 0 l.

(** [array.sort(comparefn)].  ECMAScript sorts stably, and reads a [NaN]
    from the comparator as [+0]: [x] is moved behind [y] exactly when
    [comparefn(x, y) > 0].  For a consistent comparator every conforming
    sort returns this list; for an inconsistent one the order is left to the
    implementation, and this is one such order. *)
Definition moves_behind {A : Type} (comparefn : A -> A -> float) (x y : A) : bool :=
  (0 <? comparefn x y)%float.

Fixpoint sort_insert {A : Type} (comparefn : A -> A -> float) (x : A)
  (sorted : list A) : list A :=
  match sorted with
  | [] => [x]
  | y :: rest =>
      if moves_behind comparefn x y then y :: sort_insert comparefn x rest
      else x :: sorted
  end.

Fixpoint Array_sort {A : Type} (comparefn : A -> A -> float) (l : list A) : list A :=
  match l with
  | [] => []
  | x :: rest => sort_insert comparefn x (Array_sort comparefn rest)
  end.

(** ** [class SimpleLinearRegression] *)

Record SimpleLinearRegression : Type := {
  _slope : float;
  _intercept : float
}.

Module Regression.

Local Open Scope float_scope.

(** [y[i]] in arithmetic: [undefined] reads as [NaN]. *)
Definition at_index (y : list float) (i : nat) : float := nth i y nan.

Definition fit (x y : list float) : SimpleLinearRegression :=
  let n := Num.of_nat (length x) in
  let sumX := reduce (fun a b _ => a + b) 0 x in
  let sumY := reduce (fun a b _ => a + b) 0 y in
  let sumXY := reduce (fun total xi i => total + xi * at_index y i) 0 x in
  let sumXX := reduce (fun total xi _ => total + xi * xi) 0 x in
  let slope := (n * sumXY - sumX * sumY) / (n * sumXX - sumX * sumX) in
  {| _slope := slope;
     _intercept := (sumY - slope * sumX) / n |}.

(** [new SimpleLinearRegression(x, y)]. *)
Definition new (x y : list float) : SimpleLinearRegression := fit x y.

Definition predict (r : SimpleLinearRegression) (x : float) : float :=
  _slope r * x + _intercept r.

Definition score (r : SimpleLinearRegression) (x y : list float) : float :=
  let yPred := map (fun xi => predict r xi) x in
  let yMean := reduce (fun a b _ => a + b) 0 y / Num.of_nat (length y) in
  let ssRes := reduce (fun total yi i =>
                         total + Num.Math_pow2 (yi - at_index yPred i)) 0 y in
  let ssTot := reduce (fun total yi _ =>
                         total + Num.Math_pow2 (yi - yMean)) 0 y in
  1 - (ssRes / ssTot).

End Regression.

(** ** [interface AnalysisInsight] *)

Inductive insight_type : Type := trend | correlation | anomaly | prediction | segment.

(** A [Date] is its time value ([NaN] for an invalid date). *)
Record TimeSeriesPoint : Type := {
  date : float;
  value : float
}.

Record Segment : Type := {
  id : float;
  size : option float;
  centroid : option point;
  points : cluster
}.

(** [data: any], by the insight's type. *)
Inductive insight_data : Type :=
| TrendData (column : string) (slope rSquared : float)
            (timeSeriesData : list TimeSeriesPoint)
| CorrelationData (column1 column2 : string) (r : float)
                  (strength direction : string)
| AnomalyData (column : string) (anomalies : list (any * record))
              (mean threshold : float)
| SegmentData (columns : string * string) (segments : list Segment) (k : float)
| PredictionData (column : string) (prediction rSquared slope intercept : float).

(** [description], display text made with [toFixed], is left out: nothing
    reads it. *)
Record AnalysisInsight : Type := {
  type : insight_type;
  title : string;
  confidence : float;
  data : insight_data
}.

(** ** [insights.push] under [try]/[catch] *)

(** A computation over the [insights] array that may throw: the array as
    it stands is returned either way. *)
Definition M (A : Type) : Type :=
  list AnalysisInsight -> list AnalysisInsight * completion A.

Definition ret {A : Type} (a : A) : M A := fun insights => (insights, Normal a).

Definition bind {A B : Type} (m : M A) (f : A -> M B) : M B :=
  fun insights =>
    match m insights with
    | (insights', Normal a) => f a insights'
    | (insights', Throw e) => (insights', Throw e)
    end.

Notation "x <- m ;; k" := (bind m (fun x => k))
  (at level 61, m at next level, right associativity).
Notation "m ;;; k" := (bind m (fun _ => k))
  (at level 61, right associativity).

(** [insights.push(i)]. *)
Definition push (i : AnalysisInsight) : M unit :=
  fun insights => (insights ++ [i], Normal tt).

(** [insights.push(...items)]. *)
Definition push_all (items : list AnalysisInsight) : M unit :=
  fun insights => (insights ++ items, Normal tt).

(** The value of a call, or its throw. *)
Definition call {A : Type} (c : completion A) : M A := fun insights => (insights, c).

(** [try { body } catch (error) { handler }]. *)
Definition try_catch {A : Type} (body : M A) (handler : string -> M A) : M A :=
  fun insights =>
    match body insights with
    | (insights', Normal a) => (insights', Normal a)
    | (insights', Throw e) => handler e insights'
    end.

(** [for (const x of l) { body }]; a [continue] ends the body. *)
Fixpoint for_of {A : Type} (l : list A) (body : A -> M unit) : M unit :=
  match l with
  | [] => ret tt
  | x :: rest => body x ;;; for_of rest body
  end.

(** [console.error(...)]: no effect on the result. *)
Definition console_error : M unit := ret tt.

(** [insights], read. *)
Definition the_insights : M (list AnalysisInsight) :=
  fun insights => (insights, Normal insights).

(** An [async] method that starts from [const insights = []]: the promise
    it returns is fulfilled with a value or rejected with the throw. *)
Definition async {A : Type} (body : M A) : completion A := snd (body []).

(** ** Text of the titles *)

Definition decimal_of_nat (n : nat) : string := NilZero.string_of_uint (Nat.to_uint n).

(** [`${k}`] for an integral Number; [k] is a [Math.floor] capped by 3. *)
Definition decimal_of_integral (k : float) : string :=
  match Num.integral_value k with
  | Some z => NilZero.string_of_int (Z.to_int z)
  | None => "NaN"
  end.

Definition capitalize (s : string) : string :=
  match s with
  | EmptyString => EmptyString
  | String c rest =>
      let n := nat_of_ascii c in
      String (if (97 <=? n)%nat && (n <=? 122)%nat then ascii_of_nat (n - 32) else c) rest
  end.

(** [calculateTrend]'s result. *)
Record Trend : Type := {
  trend_slope : float;
  trend_rSquared : float;
  trend_direction : string
}.

Section Engine.

Variable host : Host.

Local Open Scope string_scope.
Local Open Scope float_scope.

(** ** Built-ins on [any] *)

(** [parseFloat(value)].  A Number is first written out and then read back,
    which returns it, [-0] apart ([String(-0)] is ["0"]).  A Boolean,
    [null] and [undefined] write out as text that is no number. *)
Definition parseFloat (v : any) : float :=
  match v with
  | VNumber n => if is_zero n then 0 else n
  | VString s => parseFloat_string host s
  | _ => nan
  end.

Definition isNaN (x : float) : bool := is_nan x.

Definition ToNumber (v : any) : float :=
  match v with
  | VUndefined => nan
  | VNull => 0
  | VBoolean b => if b then 1 else 0
  | VNumber n => n
  | VString s => Number_string host s
  end.

(** The global [isFinite(value)]. *)
Definition isFinite (v : any) : bool := is_finite (ToNumber v).

Definition ToBoolean (v : any) : bool :=
  match v with
  | VUndefined | VNull => false
  | VBoolean b => b
  | VNumber n => Num.truthy n
  | VString s => negb (String.eqb s "")
  end.

(** [new Date(value).getTime()]. *)
Definition new_Date (v : any) : float :=
  Num.TimeClip match v with
               | VString s => Date_parse host s
               | _ => ToNumber v
               end.

(** ** The column classifier *)

Definition getNumericColumns (data : dataset) : list string :=
  match data with
  | [] => []
  | firstRow :: _ =>
      filter (fun key =>
                let value := get firstRow key in
                negb (isNaN (parseFloat value)) && isFinite value)
             (Object_keys firstRow)
  end.

Definition isDateValue (v : any) : bool :=
  if negb (ToBoolean v) then false
  else negb (isNaN (new_Date v)).

Definition getDateColumn (data : dataset) : option string :=
  match data with
  | [] => None
  | firstRow :: _ =>
      find (fun key => isDateValue (get firstRow key)) (Object_keys firstRow)
  end.

(** [!dateColumn] for a [string | null]: [null] and the empty string. *)
Definition no_column (dateColumn : option string) : bool :=
  match dateColumn with
  | None => true
  | Some name => String.eqb name ""
  end.

Definition column_name (dateColumn : option string) : string :=
  match dateColumn with
  | None => ""
  | Some name => name
  end.

(** ** Time series *)

Definition prepareTimeSeriesData (data : dataset) (dateColumn valueColumn : string)
  : list TimeSeriesPoint :=
  Array_sort (fun a b => date a - date b)
    (filter (fun point => negb (isNaN (date point)) && negb (isNaN (value point)))
       (map (fun row => {| date := new_Date (get row dateColumn);
                           value := parseFloat (get row valueColumn) |})
            data)).

Definition calculateTrend (timeSeriesData : list TimeSeriesPoint) : Trend :=
  let x := mapi (fun _ index => Num.of_nat index) timeSeriesData in
  let y := map (fun point => value point) timeSeriesData in
  let regression := Regression.new x y in
  let rSquared := Regression.score regression x y in
  {| trend_slope := _slope regression;
     trend_rSquared := rSquared;
     trend_direction := if 0 <? _slope regression then "Upward" else "Downward" |}.

(** ** The five analyzers *)

Definition identifyTrends (data : dataset) : completion (list AnalysisInsight) :=
  async (
    let numericColumns := getNumericColumns data in
    let dateColumn := getDateColumn data in
    if no_column dateColumn || (length numericColumns =? 0)%nat then the_insights
    else
      for_of numericColumns (fun column =>
        try_catch
          (let timeSeriesData :=
             prepareTimeSeriesData data (column_name dateColumn) column in
           if (length timeSeriesData <? 3)%nat then ret tt
           else
             let trend' := calculateTrend timeSeriesData in
             if 0.01 <? Num.Math_abs (trend_slope trend') then
               push {| type := trend;
                       title := trend_direction trend' ++ " Trend in " ++ column;
                       confidence := Num.Math_min (trend_rSquared trend' * 100) 95;
                       data := TrendData column (trend_slope trend')
                                         (trend_rSquared trend') timeSeriesData |}
             else ret tt)
          (fun error => console_error)) ;;;
      the_insights).

(** The values of a column that parse: [data.map(...).filter(v => !isNaN(v))]. *)
Definition column_values (data : dataset) (column : string) : list float :=
  filter (fun v => negb (isNaN v)) (map (fun row => parseFloat (get row column)) data).

Definition findCorrelations (data : dataset) : completion (list AnalysisInsight) :=
  async (
    let numericColumns := getNumericColumns data in
    if (length numericColumns <? 2)%nat then the_insights
    else
      for_of (seq 0 (length numericColumns)) (fun i =>
        for_of (seq (i + 1) (length numericColumns - (i + 1))) (fun j =>
          try_catch
            (let col1 := nth i numericColumns "" in
             let col2 := nth j numericColumns "" in
             let values1 := column_values data col1 in
             let values2 := column_values data col2 in
             if negb (length values1 =? length values2)%nat
                || (length values1 <? 3)%nat then ret tt
             else
               r <- call (sampleCorrelation host values1 values2) ;;
               if 0.5 <? Num.Math_abs r then
                 let strength := if 0.8 <? Num.Math_abs r then "strong" else "moderate" in
                 let direction := if 0 <? r then "positive" else "negative" in
                 push {| type := correlation;
                         title := capitalize strength ++ " " ++ direction ++ " correlation";
                         confidence := Num.Math_abs r * 100;
                         data := CorrelationData col1 col2 r strength direction |}
               else ret tt)
            (fun error => console_error))) ;;;
      the_insights).

Definition detectAnomalies (data : dataset) : completion (list AnalysisInsight) :=
  async (
    let numericColumns := getNumericColumns data in
    for_of numericColumns (fun column =>
      try_catch
        (let values := column_values data column in
         if (length values <? 10)%nat then ret tt
         else
           mean <- call (mean host values) ;;
           stdDev <- call (standardDeviation host values) ;;
           let threshold := 2 * stdDev in
           let anomalies :=
             filter (fun row =>
                       let value := parseFloat (get row column) in
                       negb (isNaN value) && (threshold <? Num.Math_abs (value - mean)))
                    data in
           if (0 <? length anomalies)%nat then
             push {| type := anomaly;
                     title := decimal_of_nat (length anomalies) ++ " Anomal"
                              ++ (if (length anomalies =? 1)%nat then "y" else "ies")
                              ++ " in " ++ column;
                     confidence :=
                       Num.Math_min
                         (Num.of_nat (length anomalies) / Num.of_nat (length values) * 500)
                         90;
                     data := AnomalyData column
                               (map (fun row => (get row column, row)) anomalies)
                               mean threshold |}
           else ret tt)
        (fun error => console_error)) ;;;
    the_insights).

(** [x || 0] on a Number. *)
Definition or_zero (x : float) : float := if Num.truthy x then x else 0.

(** [point.includes(NaN)]. *)
Definition includes_NaN (p : point) : bool := is_nan (fst p) || is_nan (snd p).

Definition cluster_length (c : cluster) : option float :=
  match c with
  | ClusterLabel _ => None
  | ClusterMembers members => Some (Num.of_nat (length members))
  end.

Definition performSegmentation (data : dataset) : completion (list AnalysisInsight) :=
  async (
    let numericColumns := getNumericColumns data in
    if (length numericColumns <? 2)%nat || (length data <? 10)%nat then the_insights
    else
      try_catch
        (let col1 := nth 0 numericColumns "" in
         let col2 := nth 1 numericColumns "" in
         let points :=
           filter (fun point => negb (includes_NaN point))
                  (map (fun row => (or_zero (parseFloat (get row col1)),
                                    or_zero (parseFloat (get row col2))))
                       data) in
         if (length points <? 6)%nat then ret tt
         else
           let k := Num.Math_min 3 (Num.Math_floor (Num.of_nat (length points) / 3)) in
           result <- call (kmeans host points k) ;;
           let segments :=
             mapi (fun cluster index =>
                     {| id := Num.of_nat index + 1;
                        size := cluster_length cluster;
                        centroid := nth_error (centroids result) index;
                        points := cluster |})
                  (clusters result) in
           push {| type := segment;
                   title := "Data Segmented into " ++ decimal_of_integral k ++ " Groups";
                   confidence := 75;
                   data := SegmentData (col1, col2) segments k |})
        (fun error => console_error) ;;;
      the_insights).

Definition generatePredictions (data : dataset) : completion (list AnalysisInsight) :=
  async (
    let numericColumns := getNumericColumns data in
    let dateColumn := getDateColumn data in
    if no_column dateColumn || (length numericColumns =? 0)%nat
       || (length data <? 5)%nat then the_insights
    else
      for_of numericColumns (fun column =>
        try_catch
          (let timeSeriesData :=
             prepareTimeSeriesData data (column_name dateColumn) column in
           if (length timeSeriesData <? 5)%nat then ret tt
           else
             let x := mapi (fun _ index => Num.of_nat index) timeSeriesData in
             let y := map (fun point => value point) timeSeriesData in
             let regression := Regression.new x y in
             let nextPeriodPrediction :=
               Regression.predict regression (Num.of_nat (length timeSeriesData)) in
             let rSquared := Regression.score regression x y in
             if 0.3 <? rSquared then
               push {| type := prediction;
                       title := "Predicted Next Value for " ++ column;
                       confidence := Num.Math_min (rSquared * 100) 85;
                       data := PredictionData column nextPeriodPrediction rSquared
                                 (_slope regression) (_intercept regression) |}
             else ret tt)
          (fun error => console_error)) ;;;
      the_insights).

(** ** The entry point *)

(** [insights.push(...await analyzer(data))]: a rejected promise throws at
    the [await]. *)
Definition push_awaited (analyzer : dataset -> completion (list AnalysisInsight))
  (data : dataset) : M unit :=
  items <- call (analyzer data) ;; push_all items.

Definition by_confidence_descending (a b : AnalysisInsight) : float :=
  confidence b - confidence a.

Definition generateInsights (data : dataset) : completion (list AnalysisInsight) :=
  async (
    if (length data =? 0)%nat then ret []
    else
      try_catch
        (push_awaited identifyTrends data ;;;
         push_awaited findCorrelations data ;;;
         push_awaited detectAnomalies data ;;;
         push_awaited performSegmentation data ;;;
         push_awaited generatePredictions data)
        (fun error => console_error) ;;;
      insights <- the_insights ;;
      ret (Array_sort by_confidence_descending insights)).

(** ** What one column contributes

    The body of each analyzer's loop, read as a function of the column: the
    insights one pass of the loop leaves in [insights] when nothing inside it
    throws, and none when something does. *)

Definition trend_of_column (data : dataset) (dateColumn column : string)
  : list AnalysisInsight :=
  let timeSeriesData := prepareTimeSeriesData data dateColumn column in
  let fitted := calculateTrend timeSeriesData in
  if (3 <=? length timeSeriesData)%nat && (0.01 <? Num.Math_abs (trend_slope fitted)) then
    [ {| type := trend;
         title := trend_direction fitted ++ " Trend in " ++ column;
         confidence := Num.Math_min (trend_rSquared fitted * 100) 95;
         data := TrendData column (trend_slope fitted) (trend_rSquared fitted)
                           timeSeriesData |} ]
  else [].

Definition correlation_of_pair (data : dataset) (col1 col2 : string)
  : list AnalysisInsight :=
  let values1 := column_values data col1 in
  let values2 := column_values data col2 in
  if (length values1 =? length values2)%nat && (3 <=? length values1)%nat then
    match sampleCorrelation host values1 values2 with
    | Normal r =>
        if 0.5 <? Num.Math_abs r then
          let strength := if 0.8 <? Num.Math_abs r then "strong" else "moderate" in
          let direction := if 0 <? r then "positive" else "negative" in
          [ {| type := correlation;
               title := capitalize strength ++ " " ++ direction ++ " correlation";
               confidence := Num.Math_abs r * 100;
               data := CorrelationData col1 col2 r strength direction |} ]
        else []
    | Throw _ => []
    end
  else [].

(** The records [detectAnomalies] flags, given the mean and the threshold. *)
Definition anomalous_rows (data : dataset) (column : string) (mean threshold : float)
  : list record :=
  filter (fun row =>
            let value := parseFloat (get row column) in
            negb (isNaN value) && (threshold <? Num.Math_abs (value - mean)))
         data.

Definition anomaly_of_column (data : dataset) (column : string)
  : list AnalysisInsight :=
  let values := column_values data column in
  if (10 <=? length values)%nat then
    match mean host values, standardDeviation host values with
    | Normal mean, Normal stdDev =>
        let threshold := 2 * stdDev in
        let anomalies := anomalous_rows data column mean threshold in
        if (1 <=? length anomalies)%nat then
          [ {| type := anomaly;
               title := decimal_of_nat (length anomalies) ++ " Anomal"
                        ++ (if (length anomalies =? 1)%nat then "y" else "ies")
                        ++ " in " ++ column;
               confidence :=
                 Num.Math_min
                   (Num.of_nat (length anomalies) / Num.of_nat (length values) * 500)
                   90;
               data := AnomalyData column
                         (map (fun row => (get row column, row)) anomalies)
                         mean threshold |} ]
        else []
    | _, _ => []
    end
  else [].

(** The 2-D points [performSegmentation] clusters. *)
Definition segmentation_points (data : dataset) (col1 col2 : string) : list point :=
  filter (fun point => negb (includes_NaN point))
         (map (fun row => (or_zero (parseFloat (get row col1)),
                           or_zero (parseFloat (get row col2))))
              data).

Definition segment_count (points : list point) : float :=
  Num.Math_min 3 (Num.Math_floor (Num.of_nat (length points) / 3)).

Definition segments_of (result : KMeansResult) : list Segment :=
  mapi (fun cluster index =>
          {| id := Num.of_nat index + 1;
             size := cluster_length cluster;
             centroid := nth_error (centroids result) index;
             points := cluster |})
       (clusters result).

Definition prediction_of_column (data : dataset) (dateColumn column : string)
  : list AnalysisInsight :=
  let timeSeriesData := prepareTimeSeriesData data dateColumn column in
  let x := mapi (fun _ index => Num.of_nat index) timeSeriesData in
  let y := map (fun point => value point) timeSeriesData in
  let regression := Regression.new x y in
  let rSquared := Regression.score regression x y in
  if (5 <=? length timeSeriesData)%nat && (0.3 <? rSquared) then
    [ {| type := prediction;
         title := "Predicted Next Value for " ++ column;
         confidence := Num.Math_min (rSquared * 100) 85;
         data := PredictionData column
                   (Regression.predict regression (Num.of_nat (length timeSeriesData)))
                   rSquared (_slope regression) (_intercept regression) |} ]
  else [].

(** The pairs of numeric columns, as the nested loops meet them. *)
Definition column_pairs (numericColumns : list string) : list (string * string) :=
  flat_map (fun i =>
              map (fun j => (nth i numericColumns "", nth j numericColumns ""))
                  (seq (i + 1) (length numericColumns - (i + 1))))
           (seq 0 (length numericColumns)).

(** ** What each analyzer returns *)

Definition trends_of (data : dataset) : list AnalysisInsight :=
  let numericColumns := getNumericColumns data in
  let dateColumn := getDateColumn data in
  if no_column dateColumn then []
  else flat_map (trend_of_column data (column_name dateColumn)) numericColumns.

Definition correlations_of (data : dataset) : list AnalysisInsight :=
  flat_map (fun pair => correlation_of_pair data (fst pair) (snd pair))
           (column_pairs (getNumericColumns data)).

Definition anomalies_of (data : dataset) : list AnalysisInsight :=
  flat_map (anomaly_of_column data) (getNumericColumns data).

Definition segments_insight_of (data : dataset) : list AnalysisInsight :=
  let numericColumns := getNumericColumns data in
  if (2 <=? length numericColumns)%nat && (10 <=? length data)%nat then
    let col1 := nth 0 numericColumns "" in
    let col2 := nth 1 numericColumns "" in
    let points := segmentation_points data col1 col2 in
    if (6 <=? length points)%nat then
      match kmeans host points (segment_count points) with
      | Normal result =>
          [ {| type := segment;
               title := "Data Segmented into "
                        ++ decimal_of_integral (segment_count points) ++ " Groups";
               confidence := 75;
               data := SegmentData (col1, col2) (segments_of result)
                                   (segment_count points) |} ]
      | Throw _ => []
      end
    else []
  else [].

Definition predictions_of (data : dataset) : list AnalysisInsight :=
  let numericColumns := getNumericColumns data in
  let dateColumn := getDateColumn data in
  if no_column dateColumn || (length data <? 5)%nat then []
  else flat_map (prediction_of_column data (column_name dateColumn)) numericColumns.

(** Everything the five analyzers return, in the order of the calls. *)
Definition generated (data : dataset) : list AnalysisInsight :=
  trends_of data ++ correlations_of data ++ anomalies_of data
  ++ segments_insight_of data ++ predictions_of data.

End Engine.

(** ** Reading an insight *)

Definition insight_column (i : AnalysisInsight) : option string :=
  match data i with
  | TrendData column _ _ _ => Some column
  | AnomalyData column _ _ _ => Some column
  | PredictionData column _ _ _ _ => Some column
  | _ => None
  end.

Definition insight_pair (i : AnalysisInsight) : option (string * string) :=
  match data i with
  | CorrelationData column1 column2 _ _ _ => Some (column1, column2)
  | _ => None
  end.

(** [i.type === t]. *)
Definition has_type (t : insight_type) (i : AnalysisInsight) : bool :=
  match t, type i with
  | trend, trend | correlation, correlation | anomaly, anomaly
  | prediction, prediction | segment, segment => true
  | _, _ => false
  end.

(** The insights of [l] that are about [column]. *)
Definition about (column : string) (l : list AnalysisInsight) : list AnalysisInsight :=
  filter (fun i => match insight_column i with
                   | Some c => String.eqb c column
                   | None => false
                   end) l.

(** The insights of [l] that are about the pair [(col1, col2)]. *)
Definition about_pair (col1 col2 : string) (l : list AnalysisInsight)
  : list AnalysisInsight :=
  filter (fun i => match insight_pair i with
                   | Some (c1, c2) => String.eqb c1 col1 && String.eqb c2 col2
                   | None => false
                   end) l.

(** ** The least-squares line, as the specification writes it

    [slope = (n Sxy - Sx Sy) / (n Sxx - Sx^2)] and
    [intercept = (Sy - slope Sx) / n], each sum taken from the left starting
    at 0, over the indices [0, 1, 2, ...] of the series. *)
Module LeastSquares.

Local Open Scope float_scope.

Definition sum (l : list float) : float := fold_left PrimFloat.add l 0.

Fixpoint indices_from (i : nat) (n : nat) : list float :=
  match n with
  | O => []
  | S n' => Num.of_nat i :: indices_from (S i) n'
  end.

Definition indices (n : nat) : list float := indices_from 0 n.

Definition products (x y : list float) : list float :=
  map (fun p => fst p * snd p) (combine x y).

Definition slope (x y : list float) : float :=
  let n := Num.of_nat (length x) in
  (n * sum (products x y) - sum x * sum y) / (n * sum (products x x) - sum x * sum x).

Definition intercept (x y : list float) : float :=
  (sum y - slope x y * sum x) / Num.of_nat (length x).

Definition predicted (x y : list float) (xi : float) : float :=
  slope x y * xi + intercept x y.

Definition squares (l : list float) : list float := map (fun d => d * d) l.

Definition rSquared (x y : list float) : float :=
  let yMean := sum y / Num.of_nat (length y) in
  let ssRes := sum (squares (map (fun p => snd p - predicted x y (fst p)) (combine x y))) in
  let ssTot := sum (squares (map (fun yi => yi - yMean) y)) in
  1 - ssRes / ssTot.

End LeastSquares.

(** ** A series on a line with integer coefficients *)

(** The value at index [i] of the line of intercept [a] and slope [b]. *)
Definition line (a b : Z) (i : nat) : Z := (a + b * Z.of_nat i)%Z.

(** The first [n] points of that line, as the values of a series. *)
Definition line_values (a b : Z) (n : nat) : list float :=
  map (fun i => Num.of_Z (line a b i)) (seq 0 n).

(** The sum of [g 0], ..., [g (n - 1)]. *)
Fixpoint total (g : nat -> Z) (n : nat) : Z :=
  match n with
  | O => 0%Z
  | S k => (total g k + g k)%Z
  end.

(** ** The rows where both columns parse, as the specification reads them *)

Definition rows_where_both_parse (host : Host) (data : dataset) (col1 col2 : string)
  : list (float * float) :=
  filter (fun p => negb (is_nan (fst p)) && negb (is_nan (snd p)))
         (map (fun row => (parseFloat host (get row col1), parseFloat host (get row col2)))
              data).

(** ** [generateReportAnalysis] and the report generators *)

(** [data: any] of a report: an array of records, or anything else. *)
Inductive report_data : Type :=
| RecordArray (rows : dataset)
| NotAnArray (v : any).

(** The object literals the report generators return: an object whose
    properties hold text, a list of texts, or an object of one text or
    number. *)
Inductive report_value : Type :=
| RText (s : string)
| RNumber (n : float)
| RList (items : list string)
| RObject (key : string) (v : report_value).

Definition report : Type := list (string * report_value).

Module Report.

Local Open Scope string_scope.
Local Open Scope float_scope.

Definition calculateKeyMetrics (data : report_data) : report_value :=
  RObject "totalRecords"
    (RNumber match data with
                    | RecordArray rows => Num.of_nat (length rows)
                    | NotAnArray _ => 0
                    end).

Definition performDetailedStatistics (data : report_data) : report_value :=
  RObject "analysis" (RText "Detailed statistical findings").

Definition identifyAllTrends (data : report_data) : report_value :=
  RObject "trends" (RText "Identified trends").

Definition calculateDifferences (data : report_data) : report_value :=
  RObject "differences" (RText "Calculated differences").

Definition calculateCustomMetrics (data : report_data) : report_value :=
  RObject "customMetrics" (RText "Custom calculated metrics").

Definition generateExecutiveSummary (data : report_data) : report :=
  [("type", RText "Executive Summary");
           ("keyMetrics", calculateKeyMetrics data);
           ("insights", RList ["High-level insight 1"; "Key trend identified";
                               "Critical finding"]);
           ("recommendations", RList ["Action item 1"; "Strategic recommendation";
                                      "Next steps"])].

Definition generateDetailedAnalysis (data : report_data) : report :=
  [("type", RText "Detailed Analysis");
           ("methodology",
            RText "Statistical analysis with trend identification and correlation analysis");
           ("findings", performDetailedStatistics data);
           ("implications", RText "Detailed implications of the findings")].

Definition generateTrendReport (data : report_data) : report :=
  [("type", RText "Trend Report");
           ("timeframe", RText "Analysis period");
           ("trends", identifyAllTrends data);
           ("forecast", RText "Projected trends for next period")].

Definition generateComparisonReport (data : report_data) : report :=
  [("type", RText "Comparison Report");
           ("baseline", RText "Comparison baseline");
           ("differences", calculateDifferences data);
           ("significance", RText "Statistical significance of differences")].

Definition generateCustomReport (data : report_data) : report :=
  [("type", RText "Custom Report");
           ("sections", RList ["Custom analysis section 1"; "Custom analysis section 2"]);
           ("customMetrics", calculateCustomMetrics data)].

(** The [switch] compares with [===]. *)
Definition generateReportAnalysis (data : report_data) (reportType : string)
  : completion report :=
  if String.eqb reportType "Executive Summary" then Normal (generateExecutiveSummary data)
  else if String.eqb reportType "Detailed Analysis" then Normal (generateDetailedAnalysis data)
  else if String.eqb reportType "Trend Report" then Normal (generateTrendReport data)
  else if String.eqb reportType "Comparison Report" then Normal (generateComparisonReport data)
  else Normal (generateCustomReport data).

(** [report[key]]. *)
Fixpoint field (fields : report) (key : string) : option report_value :=
  match fields with
  | [] => None
  | (k, v) :: rest => if String.eqb k key then Some v else field rest key
  end.

Definition known : list string :=
  ["Executive Summary"; "Detailed Analysis"; "Trend Report"; "Comparison Report"].

End Report.

(** ** [DataIntegrator.parseCsvContent]

    What [AnalystAgent.analyzeCurrentFile] hands to [generateInsights] for a
    [.csv] file.  A String is the list of its code units, which the model
    takes below 256. *)
Module Csv.

Local Open Scope string_scope.

(** [s.split(sep)] for a separator of one character. *)
Fixpoint split (sep : ascii) (s : string) : list string :=
  match s with
  | EmptyString => [EmptyString]
  | String c rest =>
      if Ascii.eqb c sep then EmptyString :: split sep rest
      else match split sep rest with
           | [] => [String c EmptyString]
           | first :: others => String c first :: others
           end
  end.

(** White space and line terminators, as [trim] strips them: TAB, LF, VT,
    FF, CR, SP and NBSP among the code units below 256. *)
Definition is_white_space (c : ascii) : bool :=
  let n := nat_of_ascii c in
  ((9 <=? n)%nat && (n <=? 13)%nat) || (n =? 32)%nat || (n =? 160)%nat.

Fixpoint trimStart (s : string) : string :=
  match s with
  | EmptyString => EmptyString
  | String c rest => if is_white_space c then trimStart rest else s
  end.

Fixpoint trimEnd (s : string) : string :=
  match s with
  | EmptyString => EmptyString
  | String c rest =>
      match trimEnd rest with
      | EmptyString => if is_white_space c then EmptyString else String c EmptyString
      | kept => String c kept
      end
  end.

Definition trim (s : string) : string := trimEnd (trimStart s).

Definition quote : ascii := ascii_of_nat 34.
Definition comma : ascii := ascii_of_nat 44.
Definition line_feed : ascii := ascii_of_nat 10.

(** [s.replace(/\x22/g, '')]: every double quote is removed. *)
Fixpoint remove_quotes (s : string) : string :=
  match s with
  | EmptyString => EmptyString
  | String c rest =>
      if Ascii.eqb c quote then remove_quotes rest else String c (remove_quotes rest)
  end.

(** What a header or a cell goes through: [trim], then the removal of the
    double quotes. *)
Definition clean (s : string) : string := remove_quotes (trim s).

(** ** Property keys of an ordinary object *)

Definition digit_value (c : ascii) : option N :=
  let n := N_of_ascii c in
  if (48 <=? n)%N && (n <=? 57)%N then Some (n - 48)%N else None.

Fixpoint decimal_value (s : string) (acc : N) : option N :=
  match s with
  | EmptyString => Some acc
  | String c rest =>
      match digit_value c with
      | Some d => decimal_value rest (10 * acc + d)%N
      | None => None
      end
  end.

(** An array index: the canonical decimal text of an integer from 0 to
    [2^32 - 2]. *)
Definition array_index (key : string) : option N :=
  match key with
  | EmptyString => None
  | String c rest =>
      if Ascii.eqb c "0"%char && negb (String.eqb rest "") then None
      else if (10 <? String.length key)%nat then None
      else match decimal_value key 0 with
           | Some n => if (n <=? 4294967294)%N then Some n else None
           | None => None
           end
  end.

Fixpoint has_key (row : record) (key : string) : bool :=
  match row with
  | [] => false
  | (k, _) :: rest => String.eqb k key || has_key rest key
  end.

Fixpoint update (row : record) (key : string) (v : any) : record :=
  match row with
  | [] => []
  | (k, w) :: rest =>
      if String.eqb k key then (k, v) :: rest else (k, w) :: update rest key v
  end.

(** A new array index goes before the first key that is a larger array
    index or no array index. *)
Fixpoint insert_index (row : record) (n : N) (key : string) (v : any) : record :=
  match row with
  | [] => [(key, v)]
  | (k, w) :: rest =>
      match array_index k with
      | Some n' => if (n <? n')%N then (key, v) :: row
                   else (k, w) :: insert_index rest n key v
      | None => (key, v) :: row
      end
  end.

(** [row[key] = v] on an ordinary object, for a [v] that is no object.
    Assigning to [__proto__] calls the setter of [Object.prototype],
    which ignores such a value; an own property keeps its place; a new
    array index is listed among the array indices, in ascending order, and
    any other new key last. *)
Definition Object_set (row : record) (key : string) (v : any) : record :=
  if String.eqb key "__proto__" then row
  else if has_key row key then update row key v
  else match array_index key with
       | Some n => insert_index row n key v
       | None => (row ++ [(key, v)])%list
       end.

(** [headers.forEach((header, index) => { row[header] = values[index] || '' })]. *)
Fixpoint assign_from (headers : list string) (index : nat) (values : list string)
  (row : record) : record :=
  match headers with
  | [] => row
  | header :: rest =>
      assign_from rest (S index) values
                  (Object_set row header (VString (nth index values "")))
  end.

(** The body of the loop over the lines after the first. *)
Fixpoint read_lines (headers : list string) (lines : list string) (results : dataset)
  : dataset :=
  match lines with
  | [] => results
  | l :: rest =>
      let line := trim l in
      if negb (String.eqb line "") then
        let values := map clean (split comma line) in
        read_lines headers rest (results ++ [assign_from headers 0 values []])%list
      else read_lines headers rest results
  end.

(** The promise [parseCsvContent] returns: resolved with the records, or
    rejected. *)
Definition parseCsvContent (content : string) : completion dataset :=
  let lines := split line_feed content in
  if (length lines =? 0)%nat then Throw "Empty CSV content"
  else
    let headers := map clean (split comma (nth 0 lines "")) in
    Normal (read_lines headers (tl lines) []).

(** [s.includes(c)] for one character. *)
Fixpoint occurs (c : ascii) (s : string) : bool :=
  match s with
  | EmptyString => false
  | String c' rest => Ascii.eqb c' c || occurs c rest
  end.

(** A line that [if (line)] lets through. *)
Definition not_blank (l : string) : bool := negb (String.eqb (trim l) "").

(** The order in which an ordinary object lists its keys: the array
    indices in ascending order, then the other keys. *)
Definition index_le (a b : string) : Prop :=
  match array_index a, array_index b with
  | Some n, Some m => (n <= m)%N
  | _, _ => False
  end.

Definition ordinary_order (keys : list string) : Prop :=
  exists indices names,
    keys = (indices ++ names)%list /\
    Forall (fun k => array_index k <> None) indices /\
    StronglySorted index_le indices /\
    Forall (fun k => array_index k = None) names.

End Csv.

(** ** [DataIntegrator.cleanData]

    The array elements are records as above; a key [__proto__] of a source
    record is read as its own property, and assigning it to the record
    under construction creates no property. *)

Section Cleaning.

Variable host : Host.

Local Open Scope string_scope.

(** What the body of the loop over the keys makes of one cell: a String is
    trimmed; the empty String, [null] and [undefined] become [null]; a
    String that [Number] reads as a number becomes that Number. *)
Definition cleaned_value (value : any) : any :=
  let value := match value with
               | VString s => VString (Csv.trim s)
               | _ => value
               end in
  let value := match value with
               | VString s => if String.eqb s "" then VNull else value
               | VNull | VUndefined => VNull
               | _ => value
               end in
  match value with
  | VString s =>
      if negb (isNaN (Number_string host s)) && negb (String.eqb s "")
      then VNumber (Number_string host s)
      else value
  | _ => value
  end.

(** [Object.keys(row).forEach(key => { ...; cleanedRow[key] = value })]. *)
Definition cleaned_row (row : record) : record :=
  fold_left (fun cleanedRow key =>
               Csv.Object_set cleanedRow key (cleaned_value (get row key)))
            (Object_keys row) [].

Definition Object_values (row : record) : list any := map snd row.

(** [value !== null && value !== '']. *)
Definition not_empty (value : any) : bool :=
  match value with
  | VNull => false
  | VString s => negb (String.eqb s "")
  | _ => true
  end.

(** The promise [cleanData] returns, for an array of records or for a value
    that is no array. *)
Definition cleanData (data : report_data) : completion dataset :=
  match data with
  | NotAnArray _ => Throw "Data must be an array"
  | RecordArray rows =>
      Normal (filter (fun row => existsb not_empty (Object_values row))
                     (map cleaned_row rows))
  end.

(** [null], [undefined] and the Strings that hold white space only. *)
Definition blank (value : any) : bool :=
  match value with
  | VNull | VUndefined => true
  | VString s => String.eqb (Csv.trim s) ""
  | _ => false
  end.

(** A cell as [cleanData] leaves it. *)
Definition clean_cell (value : any) : Prop :=
  match value with
  | VUndefined => False
  | VNull | VBoolean _ | VNumber _ => True
  | VString s => s <> "" /\ Csv.trim s = s /\ isNaN (Number_string host s) = true
  end.

End Cleaning.

(* ================================================================== *)
(** * Datasets used below                                               *)
(* ================================================================== *)

Module Examples.

Local Open Scope string_scope.
Local Open Scope float_scope.

(** A record with a timestamp and one value. *)
Definition row (t v : float) : record := [("t", VNumber t); ("v", VNumber v)].

(** Ten days, the value growing by 10 a day. *)
Definition growing : dataset :=
  map (fun i => row (Num.of_nat i) (Num.of_nat (10 * i))) (seq 1 10).

(** Twelve days of small values and one outlier on day 7. *)
Definition with_outlier : dataset :=
  map (fun i => row (Num.of_nat i)
                    (if (i =? 7)%nat then 1000 else Num.of_nat (i mod 3)))
      (seq 1 12).

(** Six days, the value growing by a thousandth a day. *)
Definition creeping : dataset :=
  map (fun i => row (Num.of_nat i) (Num.of_nat i / 1000)) (seq 1 6).

(** Three days whose values are so large that their squares overflow. *)
Definition overflowing : dataset := [row 1 0; row 2 1e200; row 3 1e199].

(** Seven days of one 18-digit value. *)
Definition constant_column : dataset :=
  map (fun i => row (Num.of_nat i) 123456789012345678) (seq 1 7).

(** Five days, as [growing], under a header whose first cell is blank. *)
Definition blank_header : dataset :=
  map (fun i => [("", VNumber (Num.of_nat i)); ("v", VNumber (Num.of_nat (10 * i)))])
      (seq 1 5).

(** The same five days with the first column named. *)
Definition named_header : dataset :=
  map (fun i => [("t", VNumber (Num.of_nat i)); ("v", VNumber (Num.of_nat (10 * i)))])
      (seq 1 5).

(** Two columns with gaps on different rows. *)
Definition misaligned : dataset :=
  [ [("a", VNumber 1); ("b", VNumber 1)];
    [("a", VNull);     ("b", VNumber 9)];
    [("a", VNull);     ("b", VNumber 1)];
    [("a", VNumber 5); ("b", VNull)];
    [("a", VNumber 9); ("b", VNull)];
    [("a", VNumber 2); ("b", VNumber 2)];
    [("a", VNumber 3); ("b", VNumber 3)] ].

(** A single record whose only value is a finite Number beyond the range of
    time values. *)
Definition far_number : dataset := [ [("a", VNumber 1e16)] ].



(** A host whose [mean] throws on every sample. *)
Definition failing_mean : Host :=
  Build_Host Reference.parseFloat_string Reference.Number_string Reference.Date_parse
             Reference.sampleCorrelation (fun _ => Throw "mean failed")
             Reference.standardDeviation Reference.kmeans.

End Examples.

(* ================================================================== *)
(** * Part 4. Facts about Numbers                                       *)
(* ================================================================== *)

Module NumFacts.

Import Num.

(** ** Digits of a mantissa *)


Lemma digits2_size (p : positive) : digits2_pos p = Pos.size p.
Proof. induction p; simpl; congruence. Qed.

Lemma digits2_bounds (p : positive) :
  (2 ^ (Zpos (digits2_pos p) - 1) <= Zpos p < 2 ^ Zpos (digits2_pos p))%Z.
Proof.
  rewrite digits2_size.
  induction p as [p IH|p IH|]; cbn [Pos.size].
  - rewrite Pos2Z.inj_succ.
    replace (Z.succ (Zpos (Pos.size p)) - 1)%Z with (Z.succ (Zpos (Pos.size p) - 1))%Z by lia.
    rewrite !Z.pow_succ_r by lia. lia.
  - rewrite Pos2Z.inj_succ.
    replace (Z.succ (Zpos (Pos.size p)) - 1)%Z with (Z.succ (Zpos (Pos.size p) - 1))%Z by lia.
    rewrite !Z.pow_succ_r by lia. lia.
  - cbn. lia.
Qed.

Lemma valid_finite (s : bool) (m : positive) (e : Z) :
  valid_binary (S754_finite s m e) = true ->
  (-1074 <= e <= 971 /\ Zpos m < two53 /\ (-1074 < e -> 2 ^ 52 <= Zpos m))%Z.
Proof.
  cbn [SpecFloat.valid_binary]. unfold bounded, canonical_mantissa, fexp, SpecFloat.emin, prec, emax.
  intros H. apply andb_prop in H. destruct H as [H1 H2].
  apply Z.eqb_eq in H1. apply Z.leb_le in H2.
  pose proof (digits2_bounds m) as [Hlo Hhi].
  set (d := Zpos (digits2_pos m)) in *.
  assert (Hd : (0 < d)%Z) by (subst d; lia).
  assert (Hd53 : (d <= 53)%Z) by lia.
  split; [lia|]. split.
  - apply Z.lt_le_trans with (2 ^ d)%Z; [exact Hhi|].
    change two53 with (2 ^ 53)%Z.
    apply Z.pow_le_mono_r; lia.
  - intros He. assert (d = 53)%Z by lia. 
    replace 52%Z with (d - 1)%Z by lia. exact Hlo.
Qed.

Lemma compare_eq_intro (a b : Z) (c : comparison) :
  match c with Eq => a = b | Lt => (a < b)%Z | Gt => (a > b)%Z end ->
  c = (a ?= b)%Z.
Proof.
  destruct c; intros H; symmetry.
  - apply Z.compare_eq_iff; exact H.
  - exact H.
  - exact H.
Qed.

Lemma SFcompare_rank (x y : spec_float) :
  valid_binary x = true -> valid_binary y = true ->
  is_nan_sf x = false -> is_nan_sf y = false ->
  SFcompare x y = Some (rank x ?= rank y)%Z.
Proof.
  intros Vx Vy Nx Ny.
  destruct x as [sx|sx| |sx mx ex]; try discriminate;
  destruct y as [sy|sy| |sy my ey]; try discriminate;
  try (apply valid_finite in Vx; destruct Vx as (Ex & Mx & _));
  try (apply valid_finite in Vy; destruct Vy as (Ey & My & _));
  cbn [SFcompare rank]; cbv zeta; unfold TOP, two53 in *; f_equal.
  all: try destruct sx; try destruct sy; apply compare_eq_intro; cbv beta iota zeta; try lia.
  all: destruct (Z.compare_spec ex ey) as [E|E|E]; try lia; subst;
    fold (Pos.compare mx my); destruct (Pos.compare_spec mx my); cbn [CompOpp]; lia.
Qed.

(** ** Rounding keeps the sign and never makes a NaN *)

Lemma iter_pos_invariant {A : Type} (f : A -> A) (P : A -> Prop) :
  (forall a, P a -> P (f a)) -> forall n a, P a -> P (iter_pos f n a).
Proof.
  intros Hf n. induction n as [n IH|n IH|]; intros a Ha; cbn [iter_pos]; auto.
Qed.

Lemma shr_1_m (r : shr_record) : (0 <= shr_m r)%Z -> shr_m (shr_1 r) = (shr_m r / 2)%Z.
Proof.
  destruct r as [m r s]. cbn [shr_m]. intros Hm.
  destruct m as [|p|p]; [reflexivity| |lia].
  destruct p as [p|p|]; cbn [shr_1 shr_m].
  - change (Zpos p~1) with (2 * Zpos p + 1)%Z. apply Z.div_unique with 1%Z; lia.
  - change (Zpos p~0) with (2 * Zpos p)%Z. apply Z.div_unique with 0%Z; lia.
  - reflexivity.
Qed.

Lemma shr_1_nonneg (r : shr_record) : (0 <= shr_m r)%Z -> (0 <= shr_m (shr_1 r))%Z.
Proof.
  intros H. rewrite shr_1_m by exact H. apply Z.div_pos; lia.
Qed.

Lemma pow2_xO (p : positive) : (2 ^ Zpos p~0 = 2 ^ Zpos p * 2 ^ Zpos p)%Z.
Proof. change (Zpos p~0) with (2 * Zpos p)%Z. rewrite Z.pow_twice_r. reflexivity. Qed.

Lemma pow2_xI (p : positive) : (2 ^ Zpos p~1 = 2 * (2 ^ Zpos p * 2 ^ Zpos p))%Z.
Proof.
  change (Zpos p~1) with (2 * Zpos p + 1)%Z.
  rewrite Z.pow_add_r, Z.pow_twice_r by lia.
  change (2 ^ 1)%Z with 2%Z. lia.
Qed.

Lemma iter_shr_1_m (n : positive) (r : shr_record) :
  (0 <= shr_m r)%Z -> shr_m (iter_pos shr_1 n r) = (shr_m r / 2 ^ Zpos n)%Z.
Proof.
  revert r. induction n as [n IH|n IH|]; intros r Hr; cbn [iter_pos].
  - assert (H1 : (0 <= shr_m (shr_1 r))%Z) by (apply shr_1_nonneg; exact Hr).
    assert (H2 : (0 <= shr_m (iter_pos shr_1 n (shr_1 r)))%Z)
      by (apply iter_pos_invariant; [exact shr_1_nonneg | exact H1]).
    assert (Hp : (0 < 2 ^ Zpos n)%Z) by (apply Z.pow_pos_nonneg; lia).
    rewrite IH by exact H2. rewrite IH by exact H1. rewrite shr_1_m by exact Hr.
    rewrite !Z.div_div by lia. rewrite pow2_xI. f_equal; lia.
  - assert (H2 : (0 <= shr_m (iter_pos shr_1 n r))%Z)
      by (apply iter_pos_invariant; [exact shr_1_nonneg | exact Hr]).
    assert (Hp : (0 < 2 ^ Zpos n)%Z) by (apply Z.pow_pos_nonneg; lia).
    rewrite IH by exact H2. rewrite IH by exact Hr.
    rewrite !Z.div_div by lia. rewrite pow2_xO. reflexivity.
  - rewrite shr_1_m by exact Hr. reflexivity.
Qed.

Lemma shr_m_of_loc (m : Z) (l : location) : shr_m (shr_record_of_loc m l) = m.
Proof. destruct l as [|[]]; reflexivity. Qed.

(** What [shr] leaves of a non-negative mantissa. *)
Lemma shr_spec (r : shr_record) (e n : Z) :
  (0 <= shr_m r)%Z ->
  shr_m (fst (shr r e n)) = (shr_m r / 2 ^ Z.max 0 n)%Z /\
  snd (shr r e n) = (e + Z.max 0 n)%Z.
Proof.
  intros Hr. destruct n as [|p|p]; cbn [shr fst snd].
  - cbn. rewrite Z.div_1_r. split; [reflexivity | lia].
  - rewrite iter_shr_1_m by exact Hr. replace (Z.max 0 (Zpos p)) with (Zpos p) by lia.
    split; reflexivity.
  - cbn. rewrite Z.div_1_r. split; [reflexivity | lia].
Qed.

Lemma round_nearest_even_bounds (m : Z) (l : location) :
  (m <= round_nearest_even m l <= m + 1)%Z.
Proof.
  unfold round_nearest_even. destruct l as [|[]]; try lia.
  destruct (Z.even m); lia.
Qed.

Lemma binary_round_aux_signed (s : bool) (m e : Z) (l : location) :
  (0 <= m)%Z -> signed s (binary_round_aux prec emax s m e l).
Proof.
  intros Hm. unfold binary_round_aux, shr_fexp.
  set (r1 := shr_record_of_loc m l).
  assert (H1 : (0 <= shr_m r1)%Z) by (subst r1; rewrite shr_m_of_loc; exact Hm).
  set (n1 := (fexp prec emax (Zdigits2 m + e) - e)%Z).
  destruct (shr_spec r1 e n1 H1) as [M1 _].
  destruct (shr r1 e n1) as [mrs' e'] eqn:S1. cbn [fst] in M1.
  set (m' := round_nearest_even (shr_m mrs') (loc_of_shr_record mrs')).
  assert (Hm' : (0 <= m')%Z).
  { subst m'. pose proof (round_nearest_even_bounds (shr_m mrs') (loc_of_shr_record mrs')).
    assert (0 <= shr_m mrs')%Z by (rewrite M1; apply Z.div_pos; [exact H1 | apply Z.pow_pos_nonneg; lia]).
    lia. }
  set (r2 := shr_record_of_loc m' loc_Exact).
  assert (H2 : (0 <= shr_m r2)%Z) by (subst r2; cbn; exact Hm').
  set (n2 := (fexp prec emax (Zdigits2 m' + e') - e')%Z).
  destruct (shr_spec r2 e' n2 H2) as [M2 _].
  destruct (shr r2 e' n2) as [mrs'' e''] eqn:S2. cbn [fst] in M2.
  assert (0 <= shr_m mrs'')%Z by (rewrite M2; apply Z.div_pos; [exact H2 | apply Z.pow_pos_nonneg; lia]).
  destruct (shr_m mrs'') as [|p|p]; cbn [signed]; try reflexivity; [|lia].
  destruct (e'' <=? emax - prec)%Z; reflexivity.
Qed.

(** ** Rounding a positive mantissa at an exponent of the format *)

Lemma pow2_le_digits (m : positive) (k : Z) :
  (0 <= k)%Z -> (Zpos m <= 2 ^ k)%Z -> (Zpos (digits2_pos m) <= k + 1)%Z.
Proof.
  intros Hk Hm. pose proof (digits2_bounds m) as [Hlo _].
  destruct (Z_le_gt_dec (Zpos (digits2_pos m)) (k + 1)) as [|Hgt]; [assumption|exfalso].
  assert (2 ^ (k + 1) <= 2 ^ (Zpos (digits2_pos m) - 1))%Z by (apply Z.pow_le_mono_r; lia).
  rewrite Z.pow_add_r in H by lia. change (2 ^ 1)%Z with 2%Z in H.
  assert (0 < 2 ^ k)%Z by (apply Z.pow_pos_nonneg; lia). lia.
Qed.

(** The first shift of [binary_round_aux]: what is left of [m], where the
    exponent lands. *)
Lemma shr_fexp_pos (m : positive) (e : Z) (l : location) :
  (-1074 <= e)%Z ->
  let d := Zpos (digits2_pos m) in
  let k := Z.max 0 (fexp prec emax (d + e) - e) in
  let r := shr_fexp prec emax (Zpos m) e l in
  (0 < shr_m (fst r) /\ shr_m (fst r) < 2 ^ (d - k) /\ 0 <= d - k /\
   snd r = e + k /\ e + k = Z.max e (d + e - 53))%Z.
Proof.
  intros He d k r. subst r. unfold shr_fexp.
  assert (H0 : (0 <= shr_m (shr_record_of_loc (Zpos m) l))%Z) by (rewrite shr_m_of_loc; lia).
  destruct (shr_spec (shr_record_of_loc (Zpos m) l) e
              (fexp prec emax (Zdigits2 (Zpos m) + e) - e) H0) as [M E].
  cbn [Zdigits2] in M, E |- *. fold d in M, E |- *. fold k in M, E.
  rewrite M, E, shr_m_of_loc.
  pose proof (digits2_bounds m) as [Hlo Hhi]. fold d in Hlo, Hhi.
  assert (Hd : (0 < d)%Z) by (subst d; lia).
  assert (Hk : (k = Z.max 0 (d - 53))%Z).
  { subst k. unfold fexp, SpecFloat.emin, prec, emax. lia. }
  assert (Hp : (0 < 2 ^ k)%Z) by (apply Z.pow_pos_nonneg; lia).
  assert (Hsplit : (2 ^ d = 2 ^ k * 2 ^ (d - k))%Z).
  { rewrite <- Z.pow_add_r by lia. f_equal. lia. }
  repeat split; try lia.
  - apply Z.lt_le_trans with (2 ^ (d - k - 1))%Z; [apply Z.pow_pos_nonneg; lia|].
    apply Z.div_le_lower_bound; [exact Hp|].
    rewrite <- Z.pow_add_r by lia. replace (k + (d - k - 1))%Z with (d - 1)%Z by lia.
    exact Hlo.
  - apply Z.div_lt_upper_bound; [exact Hp|]. rewrite <- Hsplit. exact Hhi.
Qed.

(** A positive mantissa at an exponent of the format never rounds to zero;
    it stays finite while its magnitude is below [2^1023]. *)
Lemma binary_round_aux_strictly (s : bool) (m : positive) (e : Z) (l : location) :
  (-1074 <= e)%Z ->
  strictly s (binary_round_aux prec emax s (Zpos m) e l) /\
  ((e <= 971)%Z -> (Zpos (digits2_pos m) + e <= 1023)%Z ->
   exists m' e', binary_round_aux prec emax s (Zpos m) e l = S754_finite s m' e').
Proof.
  intros He. unfold binary_round_aux.
  pose proof (shr_fexp_pos m e l He) as H1. cbv zeta in H1.
  destruct (shr_fexp prec emax (Zpos m) e l) as [mrs' e'] eqn:S1. cbn [fst snd] in H1.
  destruct H1 as (P1 & U1 & K1 & E1 & E1').
  set (d := Zpos (digits2_pos m)) in *.
  set (k := Z.max 0 (fexp prec emax (d + e) - e)) in *.
  pose proof (round_nearest_even_bounds (shr_m mrs') (loc_of_shr_record mrs')) as Hr.
  destruct (round_nearest_even (shr_m mrs') (loc_of_shr_record mrs')) as [|m1|m1] eqn:R; try lia.
  assert (He' : (-1074 <= e')%Z) by lia.
  pose proof (shr_fexp_pos m1 e' loc_Exact He') as H2. cbv zeta in H2.
  destruct (shr_fexp prec emax (Zpos m1) e' loc_Exact) as [mrs'' e''] eqn:S2. cbn [fst snd] in H2.
  destruct H2 as (P2 & _ & _ & E2 & E2').
  assert (D1 : (Zpos (digits2_pos m1) <= d - k + 1)%Z) by (apply pow2_le_digits; lia).
  destruct (shr_m mrs'') as [|p|p]; try lia.
  split.
  - destruct (e'' <=? emax - prec)%Z; reflexivity.
  - intros Hle Hmag. unfold emax, prec.
    replace (e'' <=? 1024 - 53)%Z with true by (symmetry; apply Z.leb_le; lia).
    eauto.
Qed.

(** What [shr_fexp] leaves of a non-negative mantissa. *)
Lemma shr_fexp_quotient (m e : Z) (l : location) :
  (0 <= m)%Z ->
  let k := Z.max 0 (fexp prec emax (Zdigits2 m + e) - e) in
  shr_m (fst (shr_fexp prec emax m e l)) = (m / 2 ^ k)%Z /\
  snd (shr_fexp prec emax m e l) = (e + k)%Z.
Proof.
  intros Hm k. unfold shr_fexp.
  assert (H0 : (0 <= shr_m (shr_record_of_loc m l))%Z) by (rewrite shr_m_of_loc; lia).
  destruct (shr_spec (shr_record_of_loc m l) e (fexp prec emax (Zdigits2 m + e) - e) H0) as [M E].
  fold k in M, E. rewrite shr_m_of_loc in M. split; assumption.
Qed.

(** Rounding a mantissa that lies below a multiple [H] of the rounding step
    gives a zero, or a mantissa that is still no more than [H], at an
    exponent that is no smaller. *)
Lemma binary_round_aux_below (m : positive) (e : Z) (H : Z) :
  (e <= 971)%Z -> (Zpos (digits2_pos m) + e <= 1023)%Z ->
  (Zpos m < H)%Z ->
  (2 ^ Z.max 0 (fexp prec emax (Zpos (digits2_pos m) + e) - e) | H)%Z ->
  binary_round_aux prec emax false (Zpos m) e loc_Exact = S754_zero false \/
  exists m' e', binary_round_aux prec emax false (Zpos m) e loc_Exact
                = S754_finite false m' e' /\
                (e <= e')%Z /\ (Zpos m' * 2 ^ (e' - e) <= H)%Z.
Proof.
  intros Hle Hmag HH Hdiv. unfold binary_round_aux.
  destruct (shr_fexp_quotient (Zpos m) e loc_Exact ltac:(lia)) as [Q1 E1].
  cbv zeta in Q1, E1. cbn [Zdigits2] in Q1, E1.
  destruct (shr_fexp prec emax (Zpos m) e loc_Exact) as [mrs' e'] eqn:S1.
  cbn [fst snd] in Q1, E1.
  pose proof (digits2_bounds m) as [Dlo Dhi].
  set (d := Zpos (digits2_pos m)) in *.
  assert (Hd : (0 < d)%Z) by (subst d; lia).
  set (k := Z.max 0 (fexp prec emax (d + e) - e)) in *.
  assert (Ek : k = Z.max 0 (Z.max (d - 53) (-1074 - e))).
  { subst k. unfold fexp, SpecFloat.emin, prec, emax. lia. }
  assert (Hp : (0 < 2 ^ k)%Z) by (apply Z.pow_pos_nonneg; lia).
  assert (Hq : (0 <= shr_m mrs')%Z) by (rewrite Q1; apply Z.div_pos; lia).
  pose proof (round_nearest_even_bounds (shr_m mrs') (loc_of_shr_record mrs')) as Hr.
  assert (B1 : (round_nearest_even (shr_m mrs') (loc_of_shr_record mrs') * 2 ^ k <= H)%Z).
  { destruct Hdiv as [q Hq'].
    assert (shr_m mrs' * 2 ^ k <= Zpos m)%Z.
    { rewrite Q1. rewrite Z.mul_comm. apply Z.mul_div_le. exact Hp. }
    assert (shr_m mrs' < q)%Z by nia.
    nia. }
  assert (U1 : (round_nearest_even (shr_m mrs') (loc_of_shr_record mrs') <= 2 ^ Z.max 0 (d - k))%Z).
  { destruct (Z_le_gt_dec k d) as [Hkd|Hkd].
    - replace (Z.max 0 (d - k)) with (d - k)%Z by lia.
      assert (shr_m mrs' < 2 ^ (d - k))%Z.
      { rewrite Q1. apply Z.div_lt_upper_bound; [exact Hp|].
        rewrite <- Z.pow_add_r by lia. replace (k + (d - k))%Z with d by lia. exact Dhi. }
      lia.
    - replace (Z.max 0 (d - k)) with 0%Z by lia. change (2 ^ 0)%Z with 1%Z.
      assert (shr_m mrs' = 0)%Z.
      { rewrite Q1. apply Z.div_small. split; [lia|].
        apply Z.lt_le_trans with (2 ^ d)%Z; [exact Dhi | apply Z.pow_le_mono_r; lia]. }
      lia. }
  destruct (round_nearest_even (shr_m mrs') (loc_of_shr_record mrs')) as [|m1|m1] eqn:R; try lia.
  - left.
    destruct (shr_fexp_quotient 0 e' loc_Exact ltac:(lia)) as [Q2 _]. cbv zeta in Q2.
    destruct (shr_fexp prec emax 0 e' loc_Exact) as [mrs'' e''].
    cbn [fst] in Q2. rewrite Q2, Z.div_0_l; [reflexivity|].
    apply Z.pow_nonzero; lia.
  - right.
    assert (He' : (-1074 <= e')%Z) by lia.
    pose proof (shr_fexp_pos m1 e' loc_Exact He') as H2. cbv zeta in H2.
    destruct (shr_fexp_quotient (Zpos m1) e' loc_Exact ltac:(lia)) as [Q2 E2].
    cbv zeta in Q2, E2. cbn [Zdigits2] in Q2, E2.
    destruct (shr_fexp prec emax (Zpos m1) e' loc_Exact) as [mrs'' e''] eqn:S2.
    cbn [fst snd] in H2, Q2, E2.
    destruct H2 as (P2 & _ & _ & _ & E2').
    set (k2 := Z.max 0 (fexp prec emax (Zpos (digits2_pos m1) + e') - e')) in *.
    assert (Hp2 : (0 < 2 ^ k2)%Z) by (apply Z.pow_pos_nonneg; lia).
    assert (B2 : (shr_m mrs'' * 2 ^ k2 <= Zpos m1)%Z).
    { rewrite Q2. rewrite Z.mul_comm. apply Z.mul_div_le. exact Hp2. }
    assert (D1 : (Zpos (digits2_pos m1) <= Z.max 0 (d - k) + 1)%Z)
      by (apply pow2_le_digits; lia).
    destruct (shr_m mrs'') as [|p|p] eqn:Em; try lia.
    unfold emax, prec.
    replace (e'' <=? 1024 - 53)%Z with true by (symmetry; apply Z.leb_le; lia).
    exists p, e''. split; [reflexivity|]. split; [lia|].
    replace (e'' - e)%Z with (k2 + k)%Z by lia.
    rewrite Z.pow_add_r by lia. nia.
Qed.

Lemma iter_xO (m k : positive) : Zpos (Pos.iter xO m k) = (Zpos m * 2 ^ Zpos k)%Z.
Proof.
  revert m. induction k as [|k IH] using Pos.peano_ind; intros m.
  - cbn [Pos.iter]. change (2 ^ 1)%Z with 2%Z. lia.
  - rewrite Pos.iter_succ. change (Zpos (Pos.iter xO m k)~0) with (2 * Zpos (Pos.iter xO m k))%Z.
    rewrite IH. rewrite Pos2Z.inj_succ, Z.pow_succ_r by lia. lia.
Qed.

Lemma digits2_iter_xO (m k : positive) :
  Zpos (digits2_pos (Pos.iter xO m k)) = (Zpos (digits2_pos m) + Zpos k)%Z.
Proof.
  revert m. induction k as [|k IH] using Pos.peano_ind; intros m.
  - cbn [Pos.iter digits2_pos]. lia.
  - rewrite Pos.iter_succ. cbn [digits2_pos]. rewrite Pos2Z.inj_succ, IH. lia.
Qed.

(** [shl_align] keeps the value and the sum of digits and exponent, and
    lands on the smaller exponent. *)
Lemma shl_align_min (m : positive) (e e' : Z) :
  (snd (shl_align m e e') = Z.min e e' /\
   Zpos (fst (shl_align m e e')) = Zpos m * 2 ^ (e - Z.min e e') /\
   Zpos (digits2_pos (fst (shl_align m e e'))) + Z.min e e' = Zpos (digits2_pos m) + e)%Z.
Proof.
  unfold shl_align. destruct (e' - e)%Z as [|p|p] eqn:D; cbn [fst snd].
  - replace (Z.min e e') with e by lia. rewrite Z.sub_diag. cbn. lia.
  - replace (Z.min e e') with e by lia. rewrite Z.sub_diag. cbn. lia.
  - replace (Z.min e e') with e' by lia. replace (e - e')%Z with (Zpos p) by lia.
    rewrite iter_xO, digits2_iter_xO. lia.
Qed.

Lemma binary_round_strictly (s : bool) (m : positive) (e : Z) :
  (-1074 <= e)%Z ->
  strictly s (binary_round prec emax s m e) /\
  ((e <= 971)%Z -> (Zpos (digits2_pos m) + e <= 1023)%Z ->
   exists m' e', binary_round prec emax s m e = S754_finite s m' e').
Proof.
  intros He. unfold binary_round.
  pose proof (shl_align_min m e (fexp prec emax (Zpos (digits2_pos m) + e))) as (A1 & A2 & A3).
  destruct (shl_align m e (fexp prec emax (Zpos (digits2_pos m) + e))) as [mz ez].
  cbn [fst snd] in A1, A2, A3.
  assert (Hez : (-1074 <= ez)%Z).
  { rewrite A1. unfold fexp, SpecFloat.emin, prec, emax. lia. }
  destruct (binary_round_aux_strictly s mz ez loc_Exact Hez) as [S F].
  split; [exact S|]. intros Hle Hmag. apply F; lia.
Qed.

Lemma binary_normalize_sign (z e : Z) (szero : bool) :
  (-1074 <= e)%Z ->
  match z with
  | Z0 => binary_normalize prec emax z e szero = S754_zero szero
  | Zpos _ => strictly false (binary_normalize prec emax z e szero)
  | Zneg _ => strictly true (binary_normalize prec emax z e szero)
  end.
Proof.
  intros He. destruct z as [|p|p]; cbn [binary_normalize].
  - reflexivity.
  - apply binary_round_strictly; exact He.
  - apply binary_round_strictly; exact He.
Qed.

(** ** The sign of a difference *)

Lemma aligned_compare (sx sy : bool) (mx my : positive) (ex ey : Z) :
  valid_binary (S754_finite sx mx ex) = true ->
  valid_binary (S754_finite sy my ey) = true ->
  (aligned sx mx ex (Z.min ey ex) ?= aligned sy my ey (Z.min ey ex))%Z
  = (rank (S754_finite sx mx ex) ?= rank (S754_finite sy my ey))%Z.
Proof.
  intros Vx Vy.
  apply valid_finite in Vx. destruct Vx as (Ex & Mx & Nx).
  apply valid_finite in Vy. destruct Vy as (Ey & My & Ny).
  unfold aligned.
  destruct (shl_align_min mx ex (Z.min ey ex)) as (_ & Ax & _).
  destruct (shl_align_min my ey (Z.min ey ex)) as (_ & Ay & _).
  rewrite Ax, Ay. clear Ax Ay.
  replace (Z.min ex (Z.min ey ex)) with (Z.min ey ex) by lia.
  replace (Z.min ey (Z.min ey ex)) with (Z.min ey ex) by lia.
  cbn [rank]. cbv zeta. unfold two53 in *.
  set (X := (Zpos mx * 2 ^ (ex - Z.min ey ex))%Z).
  set (Y := (Zpos my * 2 ^ (ey - Z.min ey ex))%Z).
  assert (HX : (0 < X)%Z) by (subst X; apply Z.mul_pos_pos; [lia | apply Z.pow_pos_nonneg; lia]).
  assert (HY : (0 < Y)%Z) by (subst Y; apply Z.mul_pos_pos; [lia | apply Z.pow_pos_nonneg; lia]).
  assert (Hcmp : (X ?= Y)%Z
                 = ((ex + 1075) * 9007199254740992 + Zpos mx
                    ?= (ey + 1075) * 9007199254740992 + Zpos my)%Z).
  { destruct (Z.lt_trichotomy ex ey) as [L|[E|G]].
    - assert (X = Zpos mx) by (subst X; replace (ex - Z.min ey ex)%Z with 0%Z by lia; cbn; lia).
      assert (2 ^ 1 <= 2 ^ (ey - Z.min ey ex))%Z by (apply Z.pow_le_mono_r; lia).
      assert (2 ^ 52 <= Zpos my)%Z by (apply Ny; lia).
      assert (2 ^ 52 * 2 ^ 1 <= Y)%Z by (subst Y; apply Z.mul_le_mono_nonneg; lia).
      change (2 ^ 52 * 2 ^ 1)%Z with 9007199254740992%Z in *.
      transitivity Lt; [apply Z.compare_lt_iff | symmetry; apply Z.compare_lt_iff]; lia.
    - subst ey. subst X Y. replace (ex - Z.min ex ex)%Z with 0%Z by lia. cbn [Z.pow].
      rewrite !Z.mul_1_r. symmetry. apply Z.add_compare_mono_l.
    - assert (Y = Zpos my) by (subst Y; replace (ey - Z.min ey ex)%Z with 0%Z by lia; cbn; lia).
      assert (2 ^ 1 <= 2 ^ (ex - Z.min ey ex))%Z by (apply Z.pow_le_mono_r; lia).
      assert (2 ^ 52 <= Zpos mx)%Z by (apply Nx; lia).
      assert (2 ^ 52 * 2 ^ 1 <= X)%Z by (subst X; apply Z.mul_le_mono_nonneg; lia).
      change (2 ^ 52 * 2 ^ 1)%Z with 9007199254740992%Z in *.
      transitivity Gt; [apply Z.compare_gt_iff | symmetry; apply Z.compare_gt_iff]; lia. }
  destruct sx, sy; cbn [cond_Zopp].
  - rewrite !Z.compare_opp. rewrite (Z.compare_antisym X Y), Hcmp.
    rewrite <- Z.compare_antisym. reflexivity.
  - transitivity Lt; [apply Z.compare_lt_iff | symmetry; apply Z.compare_lt_iff]; lia.
  - transitivity Gt; [apply Z.compare_gt_iff | symmetry; apply Z.compare_gt_iff]; lia.
  - exact Hcmp.
Qed.

Lemma SFltb_zero_strictly (x : spec_float) (s : bool) :
  strictly s x -> SFltb (S754_zero false) x = negb s.
Proof.
  destruct x as [| s' | | s' m e]; cbn [strictly]; try contradiction;
    intros ->; destruct s; reflexivity.
Qed.

Lemma SFltb_rank (x y : spec_float) :
  valid_binary x = true -> valid_binary y = true ->
  is_nan_sf x = false -> is_nan_sf y = false ->
  SFltb x y = (rank x <? rank y)%Z.
Proof.
  intros. unfold SFltb, Z.ltb. rewrite SFcompare_rank by assumption. reflexivity.
Qed.

Lemma SFleb_rank (x y : spec_float) :
  valid_binary x = true -> valid_binary y = true ->
  is_nan_sf x = false -> is_nan_sf y = false ->
  SFleb x y = (rank x <=? rank y)%Z.
Proof.
  intros. unfold SFleb, Z.leb. rewrite SFcompare_rank by assumption.
  destruct (rank x ?= rank y)%Z; reflexivity.
Qed.

Lemma SFeqb_rank (x y : spec_float) :
  valid_binary x = true -> valid_binary y = true ->
  is_nan_sf x = false -> is_nan_sf y = false ->
  SFeqb x y = (rank x =? rank y)%Z.
Proof.
  intros. unfold SFeqb. rewrite SFcompare_rank by assumption.
  destruct (Z.compare_spec (rank x) (rank y)); symmetry;
    [apply Z.eqb_eq | apply Z.eqb_neq | apply Z.eqb_neq]; lia.
Qed.

(** The computed difference [y - x] is positive exactly when [x < y]:
    gradual underflow keeps a non-zero difference away from zero. *)
Lemma SFsub_positive (x y : spec_float) :
  valid_binary x = true -> valid_binary y = true ->
  is_nan_sf x = false -> is_nan_sf y = false ->
  SFltb (S754_zero false) (SF64sub y x) = SFltb x y.
Proof.
  intros Vx Vy Nx Ny. rewrite (SFltb_rank x y) by assumption.
  destruct x as [sx|sx| |sx mx ex]; try discriminate;
  destruct y as [sy|sy| |sy my ey]; try discriminate.
  1-8: try destruct sx; try destruct sy; cbn; try reflexivity;
       try (apply valid_finite in Vx; destruct Vx as (Ex & Mx & _));
       try (apply valid_finite in Vy; destruct Vy as (Ey & My & _));
       unfold two53, TOP in *; symmetry;
       first [apply Z.ltb_lt | apply Z.ltb_ge]; lia.
  unfold SF64sub. cbn [SFsub]. cbv zeta.
  fold (aligned sy my ey (Z.min ey ex)). fold (aligned sx mx ex (Z.min ey ex)).
  pose proof (aligned_compare sx sy mx my ex ey Vx Vy) as C.
  pose proof (valid_finite _ _ _ Vx) as (Ex & _).
  pose proof (valid_finite _ _ _ Vy) as (Ey & _).
  assert (Hz : (-1074 <= Z.min ey ex)%Z) by lia.
  pose proof (binary_normalize_sign
                (aligned sy my ey (Z.min ey ex) - aligned sx mx ex (Z.min ey ex))
                (Z.min ey ex) false Hz) as B.
  unfold Z.ltb. rewrite <- C.
  destruct (Z.compare_spec (aligned sx mx ex (Z.min ey ex)) (aligned sy my ey (Z.min ey ex)))
    as [E|L|G].
  - rewrite E, Z.sub_diag in *. rewrite B. reflexivity.
  - destruct (aligned sy my ey (Z.min ey ex) - aligned sx mx ex (Z.min ey ex))%Z eqn:D; try lia.
    rewrite (SFltb_zero_strictly _ false B). reflexivity.
  - destruct (aligned sy my ey (Z.min ey ex) - aligned sx mx ex (Z.min ey ex))%Z eqn:D; try lia.
    rewrite (SFltb_zero_strictly _ true B). reflexivity.
Qed.

(** ** Products and quotients of non-negative Numbers *)

Lemma strictly_signed (s : bool) (x : spec_float) : strictly s x -> signed s x.
Proof. destruct x; cbn; tauto. Qed.

Lemma signed_nonneg (x : spec_float) :
  signed false x -> SFleb (S754_zero false) x = true.
Proof. destruct x as [s|s| |s m e]; cbn; try contradiction; intros ->; reflexivity. Qed.

Lemma nonneg_leb (x : spec_float) : nonneg x <-> SFleb (S754_zero false) x = true.
Proof.
  destruct x as [s|s| |s m e]; cbn; try destruct s; cbn; intuition discriminate.
Qed.

Lemma positive_ltb (x : spec_float) : strictly false x <-> SFltb (S754_zero false) x = true.
Proof.
  destruct x as [s|s| |s m e]; cbn; try destruct s; cbn; intuition discriminate.
Qed.

Lemma signed_false_nonneg (x : spec_float) : signed false x -> nonneg x.
Proof. destruct x as [s|s| |s m e]; cbn; try contradiction; intros ->; exact I. Qed.

Lemma SFmul_positive (x y : spec_float) :
  strictly false x -> strictly false y -> nonneg (SF64mul x y).
Proof.
  destruct x as [sx|sx| |sx mx ex]; cbn [strictly]; try contradiction; intros ->;
  destruct y as [sy|sy| |sy my ey]; cbn [strictly]; try contradiction; intros ->;
  unfold SF64mul; cbn [SFmul xorb nonneg]; try exact I.
  apply signed_false_nonneg. apply binary_round_aux_signed. lia.
Qed.

Lemma SFmul_nonneg_finite (x : spec_float) (my : positive) (ey : Z) :
  nonneg x -> nonneg (SF64mul x (S754_finite false my ey)).
Proof.
  destruct x as [sx|sx| |sx mx ex]; try destruct sx; cbn [nonneg]; try contradiction; intros _;
  unfold SF64mul; cbn [SFmul xorb nonneg]; try exact I.
  apply signed_false_nonneg. apply binary_round_aux_signed. lia.
Qed.

(** A positive number below 1, times 100, is at most 100: the product
    lies below 100, which the format holds, so its rounding does not pass
    100. *)
Lemma SFmul_100_below_100 (mx : positive) (ex : Z) :
  valid_binary (S754_finite false mx ex) = true -> (ex <= -53)%Z ->
  valid_binary (SF64mul (S754_finite false mx ex) hundred) = true ->
  SFleb (SF64mul (S754_finite false mx ex) hundred) hundred = true.
Proof.
  intros Vx Hex Vr.
  apply valid_finite in Vx. destruct Vx as (Ex & Mx & _). unfold two53 in Mx.
  unfold SF64mul, hundred in *. cbn [SFmul xorb] in *.
  set (P := (mx * 7036874417766400)%positive) in *.
  set (E := (ex + -46)%Z) in *.
  set (H := (7036874417766400 * 2 ^ (- ex))%Z).
  assert (Hpos : (0 < 2 ^ (- ex))%Z) by (apply Z.pow_pos_nonneg; lia).
  assert (Hpow : (2 ^ 53 <= 2 ^ (- ex))%Z) by (apply Z.pow_le_mono_r; lia).
  change (2 ^ 53)%Z with 9007199254740992%Z in Hpow.
  assert (HP : (Zpos P < H)%Z).
  { subst P H. rewrite Pos2Z.inj_mul. nia. }
  pose proof (digits2_bounds P) as [Dlo Dhi].
  set (d := Zpos (digits2_pos P)) in *.
  assert (Hd0 : (0 < d)%Z) by (subst d; lia).
  assert (HdE : (d <= 53 - ex)%Z).
  { destruct (Z_le_gt_dec d (53 - ex)) as [|G]; [assumption|exfalso].
    assert (2 ^ (53 - ex) <= 2 ^ (d - 1))%Z by (apply Z.pow_le_mono_r; lia).
    assert (H < 2 ^ (53 - ex))%Z.
    { subst H. replace (53 - ex)%Z with (53 + - ex)%Z by lia.
      rewrite Z.pow_add_r by lia. change (2 ^ 53)%Z with 9007199254740992%Z. nia. }
    lia. }
  set (k := Z.max 0 (fexp prec emax (d + E) - E)).
  assert (Ek : (0 <= k <= 48 - ex)%Z).
  { subst k E. unfold fexp, SpecFloat.emin, prec, emax. lia. }
  assert (Hdiv : (2 ^ k | H)%Z).
  { exists (25 * 2 ^ (48 - ex - k))%Z. subst H.
    change 7036874417766400%Z with (25 * 2 ^ 48)%Z.
    rewrite <- !Z.mul_assoc, <- !Z.pow_add_r by lia. do 2 f_equal. lia. }
  assert (HE2 : (E <= 971)%Z) by (subst E; lia).
  assert (HE3 : (d + E <= 1023)%Z) by (subst E; lia).
  destruct (binary_round_aux_below P E H HE2 HE3 HP Hdiv) as [R | (m' & e' & R & Le & Val)];
    rewrite R in *; [reflexivity|].
  pose proof Vr as Vr'.
  apply valid_finite in Vr. destruct Vr as (Er & Mr & Nr). unfold two53 in Mr.
  rewrite SFleb_rank; try reflexivity; try assumption.
  cbn [rank]. cbv zeta. unfold two53. apply Z.leb_le.
  destruct (Z_le_gt_dec e' (-47)) as [Llow|Lhigh]; [lia|].
  assert (Hshift : (2 ^ (e' - E) = 2 ^ (e' + 46) * 2 ^ (- ex))%Z).
  { rewrite <- Z.pow_add_r by lia. f_equal. subst E. lia. }
  rewrite Hshift in Val.
  assert (Hm : (Zpos m' * 2 ^ (e' + 46) <= 7036874417766400)%Z) by (subst H; nia).
  destruct (Z.eq_dec e' (-46)) as [->|Hne].
  - cbn in Hm. lia.
  - exfalso. assert (2 ^ 1 <= 2 ^ (e' + 46))%Z by (apply Z.pow_le_mono_r; lia).
    assert (2 ^ 52 <= Zpos m')%Z by (apply Nr; lia).
    change (2 ^ 1)%Z with 2%Z in *. change (2 ^ 52)%Z with 4503599627370496%Z in *. nia.
Qed.

Lemma SFdiv_core_nonneg (m1 m2 : positive) (e1 e2 : Z) :
  (0 <= fst (fst (SFdiv_core_binary prec emax (Zpos m1) e1 (Zpos m2) e2)))%Z.
Proof.
  unfold SFdiv_core_binary.
  set (s := (e1 - e2 - _)%Z).
  set (m' := match s with Zpos _ => Z.shiftl (Zpos m1) s | Z0 => Zpos m1 | Zneg _ => 0%Z end).
  assert (Hm' : (0 <= m')%Z).
  { subst m'. destruct s; try lia. apply Z.shiftl_nonneg. lia. }
  pose proof (Z.div_pos m' (Zpos m2) Hm' ltac:(lia)) as Hq.
  unfold Z.div in Hq. destruct (Z.div_eucl m' (Zpos m2)) as [q r]. exact Hq.
Qed.

Lemma SFdiv_nonneg_finite (x : spec_float) (my : positive) (ey : Z) :
  nonneg x -> nonneg (SF64div x (S754_finite false my ey)).
Proof.
  destruct x as [sx|sx| |sx mx ex]; try destruct sx; cbn [nonneg]; try contradiction; intros _;
  unfold SF64div; cbn [SFdiv xorb nonneg]; try exact I.
  pose proof (SFdiv_core_nonneg mx my ex ey) as H.
  destruct (SFdiv_core_binary prec emax (Zpos mx) ex (Zpos my) ey) as [[mz ez] lz].
  cbn [fst] in H. apply signed_false_nonneg. apply binary_round_aux_signed. exact H.
Qed.

Lemma SFadd_zero_not_nan (x : spec_float) :
  is_nan_sf x = false -> is_nan_sf (SF64add x (S754_zero false)) = false.
Proof. destruct x as [s|s| |s m e]; try destruct s; cbn; congruence. Qed.

Lemma rank_bounds (x : spec_float) :
  valid_binary x = true -> (- TOP <= rank x <= TOP)%Z.
Proof.
  destruct x as [s|s| |s m e]; intros V; cbn [rank]; unfold TOP; try destruct s; try lia.
  all: apply valid_finite in V; destruct V as (E & M & _); cbv zeta; unfold two53 in *; lia.
Qed.

Lemma rank_infinity (x : spec_float) :
  valid_binary x = true -> is_nan_sf x = false -> (TOP <= rank x)%Z -> x = S754_infinity false.
Proof.
  destruct x as [s|s| |s m e]; intros V N; cbn [rank]; unfold TOP; try destruct s; try lia;
    try discriminate; try reflexivity.
  all: apply valid_finite in V; destruct V as (E & M & _); cbv zeta; unfold two53 in *; lia.
Qed.

(** ** On primitive floats *)

Local Open Scope float_scope.

Lemma is_nan_spec (x : float) : is_nan x = is_nan_sf (Prim2SF x).
Proof.
  unfold is_nan. rewrite eqb_spec. unfold SFeqb.
  destruct (Prim2SF x) as [s|s| |s m e]; cbn; try destruct s; try reflexivity.
  all: rewrite Z.compare_refl, Pos.compare_cont_refl; reflexivity.
Qed.

Lemma ltb_frank (x y : float) :
  is_nan x = false -> is_nan y = false -> (x <? y) = (frank x <? frank y)%Z.
Proof.
  intros Nx Ny. rewrite is_nan_spec in Nx, Ny. rewrite ltb_spec.
  apply SFltb_rank; auto using Prim2SF_valid.
Qed.

Lemma leb_frank (x y : float) :
  is_nan x = false -> is_nan y = false -> (x <=? y) = (frank x <=? frank y)%Z.
Proof.
  intros Nx Ny. rewrite is_nan_spec in Nx, Ny. rewrite leb_spec.
  apply SFleb_rank; auto using Prim2SF_valid.
Qed.

Lemma eqb_frank (x y : float) :
  is_nan x = false -> is_nan y = false -> (x =? y) = (frank x =? frank y)%Z.
Proof.
  intros Nx Ny. rewrite is_nan_spec in Nx, Ny. rewrite eqb_spec.
  apply SFeqb_rank; auto using Prim2SF_valid.
Qed.

Lemma ltb_not_nan (x y : float) : (x <? y) = true -> is_nan x = false /\ is_nan y = false.
Proof.
  rewrite ltb_spec, !is_nan_spec. unfold SFltb.
  destruct (Prim2SF x), (Prim2SF y); cbn; intuition discriminate.
Qed.

Lemma leb_not_nan (x y : float) : (x <=? y) = true -> is_nan x = false /\ is_nan y = false.
Proof.
  rewrite leb_spec, !is_nan_spec. unfold SFleb.
  destruct (Prim2SF x), (Prim2SF y); cbn; intuition discriminate.
Qed.

Lemma eqb_not_nan (x y : float) : (x =? y) = true -> is_nan x = false /\ is_nan y = false.
Proof.
  rewrite eqb_spec, !is_nan_spec. unfold SFeqb.
  destruct (Prim2SF x), (Prim2SF y); cbn; intuition discriminate.
Qed.

(** [b - a > 0] exactly when [a < b], for Numbers that are not [NaN]. *)
Lemma sub_positive (a b : float) :
  is_nan a = false -> is_nan b = false -> (0 <? b - a) = (a <? b).
Proof.
  intros Na Nb. rewrite is_nan_spec in Na, Nb.
  rewrite !ltb_spec, sub_spec.
  change (Prim2SF 0) with (S754_zero false).
  apply SFsub_positive; auto using Prim2SF_valid.
Qed.

Lemma frank_bounds (x : float) : (- TOP <= frank x <= TOP)%Z.
Proof. apply rank_bounds, Prim2SF_valid. Qed.

Lemma mul_positive (a b : float) :
  (0 <? a) = true -> (0 <? b) = true -> (0 <=? a * b) = true.
Proof.
  rewrite !ltb_spec, leb_spec, mul_spec. change (Prim2SF 0) with (S754_zero false).
  intros Ha Hb. apply nonneg_leb. apply SFmul_positive; apply positive_ltb; assumption.
Qed.

Lemma mul_nonneg_finite (a b : float) :
  (0 <=? a) = true -> finite_positive b -> (0 <=? a * b) = true.
Proof.
  rewrite !leb_spec, mul_spec. change (Prim2SF 0) with (S754_zero false).
  intros Ha (m & e & Hb). rewrite Hb. apply nonneg_leb. apply SFmul_nonneg_finite.
  apply nonneg_leb. exact Ha.
Qed.

(** A number between 0 and 1, times 100, is at most 100. *)
Lemma percent_at_most_100 (a : float) :
  (0 <=? a) = true -> (a <=? 1) = true -> (a * 100 <=? 100) = true.
Proof.
  intros H0 H1.
  pose proof (Prim2SF_valid a) as Va. pose proof (Prim2SF_valid (a * 100)) as Vr.
  rewrite leb_spec in H0, H1 |- *. rewrite mul_spec in Vr |- *.
  change (Prim2SF 0) with (S754_zero false) in H0.
  change (Prim2SF 1) with (S754_finite false 4503599627370496 (-52)) in H1.
  change (Prim2SF 100) with hundred in *.
  destruct (Prim2SF a) as [s|s| |s m e]; try destruct s; try discriminate; try reflexivity.
  rewrite SFleb_rank in H1 by (assumption || reflexivity).
  apply Z.leb_le in H1. cbn [rank] in H1. cbv zeta in H1. unfold two53 in H1.
  pose proof (valid_finite _ _ _ Va) as (Ee & Mm & Nn). unfold two53 in Mm.
  destruct (Z_le_gt_dec e (-53)) as [Hl|Hg].
  - apply SFmul_100_below_100; assumption.
  - assert (e = (-52)%Z) by lia. subst e.
    assert (Zpos m = 4503599627370496%Z).
    { assert (2 ^ 52 <= Zpos m)%Z by (apply Nn; lia).
      change (2 ^ 52)%Z with 4503599627370496%Z in *. lia. }
    assert (m = 4503599627370496%positive) by lia. subst m. vm_compute. reflexivity.
Qed.

Lemma div_nonneg_finite (a b : float) :
  (0 <=? a) = true -> finite_positive b -> (0 <=? a / b) = true.
Proof.
  rewrite !leb_spec, div_spec. change (Prim2SF 0) with (S754_zero false).
  intros Ha (m & e & Hb). rewrite Hb. apply nonneg_leb. apply SFdiv_nonneg_finite.
  apply nonneg_leb. exact Ha.
Qed.

Lemma of_uint63_cases (n : PrimInt63.int) :
  Prim2SF (of_uint63 n) = S754_zero false \/ finite_positive (of_uint63 n).
Proof.
  unfold finite_positive. rewrite of_uint63_spec.
  pose proof (Uint63.to_Z_bounded n) as B.
  destruct (Uint63Axioms.to_Z n) as [|p|p] eqn:E; [left; reflexivity | right | lia].
  cbn [binary_normalize].
  assert (He : (-1074 <= 0)%Z) by lia.
  destruct (binary_round_strictly false p 0 He) as [_ F]. apply F; [lia|].
  assert (Zpos (digits2_pos p) <= 63 + 1)%Z; [|lia].
  apply pow2_le_digits; [lia|]. change Uint63.wB with (2 ^ 63)%Z in B. lia.
Qed.

(** ** [Math.min], integers and time values *)

Lemma is_nan_nan : is_nan nan = true.
Proof. reflexivity. Qed.

Lemma leb_refl (x : float) : is_nan x = false -> (x <=? x) = true.
Proof. intros N. rewrite leb_frank by assumption. apply Z.leb_refl. Qed.

(** [Math.min]: [NaN] as soon as an argument is; otherwise a lower bound of
    both arguments that is one of them up to the sign of a zero. *)
Lemma Math_min_nan (a b : float) :
  is_nan a = true \/ is_nan b = true -> is_nan (Math_min a b) = true.
Proof.
  unfold Math_min. cbn [Math_min_from].
  destruct (is_nan a) eqn:Na; [reflexivity|].
  intros [H|Nb]; [discriminate|]. rewrite Nb.
  destruct (is_neg_zero a && is_pos_zero infinity); [reflexivity|].
  destruct (a <? infinity); reflexivity.
Qed.

Lemma is_zero_frank (x : float) : is_zero x = true -> is_nan x = false /\ frank x = 0%Z.
Proof.
  unfold is_zero. intros H. destruct (eqb_not_nan _ _ H) as [Nx Nz].
  split; [exact Nx|]. rewrite eqb_frank in H by assumption.
  apply Z.eqb_eq in H. exact H.
Qed.

Lemma Math_min_unfold (a b : float) :
  Math_min a b =
  if is_nan a then nan
  else if a <? infinity then Math_min_from a [b] else Math_min_from infinity [b].
Proof.
  unfold Math_min. cbn [Math_min_from].
  replace (is_pos_zero infinity) with false by reflexivity. rewrite andb_false_r.
  reflexivity.
Qed.

Lemma Math_min_from_one (lowest b : float) :
  is_nan lowest = false -> is_nan b = false ->
  is_nan (Math_min_from lowest [b]) = false /\
  frank (Math_min_from lowest [b]) = Z.min (frank lowest) (frank b).
Proof.
  intros Nl Nb. cbn [Math_min_from]. rewrite Nb.
  destruct (is_neg_zero b && is_pos_zero lowest) eqn:Z.
  - apply andb_prop in Z. destruct Z as [Zb Zl].
    unfold is_neg_zero in Zb. unfold is_pos_zero in Zl.
    apply andb_prop in Zb. apply andb_prop in Zl.
    destruct (is_zero_frank b (proj1 Zb)) as [_ Fb].
    destruct (is_zero_frank lowest (proj1 Zl)) as [_ Fl'].
    split; [reflexivity|]. change (frank neg_zero) with 0%Z. lia.
  - destruct (b <? lowest) eqn:L; rewrite ltb_frank in L by assumption.
    + apply Z.ltb_lt in L. split; [assumption | lia].
    + apply Z.ltb_ge in L. split; [assumption | lia].
Qed.

Lemma Math_min_spec (a b : float) :
  is_nan a = false -> is_nan b = false ->
  is_nan (Math_min a b) = false /\
  (frank (Math_min a b) = Z.min (frank a) (frank b)).
Proof.
  intros Na Nb. rewrite Math_min_unfold, Na.
  assert (Ninf : is_nan infinity = false) by reflexivity.
  assert (Finf : frank infinity = TOP) by reflexivity.
  pose proof (frank_bounds a) as Ba. pose proof (frank_bounds b) as Bb.
  destruct (a <? infinity) eqn:L.
  - apply Math_min_from_one; assumption.
  - rewrite ltb_frank in L by assumption. apply Z.ltb_ge in L.
    destruct (Math_min_from_one infinity b Ninf Nb) as [N F].
    split; [exact N|]. rewrite F. lia.
Qed.

Lemma Math_min_bounds (a c : float) :
  is_nan a = false -> is_nan c = false ->
  (Math_min a c <=? c) = true /\
  ((0 <=? a) = true -> (0 <=? c) = true -> (0 <=? Math_min a c) = true).
Proof.
  intros Na Nc. destruct (Math_min_spec a c Na Nc) as [Nm Fm].
  assert (N0 : is_nan 0 = false) by reflexivity.
  split.
  - rewrite leb_frank by assumption. apply Z.leb_le. lia.
  - intros Ha Hc. rewrite leb_frank in * by assumption.
    apply Z.leb_le in Ha, Hc. apply Z.leb_le. lia.
Qed.

(** ** Integers as Numbers *)

Lemma of_nat_cases (n : nat) :
  (Z.of_nat n < 2 ^ 63)%Z ->
  (n = 0%nat /\ Prim2SF (of_nat n) = S754_zero false) \/
  ((0 < n)%nat /\ finite_positive (of_nat n)).
Proof.
  intros Hn. unfold of_nat.
  destruct n as [|n].
  - left. split; reflexivity.
  - right. split; [lia|].
    unfold finite_positive. rewrite of_uint63_spec.
    rewrite Uint63.of_Z_spec. rewrite Z.mod_small by (change Uint63.wB with (2 ^ 63)%Z; lia).
    destruct (Z.of_nat (S n)) as [|p|p] eqn:E; try lia.
    cbn [binary_normalize].
    assert (He : (-1074 <= 0)%Z) by lia.
    destruct (binary_round_strictly false p 0 He) as [_ F]. apply F; [lia|].
    assert (Zpos (digits2_pos p) <= 63 + 1)%Z; [|lia].
    apply pow2_le_digits; lia.
Qed.

Lemma of_nat_nonneg (n : nat) : (Z.of_nat n < 2 ^ 63)%Z -> (0 <=? of_nat n) = true.
Proof.
  intros Hn. rewrite leb_spec. change (Prim2SF 0) with (S754_zero false).
  apply nonneg_leb.
  destruct (of_nat_cases n Hn) as [[_ ->]|[_ (m & e & ->)]]; exact I.
Qed.

(** [count / total * 500], capped: what [detectAnomalies] reports. *)
Lemma ratio_confidence_bounds (count total : nat) (scale cap : float) :
  (0 < total)%nat -> (Z.of_nat count < 2 ^ 63)%Z -> (Z.of_nat total < 2 ^ 63)%Z ->
  finite_positive scale -> (0 <=? cap) = true ->
  let c := Math_min (of_nat count / of_nat total * scale) cap in
  (0 <=? c) = true /\ (c <=? cap) = true.
Proof.
  intros Ht Hc Hn Hs Hcap c.
  assert (Hq : (0 <=? of_nat count / of_nat total) = true).
  { apply div_nonneg_finite; [apply of_nat_nonneg; exact Hc|].
    destruct (of_nat_cases total Hn) as [[-> _]|[_ F]]; [lia | exact F]. }
  assert (Hp : (0 <=? of_nat count / of_nat total * scale) = true)
    by (apply mul_nonneg_finite; assumption).
  destruct (leb_not_nan _ _ Hp) as [_ Np]. destruct (leb_not_nan _ _ Hcap) as [_ Ncap].
  destruct (Math_min_bounds _ cap Np Ncap) as [U L].
  subst c. split; [apply L; assumption | exact U].
Qed.

(** A product of a Number above a positive threshold with a positive
    constant, capped. *)
Lemma scaled_confidence_bounds (x threshold scale cap : float) :
  (0 <=? threshold) = true -> (threshold <? x) = true ->
  (0 <? scale) = true -> (0 <=? cap) = true ->
  let c := Math_min (x * scale) cap in
  (0 <=? c) = true /\ (c <=? cap) = true.
Proof.
  intros Ht Hx Hs Hcap c.
  assert (H0x : (0 <? x) = true).
  { destruct (ltb_not_nan _ _ Hx) as [Nt Nx]. destruct (leb_not_nan _ _ Ht) as [N0 _].
    rewrite ltb_frank in * by assumption. rewrite leb_frank in Ht by assumption.
    apply Z.ltb_lt. apply Z.ltb_lt in Hx. apply Z.leb_le in Ht. lia. }
  assert (Hp : (0 <=? x * scale) = true) by (apply mul_positive; assumption).
  destruct (leb_not_nan _ _ Hp) as [_ Np]. destruct (leb_not_nan _ _ Hcap) as [_ Ncap].
  destruct (Math_min_bounds _ cap Np Ncap) as [U L].
  subst c. split; [apply L; assumption | exact U].
Qed.

Lemma abs_not_nan (x : float) : is_nan (abs x) = is_nan x.
Proof. rewrite !is_nan_spec, abs_spec. destruct (Prim2SF x); reflexivity. Qed.

Lemma opp_not_nan (x : float) : is_nan (- x) = is_nan x.
Proof. rewrite !is_nan_spec, opp_spec. destruct (Prim2SF x); reflexivity. Qed.

Lemma add_zero_not_nan (x : float) : is_nan x = false -> is_nan (x + 0) = false.
Proof.
  rewrite !is_nan_spec, add_spec. change (Prim2SF 0) with (S754_zero false).
  apply SFadd_zero_not_nan.
Qed.

Lemma of_uint63_not_nan (n : PrimInt63.int) : is_nan (of_uint63 n) = false.
Proof.
  rewrite is_nan_spec.
  destruct (of_uint63_cases n) as [->|(m & e & ->)]; reflexivity.
Qed.

Lemma of_Z_not_nan (z : Z) : is_nan (of_Z z) = false.
Proof.
  destruct z; cbn [of_Z]; [reflexivity | apply of_uint63_not_nan |].
  rewrite opp_not_nan. apply of_uint63_not_nan.
Qed.

Lemma truncate_not_nan (x : float) : is_nan x = false -> is_nan (truncate x) = false.
Proof.
  intros N. unfold truncate.
  destruct (Prim2SF x) as [s|s| |s m e]; try exact N.
  destruct (0 <=? e)%Z; [exact N | apply of_Z_not_nan].
Qed.

Lemma is_finite_not_nan (x : float) : is_finite x = true -> is_nan x = false.
Proof.
  unfold is_finite. intros H. apply negb_true_iff in H.
  apply orb_false_elim in H. tauto.
Qed.

(** A finite Number within the range of time values makes a valid [Date]. *)
Lemma TimeClip_valid (t : float) :
  is_finite t = true -> (abs t <=? msPerDayLimit) = true -> is_nan (TimeClip t) = false.
Proof.
  intros F L. unfold TimeClip. rewrite F. cbn [negb].
  destruct (leb_not_nan _ _ L) as [Na Nl].
  replace (msPerDayLimit <? abs t) with false.
  - apply add_zero_not_nan, truncate_not_nan, is_finite_not_nan. exact F.
  - symmetry. rewrite ltb_frank by assumption. rewrite leb_frank in L by assumption.
    apply Z.ltb_ge. apply Z.leb_le in L. exact L.
Qed.

Lemma TimeClip_out_of_range (t : float) :
  (msPerDayLimit <? abs t) = true -> is_nan (TimeClip t) = true.
Proof.
  intros L. unfold TimeClip. rewrite L. destruct (negb (is_finite t)); reflexivity.
Qed.

End NumFacts.

(* ================================================================== *)
(** * Part 5. Facts about arrays                                        *)
(* ================================================================== *)

Section SortFacts.

Context {A : Type} (comparefn : A -> A -> float).

Lemma sort_insert_perm (x : A) (l : list A) :
  Permutation (x :: l) (sort_insert comparefn x l).
Proof.
  induction l as [|y l IH]; cbn [sort_insert]; [reflexivity|].
  destruct (moves_behind comparefn x y); [|reflexivity].
  rewrite perm_swap. apply perm_skip. exact IH.
Qed.

Lemma Array_sort_perm (l : list A) : Permutation l (Array_sort comparefn l).
Proof.
  induction l as [|x l IH]; cbn [Array_sort]; [constructor|].
  rewrite <- sort_insert_perm. apply perm_skip. exact IH.
Qed.

Lemma Array_sort_In (x : A) (l : list A) : In x (Array_sort comparefn l) -> In x l.
Proof. apply Permutation_in. symmetry. apply Array_sort_perm. Qed.

Lemma In_Array_sort (x : A) (l : list A) : In x l -> In x (Array_sort comparefn l).
Proof. apply Permutation_in. apply Array_sort_perm. Qed.

Lemma Array_sort_length (l : list A) : length (Array_sort comparefn l) = length l.
Proof. symmetry. apply Permutation_length, Array_sort_perm. Qed.

(** A comparator is consistent on [l] when an integer rank decides it. *)
Variable rk : A -> Z.

Lemma sort_insert_sorted (x : A) (l : list A) :
  (forall y, In y l -> moves_behind comparefn x y = (rk y <? rk x)%Z) ->
  StronglySorted (fun a b => (rk a <= rk b)%Z) l ->
  StronglySorted (fun a b => (rk a <= rk b)%Z) (sort_insert comparefn x l).
Proof.
  induction l as [|y l IH]; intros Hc Hs; cbn [sort_insert].
  - constructor; constructor.
  - inversion Hs as [|? ? Hs' Hy]; subst.
    rewrite (Hc y (or_introl eq_refl)).
    destruct (rk y <? rk x)%Z eqn:L.
    + apply Z.ltb_lt in L. constructor.
      * apply IH; [intros z Hz; apply Hc; right; exact Hz | exact Hs'].
      * apply (Permutation_Forall (sort_insert_perm x l)).
        constructor; [lia | exact Hy].
    + apply Z.ltb_ge in L. constructor; [exact Hs|].
      constructor; [exact L|].
      apply Forall_impl with (2 := Hy). intros z Hz. lia.
Qed.

Lemma Array_sort_sorted (l : list A) :
  (forall x y, In x l -> In y l -> moves_behind comparefn x y = (rk y <? rk x)%Z) ->
  StronglySorted (fun a b => (rk a <= rk b)%Z) (Array_sort comparefn l).
Proof.
  induction l as [|x l IH]; intros Hc; cbn [Array_sort]; [constructor|].
  apply sort_insert_sorted.
  - intros y Hy. apply Hc; [left; reflexivity | right; apply Array_sort_In in Hy; exact Hy].
  - apply IH. intros a b Ha Hb. apply Hc; right; assumption.
Qed.

(** Stability: the elements of one class keep their order. *)
Lemma sort_insert_filter (P : A -> bool) (x : A) (l : list A) :
  (forall y, In y l -> P x = true -> P y = true -> moves_behind comparefn x y = false) ->
  filter P (sort_insert comparefn x l) = filter P (x :: l).
Proof.
  induction l as [|y l IH]; intros Hc; cbn [sort_insert]; [reflexivity|].
  destruct (moves_behind comparefn x y) eqn:B; [|reflexivity].
  cbn [filter]. rewrite IH by (intros z Hz; apply Hc; right; exact Hz).
  cbn [filter]. destruct (P x) eqn:Px; [|reflexivity].
  destruct (P y) eqn:Py; [|reflexivity].
  rewrite (Hc y (or_introl eq_refl) eq_refl Py) in B. discriminate.
Qed.

Lemma Array_sort_filter (P : A -> bool) (l : list A) :
  (forall x y, In x l -> In y l -> P x = true -> P y = true ->
               moves_behind comparefn x y = false) ->
  filter P (Array_sort comparefn l) = filter P l.
Proof.
  induction l as [|x l IH]; intros Hc; cbn [Array_sort]; [reflexivity|].
  rewrite sort_insert_filter.
  - cbn [filter]. rewrite IH by (intros a b Ha Hb; apply Hc; right; assumption).
    reflexivity.
  - intros y Hy. apply Array_sort_In in Hy. apply Hc; [left; reflexivity | right; exact Hy].
Qed.

End SortFacts.

Lemma StronglySorted_weaken {A : Type} (R R' : A -> A -> Prop) (l : list A) :
  (forall a b, In a l -> In b l -> R a b -> R' a b) ->
  StronglySorted R l -> StronglySorted R' l.
Proof.
  intros H S. induction S as [|a l S IH F]; constructor.
  - apply IH. intros x y Hx Hy. apply H; right; assumption.
  - rewrite Forall_forall in *. intros b Hb. apply H; [left; reflexivity | right; exact Hb | auto].
Qed.

Section SortByKey.

Import Num NumFacts.
Local Open Scope float_scope.

Context {A : Type} (key : A -> float).

(** Sorting on [key(a) - key(b)]: ascending. *)
Lemma sort_ascending (l : list A) :
  Forall (fun a => is_nan (key a) = false) l ->
  let out := Array_sort (fun a b => key a - key b) l in
  Permutation l out /\
  StronglySorted (fun a b => (key a <=? key b) = true) out /\
  (forall v, filter (fun a => key a =? v) out = filter (fun a => key a =? v) l).
Proof.
  intros N out. rewrite Forall_forall in N.
  assert (C : forall x y, In x l -> In y l ->
              moves_behind (fun a b => key a - key b) x y
              = (frank (key y) <? frank (key x))%Z).
  { intros x y Hx Hy. unfold moves_behind.
    rewrite sub_positive by auto. apply ltb_frank; auto. }
  split; [apply Array_sort_perm|]. split.
  - apply StronglySorted_weaken with (R := fun a b => (frank (key a) <= frank (key b))%Z).
    + intros a b Ha Hb Hab. apply Array_sort_In in Ha, Hb.
      rewrite leb_frank by auto. apply Z.leb_le. exact Hab.
    + apply Array_sort_sorted with (rk := fun a => frank (key a)). exact C.
  - intros v. apply Array_sort_filter. intros x y Hx Hy Px Py.
    rewrite C by assumption. apply Z.ltb_ge.
    destruct (eqb_not_nan _ _ Px) as [Nx Nv].
    rewrite eqb_frank in Px, Py by auto. apply Z.eqb_eq in Px, Py. lia.
Qed.

(** Sorting on [key(b) - key(a)]: descending. *)
Lemma sort_descending (l : list A) :
  Forall (fun a => is_nan (key a) = false) l ->
  let out := Array_sort (fun a b => key b - key a) l in
  Permutation l out /\
  StronglySorted (fun a b => (key b <=? key a) = true) out /\
  (forall v, filter (fun a => key a =? v) out = filter (fun a => key a =? v) l).
Proof.
  intros N out. rewrite Forall_forall in N.
  assert (C : forall x y, In x l -> In y l ->
              moves_behind (fun a b => key b - key a) x y
              = (- frank (key y) <? - frank (key x))%Z).
  { intros x y Hx Hy. unfold moves_behind.
    rewrite sub_positive by auto. rewrite ltb_frank by auto.
    destruct (Z.ltb_spec (frank (key x)) (frank (key y)));
      symmetry; [apply Z.ltb_lt | apply Z.ltb_ge]; lia. }
  split; [apply Array_sort_perm|]. split.
  - apply StronglySorted_weaken with (R := fun a b => (- frank (key a) <= - frank (key b))%Z).
    + intros a b Ha Hb Hab. apply Array_sort_In in Ha, Hb.
      rewrite leb_frank by auto. apply Z.leb_le. lia.
    + apply Array_sort_sorted with (rk := fun a => (- frank (key a))%Z). exact C.
  - intros v. apply Array_sort_filter. intros x y Hx Hy Px Py.
    rewrite C by assumption. apply Z.ltb_ge.
    destruct (eqb_not_nan _ _ Px) as [Nx Nv].
    rewrite eqb_frank in Px, Py by auto. apply Z.eqb_eq in Px, Py. lia.
Qed.

End SortByKey.

(** ** Loops over [insights] *)

Lemma for_of_appends {A : Type} (l : list A) (body : A -> M unit)
  (emitted : A -> list AnalysisInsight) :
  (forall x insights, In x l -> body x insights = (insights ++ emitted x, Normal tt)) ->
  forall insights, for_of l body insights = (insights ++ flat_map emitted l, Normal tt).
Proof.
  induction l as [|x l IH]; intros Hb insights; cbn [for_of flat_map].
  - unfold ret. rewrite app_nil_r. reflexivity.
  - unfold bind. rewrite Hb by (left; reflexivity).
    rewrite IH by (intros; apply Hb; right; assumption).
    rewrite app_assoc. reflexivity.
Qed.

Lemma flat_map_flat_map {A B C : Type} (f : B -> list C) (g : A -> list B) (l : list A) :
  flat_map f (flat_map g l) = flat_map (fun x => flat_map f (g x)) l.
Proof.
  induction l as [|x l IH]; cbn [flat_map]; [reflexivity|].
  rewrite flat_map_app, IH. reflexivity.
Qed.

Lemma flat_map_map {A B C : Type} (f : B -> list C) (g : A -> B) (l : list A) :
  flat_map f (map g l) = flat_map (fun x => f (g x)) l.
Proof.
  induction l as [|x l IH]; cbn [flat_map map]; [reflexivity|]. rewrite IH. reflexivity.
Qed.

(* ================================================================== *)
(** * Part 6. The analyzers, loop by loop                               *)
(* ================================================================== *)

Section AnalyzerFacts.

Variable host : Host.

Local Open Scope string_scope.
Local Open Scope float_scope.

Lemma leb_ltb_nat (n m : nat) : (n <=? m)%nat = negb (m <? n)%nat.
Proof. rewrite Nat.ltb_antisym, negb_involutive. reflexivity. Qed.

(** One pass of the loop of [identifyTrends]. *)
Lemma identifyTrends_returns (data : dataset) :
  identifyTrends host data = Normal (trends_of host data).
Proof.
  unfold identifyTrends, trends_of, async.
  destruct (no_column (getDateColumn host data)) eqn:D; cbn [orb]; [reflexivity|].
  destruct (length (getNumericColumns host data) =? 0)%nat eqn:E.
  - apply Nat.eqb_eq in E. apply length_zero_iff_nil in E. rewrite E. reflexivity.
  - unfold bind at 1.
    rewrite for_of_appends with (emitted := trend_of_column host data
                                   (column_name (getDateColumn host data))).
    + reflexivity.
    + intros column insights _. unfold try_catch, trend_of_column.
      rewrite leb_ltb_nat.
      destruct (length (prepareTimeSeriesData host data _ column) <? 3)%nat;
        cbn [negb andb]; [unfold ret; rewrite app_nil_r; reflexivity|].
      destruct (0.01 <? Num.Math_abs (trend_slope (calculateTrend _)));
        [reflexivity | unfold ret; rewrite app_nil_r; reflexivity].
Qed.

Lemma generatePredictions_returns (data : dataset) :
  generatePredictions host data = Normal (predictions_of host data).
Proof.
  unfold generatePredictions, predictions_of, async.
  destruct (no_column (getDateColumn host data)) eqn:D; cbn [orb]; [reflexivity|].
  destruct (length (getNumericColumns host data) =? 0)%nat eqn:E; cbn [orb].
  - apply Nat.eqb_eq in E. apply length_zero_iff_nil in E. rewrite E.
    destruct (length data <? 5)%nat; reflexivity.
  - destruct (length data <? 5)%nat; [reflexivity|].
    unfold bind at 1.
    rewrite for_of_appends with (emitted := prediction_of_column host data
                                   (column_name (getDateColumn host data))).
    + reflexivity.
    + intros column insights _. unfold try_catch, prediction_of_column.
      rewrite leb_ltb_nat.
      destruct (length (prepareTimeSeriesData host data _ column) <? 5)%nat;
        cbn [negb andb]; [unfold ret; rewrite app_nil_r; reflexivity|].
      destruct (0.3 <? Regression.score _ _ _);
        [reflexivity | unfold ret; rewrite app_nil_r; reflexivity].
Qed.

Lemma detectAnomalies_returns (data : dataset) :
  detectAnomalies host data = Normal (anomalies_of host data).
Proof.
  unfold detectAnomalies, anomalies_of, async.
  unfold bind at 1.
  rewrite for_of_appends with (emitted := anomaly_of_column host data).
  - reflexivity.
  - intros column insights _. unfold try_catch, anomaly_of_column, anomalous_rows.
    rewrite leb_ltb_nat.
    destruct (length (column_values host data column) <? 10)%nat;
      cbn [negb]; [unfold ret; rewrite app_nil_r; reflexivity|].
    unfold bind, call.
    destruct (mean host (column_values host data column)) as [m|e];
      [|unfold console_error, ret; rewrite app_nil_r; reflexivity].
    destruct (standardDeviation host (column_values host data column)) as [sd|e];
      [|unfold console_error, ret; rewrite app_nil_r; reflexivity].
    change (1 <=? ?n)%nat with (0 <? n)%nat.
    destruct (0 <? length _)%nat;
      [reflexivity | unfold ret; rewrite app_nil_r; reflexivity].
Qed.

Lemma column_pairs_short (l : list string) : (length l < 2)%nat -> column_pairs l = [].
Proof.
  destruct l as [|a [|b l]]; cbn [length]; intros H; try lia; reflexivity.
Qed.

Lemma findCorrelations_returns (data : dataset) :
  findCorrelations host data = Normal (correlations_of host data).
Proof.
  unfold findCorrelations, correlations_of, async.
  destruct (length (getNumericColumns host data) <? 2)%nat eqn:L.
  - apply Nat.ltb_lt in L. rewrite column_pairs_short by exact L. reflexivity.
  - unfold bind at 1. unfold column_pairs. rewrite flat_map_flat_map.
    rewrite for_of_appends with
      (emitted := fun i => flat_map
                    (fun pair => correlation_of_pair host data (fst pair) (snd pair))
                    (map (fun j => (nth i (getNumericColumns host data) "",
                                    nth j (getNumericColumns host data) ""))
                         (seq (i + 1) (length (getNumericColumns host data) - (i + 1))))).
    + reflexivity.
    + intros i insights _. rewrite flat_map_map. cbn [fst snd].
      apply for_of_appends. clear insights. intros j insights _.
      unfold try_catch, correlation_of_pair.
      set (values1 := column_values host data (nth i _ "")).
      set (values2 := column_values host data (nth j _ "")).
      rewrite leb_ltb_nat.
      destruct (length values1 =? length values2)%nat; cbn [negb orb andb];
        [|unfold ret; rewrite app_nil_r; reflexivity].
      destruct (length values1 <? 3)%nat; cbn [negb];
        [unfold ret; rewrite app_nil_r; reflexivity|].
      unfold bind, call.
      destruct (sampleCorrelation host values1 values2) as [r|e];
        [|unfold console_error, ret; rewrite app_nil_r; reflexivity].
      destruct (0.5 <? Num.Math_abs r);
        [reflexivity | unfold ret; rewrite app_nil_r; reflexivity].
Qed.

Lemma performSegmentation_returns (data : dataset) :
  performSegmentation host data = Normal (segments_insight_of host data).
Proof.
  unfold performSegmentation, segments_insight_of, async.
  rewrite !leb_ltb_nat.
  destruct (length (getNumericColumns host data) <? 2)%nat; cbn [negb orb andb];
    [reflexivity|].
  destruct (length data <? 10)%nat; cbn [negb]; [reflexivity|].
  unfold bind at 1. unfold try_catch.
  fold (segmentation_points host data (nth 0 (getNumericColumns host data) "")
          (nth 1 (getNumericColumns host data) "")).
  set (points := segmentation_points host data _ _).
  destruct (length points <? 6)%nat; cbn [negb]; [reflexivity|].
  fold (segment_count points).
  unfold bind, call.
  destruct (kmeans host points (segment_count points)) as [result|e]; reflexivity.
Qed.

(** The entry point: every analyzer returns, and what they return is
    sorted. *)
Lemma generateInsights_returns (data : dataset) :
  generateInsights host data
  = Normal (Array_sort by_confidence_descending (generated host data)).
Proof.
  unfold generateInsights, generated, async.
  destruct (length data =? 0)%nat eqn:E.
  - apply Nat.eqb_eq in E. apply length_zero_iff_nil in E. subst data. reflexivity.
  - unfold push_awaited, bind, try_catch, call, push_all, the_insights, ret.
    rewrite identifyTrends_returns, findCorrelations_returns, detectAnomalies_returns,
      performSegmentation_returns, generatePredictions_returns.
    cbn [snd app]. rewrite <- !app_assoc. reflexivity.
Qed.

End AnalyzerFacts.

(* ================================================================== *)
(** * Part 7. The regression against the closed form                    *)
(* ================================================================== *)

Section RegressionFacts.

Import Num.
Local Open Scope float_scope.

Lemma reduce_from_sum (i : nat) (acc : float) (l : list float) :
  reduce_from (fun a b _ => a + b) i acc l = fold_left PrimFloat.add l acc.
Proof.
  revert i acc. induction l as [|x l IH]; intros i acc; cbn [reduce_from fold_left];
    [reflexivity | apply IH].
Qed.

Lemma reduce_sum (l : list float) :
  reduce (fun a b _ => a + b) 0 l = LeastSquares.sum l.
Proof. apply reduce_from_sum. Qed.

Lemma reduce_from_ignoring_index {A : Type} (f : float -> A -> float) (i : nat)
  (acc : float) (l : list A) :
  reduce_from (fun total xi _ => total + f total xi) i acc l
  = fold_left (fun total xi => total + f total xi) l acc.
Proof.
  revert i acc. induction l as [|x l IH]; intros i acc; cbn [reduce_from fold_left];
    [reflexivity | apply IH].
Qed.

Lemma fold_left_map_add {A : Type} (g : A -> float) (l : list A) (acc : float) :
  fold_left (fun total xi => total + g xi) l acc = fold_left PrimFloat.add (map g l) acc.
Proof.
  revert acc. induction l as [|x l IH]; intros acc; cbn [fold_left map];
    [reflexivity | apply IH].
Qed.

Lemma at_index_middle (pre other : list float) (o : float) :
  Regression.at_index (pre ++ o :: other) (length pre) = o.
Proof.
  unfold Regression.at_index. rewrite app_nth2 by lia. rewrite Nat.sub_diag. reflexivity.
Qed.

(** A [reduce] that reads [other[i]] walks the two arrays in step. *)
Lemma reduce_from_zip (g : float -> float -> float) (pre other : list float)
  (acc : float) (l : list float) :
  length l <= length other ->
  reduce_from (fun total xi i => total + g xi (Regression.at_index (pre ++ other) i))
              (length pre) acc l
  = fold_left PrimFloat.add (map (fun p => g (fst p) (snd p)) (combine l other)) acc.
Proof.
  revert pre other acc. induction l as [|x l IH]; intros pre other acc Hlen;
    cbn [reduce_from]; [reflexivity|].
  destruct other as [|o other]; cbn [length] in Hlen; [lia|].
  cbn [combine map fold_left fst snd].
  rewrite at_index_middle.
  specialize (IH (pre ++ [o]) other (acc + g x o) ltac:(lia)).
  rewrite <- app_assoc in IH. cbn [app] in IH.
  rewrite length_app in IH. cbn [length] in IH. rewrite Nat.add_1_r in IH.
  exact IH.
Qed.

Lemma reduce_zip (g : float -> float -> float) (other l : list float) :
  length l <= length other ->
  reduce (fun total xi i => total + g xi (Regression.at_index other i)) 0 l
  = LeastSquares.sum (map (fun p => g (fst p) (snd p)) (combine l other)).
Proof.
  intros H. exact (reduce_from_zip g [] other 0 l H).
Qed.

Lemma mapi_from_indices {A : Type} (i : nat) (l : list A) :
  mapi_from (fun _ index => of_nat index) i l = LeastSquares.indices_from i (length l).
Proof.
  revert i. induction l as [|x l IH]; intros i; cbn; [reflexivity|].
  rewrite IH. reflexivity.
Qed.

Lemma indices_length (i n : nat) : length (LeastSquares.indices_from i n) = n.
Proof. revert i. induction n as [|n IH]; intros i; cbn; [reflexivity | rewrite IH; reflexivity]. Qed.

(** [fit] computes the closed-form slope and intercept. *)
Lemma fit_closed_form (x y : list float) :
  length x = length y ->
  _slope (Regression.new x y) = LeastSquares.slope x y /\
  _intercept (Regression.new x y) = LeastSquares.intercept x y.
Proof.
  intros Hlen. unfold Regression.new, Regression.fit, LeastSquares.slope,
    LeastSquares.intercept, LeastSquares.slope, LeastSquares.products. cbn [_slope _intercept].
  rewrite !reduce_sum.
  pose proof (reduce_zip (fun a b => a * b) y x ltac:(lia)) as Hxy. cbv beta in Hxy.
  rewrite Hxy.
  assert (Hxx : reduce (fun total xi _ => total + xi * xi) 0 x
                = LeastSquares.sum (map (fun p => fst p * snd p) (combine x x))).
  { unfold reduce.
    rewrite (reduce_from_ignoring_index (fun _ xi => xi * xi)).
    rewrite (fold_left_map_add (fun xi => xi * xi)). unfold LeastSquares.sum. f_equal.
    clear. induction x as [|a x IH]; cbn; [reflexivity | rewrite IH; reflexivity]. }
  rewrite Hxx. split; reflexivity.
Qed.

Lemma residuals_in_step (h : float -> float) (x y : list float) :
  length x = length y ->
  map (fun p => Math_pow2 (fst p - snd p)) (combine y (map h x))
  = LeastSquares.squares (map (fun p => snd p - h (fst p)) (combine x y)).
Proof.
  revert y. induction x as [|a x IH]; intros [|b y] Hlen; cbn [length] in Hlen; try lia;
    [reflexivity|].
  cbn [map combine LeastSquares.squares fst snd]. f_equal. apply IH. lia.
Qed.

Lemma score_closed_form (x y : list float) :
  length x = length y ->
  Regression.score (Regression.new x y) x y = LeastSquares.rSquared x y.
Proof.
  intros Hlen. destruct (fit_closed_form x y Hlen) as [Hs Hi].
  unfold Regression.score, LeastSquares.rSquared.
  rewrite reduce_sum.
  assert (Hres : reduce (fun total yi i =>
                   total + Math_pow2 (yi - Regression.at_index
                                             (map (fun xi => Regression.predict (Regression.new x y) xi) x) i))
                   0 y
                 = LeastSquares.sum (LeastSquares.squares
                     (map (fun p => snd p - LeastSquares.predicted x y (fst p)) (combine x y)))).
  { pose proof (reduce_zip (fun yi pi => Math_pow2 (yi - pi))
                  (map (fun xi => Regression.predict (Regression.new x y) xi) x) y
                  ltac:(rewrite length_map; lia)) as Hz.
    cbv beta in Hz. rewrite Hz. clear Hz.
    rewrite (residuals_in_step (fun xi => Regression.predict (Regression.new x y) xi))
      by exact Hlen.
    f_equal. f_equal. apply map_ext. intros p.
    unfold Regression.predict, LeastSquares.predicted. rewrite Hs, Hi. reflexivity. }
  rewrite Hres.
  assert (Htot : reduce (fun total yi _ =>
                   total + Math_pow2 (yi - LeastSquares.sum y / of_nat (length y))) 0 y
                 = LeastSquares.sum (LeastSquares.squares
                     (map (fun yi => yi - LeastSquares.sum y / of_nat (length y)) y))).
  { unfold reduce.
    rewrite (reduce_from_ignoring_index
               (fun _ yi => Math_pow2 (yi - LeastSquares.sum y / of_nat (length y)))).
    rewrite (fold_left_map_add
               (fun yi => Math_pow2 (yi - LeastSquares.sum y / of_nat (length y)))).
    unfold LeastSquares.squares. rewrite map_map. reflexivity. }
  rewrite Htot. reflexivity.
Qed.

(** [calculateTrend] on a series: the closed form over the indices
    [0, 1, 2, ...]. *)
Lemma calculateTrend_closed_form (ts : list TimeSeriesPoint) :
  let x := LeastSquares.indices (length ts) in
  let y := map (fun point => value point) ts in
  trend_slope (calculateTrend ts) = LeastSquares.slope x y /\
  trend_rSquared (calculateTrend ts) = LeastSquares.rSquared x y /\
  trend_direction (calculateTrend ts)
  = if 0 <? LeastSquares.slope x y then "Upward"%string else "Downward"%string.
Proof.
  intros x y. unfold calculateTrend. cbn [trend_slope trend_rSquared trend_direction].
  unfold mapi. rewrite mapi_from_indices. fold (LeastSquares.indices (length ts)). fold x. fold y.
  assert (Hlen : length x = length y).
  { subst x y. unfold LeastSquares.indices. rewrite indices_length, length_map. reflexivity. }
  destruct (fit_closed_form x y Hlen) as [Hs Hi].
  rewrite score_closed_form by exact Hlen. rewrite Hs. auto.
Qed.

End RegressionFacts.

(* ================================================================== *)
(** * Part 8. What the analyzers emit                                   *)
(* ================================================================== *)

(** In a loop whose passes tag what they emit, the insights tagged [k] are
    the ones the pass for [k] emitted. *)
Lemma flat_map_tagged {A K : Type} (f : K -> list A) (tag : A -> option K) (l : list K) :
  (forall k i, In i (f k) -> tag i = Some k) ->
  forall k, In k l ->
  forall i, (In i (flat_map f l) /\ tag i = Some k) <-> In i (f k).
Proof.
  intros Htag k Hk i. split.
  - intros [Hi Ht]. apply in_flat_map in Hi. destruct Hi as (k' & Hk' & Hi').
    pose proof (Htag k' i Hi') as E. rewrite E in Ht. injection Ht as ->. exact Hi'.
  - intros Hi. split; [|eauto]. apply in_flat_map. eauto.
Qed.

Lemma in_singleton_or_nil {A : Type} (b : bool) (a i : A) :
  In i (if b then [a] else []) <-> b = true /\ i = a.
Proof.
  destruct b; cbn; split; intros H; try tauto; try (destruct H as [? ?]; discriminate).
  - destruct H as [->|[]]. auto.
  - destruct H as [_ ->]. auto.
Qed.

Section EmissionFacts.

Variable host : Host.

Local Open Scope string_scope.
Local Open Scope float_scope.

Lemma trend_of_column_tag (data : dataset) (dateColumn column : string) (i : AnalysisInsight) :
  In i (trend_of_column host data dateColumn column) ->
  insight_column i = Some column /\ type i = trend.
Proof.
  unfold trend_of_column. intros H. apply in_singleton_or_nil in H.
  destruct H as [_ ->]. split; reflexivity.
Qed.

Lemma prediction_of_column_tag (data : dataset) (dateColumn column : string)
  (i : AnalysisInsight) :
  In i (prediction_of_column host data dateColumn column) ->
  insight_column i = Some column /\ type i = prediction.
Proof.
  unfold prediction_of_column. intros H. apply in_singleton_or_nil in H.
  destruct H as [_ ->]. split; reflexivity.
Qed.

Lemma anomaly_of_column_tag (data : dataset) (column : string) (i : AnalysisInsight) :
  In i (anomaly_of_column host data column) ->
  insight_column i = Some column /\ type i = anomaly.
Proof.
  unfold anomaly_of_column.
  destruct (10 <=? length (column_values host data column))%nat; [|intros []].
  destruct (mean host _) as [m|e]; [|intros []].
  destruct (standardDeviation host _) as [sd|e]; [|intros []].
  intros H. apply in_singleton_or_nil in H. destruct H as [_ ->]. split; reflexivity.
Qed.

Lemma correlation_of_pair_tag (data : dataset) (col1 col2 : string) (i : AnalysisInsight) :
  In i (correlation_of_pair host data col1 col2) ->
  insight_pair i = Some (col1, col2) /\ type i = correlation.
Proof.
  unfold correlation_of_pair.
  destruct (_ && _); [|intros []].
  destruct (sampleCorrelation host _ _) as [r|e]; [|intros []].
  intros H. apply in_singleton_or_nil in H. destruct H as [_ ->]. split; reflexivity.
Qed.

Lemma segments_insight_of_tag (data : dataset) (i : AnalysisInsight) :
  In i (segments_insight_of host data) -> type i = segment /\ confidence i = 75.
Proof.
  unfold segments_insight_of.
  destruct (_ && _); [|intros []].
  destruct (6 <=? _)%nat; [|intros []].
  destruct (kmeans host _ _) as [r|e]; [|intros []].
  intros [<-|[]]. split; reflexivity.
Qed.

(** [x || 0] is never [NaN], so no point is dropped. *)
Lemma or_zero_not_nan (x : float) : is_nan (or_zero x) = false.
Proof.
  unfold or_zero, Num.truthy. destruct (is_zero x || is_nan x) eqn:E; cbn [negb].
  - reflexivity.
  - apply orb_false_elim in E. tauto.
Qed.

Lemma segmentation_points_length (data : dataset) (col1 col2 : string) :
  length (segmentation_points host data col1 col2) = length data.
Proof.
  unfold segmentation_points. induction data as [|row data IH]; [reflexivity|].
  cbn [map filter]. unfold includes_NaN at 1. cbn [fst snd].
  rewrite !or_zero_not_nan. cbn [orb negb length]. rewrite IH. reflexivity.
Qed.

End EmissionFacts.

(* ================================================================== *)
(** * Part 9. The properties of the specification                     *)
(* ================================================================== *)

Local Open Scope float_scope.

(** C2. For every dataset the entry point returns a sequence of insights
    and raises nothing; for the empty dataset it returns the empty
    sequence. *)
Theorem C2_generateInsights_always_returns (host : Host) (data : dataset) :
  (exists insights, generateInsights host data = Normal insights) /\
  generateInsights host [] = Normal [].
Proof.
  split.
  - rewrite generateInsights_returns. eauto.
  - reflexivity.
Qed.








(** The values of a column that parse are the values of the records whose
    cell parses, in the order of the records. *)
Lemma column_values_of_valid_records (host : Host) (rows : dataset) (column : string) :
  column_values host rows column
  = map (fun row => parseFloat host (get row column))
        (filter (fun row => negb (is_nan (parseFloat host (get row column)))) rows).
Proof.
  unfold column_values, isNaN. induction rows as [|row rows IH]; [reflexivity|].
  cbn [map filter]. destruct (negb (is_nan (parseFloat host (get row column))));
    cbn [map]; rewrite IH; reflexivity.
Qed.

Lemma filter_both {A : Type} (p q : A -> bool) (l : list A) :
  filter (fun a => p a && q a) l = filter q (filter p l).
Proof.
  induction l as [|a l IH]; [reflexivity|]. cbn [filter].
  destruct (p a); cbn [andb filter]; [destruct (q a)|]; rewrite IH; reflexivity.
Qed.

(** C7. The valid records of a numeric column are those whose cell
    parses, and its valid values are their values, in the order of the
    records.  [detectAnomalies] emits nothing for the column when there are
    fewer than 10 of them, or when [mean] or [standardDeviation] throws on
    the valid values.  Otherwise, with the mean and standard deviation of
    the valid values, it flags exactly the valid records whose value [v]
    satisfies [|v - mean| > 2 * stdDev], emits an anomaly insight for the
    column if and only if at least one record is flagged, and that insight
    has confidence [min(flagged / valid * 500, 90)] and carries the flagged
    records in their order, the mean and the threshold. *)
Theorem C7_anomaly_detection (host : Host) (rows : dataset) (column : string)
  (out : list AnalysisInsight) :
  In column (getNumericColumns host rows) ->
  detectAnomalies host rows = Normal out ->
  let parsed := fun row => parseFloat host (get row column) in
  let valid := filter (fun row => negb (is_nan (parsed row))) rows in
  let values := map parsed valid in
  ((length valid < 10)%nat ->
   forall i, In i out -> insight_column i <> Some column) /\
  ((10 <= length valid)%nat ->
   (forall e, mean host values = Throw e \/ standardDeviation host values = Throw e ->
      forall i, In i out -> insight_column i <> Some column) /\
   (forall m sd, mean host values = Normal m -> standardDeviation host values = Normal sd ->
      let threshold := 2 * sd in
      let flagged := filter (fun row => threshold <? Num.Math_abs (parsed row - m)) valid in
      ((exists i, In i out /\ insight_column i = Some column)
       <-> (1 <= length flagged)%nat) /\
      (forall i, In i out -> insight_column i = Some column ->
         type i = anomaly /\
         confidence i
         = Num.Math_min (Num.of_nat (length flagged) / Num.of_nat (length valid) * 500) 90 /\
         data i = AnomalyData column (map (fun row => (get row column, row)) flagged)
                              m threshold))).
Proof.
  intros Hcol Hout parsed valid values.
  rewrite detectAnomalies_returns in Hout. injection Hout as <-. unfold anomalies_of.
  pose proof (flat_map_tagged (anomaly_of_column host rows) insight_column
                (getNumericColumns host rows)
                (fun k i H => proj1 (anomaly_of_column_tag host rows k i H))
                column Hcol) as T.
  assert (Ev : column_values host rows column = values)
    by apply column_values_of_valid_records.
  assert (El : length values = length valid) by apply length_map.
  split; [|intros Hlen; split].
  - intros Hlen i Hi Htag.
    assert (Hin : In i (anomaly_of_column host rows column)) by (apply T; auto).
    unfold anomaly_of_column in Hin. cbv zeta in Hin. rewrite Ev, El in Hin.
    replace (10 <=? length valid)%nat with false in Hin
      by (symmetry; apply Nat.leb_gt; exact Hlen).
    exact Hin.
  - intros e He i Hi Htag.
    assert (Hin : In i (anomaly_of_column host rows column)) by (apply T; auto).
    unfold anomaly_of_column in Hin. cbv zeta in Hin. rewrite Ev, El in Hin.
    replace (10 <=? length valid)%nat with true in Hin
      by (symmetry; apply Nat.leb_le; exact Hlen).
    destruct He as [He|He]; rewrite He in Hin; [exact Hin|].
    destruct (mean host values); exact Hin.
  - intros m sd Hm Hsd. set (threshold := 2 * sd).
    set (flagged := filter (fun row => threshold <? Num.Math_abs (parsed row - m)) valid).
    assert (Ef : anomalous_rows host rows column m threshold = flagged).
    { unfold anomalous_rows, flagged, valid, isNaN. cbv zeta.
      apply (filter_both (fun row => negb (is_nan (parsed row)))
                         (fun row => threshold <? Num.Math_abs (parsed row - m))). }
    assert (E : anomaly_of_column host rows column
                = if (1 <=? length flagged)%nat then
                    [ {| type := anomaly;
                         title := (decimal_of_nat (length flagged) ++ " Anomal"
                                   ++ (if (length flagged =? 1)%nat then "y" else "ies")
                                   ++ " in " ++ column)%string;
                         confidence :=
                           Num.Math_min
                             (Num.of_nat (length flagged) / Num.of_nat (length valid) * 500)
                             90;
                         data := AnomalyData column
                                   (map (fun row => (get row column, row)) flagged)
                                   m threshold |} ]
                  else []).
    { unfold anomaly_of_column. cbv zeta. rewrite Ev, El.
      replace (10 <=? length valid)%nat with true by (symmetry; apply Nat.leb_le; exact Hlen).
      rewrite Hm, Hsd. fold threshold. rewrite Ef. reflexivity. }
    split.
    + split.
      * intros (i & Hi & Htag).
        assert (Hin : In i (anomaly_of_column host rows column)) by (apply T; auto).
        rewrite E in Hin. apply in_singleton_or_nil in Hin.
        apply Nat.leb_le. tauto.
      * intros Hf. apply Nat.leb_le in Hf. rewrite Hf in E.
        eexists. apply T. rewrite E. left. reflexivity.
    + intros i Hi Htag.
      assert (Hin : In i (anomaly_of_column host rows column)) by (apply T; auto).
      rewrite E in Hin. apply in_singleton_or_nil in Hin. destruct Hin as [_ ->].
      cbn. auto.
Qed.

Lemma C7_anomaly_detection_witness :
  exists out i,
    detectAnomalies Reference.host Examples.with_outlier = Normal out /\
    In i out /\ insight_column i = Some "v"%string /\
    confidence i = 41.666666666666664.
Proof.
  pose (out := [ {| type := anomaly;
                    title := "1 Anomaly in v";
                    confidence := 41.666666666666664;
                    data := AnomalyData "v"
                              [(VNumber 1000, Examples.row 7 1000)]
                              84.25 552.22044209415742 |} ]).
  assert (Hout : detectAnomalies Reference.host Examples.with_outlier = Normal out)
    by (vm_compute; reflexivity).
  destruct (C7_anomaly_detection Reference.host Examples.with_outlier "v" out
              ltac:(vm_compute; auto) Hout) as [_ H].
  destruct (H ltac:(vm_compute; lia)) as [_ H2].
  destruct (H2 84.25 276.11022104707871
               ltac:(vm_compute; reflexivity) ltac:(vm_compute; reflexivity))
    as ([_ E] & F).
  destruct (E ltac:(vm_compute; lia)) as (i & Hi & Htag).
  destruct (F i Hi Htag) as (_ & C & _).
  exists out, i. split; [exact Hout|]. split; [exact Hi|]. split; [exact Htag|].
  rewrite C. vm_compute. reflexivity.
Defined.

(** ** Trends and predictions, column by column *)

Section SeriesFacts.

Variable host : Host.

Local Open Scope string_scope.
Local Open Scope float_scope.

(** The series of a column: the rows whose date and value both parse, in
    chronological order, rows of one date in the order of the dataset. *)
Lemma prepareTimeSeriesData_sorted (rows : dataset) (dateColumn valueColumn : string) :
  let parsed :=
    filter (fun point => negb (is_nan (date point)) && negb (is_nan (value point)))
           (map (fun row => {| date := new_Date host (get row dateColumn);
                               value := parseFloat host (get row valueColumn) |}) rows) in
  let series := prepareTimeSeriesData host rows dateColumn valueColumn in
  Permutation parsed series /\
  StronglySorted (fun a b => (date a <=? date b) = true) series /\
  (forall t, filter (fun a => date a =? t) series = filter (fun a => date a =? t) parsed).
Proof.
  intros parsed series. apply (sort_ascending date parsed).
  apply Forall_forall. intros p Hp. unfold parsed in Hp. apply filter_In in Hp.
  destruct Hp as [_ Hp]. apply andb_prop in Hp. destruct Hp as [Hd _].
  apply negb_true_iff in Hd. exact Hd.
Qed.

Lemma no_column_named (name : string) : name <> ""%string -> no_column (Some name) = false.
Proof. intros H. cbn. apply String.eqb_neq. exact H. Qed.

Lemma trend_of_column_closed_form (rows : dataset) (dateColumn column : string) :
  let series := prepareTimeSeriesData host rows dateColumn column in
  let x := LeastSquares.indices (length series) in
  let y := map (fun point => value point) series in
  trend_of_column host rows dateColumn column
  = if (3 <=? length series)%nat && (0.01 <? Num.Math_abs (LeastSquares.slope x y)) then
      [ {| type := trend;
           title := (if 0 <? LeastSquares.slope x y then "Upward" else "Downward")
                    ++ " Trend in " ++ column;
           confidence := Num.Math_min (LeastSquares.rSquared x y * 100) 95;
           data := TrendData column (LeastSquares.slope x y) (LeastSquares.rSquared x y)
                             series |} ]
    else [].
Proof.
  intros series x y. unfold trend_of_column. fold series.
  destruct (calculateTrend_closed_form series) as (Hs & Hr & Hd). fold x y in Hs, Hr, Hd.
  rewrite Hs, Hr, Hd. reflexivity.
Qed.

Lemma prediction_of_column_closed_form (rows : dataset) (dateColumn column : string) :
  let series := prepareTimeSeriesData host rows dateColumn column in
  let x := LeastSquares.indices (length series) in
  let y := map (fun point => value point) series in
  prediction_of_column host rows dateColumn column
  = if (5 <=? length series)%nat && (0.3 <? LeastSquares.rSquared x y) then
      [ {| type := prediction;
           title := "Predicted Next Value for " ++ column;
           confidence := Num.Math_min (LeastSquares.rSquared x y * 100) 85;
           data := PredictionData column
                     (LeastSquares.predicted x y (Num.of_nat (length series)))
                     (LeastSquares.rSquared x y)
                     (LeastSquares.slope x y) (LeastSquares.intercept x y) |} ]
    else [].
Proof.
  intros series x y. unfold prediction_of_column. fold series.
  unfold mapi. rewrite mapi_from_indices. fold (LeastSquares.indices (length series)).
  fold x y.
  assert (Hlen : length x = length y).
  { subst x y. unfold LeastSquares.indices. rewrite indices_length, length_map. reflexivity. }
  destruct (fit_closed_form x y Hlen) as [Hs Hi].
  rewrite score_closed_form by exact Hlen.
  unfold Regression.predict. rewrite Hs, Hi. reflexivity.
Qed.

(** With a date column of a non-empty name, [identifyTrends] emits for a
    numeric column exactly when its series has 3 points and the
    least-squares slope over the indices exceeds 0.01 in magnitude. *)
Lemma trend_emission (rows : dataset) (dateColumn column : string)
  (out : list AnalysisInsight) :
  getDateColumn host rows = Some dateColumn -> dateColumn <> ""%string ->
  In column (getNumericColumns host rows) ->
  identifyTrends host rows = Normal out ->
  let series := prepareTimeSeriesData host rows dateColumn column in
  let x := LeastSquares.indices (length series) in
  let y := map (fun point => value point) series in
  forall i, In i out /\ insight_column i = Some column <->
            ((3 <= length series)%nat /\
             (0.01 <? Num.Math_abs (LeastSquares.slope x y)) = true) /\
            i = {| type := trend;
                   title := (if 0 <? LeastSquares.slope x y then "Upward" else "Downward")
                            ++ " Trend in " ++ column;
                   confidence := Num.Math_min (LeastSquares.rSquared x y * 100) 95;
                   data := TrendData column (LeastSquares.slope x y)
                                     (LeastSquares.rSquared x y) series |}.
Proof.
  intros Hd Hname Hcol Hout series x y i.
  rewrite identifyTrends_returns in Hout. injection Hout as <-.
  unfold trends_of. rewrite Hd, (no_column_named dateColumn Hname). cbn [column_name].
  rewrite (flat_map_tagged (trend_of_column host rows dateColumn) insight_column
             (getNumericColumns host rows)
             (fun k j H => proj1 (trend_of_column_tag host rows dateColumn k j H))
             column Hcol).
  rewrite trend_of_column_closed_form. fold series x y.
  rewrite in_singleton_or_nil, andb_true_iff, Nat.leb_le. tauto.
Qed.

(** The same for [generatePredictions]: 5 points and [R^2 > 0.3]. *)
Lemma prediction_emission (rows : dataset) (dateColumn column : string)
  (out : list AnalysisInsight) :
  getDateColumn host rows = Some dateColumn -> dateColumn <> ""%string ->
  In column (getNumericColumns host rows) ->
  generatePredictions host rows = Normal out ->
  let series := prepareTimeSeriesData host rows dateColumn column in
  let x := LeastSquares.indices (length series) in
  let y := map (fun point => value point) series in
  forall i, In i out /\ insight_column i = Some column <->
            ((5 <= length series)%nat /\ (0.3 <? LeastSquares.rSquared x y) = true) /\
            i = {| type := prediction;
                   title := "Predicted Next Value for " ++ column;
                   confidence := Num.Math_min (LeastSquares.rSquared x y * 100) 85;
                   data := PredictionData column
                             (LeastSquares.predicted x y (Num.of_nat (length series)))
                             (LeastSquares.rSquared x y)
                             (LeastSquares.slope x y) (LeastSquares.intercept x y) |}.
Proof.
  intros Hd Hname Hcol Hout series x y i.
  rewrite generatePredictions_returns in Hout. injection Hout as <-.
  unfold predictions_of. rewrite Hd, (no_column_named dateColumn Hname).
  cbn [column_name orb].
  assert (Hlen : length series <= length rows).
  { unfold series, prepareTimeSeriesData. rewrite Array_sort_length.
    etransitivity; [apply filter_length_le|]. rewrite length_map. reflexivity. }
  pose proof (prediction_of_column_closed_form rows dateColumn column) as E.
  cbv zeta in E. fold series x y in E.
  destruct (length rows <? 5)%nat eqn:L.
  - apply Nat.ltb_lt in L. cbn [flat_map In]. split; [tauto|].
    intros [[H _] _]. lia.
  - rewrite (flat_map_tagged (prediction_of_column host rows dateColumn) insight_column
               (getNumericColumns host rows)
               (fun k j H => proj1 (prediction_of_column_tag host rows dateColumn k j H))
               column Hcol).
    rewrite E. rewrite in_singleton_or_nil, andb_true_iff, Nat.leb_le. tauto.
Qed.

End SeriesFacts.

(** ** The column classifier *)

Section ClassifierFacts.

Variable host : Host.

Lemma falsy_is_no_date (v : any) : ToBoolean v = false -> isDateValue host v = false.
Proof. intros H. unfold isDateValue. rewrite H. reflexivity. Qed.

Lemma parseFloat_number (n : float) : is_nan n = false -> is_nan (parseFloat host (VNumber n)) = false.
Proof. intros H. cbn [parseFloat]. destruct (is_zero n); [reflexivity | exact H]. Qed.

Lemma number_is_numeric (firstRow : record) (rest : dataset) (column : string) (n : float) :
  In column (Object_keys firstRow) -> get firstRow column = VNumber n ->
  is_finite n = true ->
  In column (getNumericColumns host (firstRow :: rest)).
Proof.
  intros Hk Hv Hf. cbn [getNumericColumns]. apply filter_In. split; [exact Hk|].
  cbv zeta. rewrite Hv. unfold isNaN, isFinite. cbn [ToNumber].
  rewrite parseFloat_number by (apply NumFacts.is_finite_not_nan; exact Hf).
  rewrite Hf. reflexivity.
Qed.

Lemma number_is_date (n : float) :
  Num.truthy n = true -> is_finite n = true ->
  (Num.Math_abs n <=? Num.msPerDayLimit) = true ->
  isDateValue host (VNumber n) = true.
Proof.
  intros Ht Hf Hr. unfold isDateValue. cbn [ToBoolean]. rewrite Ht. cbn [negb].
  unfold isNaN, new_Date. cbn [ToNumber].
  rewrite NumFacts.TimeClip_valid by assumption. reflexivity.
Qed.

Lemma find_some_first {A : Type} (f : A -> bool) (pre post : list A) (a : A) :
  (forall b, In b pre -> f b = false) -> f a = true ->
  find f (pre ++ a :: post) = Some a.
Proof.
  intros Hpre Ha. induction pre as [|b pre IH]; cbn [app find].
  - rewrite Ha. reflexivity.
  - rewrite (Hpre b (or_introl eq_refl)). apply IH. intros c Hc. apply Hpre. right. exact Hc.
Qed.

Lemma find_some_exists {A : Type} (f : A -> bool) (l : list A) (a : A) :
  In a l -> f a = true -> exists b, find f l = Some b.
Proof.
  intros Hin Ha. destruct (find f l) as [b|] eqn:E; [eauto|].
  rewrite (find_none f l E a Hin) in Ha. discriminate.
Qed.

End ClassifierFacts.

(** C10, as amended.  In a non-empty dataset a column whose value in the
    first record is a truthy finite Number of magnitude at most 8.64e15 is
    classified as numeric and passes the date test, so the dataset has a
    date column, and that column is it when no earlier column passes the
    test.  When it is, and its name is not empty, [identifyTrends] and
    [generatePredictions] treat it as a value column whose time axis is
    itself.  A falsy value (0, the empty string) is never date-like. *)
Theorem C10_numeric_column_as_date (host : Host) (firstRow : record) (rest : dataset)
  (column : string) (n : float) :
  In column (Object_keys firstRow) -> get firstRow column = VNumber n ->
  Num.truthy n = true -> is_finite n = true ->
  (Num.Math_abs n <=? 8.64e15) = true ->
  let rows := firstRow :: rest in
  In column (getNumericColumns host rows) /\
  isDateValue host (VNumber n) = true /\
  (exists dateColumn, getDateColumn host rows = Some dateColumn) /\
  (forall pre post, Object_keys firstRow = (pre ++ column :: post)%list ->
     (forall key, In key pre -> isDateValue host (get firstRow key) = false) ->
     getDateColumn host rows = Some column) /\
  (getDateColumn host rows = Some column -> column <> ""%string ->
   (forall out i, identifyTrends host rows = Normal out ->
      (In i out /\ insight_column i = Some column
       <-> In i (trend_of_column host rows column column))) /\
   (forall out i, generatePredictions host rows = Normal out ->
      (In i out /\ insight_column i = Some column
       <-> In i (prediction_of_column host rows column column)))) /\
  (forall v, ToBoolean v = false -> isDateValue host v = false) /\
  isDateValue host (VNumber 0) = false /\ isDateValue host (VString "") = false.
Proof.
  intros Hk Hv Ht Hf Hr rows.
  assert (Hnum : In column (getNumericColumns host rows))
    by (apply number_is_numeric with (n := n); assumption).
  assert (Hdate : isDateValue host (VNumber n) = true)
    by (apply number_is_date; assumption).
  split; [exact Hnum|]. split; [exact Hdate|]. split; [|split; [|split; [|split; [|split]]]].
  - cbn [rows getDateColumn].
    apply find_some_exists with (a := column); [exact Hk | rewrite Hv; exact Hdate].
  - intros pre post Hkeys Hpre. cbn [rows getDateColumn]. rewrite Hkeys.
    apply find_some_first; [exact Hpre | rewrite Hv; exact Hdate].
  - intros Hd Hname. split.
    + intros out i Hout. rewrite identifyTrends_returns in Hout. injection Hout as <-.
      unfold trends_of. rewrite Hd, (no_column_named column Hname). cbn [column_name].
      apply (flat_map_tagged (trend_of_column host rows column) insight_column
               (getNumericColumns host rows)
               (fun k j H => proj1 (trend_of_column_tag host rows column k j H))
               column Hnum).
    + intros out i Hout. rewrite generatePredictions_returns in Hout. injection Hout as <-.
      unfold predictions_of. rewrite Hd, (no_column_named column Hname).
      cbn [column_name orb].
      destruct (length rows <? 5)%nat eqn:L.
      * cbn [flat_map In]. split; [tauto|]. intros Hin. exfalso.
        unfold prediction_of_column in Hin. apply in_singleton_or_nil in Hin.
        destruct Hin as [Hin _]. apply andb_prop in Hin. destruct Hin as [Hin _].
        apply Nat.leb_le in Hin. apply Nat.ltb_lt in L.
        assert (length (prepareTimeSeriesData host rows column column) <= length rows).
        { unfold prepareTimeSeriesData. rewrite Array_sort_length.
          etransitivity; [apply filter_length_le|]. rewrite length_map. reflexivity. }
        lia.
      * apply (flat_map_tagged (prediction_of_column host rows column) insight_column
                 (getNumericColumns host rows)
                 (fun k j H => proj1 (prediction_of_column_tag host rows column k j H))
                 column Hnum).
  - apply falsy_is_no_date.
  - reflexivity.
  - reflexivity.
Qed.

Lemma C10_numeric_column_as_date_witness :
  getDateColumn Reference.host Examples.growing = Some "t"%string /\
  In "t"%string (getNumericColumns Reference.host Examples.growing).
Proof.
  destruct (C10_numeric_column_as_date Reference.host (Examples.row 1 10)
              (tl Examples.growing) "t" 1
              ltac:(vm_compute; auto) ltac:(vm_compute; reflexivity)
              ltac:(vm_compute; reflexivity) ltac:(vm_compute; reflexivity)
              ltac:(vm_compute; reflexivity))
    as (Hnum & _ & _ & Hfirst & _).
  split; [|exact Hnum].
  apply (Hfirst [] ["v"%string]); [reflexivity | intros key []].
Defined.

(** C10 as stated fails: 1e16 is a truthy finite Number and the column is
    numeric, but [new Date(1e16)] is an invalid date, so the column does not
    pass the date test and the dataset has no date column. *)
Lemma C10_counterexample :
  Num.truthy 1e16 = true /\ is_finite 1e16 = true /\
  In "a"%string (getNumericColumns Reference.host Examples.far_number) /\
  isDateValue Reference.host (VNumber 1e16) = false /\
  getDateColumn Reference.host Examples.far_number = None.
Proof. vm_compute. repeat split; auto. Qed.

(** ** Ranking *)

(** C1, as amended.  When no analyzer emits a [NaN] confidence, the
    sequence returned by the entry point is the concatenation of the five
    analyzers' outputs in the order trend, correlation, anomaly, segment,
    prediction, stably sorted by descending confidence: it is a
    rearrangement of the concatenation, non-increasing in confidence, and
    the insights of any one confidence appear in the order of the
    concatenation. *)
Theorem C1_ranked_by_confidence (host : Host) (rows : dataset)
  (trends correlations anomalies segments predictions : list AnalysisInsight) :
  identifyTrends host rows = Normal trends ->
  findCorrelations host rows = Normal correlations ->
  detectAnomalies host rows = Normal anomalies ->
  performSegmentation host rows = Normal segments ->
  generatePredictions host rows = Normal predictions ->
  let concatenation := trends ++ correlations ++ anomalies ++ segments ++ predictions in
  Forall (fun i => is_nan (confidence i) = false) concatenation ->
  exists insights,
    generateInsights host rows = Normal insights /\
    Permutation concatenation insights /\
    StronglySorted (fun a b => (confidence b <=? confidence a) = true) insights /\
    (forall c, filter (fun i => confidence i =? c) insights
               = filter (fun i => confidence i =? c) concatenation).
Proof.
  intros Ht Hc Ha Hs Hp concatenation Hnan.
  rewrite identifyTrends_returns in Ht. injection Ht as <-.
  rewrite findCorrelations_returns in Hc. injection Hc as <-.
  rewrite detectAnomalies_returns in Ha. injection Ha as <-.
  rewrite performSegmentation_returns in Hs. injection Hs as <-.
  rewrite generatePredictions_returns in Hp. injection Hp as <-.
  exists (Array_sort by_confidence_descending concatenation). split.
  - rewrite generateInsights_returns. reflexivity.
  - exact (sort_descending confidence concatenation Hnan).
Qed.

Lemma C1_ranked_by_confidence_witness :
  exists insights,
    generateInsights Reference.host Examples.with_outlier = Normal insights /\
    StronglySorted (fun a b => (confidence b <=? confidence a) = true) insights.
Proof.
  destruct (C1_ranked_by_confidence Reference.host Examples.with_outlier
              _ _ _ _ _
              (identifyTrends_returns _ _) (findCorrelations_returns _ _)
              (detectAnomalies_returns _ _) (performSegmentation_returns _ _)
              (generatePredictions_returns _ _))
    as (insights & H1 & _ & H3 & _).
  - vm_compute. repeat constructor.
  - exists insights. split; assumption.
Defined.

(** C1 as stated fails: a series whose squares overflow gets a trend
    insight whose confidence is [NaN], and no arrangement of a sequence
    that holds a [NaN] next to another confidence is non-increasing. *)
Lemma C1_counterexample :
  exists insights,
    generateInsights Reference.host Examples.overflowing = Normal insights /\
    map confidence insights = [95; nan] /\
    forall arrangement, Permutation insights arrangement ->
      ~ StronglySorted (fun a b => (confidence b <=? confidence a) = true) arrangement.
Proof.
  eexists. split; [vm_compute; reflexivity|]. split; [reflexivity|].
  intros arrangement P S.
  pose proof (Permutation_length P) as L.
  destruct arrangement as [|a [|b [|c l]]]; try discriminate L.
  inversion S as [|? ? _ F]; subst. inversion F as [|? ? Hab _]; subst.
  assert (Hin : forall i, In i [a; b] -> confidence i = 95 \/ confidence i = nan).
  { intros i Hi. apply (Permutation_in _ (Permutation_sym P)) in Hi.
    destruct Hi as [<-|[<-|[]]]; auto. }
  assert (Hnan : In nan (map confidence [a; b])).
  { apply (Permutation_in _ (Permutation_map confidence P)). right. left. reflexivity. }
  destruct (Hin a (or_introl eq_refl)) as [Ea|Ea];
    destruct (Hin b (or_intror (or_introl eq_refl))) as [Eb|Eb];
    cbn [map] in Hnan; rewrite Ea, Eb in *; vm_compute in Hab; try discriminate Hab.
  destruct Hnan as [H|[H|[]]]; apply (f_equal is_nan) in H; vm_compute in H; discriminate H.
Qed.

(** ** Confidence *)

Section ConfidenceFacts.

Variable host : Host.

Import Num NumFacts.

Lemma above_threshold_positive (t x : float) :
  (0 <=? t) = true -> (t <? x) = true -> (0 <? x) = true.
Proof.
  intros Ht Hx.
  destruct (ltb_not_nan _ _ Hx) as [Nt Nx]. destruct (leb_not_nan _ _ Ht) as [N0 _].
  rewrite ltb_frank in * by assumption. rewrite leb_frank in Ht by assumption.
  apply Z.ltb_lt. apply Z.ltb_lt in Hx. apply Z.leb_le in Ht. lia.
Qed.

Lemma capped_confidence (x cap : float) :
  is_nan cap = false ->
  is_nan (Math_min x cap) = true \/ (Math_min x cap <=? cap) = true.
Proof.
  intros Nc. destruct (is_nan x) eqn:Nx.
  - left. apply Math_min_nan. auto.
  - right. apply Math_min_bounds; assumption.
Qed.

Lemma trend_confidence (rows : dataset) (dateColumn column : string) (i : AnalysisInsight) :
  In i (trend_of_column host rows dateColumn column) ->
  type i = trend /\
  (is_nan (confidence i) = true \/ (confidence i <=? 95) = true).
Proof.
  unfold trend_of_column. intros H. apply in_singleton_or_nil in H. destruct H as [_ ->].
  cbn [type confidence]. split; [reflexivity|]. apply capped_confidence. reflexivity.
Qed.

Lemma correlation_confidence (rows : dataset) (col1 col2 : string) (i : AnalysisInsight) :
  In i (correlation_of_pair host rows col1 col2) ->
  type i = correlation /\ (0 <=? confidence i) = true /\
  (forall c1 c2 r strength direction,
     data i = CorrelationData c1 c2 r strength direction ->
     (Math_abs r <=? 1) = true -> (confidence i <=? 100) = true).
Proof.
  unfold correlation_of_pair.
  destruct (_ && _); [|intros []].
  destruct (sampleCorrelation host _ _) as [r|e]; [|intros []].
  intros H. apply in_singleton_or_nil in H. destruct H as [Hr ->].
  cbn [type confidence data].
  assert (Hpos : (0 <? Math_abs r) = true)
    by (apply above_threshold_positive with (t := 0.5); [reflexivity | exact Hr]).
  split; [reflexivity|]. split.
  - apply mul_positive; [exact Hpos | reflexivity].
  - intros c1 c2 r' strength direction E Hle. injection E as _ _ <- _ _.
    apply percent_at_most_100; [|exact Hle].
    destruct (ltb_not_nan _ _ Hpos) as [N0 Nr].
    rewrite leb_frank by assumption. rewrite ltb_frank in Hpos by assumption.
    apply Z.leb_le. apply Z.ltb_lt in Hpos. lia.
Qed.

Lemma column_values_length (rows : dataset) (column : string) :
  (length (column_values host rows column) <= length rows)%nat.
Proof.
  unfold column_values. etransitivity; [apply filter_length_le|].
  rewrite length_map. reflexivity.
Qed.

Lemma anomaly_confidence (rows : dataset) (column : string) (i : AnalysisInsight) :
  (Z.of_nat (length rows) < 2 ^ 32)%Z ->
  In i (anomaly_of_column host rows column) ->
  type i = anomaly /\ (0 <=? confidence i) = true /\ (confidence i <=? 90) = true.
Proof.
  intros Hsize. unfold anomaly_of_column.
  destruct (10 <=? length (column_values host rows column))%nat eqn:L; [|intros []].
  destruct (mean host _) as [m|e]; [|intros []].
  destruct (standardDeviation host _) as [sd|e]; [|intros []].
  intros H. apply in_singleton_or_nil in H. destruct H as [_ ->].
  cbn [type confidence]. split; [reflexivity|].
  apply Nat.leb_le in L.
  pose proof (column_values_length rows column) as Hv.
  assert (Hf : (length (anomalous_rows host rows column m (2 * sd)) <= length rows)%nat)
    by (unfold anomalous_rows; apply filter_length_le).
  apply ratio_confidence_bounds; try lia.
  - eexists. eexists. vm_compute. reflexivity.
  - reflexivity.
Qed.

Lemma prediction_confidence (rows : dataset) (dateColumn column : string)
  (i : AnalysisInsight) :
  In i (prediction_of_column host rows dateColumn column) ->
  type i = prediction /\ (0 <=? confidence i) = true /\ (confidence i <=? 85) = true.
Proof.
  unfold prediction_of_column. intros H. apply in_singleton_or_nil in H.
  destruct H as [Hg ->]. cbn [type confidence]. split; [reflexivity|].
  apply andb_prop in Hg. destruct Hg as [_ Hr].
  apply scaled_confidence_bounds with (threshold := 0.3); try reflexivity. exact Hr.
Qed.

End ConfidenceFacts.

(** C4, as amended.  For a dataset of fewer than 2^32 records (every
    array), each insight the entry point returns has a confidence bounded by
    its type: a trend insight's is [NaN] or at most 95, an anomaly insight's
    lies in [0, 90], a prediction insight's in [0, 85], a segment insight's
    is 75, and a correlation insight's is at least 0 and, when the
    coefficient the imported routine returned lies within [-1, 1], at most
    100. *)
Theorem C4_confidence_by_type (host : Host) (rows : dataset)
  (insights : list AnalysisInsight) :
  (Z.of_nat (length rows) < 2 ^ 32)%Z ->
  generateInsights host rows = Normal insights ->
  forall i, In i insights ->
    match type i with
    | trend => is_nan (confidence i) = true \/ (confidence i <=? 95) = true
    | correlation =>
        (0 <=? confidence i) = true /\
        (forall c1 c2 r strength direction,
           data i = CorrelationData c1 c2 r strength direction ->
           (Num.Math_abs r <=? 1) = true -> (confidence i <=? 100) = true)
    | anomaly => (0 <=? confidence i) = true /\ (confidence i <=? 90) = true
    | prediction => (0 <=? confidence i) = true /\ (confidence i <=? 85) = true
    | segment => confidence i = 75
    end.
Proof.
  intros Hsize Hout i Hi.
  rewrite generateInsights_returns in Hout. injection Hout as <-.
  apply Array_sort_In in Hi. unfold generated in Hi.
  repeat (apply in_app_or in Hi; destruct Hi as [Hi|Hi]).
  - unfold trends_of in Hi. destruct (no_column _); [destruct Hi|].
    apply in_flat_map in Hi. destruct Hi as (c & _ & Hi).
    apply trend_confidence in Hi. destruct Hi as [-> Hi]. exact Hi.
  - unfold correlations_of in Hi. apply in_flat_map in Hi. destruct Hi as (p & _ & Hi).
    apply correlation_confidence in Hi. destruct Hi as [-> Hi]. exact Hi.
  - unfold anomalies_of in Hi. apply in_flat_map in Hi. destruct Hi as (c & _ & Hi).
    apply anomaly_confidence in Hi; [|exact Hsize]. destruct Hi as [-> Hi]. exact Hi.
  - apply segments_insight_of_tag in Hi. destruct Hi as [-> Hi]. exact Hi.
  - unfold predictions_of in Hi. destruct (_ || _); [destruct Hi|].
    apply in_flat_map in Hi. destruct Hi as (c & _ & Hi).
    apply prediction_confidence in Hi. destruct Hi as [-> Hi]. exact Hi.
Qed.

Lemma C4_confidence_by_type_witness :
  Forall (fun i =>
            match type i with
            | trend => is_nan (confidence i) = true \/ (confidence i <=? 95) = true
            | correlation =>
                (0 <=? confidence i) = true /\
                (forall c1 c2 r strength direction,
                   data i = CorrelationData c1 c2 r strength direction ->
                   (Num.Math_abs r <=? 1) = true -> (confidence i <=? 100) = true)
            | anomaly => (0 <=? confidence i) = true /\ (confidence i <=? 90) = true
            | prediction => (0 <=? confidence i) = true /\ (confidence i <=? 85) = true
            | segment => confidence i = 75
            end)
         (Array_sort by_confidence_descending
            (generated Reference.host Examples.with_outlier)).
Proof.
  apply Forall_forall.
  apply (C4_confidence_by_type Reference.host Examples.with_outlier).
  - vm_compute. reflexivity.
  - apply generateInsights_returns.
Defined.

(** C4 as stated fails.  A column that holds one 18-digit value seven
    times gets, from the rounding of the sums, a slope of -10.4 and an [R^2]
    of -1.7: the entry point returns a trend insight of confidence -171.4.
    A series whose squares overflow gets a trend insight whose confidence is
    [NaN], which is neither at least 0 nor at most 100. *)
Lemma C4_counterexample :
  (exists insights,
     generateInsights Reference.host Examples.constant_column = Normal insights /\
     map (fun i => (type i, title i, confidence i)) insights
     = [ (trend, "Upward Trend in t"%string, 95);
         (prediction, "Predicted Next Value for t"%string, 85);
         (trend, "Downward Trend in v"%string, -171.42857142857144) ]) /\
  (0 <=? -171.42857142857144) = false /\
  (exists insights,
     generateInsights Reference.host Examples.overflowing = Normal insights /\
     map (fun i => (type i, title i, is_nan (confidence i),
                    (0 <=? confidence i, confidence i <=? 100))) insights
     = [ (trend, "Upward Trend in t"%string, false, (true, true));
         (trend, "Upward Trend in v"%string, true, (false, false)) ]).
Proof.
  split; [|split].
  - eexists. split; vm_compute; reflexivity.
  - reflexivity.
  - eexists. split; vm_compute; reflexivity.
Qed.

(** With [simple-statistics] as the reference host has it, two columns
    that are exactly proportional have [r = 1.0000000000000002]: a
    correlation insight of confidence above 100. *)
Example proportional_columns_above_100 :
  map (fun i => (type i, confidence i))
      (correlations_of Reference.host Examples.growing)
  = [(correlation, 100.00000000000003)] /\
  (100.00000000000003 <=? 100) = false.
Proof. vm_compute. split; reflexivity. Qed.

(** A host whose [mean] throws loses the anomaly insight of the reference
    host and nothing else. *)
Example failing_mean_loses_only_anomalies :
  (exists insights,
     generateInsights Reference.host Examples.with_outlier = Normal insights /\
     map title insights
     = ["Upward Trend in t"; "Predicted Next Value for t"; "Data Segmented into 3 Groups";
        "1 Anomaly in v"; "Upward Trend in v"]%string) /\
  (exists insights,
     generateInsights Examples.failing_mean Examples.with_outlier = Normal insights /\
     map title insights
     = ["Upward Trend in t"; "Predicted Next Value for t"; "Data Segmented into 3 Groups";
        "Upward Trend in v"]%string).
Proof. split; eexists; split; vm_compute; reflexivity. Qed.

(** ** Correlations *)

Section CorrelationFacts.

Variable host : Host.

Local Open Scope string_scope.
Local Open Scope float_scope.

(** The pairs the nested loops meet: the columns at positions [i < j]. *)
Lemma column_pairs_spec (l : list string) (col1 col2 : string) :
  In (col1, col2) (column_pairs l) <->
  exists i j, (i < j < length l)%nat /\ nth i l "" = col1 /\ nth j l "" = col2.
Proof.
  unfold column_pairs. rewrite in_flat_map. split.
  - intros (i & Hi & Hp). apply in_seq in Hi. apply in_map_iff in Hp.
    destruct Hp as (j & E & Hj). apply in_seq in Hj. injection E as <- <-.
    exists i, j. repeat split; lia.
  - intros (i & j & Hij & <- & <-). exists i. split; [apply in_seq; lia|].
    apply in_map_iff. exists j. split; [reflexivity | apply in_seq; lia].
Qed.

Lemma correlation_of_pair_cases (rows : dataset) (col1 col2 : string) (i : AnalysisInsight) :
  let values1 := column_values host rows col1 in
  let values2 := column_values host rows col2 in
  In i (correlation_of_pair host rows col1 col2) <->
  length values1 = length values2 /\ (3 <= length values1)%nat /\
  exists r, sampleCorrelation host values1 values2 = Normal r /\
            (0.5 <? Num.Math_abs r) = true /\
            i = {| type := correlation;
                   title := capitalize (if 0.8 <? Num.Math_abs r then "strong" else "moderate")
                            ++ " " ++ (if 0 <? r then "positive" else "negative")
                            ++ " correlation";
                   confidence := Num.Math_abs r * 100;
                   data := CorrelationData col1 col2 r
                             (if 0.8 <? Num.Math_abs r then "strong" else "moderate")
                             (if 0 <? r then "positive" else "negative") |}.
Proof.
  intros values1 values2. unfold correlation_of_pair. fold values1 values2.
  destruct (length values1 =? length values2)%nat eqn:E1; cbn [andb].
  - apply Nat.eqb_eq in E1.
    destruct (3 <=? length values1)%nat eqn:E2.
    + apply Nat.leb_le in E2.
      destruct (sampleCorrelation host values1 values2) as [r|e].
      * rewrite in_singleton_or_nil. split.
        -- intros [Hr ->]. repeat split; try assumption. exists r. auto.
        -- intros (_ & _ & r' & Hr' & Hg & ->). injection Hr' as <-. auto.
      * split; [intros []|]. intros (_ & _ & r' & Hr' & _). discriminate.
    + apply Nat.leb_gt in E2. split; [intros []|]. intros (_ & H & _). lia.
  - apply Nat.eqb_neq in E1. split; [intros []|]. intros (H & _). contradiction.
Qed.

(** Two columns that fail to parse on the same rows: filtering each on its
    own is filtering the rows. *)
Lemma column_values_in_step (rows : dataset) (col1 col2 : string) :
  (forall row, In row rows ->
     is_nan (parseFloat host (get row col1)) = is_nan (parseFloat host (get row col2))) ->
  combine (column_values host rows col1) (column_values host rows col2)
  = rows_where_both_parse host rows col1 col2 /\
  length (column_values host rows col1) = length (column_values host rows col2).
Proof.
  unfold column_values, rows_where_both_parse, isNaN.
  induction rows as [|row rows IH]; intros H; [split; reflexivity|].
  cbn [map filter fst snd].
  rewrite <- (H row (or_introl eq_refl)).
  destruct (IH (fun r Hr => H r (or_intror Hr))) as [IH1 IH2].
  destruct (is_nan (parseFloat host (get row col1))); cbn [negb andb].
  - split; assumption.
  - cbn [combine length]. rewrite IH1, IH2. split; reflexivity.
Qed.

End CorrelationFacts.

(** C6, as amended.  For every pair of numeric columns at positions
    [i < j], [findCorrelations] passes to [sampleCorrelation] the two lists
    of values that parse, each column filtered on its own and the two lists
    paired by position; it skips the pair when the lists differ in length or
    have fewer than 3 elements, and emits a correlation insight if and only
    if [sampleCorrelation] returns an [r] with [|r| > 0.5], with confidence
    [|r| * 100] and strength "strong" exactly when [|r| > 0.8].  The paired
    lists are the rows where both values parse when the two columns fail to
    parse on the same rows. *)
Theorem C6_correlation_emission (host : Host) (rows : dataset) (col1 col2 : string)
  (out : list AnalysisInsight) :
  In (col1, col2) (column_pairs (getNumericColumns host rows)) ->
  findCorrelations host rows = Normal out ->
  let values1 := column_values host rows col1 in
  let values2 := column_values host rows col2 in
  (exists i j, (i < j < length (getNumericColumns host rows))%nat /\
               nth i (getNumericColumns host rows) ""%string = col1 /\
               nth j (getNumericColumns host rows) ""%string = col2) /\
  ((exists i, In i out /\ insight_pair i = Some (col1, col2)) <->
   length values1 = length values2 /\ (3 <= length values1)%nat /\
   exists r, sampleCorrelation host values1 values2 = Normal r /\
             (0.5 <? Num.Math_abs r) = true) /\
  (forall i, In i out -> insight_pair i = Some (col1, col2) ->
   exists r, sampleCorrelation host values1 values2 = Normal r /\
             type i = correlation /\
             confidence i = Num.Math_abs r * 100 /\
             data i = CorrelationData col1 col2 r
                        (if 0.8 <? Num.Math_abs r then "strong" else "moderate")
                        (if 0 <? r then "positive" else "negative")) /\
  ((forall row, In row rows ->
      is_nan (parseFloat host (get row col1)) = is_nan (parseFloat host (get row col2))) ->
   combine values1 values2 = rows_where_both_parse host rows col1 col2).
Proof.
  intros Hpair Hout values1 values2.
  rewrite findCorrelations_returns in Hout. injection Hout as <-. unfold correlations_of.
  pose proof (flat_map_tagged
                (fun pair => correlation_of_pair host rows (fst pair) (snd pair))
                insight_pair (column_pairs (getNumericColumns host rows))
                (fun k i H => eq_trans
                                (proj1 (correlation_of_pair_tag host rows (fst k) (snd k) i H))
                                (f_equal Some (eq_sym (surjective_pairing k))))
                (col1, col2) Hpair) as T.
  cbn [fst snd] in T.
  pose proof (correlation_of_pair_cases host rows col1 col2) as C. cbv zeta in C.
  fold values1 values2 in C.
  split; [apply column_pairs_spec; exact Hpair|]. split; [|split].
  - split.
    + intros (i & Hi). apply T in Hi. apply C in Hi.
      destruct Hi as (H1 & H2 & r & Hr & Hg & _). eauto 6.
    + intros (H1 & H2 & r & Hr & Hg).
      eexists. apply T. apply C. split; [exact H1|]. split; [exact H2|].
      exists r. split; [exact Hr|]. split; [exact Hg | reflexivity].
  - intros i Hi Htag.
    assert (Hin : In i (correlation_of_pair host rows col1 col2)) by (apply T; auto).
    apply C in Hin. destruct Hin as (_ & _ & r & Hr & _ & ->).
    exists r. cbn. auto.
  - intros Hsame. apply column_values_in_step. exact Hsame.
Qed.

Lemma C6_correlation_emission_witness :
  exists i, In i [ {| type := correlation;
                      title := "Strong positive correlation";
                      confidence := 100.00000000000003;
                      data := CorrelationData "t" "v" 1.0000000000000002
                                              "strong" "positive" |} ]
            /\ insight_pair i = Some ("t"%string, "v"%string).
Proof.
  destruct (C6_correlation_emission Reference.host Examples.growing "t" "v"
              [ {| type := correlation;
                   title := "Strong positive correlation";
                   confidence := 100.00000000000003;
                   data := CorrelationData "t" "v" 1.0000000000000002
                                           "strong" "positive" |} ])
    as (_ & [_ H] & _).
  - vm_compute. auto.
  - vm_compute. reflexivity.
  - apply H. split; [vm_compute; reflexivity|]. split; [vm_compute; lia|].
    exists 1.0000000000000002. split; vm_compute; reflexivity.
Defined.

(** C6 as stated fails: columns [a] and [b] each have five values that
    parse, on different rows.  On the three rows where both parse the
    columns are equal, and their correlation is 1; [findCorrelations]
    correlates the five values of [a] with the five of [b] position by
    position instead, finds 0.094, and emits nothing. *)
Lemma C6_counterexample :
  In ("a"%string, "b"%string)
     (column_pairs (getNumericColumns Reference.host Examples.misaligned)) /\
  rows_where_both_parse Reference.host Examples.misaligned "a" "b"
  = [(1, 1); (2, 2); (3, 3)] /\
  Reference.sampleCorrelation [1; 2; 3] [1; 2; 3] = Normal 1 /\
  (0.5 <? Num.Math_abs 1) = true /\
  column_values Reference.host Examples.misaligned "a" = [1; 5; 9; 2; 3] /\
  column_values Reference.host Examples.misaligned "b" = [1; 9; 1; 2; 3] /\
  Reference.sampleCorrelation [1; 5; 9; 2; 3] [1; 9; 1; 2; 3]
  = Normal 0.094491118252306827 /\
  findCorrelations Reference.host Examples.misaligned = Normal [].
Proof. vm_compute. repeat split; auto. Qed.

(** ** Trends and predictions under a named date column *)

(** X1 (C5 under a named date column).  For every numeric column of a
    dataset whose date column has a non-empty name, [identifyTrends] emits a
    trend insight if and only if the series (the rows whose date and value
    parse, in chronological order) has at least 3 points and the
    least-squares slope of the values against the indices 0, 1, 2, ... has
    magnitude above 0.01; slope and intercept are the closed forms; the
    insight has confidence [min(R^2 * 100, 95)] and is titled "Upward" when
    the slope is positive and "Downward" otherwise. *)
Theorem trend_emission_named_date_column (host : Host) (rows : dataset)
  (dateColumn column : string) (out : list AnalysisInsight) :
  getDateColumn host rows = Some dateColumn -> dateColumn <> ""%string ->
  In column (getNumericColumns host rows) ->
  identifyTrends host rows = Normal out ->
  let parsed :=
    filter (fun point => negb (is_nan (date point)) && negb (is_nan (value point)))
           (map (fun row => {| date := new_Date host (get row dateColumn);
                               value := parseFloat host (get row column) |}) rows) in
  let series := prepareTimeSeriesData host rows dateColumn column in
  let x := LeastSquares.indices (length series) in
  let y := map (fun point => value point) series in
  (Permutation parsed series /\
   StronglySorted (fun a b => (date a <=? date b) = true) series) /\
  (_slope (Regression.new x y) = LeastSquares.slope x y /\
   _intercept (Regression.new x y) = LeastSquares.intercept x y) /\
  ((exists i, In i out /\ insight_column i = Some column) <->
   (3 <= length series)%nat /\ (0.01 <? Num.Math_abs (LeastSquares.slope x y)) = true) /\
  (forall i, In i out -> insight_column i = Some column ->
     type i = trend /\
     confidence i = Num.Math_min (LeastSquares.rSquared x y * 100) 95 /\
     title i = String.append
                 (if 0 <? LeastSquares.slope x y then "Upward"%string else "Downward"%string)
                 (String.append " Trend in " column) /\
     data i = TrendData column (LeastSquares.slope x y) (LeastSquares.rSquared x y) series).
Proof.
  intros Hd Hname Hcol Hout parsed series x y.
  pose proof (trend_emission host rows dateColumn column out Hd Hname Hcol Hout) as T.
  cbv zeta in T. fold series x y in T.
  split; [|split; [|split]].
  - destruct (prepareTimeSeriesData_sorted host rows dateColumn column) as (P & S & _).
    split; assumption.
  - apply fit_closed_form. unfold x, y, LeastSquares.indices.
    rewrite indices_length, length_map. reflexivity.
  - split.
    + intros (i & Hi). apply T in Hi. tauto.
    + intros Hg. eexists. apply T. split; [exact Hg | reflexivity].
  - intros i Hi Htag. destruct (proj1 (T i) (conj Hi Htag)) as [_ ->]. cbn. auto.
Qed.

Lemma trend_emission_named_date_column_witness :
  exists i, In i [ {| type := trend; title := "Upward Trend in t"; confidence := 95;
                      data := TrendData "t" 1 1
                                (map (fun k => {| date := Num.of_nat k; value := Num.of_nat k |})
                                     (seq 1 5)) |};
                   {| type := trend; title := "Upward Trend in v"; confidence := 95;
                      data := TrendData "v" 10 1
                                (map (fun k => {| date := Num.of_nat k;
                                                  value := Num.of_nat (10 * k) |})
                                     (seq 1 5)) |} ]
            /\ insight_column i = Some "v"%string.
Proof.
  destruct (trend_emission_named_date_column Reference.host Examples.named_header "t" "v"
              [ {| type := trend; title := "Upward Trend in t"; confidence := 95;
                   data := TrendData "t" 1 1
                             (map (fun k => {| date := Num.of_nat k; value := Num.of_nat k |})
                                  (seq 1 5)) |};
                {| type := trend; title := "Upward Trend in v"; confidence := 95;
                   data := TrendData "v" 10 1
                             (map (fun k => {| date := Num.of_nat k;
                                               value := Num.of_nat (10 * k) |})
                                  (seq 1 5)) |} ])
    as (_ & _ & [_ H] & _).
  - vm_compute. reflexivity.
  - discriminate.
  - vm_compute. auto.
  - vm_compute. reflexivity.
  - apply H. split; [vm_compute; lia | vm_compute; reflexivity].
Defined.

(** C5 on a dataset whose date column has the empty name.  The first
    column is the date column, the series of [v] has 5 points and slope 10,
    and [identifyTrends] returns nothing: [!dateColumn] reads the empty name
    as no date column.  With the column named, it returns both trends. *)
Lemma C5_blank_header_no_trend :
  getDateColumn Reference.host Examples.blank_header = Some ""%string /\
  In "v"%string (getNumericColumns Reference.host Examples.blank_header) /\
  (let series := prepareTimeSeriesData Reference.host Examples.blank_header "" "v" in
   let x := LeastSquares.indices (length series) in
   let y := map (fun point => value point) series in
   length series = 5%nat /\ LeastSquares.slope x y = 10 /\
   (0.01 <? Num.Math_abs (LeastSquares.slope x y)) = true) /\
  identifyTrends Reference.host Examples.blank_header = Normal [] /\
  (exists named, identifyTrends Reference.host Examples.named_header = Normal named /\
                 map title named = ["Upward Trend in t"; "Upward Trend in v"]%string).
Proof.
  split; [vm_compute; reflexivity|]. split; [vm_compute; auto|].
  split; [vm_compute; auto|]. split; [vm_compute; reflexivity|].
  eexists. split; vm_compute; reflexivity.
Qed.

(** X2 (C8 under a named date column).  For every numeric column of a
    dataset whose date column has a non-empty name, [generatePredictions]
    emits a prediction insight if and only if the series has at least 5
    points and the fit of [identifyTrends] has [R^2 > 0.3]; the prediction
    is the fitted line at the index one past the last, and the confidence is
    [min(R^2 * 100, 85)].  The slope plays no part in the condition. *)
Theorem prediction_emission_named_date_column (host : Host) (rows : dataset)
  (dateColumn column : string) (out : list AnalysisInsight) :
  getDateColumn host rows = Some dateColumn -> dateColumn <> ""%string ->
  In column (getNumericColumns host rows) ->
  generatePredictions host rows = Normal out ->
  let series := prepareTimeSeriesData host rows dateColumn column in
  let x := LeastSquares.indices (length series) in
  let y := map (fun point => value point) series in
  trend_rSquared (calculateTrend series) = LeastSquares.rSquared x y /\
  ((exists i, In i out /\ insight_column i = Some column) <->
   (5 <= length series)%nat /\ (0.3 <? LeastSquares.rSquared x y) = true) /\
  (forall i, In i out -> insight_column i = Some column ->
     type i = prediction /\
     confidence i = Num.Math_min (LeastSquares.rSquared x y * 100) 85 /\
     data i = PredictionData column
                (LeastSquares.slope x y * Num.of_nat (length series)
                 + LeastSquares.intercept x y)
                (LeastSquares.rSquared x y)
                (LeastSquares.slope x y) (LeastSquares.intercept x y)).
Proof.
  intros Hd Hname Hcol Hout series x y.
  pose proof (prediction_emission host rows dateColumn column out Hd Hname Hcol Hout) as T.
  cbv zeta in T. fold series x y in T.
  split; [|split].
  - apply calculateTrend_closed_form.
  - split.
    + intros (i & Hi). apply T in Hi. tauto.
    + intros Hg. eexists. apply T. split; [exact Hg | reflexivity].
  - intros i Hi Htag. destruct (proj1 (T i) (conj Hi Htag)) as [_ ->]. cbn. auto.
Qed.

(** A column that gets a prediction and no trend: the slope of [v] is a
    thousandth and the fit is perfect. *)
Example prediction_without_trend :
  map insight_column (predictions_of Reference.host Examples.creeping)
  = [Some "t"%string; Some "v"%string] /\
  map insight_column (trends_of Reference.host Examples.creeping) = [Some "t"%string].
Proof. vm_compute. split; reflexivity. Qed.

(** A column that gets a trend and no prediction: the outlier gives [v] a
    slope of 3.47 and an [R^2] of 0.002. *)
Example trend_without_prediction :
  map insight_column (trends_of Reference.host Examples.with_outlier)
  = [Some "t"%string; Some "v"%string] /\
  map insight_column (predictions_of Reference.host Examples.with_outlier)
  = [Some "t"%string].
Proof. vm_compute. split; reflexivity. Qed.

Lemma prediction_emission_named_date_column_witness :
  exists i, In i [ {| type := prediction; title := "Predicted Next Value for t";
                      confidence := 85; data := PredictionData "t" 6 1 1 1 |};
                   {| type := prediction; title := "Predicted Next Value for v";
                      confidence := 85; data := PredictionData "v" 60 1 10 10 |} ]
            /\ insight_column i = Some "v"%string.
Proof.
  destruct (prediction_emission_named_date_column Reference.host Examples.named_header
              "t" "v"
              [ {| type := prediction; title := "Predicted Next Value for t";
                   confidence := 85; data := PredictionData "t" 6 1 1 1 |};
                {| type := prediction; title := "Predicted Next Value for v";
                   confidence := 85; data := PredictionData "v" 60 1 10 10 |} ])
    as (_ & [_ H] & _).
  - vm_compute. reflexivity.
  - discriminate.
  - vm_compute. auto.
  - vm_compute. reflexivity.
  - apply H. split; [vm_compute; lia | vm_compute; reflexivity].
Defined.

(** C8 on a dataset whose date column has the empty name: the series of
    [v] has 5 points and [R^2 = 1], and [generatePredictions] returns
    nothing, for the reason [identifyTrends] does.  With the column named it
    returns both predictions. *)
Lemma C8_blank_header_no_prediction :
  getDateColumn Reference.host Examples.blank_header = Some ""%string /\
  In "v"%string (getNumericColumns Reference.host Examples.blank_header) /\
  (let series := prepareTimeSeriesData Reference.host Examples.blank_header "" "v" in
   let x := LeastSquares.indices (length series) in
   let y := map (fun point => value point) series in
   length series = 5%nat /\ LeastSquares.rSquared x y = 1 /\
   (0.3 <? LeastSquares.rSquared x y) = true) /\
  generatePredictions Reference.host Examples.blank_header = Normal [] /\
  (exists named, generatePredictions Reference.host Examples.named_header = Normal named /\
                 map title named
                 = ["Predicted Next Value for t"; "Predicted Next Value for v"]%string).
Proof.
  split; [vm_compute; reflexivity|]. split; [vm_compute; auto|].
  split; [vm_compute; auto|]. split; [vm_compute; reflexivity|].
  eexists. split; vm_compute; reflexivity.
Qed.

(* ================================================================== *)
(** * Part 10. Further properties of the engine                         *)
(* ================================================================== *)

(** ** The series of a column *)

(** X3. For any date column and value column, [prepareTimeSeriesData]
    returns one point for each record whose date and value both parse and
    nothing else, so never more points than records and never a [NaN]; the
    points are in ascending order of time, and the points of one time keep
    the order of their records. *)
Theorem prepareTimeSeriesData_chronological (host : Host) (rows : dataset)
  (dateColumn valueColumn : string) :
  let point_of := fun row => {| date := new_Date host (get row dateColumn);
                                value := parseFloat host (get row valueColumn) |} in
  let series := prepareTimeSeriesData host rows dateColumn valueColumn in
  (length series <= length rows)%nat /\
  (forall p, In p series <->
             exists row, In row rows /\ p = point_of row /\
                         is_nan (date p) = false /\ is_nan (value p) = false) /\
  StronglySorted (fun a b => (date a <=? date b) = true) series /\
  (forall t, filter (fun p => date p =? t) series
             = filter (fun p => (date p =? t) && negb (is_nan (value p)))
                      (map point_of rows)).
Proof.
  intros point_of series.
  destruct (prepareTimeSeriesData_sorted host rows dateColumn valueColumn) as (P & S & F).
  cbv zeta in P, S, F. fold point_of in P, F. fold series in P, S, F.
  split; [|split; [|split]].
  - rewrite <- (Permutation_length P). etransitivity; [apply filter_length_le|].
    rewrite length_map. reflexivity.
  - intros p. split.
    + intros Hp. apply (Permutation_in _ (Permutation_sym P)) in Hp.
      apply filter_In in Hp. destruct Hp as [Hp Hv].
      apply in_map_iff in Hp. destruct Hp as (row & <- & Hrow).
      apply andb_prop in Hv. destruct Hv as [Hd Hv].
      apply negb_true_iff in Hd, Hv.
      exists row. auto.
    + intros (row & Hrow & -> & Hd & Hv). apply (Permutation_in _ P).
      apply filter_In. split; [apply in_map; exact Hrow|].
      unfold isNaN. rewrite Hd, Hv. reflexivity.
  - exact S.
  - intros t. rewrite F. clear P S F.
    induction (map point_of rows) as [|p l IH]; [reflexivity|].
    cbn [filter]. unfold isNaN in *.
    destruct (is_nan (date p)) eqn:Nd; cbn [negb andb].
    + replace (date p =? t) with false; [cbn [andb]; exact IH|].
      symmetry. destruct (date p =? t) eqn:E; [|reflexivity].
      apply NumFacts.eqb_not_nan in E. destruct E as [E _]. congruence.
    + destruct (is_nan (value p)); cbn [negb andb filter].
      * rewrite andb_false_r. exact IH.
      * rewrite andb_true_r. destruct (date p =? t); [f_equal|]; exact IH.
Qed.

(** ** Where the insights come from *)

Section OutputFacts.

Variable host : Host.

(** Where an insight of the output was made, by its type. *)
Lemma generated_by_type (rows : dataset) (i : AnalysisInsight) :
  In i (generated host rows) ->
  match type i with
  | trend => In i (trends_of host rows)
  | correlation => In i (correlations_of host rows)
  | anomaly => In i (anomalies_of host rows)
  | segment => In i (segments_insight_of host rows)
  | prediction => In i (predictions_of host rows)
  end.
Proof.
  unfold generated. intros Hi.
  repeat (apply in_app_or in Hi; destruct Hi as [Hi|Hi]).
  - pose proof Hi as Hi'. unfold trends_of in Hi. destruct (no_column _); [destruct Hi|].
    apply in_flat_map in Hi. destruct Hi as (c & _ & Hi).
    apply trend_of_column_tag in Hi. destruct Hi as [_ ->]. exact Hi'.
  - pose proof Hi as Hi'. unfold correlations_of in Hi.
    apply in_flat_map in Hi. destruct Hi as (c & _ & Hi).
    apply correlation_of_pair_tag in Hi. destruct Hi as [_ ->]. exact Hi'.
  - pose proof Hi as Hi'. unfold anomalies_of in Hi.
    apply in_flat_map in Hi. destruct Hi as (c & _ & Hi).
    apply anomaly_of_column_tag in Hi. destruct Hi as [_ ->]. exact Hi'.
  - pose proof Hi as Hi'. apply segments_insight_of_tag in Hi. destruct Hi as [-> _]. exact Hi'.
  - pose proof Hi as Hi'. unfold predictions_of in Hi. destruct (_ || _); [destruct Hi|].
    apply in_flat_map in Hi. destruct Hi as (c & _ & Hi).
    apply prediction_of_column_tag in Hi. destruct Hi as [_ ->]. exact Hi'.
Qed.

Lemma in_trends_of (rows : dataset) (i : AnalysisInsight) :
  In i (trends_of host rows) ->
  exists name column,
    getDateColumn host rows = Some name /\ name <> ""%string /\
    In column (getNumericColumns host rows) /\
    In i (trend_of_column host rows name column).
Proof.
  unfold trends_of. destruct (getDateColumn host rows) as [name|]; cbn [no_column column_name].
  - destruct (String.eqb name "") eqn:E; [intros []|].
    apply String.eqb_neq in E. intros Hi. apply in_flat_map in Hi.
    destruct Hi as (c & Hc & Hi). eauto 7.
  - intros [].
Qed.

Lemma in_predictions_of (rows : dataset) (i : AnalysisInsight) :
  In i (predictions_of host rows) ->
  (5 <= length rows)%nat /\
  exists name column,
    getDateColumn host rows = Some name /\ name <> ""%string /\
    In column (getNumericColumns host rows) /\
    In i (prediction_of_column host rows name column).
Proof.
  unfold predictions_of. destruct (getDateColumn host rows) as [name|]; cbn [no_column column_name].
  - destruct (String.eqb name "") eqn:E; cbn [orb]; [intros []|].
    apply String.eqb_neq in E.
    destruct (length rows <? 5)%nat eqn:L; [intros []|]. apply Nat.ltb_ge in L.
    intros Hi. apply in_flat_map in Hi.
    destruct Hi as (c & Hc & Hi). split; [exact L|]. eauto 7.
  - intros [].
Qed.

Lemma series_length (rows : dataset) (dateColumn column : string) :
  (length (prepareTimeSeriesData host rows dateColumn column) <= length rows)%nat.
Proof.
  unfold prepareTimeSeriesData. rewrite Array_sort_length.
  etransitivity; [apply filter_length_le|]. rewrite length_map. reflexivity.
Qed.

Lemma in_segments_insight_of (rows : dataset) (i : AnalysisInsight) :
  In i (segments_insight_of host rows) ->
  let numericColumns := getNumericColumns host rows in
  (2 <= length numericColumns)%nat /\ (10 <= length rows)%nat /\
  exists result,
    kmeans host (segmentation_points host rows (nth 0 numericColumns ""%string)
                                     (nth 1 numericColumns ""%string))
           (segment_count (segmentation_points host rows (nth 0 numericColumns ""%string)
                                               (nth 1 numericColumns ""%string)))
    = Normal result /\
    i = {| type := segment;
           title := String.append "Data Segmented into "
                      (String.append
                         (decimal_of_integral
                            (segment_count
                               (segmentation_points host rows (nth 0 numericColumns ""%string)
                                                    (nth 1 numericColumns ""%string))))
                         " Groups");
           confidence := 75;
           data := SegmentData (nth 0 numericColumns ""%string, nth 1 numericColumns ""%string)
                               (segments_of result)
                               (segment_count
                                  (segmentation_points host rows
                                     (nth 0 numericColumns ""%string)
                                     (nth 1 numericColumns ""%string))) |}.
Proof.
  intros Hi numericColumns. revert Hi.
  unfold segments_insight_of. fold numericColumns. cbv zeta.
  destruct (2 <=? length numericColumns)%nat eqn:E1; cbn [andb]; [|intros []].
  destruct (10 <=? length rows)%nat eqn:E2; [|intros []].
  destruct (6 <=? _)%nat; [|intros []].
  destruct (kmeans host _ _) as [result|e] eqn:K; [|intros []].
  intros [<-|[]]. apply Nat.leb_le in E1, E2. split; [exact E1|]. split; [exact E2|].
  exists result. split; reflexivity.
Qed.

End OutputFacts.

(** X4. What each type of insight needs of the dataset.  A trend or a
    prediction insight is returned only for a dataset that has a date column
    with a non-empty name, a numeric column and at least 3 records (5 for a
    prediction); a correlation insight only with 2 numeric columns and 3
    records; an anomaly insight only with a numeric column and 10 records; a
    segment insight only with 2 numeric columns and 10 records.  A dataset
    of fewer than 3 records, or without a numeric column, yields nothing. *)
Theorem insight_preconditions (host : Host) (rows : dataset) :
  exists insights,
    generateInsights host rows = Normal insights /\
    (forall i, In i insights ->
       let columns := length (getNumericColumns host rows) in
       let dated := exists name, getDateColumn host rows = Some name /\ name <> ""%string in
       match type i with
       | trend => dated /\ (1 <= columns)%nat /\ (3 <= length rows)%nat
       | correlation => (2 <= columns)%nat /\ (3 <= length rows)%nat
       | anomaly => (1 <= columns)%nat /\ (10 <= length rows)%nat
       | segment => (2 <= columns)%nat /\ (10 <= length rows)%nat
       | prediction => dated /\ (1 <= columns)%nat /\ (5 <= length rows)%nat
       end) /\
    ((length rows < 3)%nat \/ getNumericColumns host rows = [] -> insights = []).
Proof.
  eexists. split; [apply generateInsights_returns|].
  assert (Hall : forall i, In i (generated host rows) ->
       let columns := length (getNumericColumns host rows) in
       let dated := exists name, getDateColumn host rows = Some name /\ name <> ""%string in
       match type i with
       | trend => dated /\ (1 <= columns)%nat /\ (3 <= length rows)%nat
       | correlation => (2 <= columns)%nat /\ (3 <= length rows)%nat
       | anomaly => (1 <= columns)%nat /\ (10 <= length rows)%nat
       | segment => (2 <= columns)%nat /\ (10 <= length rows)%nat
       | prediction => dated /\ (1 <= columns)%nat /\ (5 <= length rows)%nat
       end).
  { intros i Hi columns dated. apply generated_by_type in Hi.
    assert (Hin : forall c, In c (getNumericColumns host rows) -> (1 <= columns)%nat).
    { intros c Hc. subst columns. destruct (getNumericColumns host rows); [destruct Hc|cbn; lia]. }
    destruct (type i).
    - apply in_trends_of in Hi. destruct Hi as (name & c & Hd & Hn & Hc & Hi).
      split; [exists name; auto|]. split; [eauto|].
      unfold trend_of_column in Hi. apply in_singleton_or_nil in Hi. destruct Hi as [Hg _].
      apply andb_prop in Hg. destruct Hg as [Hg _]. apply Nat.leb_le in Hg.
      pose proof (series_length host rows name c). lia.
    - unfold correlations_of in Hi. apply in_flat_map in Hi. destruct Hi as ([c1 c2] & Hp & Hi).
      apply column_pairs_spec in Hp. destruct Hp as (a & b & Hab & _ & _).
      split; [subst columns; lia|].
      cbn [fst snd] in Hi. apply correlation_of_pair_cases in Hi. cbv zeta in Hi.
      destruct Hi as (_ & Hl & _).
      pose proof (column_values_length host rows c1). lia.
    - unfold anomalies_of in Hi. apply in_flat_map in Hi. destruct Hi as (c & Hc & Hi).
      split; [eauto|]. unfold anomaly_of_column in Hi.
      destruct (10 <=? _)%nat eqn:L; [|destruct Hi]. apply Nat.leb_le in L.
      pose proof (column_values_length host rows c). lia.
    - apply in_predictions_of in Hi. destruct Hi as (L & name & c & Hd & Hn & Hc & Hi).
      split; [exists name; auto|]. split; [eauto|]. exact L.
    - apply in_segments_insight_of in Hi. cbv zeta in Hi. destruct Hi as (H1 & H2 & _).
      split; assumption. }
  split.
  - intros i Hi. apply Array_sort_In in Hi. apply Hall. exact Hi.
  - intros Hsmall.
    destruct (Array_sort by_confidence_descending (generated host rows)) as [|i l] eqn:E;
      [reflexivity|exfalso].
    assert (Hi : In i (generated host rows)).
    { apply Array_sort_In with (comparefn := by_confidence_descending). rewrite E. left. reflexivity. }
    apply Hall in Hi. cbv zeta in Hi.
    destruct Hsmall as [Hs|Hs]; [|rewrite Hs in Hi; cbn [length] in Hi];
      destruct (type i); lia.
Qed.

(** X5. The payload of an insight goes with its type and names numeric
    columns only: the column of a trend, anomaly or prediction insight is a
    numeric column; the two columns of a correlation insight are numeric
    columns at positions [a < b]; the columns of the segment insight are the
    first two numeric columns; the anomalies listed are records of the
    dataset with their raw cell.  A numeric column is a key of the first
    record whose value there parses and is finite, whatever the other
    records hold. *)
Theorem insights_name_numeric_columns (host : Host) (rows : dataset) :
  let numericColumns := getNumericColumns host rows in
  exists insights,
    generateInsights host rows = Normal insights /\
    (forall i, In i insights ->
       match type i, data i with
       | trend, TrendData column _ _ _ => In column numericColumns
       | correlation, CorrelationData column1 column2 _ _ _ =>
           exists a b, (a < b < length numericColumns)%nat /\
                       nth a numericColumns ""%string = column1 /\
                       nth b numericColumns ""%string = column2
       | anomaly, AnomalyData column anomalies _ _ =>
           In column numericColumns /\
           forall v row, In (v, row) anomalies -> In row rows /\ v = get row column
       | segment, SegmentData (column1, column2) _ _ =>
           (2 <= length numericColumns)%nat /\
           column1 = nth 0 numericColumns ""%string /\
           column2 = nth 1 numericColumns ""%string
       | prediction, PredictionData column _ _ _ _ => In column numericColumns
       | _, _ => False
       end) /\
    (forall column, In column numericColumns ->
       exists firstRow rest,
         rows = firstRow :: rest /\ In column (Object_keys firstRow) /\
         is_nan (parseFloat host (get firstRow column)) = false /\
         is_finite (ToNumber host (get firstRow column)) = true).
Proof.
  intros numericColumns.
  eexists. split; [apply generateInsights_returns|]. split.
  - intros i Hi. apply Array_sort_In in Hi. apply generated_by_type in Hi.
    destruct (type i) eqn:T.
    + apply in_trends_of in Hi. destruct Hi as (name & c & _ & _ & Hc & Hi).
      unfold trend_of_column in Hi. apply in_singleton_or_nil in Hi.
      destruct Hi as [_ ->]. exact Hc.
    + unfold correlations_of in Hi. apply in_flat_map in Hi. destruct Hi as ([c1 c2] & Hp & Hi).
      cbn [fst snd] in Hi. apply correlation_of_pair_cases in Hi. cbv zeta in Hi.
      destruct Hi as (_ & _ & r & _ & _ & ->). cbn [data].
      apply column_pairs_spec in Hp. exact Hp.
    + unfold anomalies_of in Hi. apply in_flat_map in Hi. destruct Hi as (c & Hc & Hi).
      unfold anomaly_of_column in Hi.
      destruct (10 <=? _)%nat; [|destruct Hi].
      destruct (mean host _) as [m|e]; [|destruct Hi].
      destruct (standardDeviation host _) as [sd|e]; [|destruct Hi].
      apply in_singleton_or_nil in Hi. destruct Hi as [_ ->]. cbn [data].
      split; [exact Hc|]. intros v row Hv. apply in_map_iff in Hv.
      destruct Hv as (row' & E & Hrow). injection E as <- <-.
      unfold anomalous_rows in Hrow. apply filter_In in Hrow. split; [tauto | reflexivity].
    + apply in_predictions_of in Hi. destruct Hi as (_ & name & c & _ & _ & Hc & Hi).
      unfold prediction_of_column in Hi. apply in_singleton_or_nil in Hi.
      destruct Hi as [_ ->]. exact Hc.
    + apply in_segments_insight_of in Hi. cbv zeta in Hi.
      destruct Hi as (H1 & _ & result & _ & ->). cbn [data]. auto.
  - intros column Hc. subst numericColumns. unfold getNumericColumns in Hc.
    destruct rows as [|firstRow rest]; [destruct Hc|].
    apply filter_In in Hc. destruct Hc as [Hk Hv]. cbv zeta in Hv.
    apply andb_prop in Hv. destruct Hv as [Hn Hf]. apply negb_true_iff in Hn.
    exists firstRow, rest. auto.
Qed.

(** ** How many insights *)

Lemma length_flat_map_le {A B : Type} (f : A -> list B) (l : list A) :
  (forall a, In a l -> (length (f a) <= 1)%nat) ->
  (length (flat_map f l) <= length l)%nat.
Proof.
  induction l as [|a l IH]; intros H; [reflexivity|].
  cbn [flat_map]. rewrite length_app. cbn [length].
  pose proof (H a (or_introl eq_refl)). assert (length (flat_map f l) <= length l)%nat.
  { apply IH. intros b Hb. apply H. right. exact Hb. }
  lia.
Qed.

Lemma length_pairs_from (A : Type) (g : nat -> nat -> A) (n k a : nat) :
  (a + k = n)%nat ->
  (2 * length (flat_map (fun i => map (g i) (seq (i + 1) (n - (i + 1)))) (seq a k))
   = k * (k - 1))%nat.
Proof.
  revert a. induction k as [|k IH]; intros a H; [reflexivity|].
  cbn [seq flat_map]. rewrite length_app, length_map, length_seq.
  rewrite Nat.mul_add_distr_l, (IH (S a)) by lia.
  replace (n - (a + 1))%nat with k by lia. destruct k; cbn; lia.
Qed.

Lemma length_column_pairs (l : list string) :
  (2 * length (column_pairs l) = length l * (length l - 1))%nat.
Proof.
  unfold column_pairs.
  apply (length_pairs_from _ (fun i j => (nth i l ""%string, nth j l ""%string))). lia.
Qed.

Lemma filter_all {A : Type} (f : A -> bool) (l : list A) :
  (forall a, In a l -> f a = true) -> filter f l = l.
Proof.
  induction l as [|a l IH]; intros H; [reflexivity|].
  cbn [filter]. rewrite (H a (or_introl eq_refl)). f_equal. apply IH.
  intros b Hb. apply H. right. exact Hb.
Qed.

Lemma filter_none {A : Type} (f : A -> bool) (l : list A) :
  (forall a, In a l -> f a = false) -> filter f l = [].
Proof.
  induction l as [|a l IH]; intros H; [reflexivity|].
  cbn [filter]. rewrite (H a (or_introl eq_refl)). apply IH.
  intros b Hb. apply H. right. exact Hb.
Qed.

Lemma filter_perm {A : Type} (f : A -> bool) (l l' : list A) :
  Permutation l l' -> Permutation (filter f l) (filter f l').
Proof.
  induction 1 as [|a l l' P IH|a b l|l l' l'' P IH P' IH']; cbn [filter].
  - constructor.
  - destruct (f a); [constructor|]; exact IH.
  - destruct (f a), (f b); try reflexivity. constructor.
  - etransitivity; eassumption.
Qed.

Section CountFacts.

Variable host : Host.

Lemma trend_of_column_short (rows : dataset) (d c : string) :
  (length (trend_of_column host rows d c) <= 1)%nat.
Proof. unfold trend_of_column. destruct (_ && _); cbn; lia. Qed.

Lemma prediction_of_column_short (rows : dataset) (d c : string) :
  (length (prediction_of_column host rows d c) <= 1)%nat.
Proof. unfold prediction_of_column. destruct (_ && _); cbn; lia. Qed.

Lemma anomaly_of_column_short (rows : dataset) (c : string) :
  (length (anomaly_of_column host rows c) <= 1)%nat.
Proof.
  unfold anomaly_of_column. destruct (10 <=? _)%nat; [|cbn; lia].
  destruct (mean host _); [|cbn; lia]. destruct (standardDeviation host _); [|cbn; lia].
  destruct (1 <=? _)%nat; cbn; lia.
Qed.

Lemma correlation_of_pair_short (rows : dataset) (c1 c2 : string) :
  (length (correlation_of_pair host rows c1 c2) <= 1)%nat.
Proof.
  unfold correlation_of_pair. destruct (_ && _); [|cbn; lia].
  destruct (sampleCorrelation host _ _); [|cbn; lia].
  destruct (0.5 <? _); cbn; lia.
Qed.

Lemma segments_insight_of_short (rows : dataset) :
  (length (segments_insight_of host rows) <= 1)%nat.
Proof.
  unfold segments_insight_of. destruct (_ && _); [|cbn; lia].
  destruct (6 <=? _)%nat; [|cbn; lia]. destruct (kmeans host _ _); cbn; lia.
Qed.

Lemma count_generated (rows : dataset) (t : insight_type) :
  length (filter (has_type t) (generated host rows))
  = length match t with
           | trend => trends_of host rows
           | correlation => correlations_of host rows
           | anomaly => anomalies_of host rows
           | segment => segments_insight_of host rows
           | prediction => predictions_of host rows
           end.
Proof.
  assert (Hsplit : forall l1 l2 l3 l4 l5 : list AnalysisInsight,
             (forall i, In i l1 -> type i = trend) ->
             (forall i, In i l2 -> type i = correlation) ->
             (forall i, In i l3 -> type i = anomaly) ->
             (forall i, In i l4 -> type i = segment) ->
             (forall i, In i l5 -> type i = prediction) ->
             length (filter (has_type t) (l1 ++ l2 ++ l3 ++ l4 ++ l5))
             = length match t with
                      | trend => l1 | correlation => l2 | anomaly => l3
                      | segment => l4 | prediction => l5
                      end).
  { intros l1 l2 l3 l4 l5 H1 H2 H3 H4 H5. rewrite !filter_app, !length_app.
    assert (F : forall (l : list AnalysisInsight) (t' : insight_type),
               (forall i, In i l -> type i = t') ->
               length (filter (has_type t) l)
               = if has_type t {| type := t'; title := ""; confidence := 0;
                                  data := SegmentData (""%string, ""%string) [] 0 |}
                 then length l else 0%nat).
    { intros l t' H. destruct (has_type t _) eqn:E.
      - rewrite filter_all; [reflexivity|]. intros i Hi. unfold has_type in *.
        rewrite (H i Hi). exact E.
      - rewrite filter_none; [reflexivity|]. intros i Hi. unfold has_type in *.
        rewrite (H i Hi). exact E. }
    rewrite (F l1 trend H1), (F l2 correlation H2), (F l3 anomaly H3),
      (F l4 segment H4), (F l5 prediction H5).
    destruct t; cbn; lia. }
  unfold generated. apply Hsplit.
  - intros i Hi. apply in_trends_of in Hi. destruct Hi as (? & ? & _ & _ & _ & Hi).
    apply trend_of_column_tag in Hi. tauto.
  - intros i Hi. unfold correlations_of in Hi. apply in_flat_map in Hi.
    destruct Hi as (? & _ & Hi). apply correlation_of_pair_tag in Hi. tauto.
  - intros i Hi. unfold anomalies_of in Hi. apply in_flat_map in Hi.
    destruct Hi as (? & _ & Hi). apply anomaly_of_column_tag in Hi. tauto.
  - intros i Hi. apply segments_insight_of_tag in Hi. tauto.
  - intros i Hi. apply in_predictions_of in Hi. destruct Hi as (_ & ? & ? & _ & _ & _ & Hi).
    apply prediction_of_column_tag in Hi. tauto.
Qed.

End CountFacts.

(** X6. How many insights the entry point can return.  With [n] numeric
    columns it returns at most [n] trend insights, [n (n - 1) / 2]
    correlation insights, [n] anomaly insights, one segment insight and [n]
    prediction insights, and nothing of another kind. *)
Theorem insight_counts (host : Host) (rows : dataset) :
  exists insights,
    generateInsights host rows = Normal insights /\
    let n := length (getNumericColumns host rows) in
    let count := fun t => length (filter (has_type t) insights) in
    (count trend <= n)%nat /\
    (2 * count correlation <= n * (n - 1))%nat /\
    (count anomaly <= n)%nat /\
    (count segment <= 1)%nat /\
    (count prediction <= n)%nat /\
    (length insights
     = count trend + count correlation + count anomaly + count segment + count prediction)%nat.
Proof.
  eexists. split; [apply generateInsights_returns|]. intros n count.
  assert (C : forall t, count t = length (filter (has_type t) (generated host rows))).
  { intros t. unfold count. apply Permutation_length. apply filter_perm.
    symmetry. apply Array_sort_perm. }
  rewrite !C, !count_generated, Array_sort_length.
  split; [|split; [|split; [|split; [|split]]]].
  - unfold trends_of. destruct (no_column _); [cbn; lia|].
    apply length_flat_map_le. intros. apply trend_of_column_short.
  - unfold correlations_of.
    pose proof (length_column_pairs (getNumericColumns host rows)) as L. fold n in L.
    pose proof (length_flat_map_le
                  (fun pair => correlation_of_pair host rows (fst pair) (snd pair))
                  (column_pairs (getNumericColumns host rows))
                  (fun p _ => correlation_of_pair_short host rows (fst p) (snd p))).
    lia.
  - unfold anomalies_of. apply length_flat_map_le. intros. apply anomaly_of_column_short.
  - apply segments_insight_of_short.
  - unfold predictions_of. destruct (_ || _); [cbn; lia|].
    apply length_flat_map_le. intros. apply prediction_of_column_short.
  - unfold generated. rewrite !length_app. lia.
Qed.

(** ** Trend and prediction of one column *)

Section AgreementFacts.

Variable host : Host.

Lemma in_trends_of_about (rows : dataset) (i : AnalysisInsight) (column : string) :
  In i (trends_of host rows) -> insight_column i = Some column ->
  exists name,
    getDateColumn host rows = Some name /\ name <> ""%string /\
    In column (getNumericColumns host rows) /\
    In i (trend_of_column host rows name column).
Proof.
  intros Hi Hc. apply in_trends_of in Hi. destruct Hi as (name & c & Hd & Hn & Hin & Hi).
  pose proof (trend_of_column_tag host _ _ _ _ Hi) as [E _].
  rewrite E in Hc. injection Hc as ->. eauto.
Qed.

Lemma in_predictions_of_about (rows : dataset) (i : AnalysisInsight) (column : string) :
  In i (predictions_of host rows) -> insight_column i = Some column ->
  (5 <= length rows)%nat /\
  exists name,
    getDateColumn host rows = Some name /\ name <> ""%string /\
    In column (getNumericColumns host rows) /\
    In i (prediction_of_column host rows name column).
Proof.
  intros Hi Hc. apply in_predictions_of in Hi.
  destruct Hi as (L & name & c & Hd & Hn & Hin & Hi).
  pose proof (prediction_of_column_tag host _ _ _ _ Hi) as [E _].
  rewrite E in Hc. injection Hc as ->. eauto 6.
Qed.

End AgreementFacts.

(** X7. The trend and the prediction of one column come from one fit.
    When the entry point returns a trend insight and a prediction insight
    for the same column, both carry the same slope and the same [R^2], the
    series has at least 5 points, and the predicted value is
    [slope * n + intercept] for the [n] points of the series the trend
    insight carries.  A prediction insight whose slope has magnitude above
    0.01 always comes with a trend insight of that slope and [R^2] for the
    same column. *)
Theorem trend_and_prediction_agree (host : Host) (rows : dataset)
  (insights : list AnalysisInsight) :
  generateInsights host rows = Normal insights ->
  (forall i j column,
     In i insights -> type i = trend -> insight_column i = Some column ->
     In j insights -> type j = prediction -> insight_column j = Some column ->
     exists slope rSquared intercept series,
       data i = TrendData column slope rSquared series /\
       data j = PredictionData column (slope * Num.of_nat (length series) + intercept)
                               rSquared slope intercept /\
       (5 <= length series)%nat) /\
  (forall j column nextValue rSquared slope intercept,
     In j insights ->
     data j = PredictionData column nextValue rSquared slope intercept ->
     (0.01 <? Num.Math_abs slope) = true ->
     exists i series,
       In i insights /\ type i = trend /\
       data i = TrendData column slope rSquared series).
Proof.
  intros Hout. rewrite generateInsights_returns in Hout. injection Hout as <-.
  split.
  - intros i j column Hi Ti Ci Hj Tj Cj.
    apply Array_sort_In in Hi, Hj. apply generated_by_type in Hi, Hj.
    rewrite Ti in Hi. rewrite Tj in Hj.
    destruct (in_trends_of_about host rows i column Hi Ci) as (name & Hd & _ & _ & Hi').
    destruct (in_predictions_of_about host rows j column Hj Cj)
      as (_ & name' & Hd' & _ & _ & Hj').
    rewrite Hd in Hd'. injection Hd' as <-.
    unfold trend_of_column in Hi'. apply in_singleton_or_nil in Hi'. destruct Hi' as [_ ->].
    unfold prediction_of_column in Hj'. apply in_singleton_or_nil in Hj'.
    destruct Hj' as [Hg ->]. apply andb_prop in Hg. destruct Hg as [Hg _].
    apply Nat.leb_le in Hg.
    cbn [data calculateTrend trend_slope trend_rSquared].
    do 4 eexists. split; [reflexivity|]. split; [reflexivity | exact Hg].
  - intros j column nextValue rSquared slope intercept Hj Dj Hs.
    apply Array_sort_In in Hj. pose proof Hj as Hj0. apply generated_by_type in Hj.
    assert (Tj : type j = prediction).
    { unfold generated in Hj0.
      repeat (apply in_app_or in Hj0; destruct Hj0 as [Hj0|Hj0]).
      - apply in_trends_of in Hj0. destruct Hj0 as (? & ? & _ & _ & _ & H).
        unfold trend_of_column in H. apply in_singleton_or_nil in H. destruct H as [_ ->].
        discriminate Dj.
      - unfold correlations_of in Hj0. apply in_flat_map in Hj0. destruct Hj0 as (? & _ & H).
        apply correlation_of_pair_cases in H. cbv zeta in H.
        destruct H as (_ & _ & ? & _ & _ & ->). discriminate Dj.
      - unfold anomalies_of in Hj0. apply in_flat_map in Hj0. destruct Hj0 as (? & _ & H).
        unfold anomaly_of_column in H.
        destruct (10 <=? _)%nat; [|destruct H].
        destruct (mean host _); [|destruct H]. destruct (standardDeviation host _); [|destruct H].
        apply in_singleton_or_nil in H. destruct H as [_ ->]. discriminate Dj.
      - apply in_segments_insight_of in Hj0. cbv zeta in Hj0.
        destruct Hj0 as (_ & _ & ? & _ & ->). discriminate Dj.
      - apply in_predictions_of in Hj0. destruct Hj0 as (_ & ? & ? & _ & _ & _ & H).
        apply prediction_of_column_tag in H. tauto. }
    rewrite Tj in Hj.
    assert (Cj : insight_column j = Some column) by (unfold insight_column; rewrite Dj; reflexivity).
    destruct (in_predictions_of_about host rows j column Hj Cj)
      as (_ & name & Hd & Hn & Hc & Hj').
    unfold prediction_of_column in Hj'. apply in_singleton_or_nil in Hj'.
    destruct Hj' as [Hg ->]. apply andb_prop in Hg. destruct Hg as [Hg _].
    apply Nat.leb_le in Hg. cbn [data] in Dj. injection Dj as <- <- <- <-.
    eexists. eexists. split; [apply In_Array_sort|].
    + unfold generated. apply in_or_app. left. unfold trends_of.
      rewrite Hd. cbn [no_column column_name].
      replace (String.eqb name "") with false by (symmetry; apply String.eqb_neq; exact Hn).
      apply in_flat_map. exists column. split; [exact Hc|].
      unfold trend_of_column.
      assert (G : (0.01 <? Num.Math_abs
                             (trend_slope
                                (calculateTrend (prepareTimeSeriesData host rows name column))))
                  = true) by exact Hs.
      rewrite G.
      replace (3 <=? _)%nat with true by (symmetry; apply Nat.leb_le; lia).
      cbn [andb]. left. reflexivity.
    + split; reflexivity.
Qed.

Lemma trend_and_prediction_agree_witness :
  exists insights i j slope rSquared intercept series,
    generateInsights Reference.host Examples.with_outlier = Normal insights /\
    In i insights /\ In j insights /\
    data i = TrendData "t" slope rSquared series /\
    data j = PredictionData "t" (slope * Num.of_nat (length series) + intercept)
                            rSquared slope intercept /\
    (5 <= length series)%nat.
Proof.
  pose (insights := Array_sort by_confidence_descending
                      (generated Reference.host Examples.with_outlier)).
  pose (d := {| type := segment; title := ""; confidence := 0;
                data := SegmentData (""%string, ""%string) [] 0 |}).
  destruct (trend_and_prediction_agree Reference.host Examples.with_outlier insights
              (generateInsights_returns Reference.host Examples.with_outlier)) as [H _].
  destruct (H (nth 0 insights d) (nth 1 insights d) "t"%string)
    as (slope & rSquared & intercept & series & Hi & Hj & Hn).
  - vm_compute. auto.
  - vm_compute. reflexivity.
  - vm_compute. reflexivity.
  - vm_compute. auto.
  - vm_compute. reflexivity.
  - vm_compute. reflexivity.
  - exists insights, (nth 0 insights d), (nth 1 insights d), slope, rSquared, intercept, series.
    split; [apply generateInsights_returns|].
    split; [vm_compute; auto|]. split; [vm_compute; auto|]. auto.
Defined.

(** ** The direction an insight reports *)

Section SignFacts.

Import Num NumFacts.

Lemma rank_finite_pos (s : bool) (m : positive) (e : Z) :
  valid_binary (S754_finite s m e) = true -> (0 < (e + 1075) * two53 + Zpos m)%Z.
Proof.
  intros V. apply valid_finite in V. destruct V as (E & _ & _). unfold two53. lia.
Qed.

Lemma frank_abs (x : float) : frank (abs x) = Z.abs (frank x).
Proof.
  unfold frank. rewrite abs_spec. pose proof (Prim2SF_valid x) as V.
  destruct (Prim2SF x) as [s|s| |s m e]; cbn [SFabs rank]; try reflexivity.
  - destruct s; reflexivity.
  - pose proof (rank_finite_pos s m e V). cbv zeta. destruct s; lia.
Qed.

Lemma frank_opp (x : float) : frank (- x) = (- frank x)%Z.
Proof.
  unfold frank. rewrite opp_spec.
  destruct (Prim2SF x) as [s|s| |s m e]; cbn [SFopp rank]; try reflexivity.
  - destruct s; reflexivity.
  - cbv zeta. destruct s; cbn [negb]; lia.
Qed.

(** [|x| > t] for a threshold [t >= 0]: [x > t] or [x < -t]. *)
Lemma abs_above (t x : float) :
  (0 <=? t) = true -> (t <? Math_abs x) = true ->
  ((t <? x) = true /\ (0 <? x) = true) \/ ((x <? - t) = true /\ (0 <? x) = false).
Proof.
  unfold Math_abs. intros Ht Hx.
  destruct (leb_not_nan _ _ Ht) as [N0 Nt]. destruct (ltb_not_nan _ _ Hx) as [_ Na].
  rewrite abs_not_nan in Na.
  assert (Nn : is_nan (- t) = false) by (rewrite opp_not_nan; exact Nt).
  rewrite leb_frank in Ht by assumption. rewrite ltb_frank in Hx by (rewrite ?abs_not_nan; assumption).
  rewrite !ltb_frank by assumption. rewrite frank_abs in Hx. rewrite frank_opp.
  apply Z.leb_le in Ht. apply Z.ltb_lt in Hx.
  change (frank 0) with 0%Z in *.
  destruct (Z_lt_le_dec 0 (frank x)).
  - left. split; apply Z.ltb_lt; lia.
  - right. split; [apply Z.ltb_lt | apply Z.ltb_ge]; lia.
Qed.

End SignFacts.

(** X8. The direction an insight reports is the sign of what it measured.
    A trend insight is titled "Upward" and has a slope above 0.01, or is
    titled "Downward" and has a slope below -0.01: no trend insight has a
    [NaN] slope.  A correlation insight is "positive" with [r > 0.5] or
    "negative" with [r < -0.5], and is titled "Strong" exactly when
    [|r| > 0.8] and "Moderate" otherwise. *)
Theorem direction_follows_sign (host : Host) (rows : dataset)
  (insights : list AnalysisInsight) :
  generateInsights host rows = Normal insights ->
  forall i, In i insights ->
    match data i with
    | TrendData column slope _ _ =>
        ((0.01 <? slope) = true /\
         title i = String.append "Upward Trend in " column) \/
        ((slope <? - 0.01) = true /\
         title i = String.append "Downward Trend in " column)
    | CorrelationData _ _ r strength direction =>
        (((0.5 <? r) = true /\ direction = "positive"%string) \/
         ((r <? - 0.5) = true /\ direction = "negative"%string)) /\
        (((0.8 <? Num.Math_abs r) = true /\ strength = "strong"%string /\
          title i = String.append "Strong " (String.append direction " correlation")) \/
         ((0.8 <? Num.Math_abs r) = false /\ strength = "moderate"%string /\
          title i = String.append "Moderate " (String.append direction " correlation")))
    | _ => True
    end.
Proof.
  intros Hout i Hi. rewrite generateInsights_returns in Hout. injection Hout as <-.
  apply Array_sort_In in Hi. apply generated_by_type in Hi.
  destruct (type i) eqn:T.
  - apply in_trends_of in Hi. destruct Hi as (name & c & _ & _ & _ & Hi).
    unfold trend_of_column in Hi. apply in_singleton_or_nil in Hi. destruct Hi as [Hg ->].
    apply andb_prop in Hg. destruct Hg as [_ Hs].
    cbn [data title].
    set (fitted := calculateTrend (prepareTimeSeriesData host rows name c)) in *.
    assert (D : trend_direction fitted
                = if 0 <? trend_slope fitted then "Upward"%string else "Downward"%string)
      by reflexivity.
    rewrite D. clearbody fitted.
    destruct (abs_above 0.01 (trend_slope fitted) eq_refl Hs) as [[H1 H2]|[H1 H2]];
      rewrite H2; [left | right]; (split; [exact H1 | reflexivity]).
  - unfold correlations_of in Hi. apply in_flat_map in Hi. destruct Hi as ([c1 c2] & _ & Hi).
    cbn [fst snd] in Hi. apply correlation_of_pair_cases in Hi. cbv zeta in Hi.
    destruct Hi as (_ & _ & r & _ & Hr & ->). cbn [data title].
    split.
    + destruct (abs_above 0.5 r eq_refl Hr) as [[H1 H2]|[H1 H2]]; rewrite H2; auto.
    + destruct (0.8 <? Num.Math_abs r); [left | right]; repeat split.
  - unfold anomalies_of in Hi. apply in_flat_map in Hi. destruct Hi as (c & _ & Hi).
    unfold anomaly_of_column in Hi.
    destruct (10 <=? _)%nat; [|destruct Hi].
    destruct (mean host _); [|destruct Hi]. destruct (standardDeviation host _); [|destruct Hi].
    apply in_singleton_or_nil in Hi. destruct Hi as [_ ->]. exact I.
  - apply in_predictions_of in Hi. destruct Hi as (_ & name & c & _ & _ & _ & Hi).
    unfold prediction_of_column in Hi. apply in_singleton_or_nil in Hi.
    destruct Hi as [_ ->]. exact I.
  - apply in_segments_insight_of in Hi. cbv zeta in Hi.
    destruct Hi as (_ & _ & result & _ & ->). exact I.
Qed.

Lemma direction_follows_sign_witness :
  Forall (fun i =>
            match data i with
            | TrendData column slope _ _ =>
                ((0.01 <? slope) = true /\
                 title i = String.append "Upward Trend in " column) \/
                ((slope <? - 0.01) = true /\
                 title i = String.append "Downward Trend in " column)
            | CorrelationData _ _ r strength direction =>
                (((0.5 <? r) = true /\ direction = "positive"%string) \/
                 ((r <? - 0.5) = true /\ direction = "negative"%string)) /\
                (((0.8 <? Num.Math_abs r) = true /\ strength = "strong"%string /\
                  title i = String.append "Strong "
                              (String.append direction " correlation")) \/
                 ((0.8 <? Num.Math_abs r) = false /\ strength = "moderate"%string /\
                  title i = String.append "Moderate "
                              (String.append direction " correlation")))
            | _ => True
            end)
         (Array_sort by_confidence_descending (generated Reference.host Examples.growing)).
Proof.
  apply Forall_forall.
  apply (direction_follows_sign Reference.host Examples.growing).
  apply generateInsights_returns.
Defined.

(** ** The column classifier *)

Section KindFacts.

Variable host : Host.

Import Num NumFacts.

(** A Number makes a valid [Date] exactly when it is finite and within
    the range of time values. *)
Lemma TimeClip_nan (t : float) :
  is_nan (TimeClip t) = negb (is_finite t && (abs t <=? msPerDayLimit)).
Proof.
  destruct (is_finite t) eqn:F; cbn [andb].
  - pose proof (is_finite_not_nan t F) as N.
    assert (Na : is_nan (abs t) = false) by (rewrite abs_not_nan; exact N).
    assert (Nl : is_nan msPerDayLimit = false) by reflexivity.
    destruct (abs t <=? msPerDayLimit) eqn:L; cbn [negb].
    + apply TimeClip_valid; assumption.
    + apply TimeClip_out_of_range.
      rewrite leb_frank in L by assumption. rewrite ltb_frank by assumption.
      apply Z.leb_gt in L. apply Z.ltb_lt. exact L.
  - unfold TimeClip. rewrite F. reflexivity.
Qed.

Lemma find_spec {A : Type} (f : A -> bool) (l : list A) (a : A) :
  find f l = Some a <->
  exists pre post, l = pre ++ a :: post /\ f a = true /\
                   forall b, In b pre -> f b = false.
Proof.
  split.
  - induction l as [|b l IH]; cbn [find]; [discriminate|].
    destruct (f b) eqn:E.
    + intros H. injection H as <-. exists [], l. repeat split; [exact E | intros ? []].
    + intros H. destruct (IH H) as (pre & post & -> & Ha & Hpre).
      exists (b :: pre), post. repeat split; [exact Ha|].
      intros c [<-|Hc]; [exact E | apply Hpre; exact Hc].
  - intros (pre & post & -> & Ha & Hpre). apply find_some_first; assumption.
Qed.

End KindFacts.

(** X9. The date test, by kind of value, and the date column.
    [undefined], [null] and [false] never pass the date test and [true]
    does; a Number passes exactly when it is neither zero nor [NaN], finite
    and of magnitude at most 8.64e15; a String passes exactly when it is not
    empty and [Date.parse] gives it a time within range.  The date column
    is the first key of the first record, in the order of [Object.keys],
    whose value there passes the test, and there is none exactly when no
    value of the first record passes; the other records are not consulted. *)
Theorem date_column_is_first_date_like (host : Host) (firstRow : record) (rest : dataset) :
  isDateValue host VUndefined = false /\
  isDateValue host VNull = false /\
  (forall b, isDateValue host (VBoolean b) = b) /\
  (forall n, isDateValue host (VNumber n)
             = Num.truthy n && is_finite n && (abs n <=? 8.64e15)) /\
  (forall s, isDateValue host (VString s)
             = negb (String.eqb s "") && negb (is_nan (Num.TimeClip (Date_parse host s)))) /\
  getDateColumn host [] = None /\
  (forall name,
     getDateColumn host (firstRow :: rest) = Some name <->
     exists earlier later,
       Object_keys firstRow = earlier ++ name :: later /\
       isDateValue host (get firstRow name) = true /\
       forall key, In key earlier -> isDateValue host (get firstRow key) = false) /\
  (getDateColumn host (firstRow :: rest) = None <->
   forall key, In key (Object_keys firstRow) -> isDateValue host (get firstRow key) = false).
Proof.
  split; [reflexivity|]. split; [reflexivity|].
  split; [intros []; vm_compute; reflexivity|].
  split.
  { intros n. unfold isDateValue, isNaN, new_Date. cbn [ToBoolean ToNumber].
    rewrite TimeClip_nan. destruct (Num.truthy n); cbn [negb andb]; [|reflexivity].
    rewrite negb_involutive. reflexivity. }
  split.
  { intros s. unfold isDateValue, isNaN, new_Date. cbn [ToBoolean].
    destruct (String.eqb s ""); reflexivity. }
  split; [reflexivity|]. split.
  - intros name. cbn [getDateColumn].
    apply (find_spec (fun key => isDateValue host (get firstRow key))).
  - cbn [getDateColumn]. split.
    + intros H key Hk. exact (find_none _ _ H key Hk).
    + intros H. destruct (find _ _) as [k|] eqn:E; [|reflexivity].
      apply find_some in E. destruct E as [Hk Hv]. rewrite (H k Hk) in Hv. discriminate.
Qed.

(** X10. The numeric columns, by kind of value.  A key of the first record
    is a numeric column exactly when its value there is a finite Number, or
    a String that [parseFloat] reads and [Number] reads as finite:
    [undefined], [null] and the Booleans never make a numeric column.  The
    numeric columns are distinct keys of the first record, so no more of
    them than the first record has properties; the empty dataset has none. *)
Theorem numeric_columns_by_kind (host : Host) (firstRow : record) (rest : dataset) :
  getNumericColumns host [] = [] /\
  (forall key,
     In key (getNumericColumns host (firstRow :: rest)) <->
     In key (Object_keys firstRow) /\
     match get firstRow key with
     | VNumber n => is_finite n = true
     | VString s => is_nan (parseFloat_string host s) = false /\
                    is_finite (Number_string host s) = true
     | _ => False
     end) /\
  (NoDup (Object_keys firstRow) -> NoDup (getNumericColumns host (firstRow :: rest))) /\
  (length (getNumericColumns host (firstRow :: rest)) <= length firstRow)%nat.
Proof.
  split; [reflexivity|]. split; [|split].
  - intros key. cbn [getNumericColumns]. rewrite filter_In. cbv zeta.
    unfold isNaN, isFinite.
    destruct (get firstRow key) as [| |b|n|s]; cbn [parseFloat ToNumber].
    + split; [intros [_ H]; discriminate H | tauto].
    + split; [intros [_ H]; discriminate H | tauto].
    + split; [intros [_ H]; discriminate H | tauto].
    + split.
      * intros [Hk H]. apply andb_prop in H. tauto.
      * intros [Hk H]. split; [exact Hk|]. rewrite H, andb_true_r.
        apply negb_true_iff. apply (parseFloat_number host).
        apply NumFacts.is_finite_not_nan. exact H.
    + split.
      * intros [Hk H]. apply andb_prop in H. destruct H as [H1 H2].
        apply negb_true_iff in H1. auto.
      * intros [Hk [H1 H2]]. rewrite H1, H2. auto.
  - intros H. cbn [getNumericColumns]. apply NoDup_filter. exact H.
  - cbn [getNumericColumns]. etransitivity; [apply filter_length_le|].
    unfold Object_keys. rewrite length_map. reflexivity.
Qed.

(** ** The number of groups *)

Section FloorFacts.

Import Num NumFacts.

(** Rounding a mantissa that lies at or above a normal Number [h * 2^g]
    gives a Number that is no smaller. *)
Lemma binary_round_aux_above (m : positive) (e : Z) (l : location) (h : positive) (g : Z) :
  (-1074 <= g)%Z -> (2 ^ 52 <= Zpos h < 2 ^ 53)%Z ->
  ((e <= g)%Z -> (Zpos h * 2 ^ (g - e) <= Zpos m)%Z) ->
  binary_round_aux prec emax false (Zpos m) e l = S754_infinity false \/
  exists m' e', binary_round_aux prec emax false (Zpos m) e l = S754_finite false m' e' /\
                ((g < e')%Z \/ (g = e' /\ (Zpos h <= Zpos m')%Z)).
Proof.
  intros Hg Hh Hval. unfold binary_round_aux.
  destruct (shr_fexp_quotient (Zpos m) e l ltac:(lia)) as [Q1 E1].
  cbv zeta in Q1, E1. cbn [Zdigits2] in Q1, E1.
  destruct (shr_fexp prec emax (Zpos m) e l) as [mrs' e'] eqn:S1.
  cbn [fst snd] in Q1, E1.
  pose proof (digits2_bounds m) as [Dlo Dhi].
  set (d := Zpos (digits2_pos m)) in *.
  assert (Hd : (0 < d)%Z) by (subst d; lia).
  set (k := Z.max 0 (fexp prec emax (d + e) - e)) in *.
  assert (Ek : k = Z.max 0 (Z.max (d - 53) (-1074 - e))).
  { subst k. unfold fexp, SpecFloat.emin, prec, emax. lia. }
  assert (Hp : (0 < 2 ^ k)%Z) by (apply Z.pow_pos_nonneg; lia).
  (* the mantissa after the first shift *)
  assert (M1 : (1 <= shr_m mrs' < 2 ^ 53)%Z /\
               ((e' <= g)%Z -> (Zpos h * 2 ^ (g - e') <= shr_m mrs')%Z)).
  { destruct (Z_le_gt_dec e' g) as [Le|Gt].
    - (* the bound is a multiple of the step *)
      assert (Hge : (e <= g)%Z) by lia. specialize (Hval Hge).
      assert (Hs : (2 ^ (g - e) = 2 ^ (g - e') * 2 ^ k)%Z).
      { rewrite <- Z.pow_add_r by lia. f_equal. lia. }
      assert (Hq : (Zpos h * 2 ^ (g - e') <= shr_m mrs')%Z).
      { rewrite Q1. apply Z.div_le_lower_bound; [exact Hp|]. rewrite Hs in Hval. lia. }
      assert (0 < 2 ^ (g - e'))%Z by (apply Z.pow_pos_nonneg; lia).
      split; [split; [nia|]|intros _; exact Hq].
      rewrite Q1. apply Z.div_lt_upper_bound; [exact Hp|].
      apply Z.lt_le_trans with (2 ^ d)%Z; [exact Dhi|].
      rewrite <- Z.pow_add_r by lia. apply Z.pow_le_mono_r; lia.
    - assert (Hk : k = Z.max 0 (d - 53)) by lia.
      split; [|lia]. rewrite Q1. split.
      + apply Z.div_le_lower_bound; [exact Hp|].
        apply Z.le_trans with (2 ^ (d - 1))%Z; [|exact Dlo].
        rewrite Z.mul_1_r. apply Z.pow_le_mono_r; lia.
      + apply Z.div_lt_upper_bound; [exact Hp|].
        apply Z.lt_le_trans with (2 ^ d)%Z; [exact Dhi|].
        rewrite <- Z.pow_add_r by lia. apply Z.pow_le_mono_r; lia. }
  destruct M1 as [[P1 U1] B1].
  pose proof (round_nearest_even_bounds (shr_m mrs') (loc_of_shr_record mrs')) as Hr.
  destruct (round_nearest_even (shr_m mrs') (loc_of_shr_record mrs')) as [|m1|m1] eqn:R; try lia.
  assert (He' : (-1074 <= e')%Z) by (clear - E1 Ek; lia).
  destruct (shr_fexp_quotient (Zpos m1) e' loc_Exact ltac:(lia)) as [Q2 E2].
  cbv zeta in Q2, E2. cbn [Zdigits2] in Q2, E2.
  destruct (shr_fexp prec emax (Zpos m1) e' loc_Exact) as [mrs'' e''] eqn:S2.
  cbn [fst snd] in Q2, E2.
  pose proof (digits2_bounds m1) as [D1lo D1hi].
  set (d1 := Zpos (digits2_pos m1)) in *.
  assert (Hd1 : (0 < d1 <= 54)%Z).
  { split; [subst d1; lia|]. apply (pow2_le_digits m1 53); [lia | clear - Hr U1; lia]. }
  set (k2 := Z.max 0 (fexp prec emax (d1 + e') - e')) in *.
  assert (Ek2 : k2 = Z.max 0 (d1 - 53)).
  { subst k2. unfold fexp, SpecFloat.emin, prec, emax. clear - He'. lia. }
  destruct (Z.eq_dec k2 0) as [K0|K1].
  - (* no carry *)
    rewrite K0 in Q2, E2. change (2 ^ 0)%Z with 1%Z in Q2. rewrite Z.div_1_r in Q2.
    rewrite Q2. unfold emax, prec.
    destruct (e'' <=? 1024 - 53)%Z; [right | left; reflexivity].
    exists m1, e''. split; [reflexivity|].
    destruct (Z_le_gt_dec e' g) as [Le|Gt]; [|left; lia].
    specialize (B1 Le). destruct (Z.eq_dec e' g) as [Eq|Ne].
    + right. split; [lia|]. replace (g - e')%Z with 0%Z in B1 by lia.
      change (2 ^ 0)%Z with 1%Z in B1. lia.
    + exfalso. assert (2 ^ 1 <= 2 ^ (g - e'))%Z by (apply Z.pow_le_mono_r; lia).
      change (2 ^ 1)%Z with 2%Z in *. change (2 ^ 52)%Z with 4503599627370496%Z in *.
      change (2 ^ 53)%Z with 9007199254740992%Z in *. nia.
  - (* the rounding carried into a 54th digit *)
    assert (K2 : k2 = 1%Z) by lia. rewrite K2 in Q2, E2. change (2 ^ 1)%Z with 2%Z in Q2.
    assert (Hm1 : (2 ^ 53 <= Zpos m1)%Z).
    { assert (d1 = 54%Z) by lia. replace (d1 - 1)%Z with 53%Z in D1lo by lia. exact D1lo. }
    assert (Hm2 : (2 ^ 52 <= shr_m mrs'')%Z).
    { rewrite Q2. apply Z.div_le_lower_bound; [lia|].
      change (2 ^ 53)%Z with 9007199254740992%Z in *.
      change (2 ^ 52)%Z with 4503599627370496%Z. lia. }
    destruct (shr_m mrs'') as [|m2|m2] eqn:Em; try lia.
    unfold emax, prec.
    destruct (e'' <=? 1024 - 53)%Z; [right | left; reflexivity].
    exists m2, e''. split; [reflexivity|]. left.
    destruct (Z_le_gt_dec e' g) as [Le|Gt]; [|lia].
    specialize (B1 Le). destruct (Z.eq_dec e' g) as [Eq|Ne]; [lia|].
    exfalso. assert (2 ^ 1 <= 2 ^ (g - e'))%Z by (apply Z.pow_le_mono_r; lia).
    change (2 ^ 1)%Z with 2%Z in *. change (2 ^ 52)%Z with 4503599627370496%Z in *.
    change (2 ^ 53)%Z with 9007199254740992%Z in *. nia.
Qed.

End FloorFacts.

Section ThreeGroups.

Import Num NumFacts.

(** What [binary_round_aux_above] concludes, as an order. *)
Lemma above_leb (h : positive) (g : Z) (r : spec_float) :
  valid_binary (S754_finite false h g) = true -> valid_binary r = true ->
  (r = S754_infinity false \/
   exists m' e', r = S754_finite false m' e' /\
                 ((g < e')%Z \/ (g = e' /\ (Zpos h <= Zpos m')%Z))) ->
  SFleb (S754_finite false h g) r = true.
Proof.
  intros Vh Vr [->|(m' & e' & -> & H)]; [reflexivity|].
  rewrite SFleb_rank by (assumption || reflexivity).
  apply valid_finite in Vh, Vr. unfold two53 in *.
  cbn [rank]. cbv zeta. unfold two53. apply Z.leb_le.
  destruct H as [H|[-> H]]; nia.
Qed.

Lemma SFdiv_by_three (mx : positive) (ex : Z) :
  valid_binary (S754_finite false mx ex) = true ->
  SFleb nine_sf (S754_finite false mx ex) = true ->
  valid_binary (SF64div (S754_finite false mx ex) three_sf) = true ->
  SFleb three_sf (SF64div (S754_finite false mx ex) three_sf) = true.
Proof.
  intros Vx H9 Vr.
  rewrite SFleb_rank in H9 by (assumption || reflexivity).
  apply Z.leb_le in H9. cbn [rank nine_sf] in H9. cbv zeta in H9. unfold two53 in H9.
  pose proof Vx as Vx'. apply valid_finite in Vx'. unfold two53 in Vx'.
  destruct Vx' as (Ex & Mx & Nx).
  assert (Hex : (-49 <= ex)%Z) by nia.
  assert (Hmx : (2 ^ 52 <= Zpos mx)%Z) by (apply Nx; lia).
  assert (Hlow : (ex = -49 -> 5066549580791808 <= Zpos mx)%Z) by (intros ->; lia).
  assert (Dx : Zpos (digits2_pos mx) = 53%Z).
  { pose proof (digits2_bounds mx) as [Lo Hi].
    destruct (Z_le_gt_dec (Zpos (digits2_pos mx)) 52) as [L|G]; [exfalso|].
    - assert (2 ^ Zpos (digits2_pos mx) <= 2 ^ 52)%Z by (apply Z.pow_le_mono_r; lia). lia.
    - destruct (Z_le_gt_dec (Zpos (digits2_pos mx)) 53) as [L'|G']; [lia|exfalso].
      assert (2 ^ 53 <= 2 ^ (Zpos (digits2_pos mx) - 1))%Z by (apply Z.pow_le_mono_r; lia).
      lia. }
  unfold SF64div, three_sf in *. cbn [SFdiv xorb] in *.
  unfold SFdiv_core_binary in *. cbn [Zdigits2] in *. rewrite Dx in *.
  change (Zpos (digits2_pos 6755399441055744)) with 53%Z in *.
  assert (Ee : Z.min (fexp prec emax (53 + ex - (53 + -51))) (ex - -51) = (ex - 2)%Z).
  { unfold fexp, SpecFloat.emin, prec, emax. lia. }
  rewrite Ee in *. replace (ex - -51 - (ex - 2))%Z with 53%Z in * by lia.
  rewrite Z.shiftl_mul_pow2 in * by lia.
  pose proof (Z.div_eucl_eq (Zpos mx * 2 ^ 53) 6755399441055744 ltac:(lia)) as Heq.
  pose proof (Z.mod_pos_bound (Zpos mx * 2 ^ 53) 6755399441055744 ltac:(lia)) as Hmod.
  unfold Z.modulo in Hmod.
  destruct (Z.div_eucl (Zpos mx * 2 ^ 53) 6755399441055744) as [q r] eqn:Ediv.
  change (2 ^ 53)%Z with 9007199254740992%Z in *.
  change (2 ^ 52)%Z with 4503599627370496%Z in *.
  assert (Hq : (0 < q)%Z) by nia.
  destruct q as [|q|q]; try lia.
  apply above_leb; [reflexivity | exact Vr |].
  apply binary_round_aux_above; [lia | cbn; lia |].
  intros Hle. assert (ex = (-49)%Z) by lia. subst ex.
  specialize (Hlow eq_refl). cbn. nia.
Qed.

Lemma div_by_three (x : float) : (9 <=? x) = true -> (3 <=? x / 3) = true.
Proof.
  intros H9.
  pose proof (Prim2SF_valid x) as Vx. pose proof (Prim2SF_valid (x / 3)) as Vr.
  rewrite leb_spec in H9 |- *. rewrite div_spec in Vr |- *.
  change (Prim2SF 9) with nine_sf in H9. change (Prim2SF 3) with three_sf in *.
  destruct (Prim2SF x) as [s|s| |s m e]; try destruct s; try discriminate; try reflexivity.
  apply SFdiv_by_three; assumption.
Qed.

(** The integer [p], at least the integer [c = h * 2^g], converts to a
    Number that is at least [h * 2^g]. *)
Lemma binary_round_above (p : positive) (h : positive) (g : Z) (c : Z) :
  (-1074 <= g <= 0)%Z -> (2 ^ 52 <= Zpos h < 2 ^ 53)%Z ->
  Zpos h = (c * 2 ^ (- g))%Z -> (c <= Zpos p)%Z ->
  binary_round prec emax false p 0 = S754_infinity false \/
  exists m' e', binary_round prec emax false p 0 = S754_finite false m' e' /\
                ((g < e')%Z \/ (g = e' /\ (Zpos h <= Zpos m')%Z)).
Proof.
  intros Hg Hh Hc Hp. unfold binary_round.
  pose proof (shl_align_min p 0 (fexp prec emax (Zpos (digits2_pos p) + 0))) as (A1 & A2 & _).
  destruct (shl_align p 0 (fexp prec emax (Zpos (digits2_pos p) + 0))) as [mz ez].
  cbn [fst snd] in A1, A2.
  assert (Hez : (ez <= 0)%Z) by lia.
  apply binary_round_aux_above; [lia | exact Hh |].
  intros Hle. rewrite A2, Hc.
  replace (0 - Z.min 0 (fexp prec emax (Zpos (digits2_pos p) + 0)))%Z with (- ez)%Z by lia.
  replace (- ez)%Z with (- g + (g - ez))%Z by lia.
  rewrite Z.pow_add_r by lia.
  assert (0 < 2 ^ (- g))%Z by (apply Z.pow_pos_nonneg; lia).
  assert (0 < 2 ^ (g - ez))%Z by (apply Z.pow_pos_nonneg; lia).
  nia.
Qed.

Lemma of_Z_above (z : Z) (x : float) (h : positive) (g : Z) (c : Z) :
  Prim2SF x = S754_finite false h g ->
  (-1074 <= g <= 0)%Z -> (2 ^ 52 <= Zpos h)%Z ->
  Zpos h = (c * 2 ^ (- g))%Z -> (0 < c <= z)%Z -> (z < 2 ^ 63)%Z ->
  (x <=? of_uint63 (Uint63.of_Z z)) = true.
Proof.
  intros Hx Hg Hh Hc Hz Hz'.
  pose proof (Prim2SF_valid x) as Vx. rewrite Hx in Vx.
  pose proof (Prim2SF_valid (of_uint63 (Uint63.of_Z z))) as Vr.
  rewrite leb_spec, Hx. rewrite of_uint63_spec in Vr |- *.
  rewrite Uint63.of_Z_spec in Vr |- *.
  rewrite Z.mod_small in Vr |- * by (change Uint63.wB with (2 ^ 63)%Z; lia).
  destruct z as [|p|p]; try lia. cbn [binary_normalize] in Vr |- *.
  apply above_leb; [exact Vx | exact Vr |].
  pose proof (valid_finite _ _ _ Vx) as (_ & Hh' & _). unfold two53 in Hh'.
  apply binary_round_above with (c := c); try assumption; lia.
Qed.

Lemma of_nat_at_least_nine (n : nat) :
  (9 <= n)%nat -> (Z.of_nat n < 2 ^ 63)%Z -> (9 <=? of_nat n) = true.
Proof.
  intros Hn Hb. unfold of_nat.
  apply of_Z_above with (h := 5066549580791808%positive) (g := (-49)%Z) (c := 9%Z);
    try reflexivity; lia.
Qed.

Lemma Math_floor_at_least_three (y : float) :
  (3 <=? y) = true -> (3 <=? Math_floor y) = true.
Proof.
  intros H3. pose proof H3 as H3'. unfold Math_floor.
  pose proof (Prim2SF_valid y) as Vy.
  rewrite leb_spec in H3'. change (Prim2SF 3) with three_sf in H3'.
  destruct (Prim2SF y) as [s|s| |s m e] eqn:Ey; try exact H3.
  destruct (0 <=? e)%Z eqn:Ee; [exact H3|]. apply Z.leb_gt in Ee.
  destruct s; [discriminate H3'|].
  rewrite SFleb_rank in H3' by (assumption || reflexivity).
  apply Z.leb_le in H3'. cbn [rank three_sf] in H3'. cbv zeta in H3'. unfold two53 in H3'.
  apply valid_finite in Vy. unfold two53 in Vy. destruct Vy as (Ve & Vm & Vn).
  assert (He : (-51 <= e)%Z) by nia.
  assert (Hm : (2 ^ 52 <= Zpos m)%Z) by (apply Vn; lia).
  change (2 ^ 52)%Z with 4503599627370496%Z in Hm.
  destruct e as [|e|e]; try lia. cbn [scale_floor].
  rewrite Z.shiftr_div_pow2 by lia.
  assert (Hz : (3 <= Zpos m / 2 ^ Zpos e)%Z).
  { apply Z.div_le_lower_bound; [apply Z.pow_pos_nonneg; lia|].
    destruct (Z.eq_dec (Zpos e) 51) as [E51|N51].
    - rewrite E51. change (2 ^ 51)%Z with 2251799813685248%Z. lia.
    - assert (2 ^ Zpos e <= 2 ^ 50)%Z by (apply Z.pow_le_mono_r; lia).
      change (2 ^ 50)%Z with 1125899906842624%Z in *. lia. }
  assert (Hz' : (Zpos m / 2 ^ Zpos e < 2 ^ 63)%Z).
  { apply Z.div_lt_upper_bound; [apply Z.pow_pos_nonneg; lia|].
    assert (0 < 2 ^ Zpos e)%Z by (apply Z.pow_pos_nonneg; lia).
    change (2 ^ 63)%Z with 9223372036854775808%Z. nia. }
  destruct (Zpos m / 2 ^ Zpos e)%Z as [|z|z] eqn:Ez; try lia. cbn [of_Z].
  rewrite <- Ez in *.
  apply of_Z_above with (h := 6755399441055744%positive) (g := (-51)%Z) (c := 3%Z);
    try reflexivity; lia.
Qed.

(** [Math.min(3, y)] is 3 once [y] is at least 3. *)
Lemma Math_min_three (y : float) : (3 <=? y) = true -> Math_min 3 y = 3.
Proof.
  intros H3. destruct (leb_not_nan _ _ H3) as [N3 Ny].
  unfold Math_min. cbn [Math_min_from]. rewrite Ny.
  change (is_nan 3) with false. change (is_neg_zero 3 && is_pos_zero infinity) with false.
  change (3 <? infinity) with true. cbv iota.
  change (is_pos_zero 3) with false. rewrite andb_false_r.
  replace (y <? 3) with false; [reflexivity|].
  symmetry. rewrite ltb_frank by assumption. rewrite leb_frank in H3 by assumption.
  apply Z.ltb_ge. apply Z.leb_le in H3. exact H3.
Qed.

(** [Math.min(3, Math.floor(n / 3))] is 3 from 9 points on. *)
Lemma segment_count_three (points : list point) :
  (9 <= length points)%nat -> (Z.of_nat (length points) < 2 ^ 63)%Z ->
  segment_count points = 3.
Proof.
  intros Hn Hb. unfold segment_count.
  apply Math_min_three, Math_floor_at_least_three, div_by_three, of_nat_at_least_nine;
    assumption.
Qed.

End ThreeGroups.

(** X11. The engine always asks for three groups.  For a dataset of fewer
    than 2^32 records, [performSegmentation] returns nothing or exactly one
    insight, made from what [kmeans] returned for [k = 3] on one point per
    record, and titled "Data Segmented into 3 Groups": with the 10 records
    that segmentation requires, [Math.min(3, Math.floor(n / 3))] is 3. *)
Theorem segmentation_asks_for_three_groups (host : Host) (rows : dataset)
  (out : list AnalysisInsight) :
  (Z.of_nat (length rows) < 2 ^ 32)%Z ->
  performSegmentation host rows = Normal out ->
  let numericColumns := getNumericColumns host rows in
  let col1 := nth 0 numericColumns ""%string in
  let col2 := nth 1 numericColumns ""%string in
  let points := segmentation_points host rows col1 col2 in
  out = [] \/
  exists result,
    kmeans host points 3 = Normal result /\
    out = [ {| type := segment;
               title := "Data Segmented into 3 Groups";
               confidence := 75;
               data := SegmentData (col1, col2) (segments_of result) 3 |} ].
Proof.
  intros Hsize Hout numericColumns col1 col2 points.
  rewrite performSegmentation_returns in Hout. injection Hout as <-.
  unfold segments_insight_of. fold numericColumns. cbv zeta. fold col1 col2. fold points.
  destruct (2 <=? length numericColumns)%nat; cbn [andb]; [|left; reflexivity].
  destruct (10 <=? length rows)%nat eqn:L; [|left; reflexivity].
  apply Nat.leb_le in L.
  destruct (6 <=? length points)%nat; [|left; reflexivity].
  assert (E3 : segment_count points = 3).
  { apply segment_count_three; unfold points; rewrite segmentation_points_length; lia. }
  rewrite E3. destruct (kmeans host points 3) as [result|e]; [|left; reflexivity].
  right. exists result. split; reflexivity.
Qed.

Lemma segmentation_asks_for_three_groups_witness :
  exists result,
    kmeans Reference.host
           (segmentation_points Reference.host Examples.with_outlier "t" "v") 3
    = Normal result /\
    performSegmentation Reference.host Examples.with_outlier
    = Normal [ {| type := segment;
                  title := "Data Segmented into 3 Groups";
                  confidence := 75;
                  data := SegmentData ("t"%string, "v"%string) (segments_of result) 3 |} ].
Proof.
  destruct (segmentation_asks_for_three_groups Reference.host Examples.with_outlier
              (segments_insight_of Reference.host Examples.with_outlier))
    as [H|(result & K & H)].
  - vm_compute. reflexivity.
  - apply performSegmentation_returns.
  - vm_compute in H. discriminate H.
  - exists result. split; [exact K|].
    rewrite performSegmentation_returns. rewrite H. reflexivity.
Defined.

(** ** The fit of the regression *)

Section ScoreFacts.

Import Num NumFacts.

Lemma square_unsigned (d : float) : unsigned_or_nan (d * d).
Proof.
  unfold unsigned_or_nan. rewrite mul_spec.
  destruct (Prim2SF d) as [s|s| |s m e]; cbn [SF64mul SFmul]; try exact I;
    try (destruct s; reflexivity).
  replace (xorb s s) with false by (destruct s; reflexivity).
  pose proof (binary_round_aux_signed false (Zpos (m * m)) (e + e) loc_Exact ltac:(lia)) as S.
  unfold SF64mul. cbn [SFmul]. replace (xorb s s) with false by (destruct s; reflexivity).
  destruct (binary_round_aux prec emax false (Zpos (m * m)) (e + e) loc_Exact);
    cbn [signed] in S; try exact I; exact S.
Qed.

Lemma add_unsigned (a b : float) :
  unsigned_or_nan a -> unsigned_or_nan b -> unsigned_or_nan (a + b).
Proof.
  unfold unsigned_or_nan. rewrite add_spec.
  pose proof (Prim2SF_valid a) as Va. pose proof (Prim2SF_valid b) as Vb.
  destruct (Prim2SF a) as [sa|sa| |sa ma ea]; destruct (Prim2SF b) as [sb|sb| |sb mb eb];
    intros Ha Hb; try subst sa; try subst sb; cbn [SF64add SFadd]; try exact I; try reflexivity.
  unfold SF64add. cbn [SFadd cond_Zopp]. cbv zeta.
  apply valid_finite in Va, Vb.
  pose proof (binary_normalize_sign
                (Zpos (fst (shl_align ma ea (Z.min ea eb)))
                 + Zpos (fst (shl_align mb eb (Z.min ea eb))))
                (Z.min ea eb) false ltac:(lia)) as S.
  cbn [Z.add] in S |- *.
  destruct (binary_normalize _ _ _ _ _); cbn [strictly] in S; try contradiction; exact S.
Qed.

Lemma div_unsigned (a b : float) :
  unsigned_or_nan a -> unsigned_or_nan b -> unsigned_or_nan (a / b).
Proof.
  unfold unsigned_or_nan. rewrite div_spec.
  destruct (Prim2SF a) as [sa|sa| |sa ma ea]; destruct (Prim2SF b) as [sb|sb| |sb mb eb];
    intros Ha Hb; try subst sa; try subst sb; cbn [SF64div SFdiv xorb]; try exact I;
    try reflexivity.
  unfold SF64div. cbn [SFdiv xorb].
  pose proof (SFdiv_core_nonneg ma mb ea eb) as H.
  destruct (SFdiv_core_binary prec emax (Zpos ma) ea (Zpos mb) eb) as [[mz ez] lz].
  cbn [fst] in H.
  pose proof (binary_round_aux_signed false mz ez lz H) as S.
  destruct (binary_round_aux prec emax false mz ez lz); cbn [signed] in S; try exact I; exact S.
Qed.

Lemma reduce_from_unsigned (f : float -> nat -> float) (l : list float) (i : nat)
  (acc : float) :
  unsigned_or_nan acc ->
  unsigned_or_nan
    (reduce_from (fun total yi i => total + Math_pow2 (f yi i)) i acc l).
Proof.
  revert i acc. induction l as [|yi l IH]; intros i acc H; cbn [reduce_from]; [exact H|].
  apply IH. apply add_unsigned; [exact H | apply square_unsigned].
Qed.

(** [1 - q] for a positive [q] does not pass 1. *)
Lemma SFsub_one_below (m : positive) (e : Z) :
  valid_binary (S754_finite false m e) = true ->
  valid_binary (SF64sub one_sf (S754_finite false m e)) = true ->
  SFleb (SF64sub one_sf (S754_finite false m e)) one_sf = true.
Proof.
  intros Vq Vr. pose proof (valid_finite _ _ _ Vq) as (Eq & Mq & _).
  unfold SF64sub, one_sf in *. cbn [SFsub cond_Zopp] in *. cbv zeta in *.
  set (ez := Z.min (-52) e) in *.
  pose proof (shl_align_min 4503599627370496 (-52) ez) as (_ & A2 & _).
  pose proof (shl_align_min m e ez) as (_ & B2 & _).
  replace (Z.min (-52) ez) with ez in A2 by lia.
  replace (Z.min e ez) with ez in B2 by lia.
  set (A := Zpos (fst (shl_align 4503599627370496 (-52) ez))) in *.
  set (B := Zpos (fst (shl_align m e ez))) in *.
  assert (HA : A = (2 ^ (- ez))%Z).
  { rewrite A2. change 4503599627370496%Z with (2 ^ 52)%Z.
    rewrite <- Z.pow_add_r by lia. f_equal. lia. }
  assert (HB : (0 < B)%Z) by (subst B; lia).
  assert (Hez : (-1074 <= ez)%Z) by lia.
  pose proof (binary_normalize_sign (A - B) ez false Hez) as S.
  destruct (A - B)%Z as [|z|z] eqn:Ez.
  - rewrite S. reflexivity.
  - clear S. cbn [binary_normalize] in *. unfold binary_round in *.
    pose proof (shl_align_min z ez (fexp prec emax (Zpos (digits2_pos z) + ez)))
      as (C1 & C2 & C3).
    destruct (shl_align z ez (fexp prec emax (Zpos (digits2_pos z) + ez))) as [mz ez'].
    cbn [fst snd] in C1, C2, C3.
    pose proof (digits2_bounds z) as [Dlo Dhi].
    set (d := Zpos (digits2_pos z)) in *.
    assert (Hz : (Zpos z < 2 ^ (- ez))%Z) by lia.
    assert (Hd : (0 < d <= - ez)%Z).
    { split; [subst d; lia|].
      destruct (Z_le_gt_dec d (- ez)) as [|G]; [assumption|exfalso].
      assert (2 ^ (- ez) <= 2 ^ (d - 1))%Z by (apply Z.pow_le_mono_r; lia). lia. }
    assert (Hf : fexp prec emax (d + ez) = Z.max (d + ez - 53) (-1074)).
    { unfold fexp, SpecFloat.emin, prec, emax. lia. }
    assert (Hez' : (ez' <= ez)%Z) by lia.
    set (H := (2 ^ (- ez'))%Z).
    assert (Hmz : (Zpos mz < H)%Z).
    { rewrite C2. replace (Z.min ez (fexp prec emax (d + ez))) with ez' by lia.
      subst H. replace (- ez')%Z with (- ez + (ez - ez'))%Z by lia.
      rewrite Z.pow_add_r by lia.
      assert (0 < 2 ^ (ez - ez'))%Z by (apply Z.pow_pos_nonneg; lia). nia. }
    assert (Hdiv : (2 ^ Z.max 0 (fexp prec emax (Zpos (digits2_pos mz) + ez') - ez') | H)%Z).
    { replace (Zpos (digits2_pos mz) + ez')%Z with (d + ez)%Z by lia.
      set (k := Z.max 0 (fexp prec emax (d + ez) - ez')).
      assert (0 <= k <= - ez')%Z by (subst k; lia).
      exists (2 ^ (- ez' - k))%Z. subst H. rewrite <- Z.pow_add_r by lia. f_equal. lia. }
    destruct (binary_round_aux_below mz ez' H ltac:(lia) ltac:(lia) Hmz Hdiv)
      as [R | (m' & e' & R & Le & Val)]; rewrite R in *; [reflexivity|].
    pose proof (valid_finite _ _ _ Vr) as (Er & Mr & Nr). unfold two53 in Mr.
    rewrite SFleb_rank by (assumption || reflexivity).
    cbn [rank]. cbv zeta. unfold two53. apply Z.leb_le.
    destruct (Z_le_gt_dec e' (-53)) as [Llow|Lhigh]; [lia|].
    subst H.
    assert (Hshift : (2 ^ (e' - ez') = 2 ^ (e' + 52) * 2 ^ (- 52 - ez'))%Z).
    { rewrite <- Z.pow_add_r by lia. f_equal. lia. }
    assert (Hone : (2 ^ (- ez') = 2 ^ 52 * 2 ^ (- 52 - ez'))%Z).
    { rewrite <- Z.pow_add_r by lia. f_equal. lia. }
    rewrite Hshift, Hone in Val.
    assert (Hpos : (0 < 2 ^ (- 52 - ez'))%Z) by (apply Z.pow_pos_nonneg; lia).
    assert (Hm : (Zpos m' * 2 ^ (e' + 52) <= 2 ^ 52)%Z) by nia.
    destruct (Z.eq_dec e' (-52)) as [->|Hne].
    + cbn in Hm. lia.
    + exfalso. assert (2 ^ 1 <= 2 ^ (e' + 52))%Z by (apply Z.pow_le_mono_r; lia).
      assert (2 ^ 52 <= Zpos m')%Z by (apply Nr; lia).
      change (2 ^ 1)%Z with 2%Z in *. change (2 ^ 52)%Z with 4503599627370496%Z in *. nia.
  - cbn [strictly] in S.
    destruct (binary_normalize prec emax (Zneg z) ez false) as [s|s| |s m' e'];
      cbn [strictly] in S; try contradiction; subst s; reflexivity.
Qed.

Lemma one_minus_unsigned (q : float) :
  unsigned_or_nan q -> is_nan (1 - q) = true \/ (1 - q <=? 1) = true.
Proof.
  unfold unsigned_or_nan. intros Hq.
  pose proof (Prim2SF_valid q) as Vq. pose proof (Prim2SF_valid (1 - q)) as Vr.
  rewrite is_nan_spec, leb_spec. rewrite sub_spec in Vr |- *.
  change (Prim2SF 1) with one_sf in *.
  destruct (Prim2SF q) as [s|s| |s m e]; try subst s;
    [right; reflexivity | right; reflexivity | left; reflexivity |].
  right. apply SFsub_one_below; assumption.
Qed.

End ScoreFacts.

(** [score] is [NaN] or at most 1: a quotient of sums of squares is taken
    from 1. *)
Lemma score_at_most_one (regression : SimpleLinearRegression) (x y : list float) :
  is_nan (Regression.score regression x y) = true \/
  (Regression.score regression x y <=? 1) = true.
Proof.
  unfold Regression.score. cbv zeta. apply one_minus_unsigned. apply div_unsigned.
  - unfold reduce.
    apply (reduce_from_unsigned
             (fun yi i => yi - Regression.at_index
                                 (map (fun xi => Regression.predict regression xi) x) i)).
    reflexivity.
  - unfold reduce at 1.
    apply (reduce_from_unsigned
             (fun yi _ => yi - reduce (fun a b _ => a + b) 0 y / Num.of_nat (length y))).
    reflexivity.
Qed.

Section FloorOfConfidence.

Import Num NumFacts.

Lemma SFmul_100_above (mx : positive) (ex : Z) (h : positive) (g : Z) :
  valid_binary (S754_finite false h g) = true -> (2 ^ 52 <= Zpos h)%Z ->
  valid_binary (SF64mul (S754_finite false mx ex) hundred) = true ->
  ((ex + -46 <= g)%Z -> (Zpos h * 2 ^ (g - (ex + -46)) <= Zpos mx * 7036874417766400)%Z) ->
  SFleb (S754_finite false h g) (SF64mul (S754_finite false mx ex) hundred) = true.
Proof.
  intros Vh Hh Vr Hval. pose proof (valid_finite _ _ _ Vh) as (Eg & Mh & _).
  unfold two53 in Mh.
  unfold SF64mul, hundred in *. cbn [SFmul xorb] in *.
  apply above_leb; [exact Vh | exact Vr |].
  apply binary_round_aux_above; [lia | change (2 ^ 53)%Z with 9007199254740992%Z; lia |].
  intros Hle. rewrite Pos2Z.inj_mul. apply Hval. exact Hle.
Qed.

(** [x > 0.5] gives [x * 100 >= 50]. *)
Lemma percent_above_half (x : float) : (0.5 <? x) = true -> (50 <=? x * 100) = true.
Proof.
  intros H.
  pose proof (Prim2SF_valid x) as Vx. pose proof (Prim2SF_valid (x * 100)) as Vr.
  rewrite ltb_spec in H. rewrite leb_spec. rewrite mul_spec in Vr |- *.
  change (Prim2SF 0.5) with (S754_finite false 4503599627370496 (-53)) in H.
  change (Prim2SF 50) with (S754_finite false 7036874417766400 (-47)).
  change (Prim2SF 100) with hundred in *.
  destruct (Prim2SF x) as [s|s| |s m e]; try destruct s; try discriminate; try reflexivity.
  rewrite SFltb_rank in H by (assumption || reflexivity).
  apply Z.ltb_lt in H. cbn [rank] in H. cbv zeta in H. unfold two53 in H.
  pose proof (valid_finite _ _ _ Vx) as (Ee & Mm & Nn). unfold two53 in Mm.
  assert (He : (-53 <= e)%Z) by nia.
  assert (Hm : (2 ^ 52 <= Zpos m)%Z) by (apply Nn; lia).
  change (2 ^ 52)%Z with 4503599627370496%Z in Hm.
  apply SFmul_100_above; [reflexivity | cbn; lia | exact Vr |].
  intros Hle.
  assert (Hp : (2 ^ (-47 - (e + -46)) <= 2 ^ 52)%Z) by (apply Z.pow_le_mono_r; lia).
  assert (0 < 2 ^ (-47 - (e + -46)))%Z by (apply Z.pow_pos_nonneg; lia).
  change (2 ^ 52)%Z with 4503599627370496%Z in Hp. nia.
Qed.

(** [x > 0.3] gives [x * 100 >= 30]. *)
Lemma percent_above_three_tenths (x : float) :
  (0.3 <? x) = true -> (30 <=? x * 100) = true.
Proof.
  intros H.
  pose proof (Prim2SF_valid x) as Vx. pose proof (Prim2SF_valid (x * 100)) as Vr.
  rewrite ltb_spec in H. rewrite leb_spec. rewrite mul_spec in Vr |- *.
  change (Prim2SF 0.3) with (S754_finite false 5404319552844595 (-54)) in H.
  change (Prim2SF 30) with (S754_finite false 8444249301319680 (-48)).
  change (Prim2SF 100) with hundred in *.
  destruct (Prim2SF x) as [s|s| |s m e]; try destruct s; try discriminate; try reflexivity.
  rewrite SFltb_rank in H by (assumption || reflexivity).
  apply Z.ltb_lt in H. cbn [rank] in H. cbv zeta in H. unfold two53 in H.
  pose proof (valid_finite _ _ _ Vx) as (Ee & Mm & Nn). unfold two53 in Mm.
  assert (He : (-54 <= e)%Z) by nia.
  assert (Hm : (2 ^ 52 <= Zpos m)%Z) by (apply Nn; lia).
  change (2 ^ 52)%Z with 4503599627370496%Z in Hm.
  apply SFmul_100_above; [reflexivity | cbn; lia | exact Vr |].
  intros Hle.
  destruct (Z.eq_dec e (-54)) as [->|Hne].
  - cbn. lia.
  - assert (Hp : (2 ^ (-48 - (e + -46)) <= 2 ^ 51)%Z) by (apply Z.pow_le_mono_r; lia).
    assert (0 < 2 ^ (-48 - (e + -46)))%Z by (apply Z.pow_pos_nonneg; lia).
    change (2 ^ 51)%Z with 2251799813685248%Z in Hp. nia.
Qed.

End FloorOfConfidence.

(** X12. [R^2] never passes 1.  Whatever the regression and the data,
    [score] returns [NaN] or a Number that is at most 1, so the [R^2] of a
    trend insight is [NaN] or at most 1 and the [R^2] of a prediction
    insight lies above 0.3 and is at most 1. *)
Theorem rSquared_at_most_one (host : Host) (rows : dataset) :
  (forall regression x y,
     is_nan (Regression.score regression x y) = true \/
     (Regression.score regression x y <=? 1) = true) /\
  exists insights,
    generateInsights host rows = Normal insights /\
    forall i, In i insights ->
      match data i with
      | TrendData _ _ rSquared _ => is_nan rSquared = true \/ (rSquared <=? 1) = true
      | PredictionData _ _ rSquared _ _ =>
          (0.3 <? rSquared) = true /\ (rSquared <=? 1) = true
      | _ => True
      end.
Proof.
  split; [apply score_at_most_one|].
  eexists. split; [apply generateInsights_returns|].
  intros i Hi. apply Array_sort_In in Hi. apply generated_by_type in Hi.
  destruct (type i) eqn:T.
  - apply in_trends_of in Hi. destruct Hi as (name & c & _ & _ & _ & Hi).
    unfold trend_of_column in Hi. apply in_singleton_or_nil in Hi. destruct Hi as [_ ->].
    cbn [data]. apply score_at_most_one.
  - unfold correlations_of in Hi. apply in_flat_map in Hi. destruct Hi as ([c1 c2] & _ & Hi).
    cbn [fst snd] in Hi. apply correlation_of_pair_cases in Hi. cbv zeta in Hi.
    destruct Hi as (_ & _ & r & _ & _ & ->). exact I.
  - unfold anomalies_of in Hi. apply in_flat_map in Hi. destruct Hi as (c & _ & Hi).
    unfold anomaly_of_column in Hi.
    destruct (10 <=? _)%nat; [|destruct Hi].
    destruct (mean host _); [|destruct Hi]. destruct (standardDeviation host _); [|destruct Hi].
    apply in_singleton_or_nil in Hi. destruct Hi as [_ ->]. exact I.
  - apply in_predictions_of in Hi. destruct Hi as (_ & name & c & _ & _ & _ & Hi).
    unfold prediction_of_column in Hi. apply in_singleton_or_nil in Hi.
    destruct Hi as [Hg ->]. apply andb_prop in Hg. destruct Hg as [_ Hr].
    cbn [data]. split; [exact Hr|].
    destruct (score_at_most_one
                (Regression.new
                   (mapi (fun _ index => Num.of_nat index)
                         (prepareTimeSeriesData host rows name c))
                   (map (fun point => value point) (prepareTimeSeriesData host rows name c)))
                (mapi (fun _ index => Num.of_nat index)
                      (prepareTimeSeriesData host rows name c))
                (map (fun point => value point) (prepareTimeSeriesData host rows name c)))
      as [N|L]; [|exact L].
    apply NumFacts.ltb_not_nan in Hr. destruct Hr as [_ Hr]. congruence.
  - apply in_segments_insight_of in Hi. cbv zeta in Hi.
    destruct Hi as (_ & _ & result & _ & ->). exact I.
Qed.

(** X13. The confidence of a correlation insight is at least 50 and that
    of a prediction insight lies between 30 and 85: the thresholds
    [|r| > 0.5] and [R^2 > 0.3] survive the multiplication by 100. *)
Theorem confidence_floors (host : Host) (rows : dataset) (insights : list AnalysisInsight) :
  generateInsights host rows = Normal insights ->
  forall i, In i insights ->
    match type i with
    | correlation => (50 <=? confidence i) = true
    | prediction => (30 <=? confidence i) = true /\ (confidence i <=? 85) = true
    | _ => True
    end.
Proof.
  intros Hout i Hi. rewrite generateInsights_returns in Hout. injection Hout as <-.
  apply Array_sort_In in Hi. apply generated_by_type in Hi.
  destruct (type i) eqn:T; try exact I.
  - unfold correlations_of in Hi. apply in_flat_map in Hi. destruct Hi as ([c1 c2] & _ & Hi).
    cbn [fst snd] in Hi. apply correlation_of_pair_cases in Hi. cbv zeta in Hi.
    destruct Hi as (_ & _ & r & _ & Hr & ->). cbn [confidence].
    apply percent_above_half. exact Hr.
  - apply in_predictions_of in Hi. destruct Hi as (_ & name & c & _ & _ & _ & Hi).
    unfold prediction_of_column in Hi. apply in_singleton_or_nil in Hi.
    destruct Hi as [Hg ->]. apply andb_prop in Hg. destruct Hg as [_ Hr].
    cbn [confidence].
    pose proof (percent_above_three_tenths _ Hr) as Hp.
    destruct (NumFacts.leb_not_nan _ _ Hp) as [N30 Np].
    assert (N85 : is_nan 85 = false) by reflexivity.
    destruct (NumFacts.Math_min_spec _ 85 Np N85) as [Nm Fm].
    split.
    + rewrite NumFacts.leb_frank by assumption. rewrite NumFacts.leb_frank in Hp by assumption.
      apply Z.leb_le. apply Z.leb_le in Hp. rewrite Fm.
      assert (Num.frank 30 <= Num.frank 85)%Z by (vm_compute; discriminate). lia.
    + apply NumFacts.Math_min_bounds; assumption.
Qed.

Lemma confidence_floors_witness :
  Forall (fun i =>
            match type i with
            | correlation => (50 <=? confidence i) = true
            | prediction => (30 <=? confidence i) = true /\ (confidence i <=? 85) = true
            | _ => True
            end)
         (Array_sort by_confidence_descending (generated Reference.host Examples.growing)).
Proof.
  apply Forall_forall.
  apply (confidence_floors Reference.host Examples.growing).
  apply generateInsights_returns.
Defined.

(** ** Reports *)

(** X14. [generateReportAnalysis] never throws.  The report it returns
    names its kind in [type]: the requested type when that is exactly one
    of "Executive Summary", "Detailed Analysis", "Trend Report" and
    "Comparison Report", and "Custom Report" for any other request.  Only
    the executive summary reads the data, and only for the number of
    records (0 when the data is no array): every other report is the same
    whatever the data. *)
Theorem report_analysis_echoes_known_types (data : report_data) (reportType : string) :
  exists fields,
    Report.generateReportAnalysis data reportType = Normal fields /\
    Report.field fields "type"
    = Some (RText (if existsb (String.eqb reportType) Report.known
                   then reportType else "Custom Report"%string)) /\
    (reportType = "Executive Summary"%string ->
     Report.field fields "keyMetrics"
     = Some (RObject "totalRecords"
                     (RNumber match data with
                              | RecordArray rows => Num.of_nat (length rows)
                              | NotAnArray _ => 0
                              end))) /\
    (reportType <> "Executive Summary"%string ->
     forall data', Report.generateReportAnalysis data' reportType = Normal fields).
Proof.
  unfold Report.generateReportAnalysis, Report.known. cbn [existsb].
  destruct (String.eqb reportType "Executive Summary") eqn:E1.
  { apply String.eqb_eq in E1. subst reportType. eexists. split; [reflexivity|].
    split; [reflexivity|]. split; [reflexivity|]. intros H. contradiction H. reflexivity. }
  destruct (String.eqb reportType "Detailed Analysis") eqn:E2.
  { apply String.eqb_eq in E2. subst reportType. eexists. split; [reflexivity|].
    split; [reflexivity|]. split; [discriminate|]. reflexivity. }
  destruct (String.eqb reportType "Trend Report") eqn:E3.
  { apply String.eqb_eq in E3. subst reportType. eexists. split; [reflexivity|].
    split; [reflexivity|]. split; [discriminate|]. reflexivity. }
  destruct (String.eqb reportType "Comparison Report") eqn:E4.
  { apply String.eqb_eq in E4. subst reportType. eexists. split; [reflexivity|].
    split; [reflexivity|]. split; [discriminate|]. reflexivity. }
  eexists. split; [reflexivity|]. split; [reflexivity|].
  split; [intros ->; discriminate E1 | reflexivity].
Qed.

(** ** The order of the records *)

Section OrderFacts.

Variable host : Host.

Import Num NumFacts.

(** Two arrangements of the same points in ascending order of time are the
    same list, when no two of the points share a time. *)
Lemma sorted_unique (l l' : list TimeSeriesPoint) :
  Permutation l l' ->
  Forall (fun p => is_nan (date p) = false) l ->
  ForallOrdPairs (fun p q => (date p =? date q) = false) l ->
  StronglySorted (fun a b => (date a <=? date b) = true) l ->
  StronglySorted (fun a b => (date a <=? date b) = true) l' ->
  l = l'.
Proof.
  intros P. revert l' P. induction l as [|a l IH]; intros l' P N D S S'.
  - apply Permutation_nil in P. subst. reflexivity.
  - destruct l' as [|a' l']; [apply Permutation_sym, Permutation_nil in P; discriminate|].
    inversion N as [|? ? Na N']; subst.
    inversion D as [|? ? Da D']; subst.
    inversion S as [|? ? Sl Sa]; subst.
    inversion S' as [|? ? Sl' Sa']; subst.
    assert (E : a = a').
    { assert (Hin : In a' (a :: l)) by (apply (Permutation_in _ (Permutation_sym P)); left; reflexivity).
      destruct Hin as [H|H]; [exact H|exfalso].
      assert (Hin' : In a (a' :: l')) by (apply (Permutation_in _ P); left; reflexivity).
      destruct Hin' as [H'|H']; [subst a'; rewrite Forall_forall in Da;
                                  specialize (Da a H); rewrite eqb_frank in Da by assumption;
                                  apply Z.eqb_neq in Da; lia|].
      rewrite Forall_forall in Sa, Sa', Da, N'.
      pose proof (Sa a' H) as L1. pose proof (Sa' a H') as L2. pose proof (Da a' H) as L3.
      pose proof (N' a' H) as Na'.
      rewrite leb_frank in L1, L2 by assumption. rewrite eqb_frank in L3 by assumption.
      apply Z.leb_le in L1, L2. apply Z.eqb_neq in L3. lia. }
    subst a'. f_equal. apply IH; try assumption.
    apply Permutation_cons_inv with (a := a). exact P.
Qed.

Lemma eqb_false_sym (x y : float) : (x =? y) = false -> (y =? x) = false.
Proof.
  intros H. destruct (y =? x) eqn:E; [|reflexivity].
  destruct (eqb_not_nan _ _ E) as [Ny Nx]. rewrite eqb_frank in H, E by assumption.
  apply Z.eqb_eq in E. apply Z.eqb_neq in H. congruence.
Qed.

Lemma filter_ordpairs {A : Type} (R : A -> A -> Prop) (f : A -> bool) (l : list A) :
  ForallOrdPairs R l -> ForallOrdPairs R (filter f l).
Proof.
  induction 1 as [|a l Ha Hl IH]; cbn [filter]; [constructor|].
  destruct (f a); [|exact IH]. constructor; [|exact IH].
  rewrite Forall_forall in Ha |- *. intros b Hb. apply filter_In in Hb. apply Ha. tauto.
Qed.

Lemma ordpairs_perm {A : Type} (R : A -> A -> Prop) (l l' : list A) :
  (forall a b, R a b -> R b a) ->
  Permutation l l' -> ForallOrdPairs R l -> ForallOrdPairs R l'.
Proof.
  intros Hsym P. induction P as [|x l l' P IH|x y l|l l' l'' P IH P' IH']; intros H.
  - constructor.
  - inversion H as [|? ? Hx Hl]; subst. constructor; [|apply IH; exact Hl].
    rewrite Forall_forall in Hx |- *. intros b Hb. apply Hx.
    apply (Permutation_in _ (Permutation_sym P)). exact Hb.
  - inversion H as [|? ? Hy Hl]; subst. inversion Hl as [|? ? Hx Hl']; subst.
    inversion Hy as [|? ? Hyx Hy']; subst.
    constructor; [constructor; [apply Hsym; exact Hyx | exact Hx]|].
    constructor; assumption.
  - apply IH', IH, H.
Qed.

Lemma ordpairs_map {A B : Type} (R : B -> B -> Prop) (f : A -> B) (l : list A) :
  ForallOrdPairs R (map f l) -> ForallOrdPairs (fun a b => R (f a) (f b)) l.
Proof.
  induction l as [|a l IH]; cbn [map]; intros H; [constructor|].
  inversion H as [|? ? Ha Hl]; subst. constructor; [|apply IH; exact Hl].
  rewrite Forall_forall in Ha |- *. intros b Hb. apply Ha. apply in_map. exact Hb.
Qed.

(** The series of a column does not depend on the order of the records,
    when no two records share a time. *)
Lemma series_ignores_order (rows rows' : dataset) (dateColumn column : string) :
  Permutation rows rows' ->
  ForallOrdPairs (fun t t' => (t =? t') = false)
                 (map (fun row => new_Date host (get row dateColumn)) rows) ->
  prepareTimeSeriesData host rows' dateColumn column
  = prepareTimeSeriesData host rows dateColumn column.
Proof.
  intros P D.
  destruct (prepareTimeSeriesData_sorted host rows dateColumn column) as (P1 & S1 & _).
  destruct (prepareTimeSeriesData_sorted host rows' dateColumn column) as (P2 & S2 & _).
  cbv zeta in *.
  set (point_of := fun row => {| date := new_Date host (get row dateColumn);
                                 value := parseFloat host (get row column) |}) in *.
  set (valid := fun point => negb (is_nan (date point)) && negb (is_nan (value point))) in *.
  symmetry. apply sorted_unique; try assumption.
  - rewrite <- P1, <- P2. apply filter_perm. apply Permutation_map. exact P.
  - apply Forall_forall. intros p Hp. apply (Permutation_in _ (Permutation_sym P1)) in Hp.
    apply filter_In in Hp. destruct Hp as [_ Hp]. unfold valid in Hp.
    apply andb_prop in Hp. destruct Hp as [Hp _]. apply negb_true_iff in Hp. exact Hp.
  - apply (ordpairs_perm _ (filter valid (map point_of rows)));
      [intros a b H; apply eqb_false_sym; exact H | exact P1 |].
    apply filter_ordpairs.
    apply ordpairs_map in D.
    clear - D. induction D as [|row rows Hr Hrs IH]; cbn [map]; constructor; [|exact IH].
    rewrite Forall_forall in Hr |- *. intros p Hp. apply in_map_iff in Hp.
    destruct Hp as (row' & <- & Hrow'). apply Hr. exact Hrow'.
Qed.

End OrderFacts.

(** X17. Trends and predictions do not depend on the order of the records
    after the first.  When no two records of the dataset have the same time
    in the date column, rearranging the records after the first changes
    neither what [identifyTrends] returns nor what [generatePredictions]
    returns: the series are sorted by time before the regression. *)
Theorem trends_ignore_row_order (host : Host) (firstRow : record) (rest rest' : dataset)
  (dateColumn : string) :
  Permutation rest rest' ->
  getDateColumn host (firstRow :: rest) = Some dateColumn ->
  ForallOrdPairs (fun t t' => (t =? t') = false)
                 (map (fun row => new_Date host (get row dateColumn)) (firstRow :: rest)) ->
  identifyTrends host (firstRow :: rest') = identifyTrends host (firstRow :: rest) /\
  generatePredictions host (firstRow :: rest') = generatePredictions host (firstRow :: rest).
Proof.
  intros P Hd D.
  assert (P' : Permutation (firstRow :: rest) (firstRow :: rest')) by (constructor; exact P).
  assert (Hs : forall column,
             prepareTimeSeriesData host (firstRow :: rest') dateColumn column
             = prepareTimeSeriesData host (firstRow :: rest) dateColumn column)
    by (intros column; apply series_ignores_order; assumption).
  assert (Hd' : getDateColumn host (firstRow :: rest') = Some dateColumn) by exact Hd.
  assert (Hn : getNumericColumns host (firstRow :: rest')
               = getNumericColumns host (firstRow :: rest)) by reflexivity.
  rewrite !identifyTrends_returns, !generatePredictions_returns.
  unfold trends_of, predictions_of. rewrite Hd, Hd', Hn. cbn [column_name].
  rewrite <- (Permutation_length P').
  split; f_equal.
  - destruct (no_column (Some dateColumn)); [reflexivity|].
    apply flat_map_ext. intros column. unfold trend_of_column. rewrite Hs. reflexivity.
  - destruct (no_column (Some dateColumn) || _); [reflexivity|].
    apply flat_map_ext. intros column. unfold prediction_of_column. rewrite Hs. reflexivity.
Qed.

Lemma trends_ignore_row_order_witness :
  identifyTrends Reference.host (hd [] Examples.growing :: rev (tl Examples.growing))
  = identifyTrends Reference.host Examples.growing /\
  generatePredictions Reference.host (hd [] Examples.growing :: rev (tl Examples.growing))
  = generatePredictions Reference.host Examples.growing.
Proof.
  apply (trends_ignore_row_order Reference.host (hd [] Examples.growing)
           (tl Examples.growing) (rev (tl Examples.growing)) "t"%string).
  - apply Permutation_rev.
  - vm_compute. reflexivity.
  - vm_compute. repeat constructor.
Defined.

(* ================================================================== *)
(** * Part 11. The CSV reader                                           *)
(* ================================================================== *)

Section CsvFacts.

Import Csv.

Local Open Scope string_scope.

(** *** Splitting and trimming *)

Lemma split_not_nil (sep : ascii) (s : string) : split sep s <> [].
Proof.
  induction s as [|c s IH]; cbn [split]; [discriminate|].
  destruct (Ascii.eqb c sep); [discriminate|].
  destruct (split sep s); discriminate.
Qed.

Lemma split_pieces (sep : ascii) (s piece : string) :
  In piece (split sep s) -> occurs sep piece = false.
Proof.
  revert piece. induction s as [|c s IH]; cbn [split]; intros piece H.
  - destruct H as [<-|[]]. reflexivity.
  - destruct (Ascii.eqb c sep) eqn:E.
    + destruct H as [<-|H]; [reflexivity | apply IH; exact H].
    + destruct (split sep s) as [|first others] eqn:S.
      * destruct H as [<-|[]]. cbn [occurs]. rewrite E. reflexivity.
      * destruct H as [<-|H].
        -- cbn [occurs]. rewrite E. apply IH. left. reflexivity.
        -- apply IH. right. exact H.
Qed.

(** A character that a piece of a split does not hold was not in the text
    either, unless it is the separator. *)
Lemma split_keeps_out (sep c : ascii) (s piece : string) :
  occurs c s = false -> In piece (split sep s) -> occurs c piece = false.
Proof.
  revert piece. induction s as [|c' s IH]; cbn [split occurs]; intros piece Hc H.
  - destruct H as [<-|[]]. reflexivity.
  - apply orb_false_elim in Hc. destruct Hc as [Hc' Hc].
    destruct (Ascii.eqb c' sep) eqn:E.
    + destruct H as [<-|H]; [reflexivity | apply IH; assumption].
    + destruct (split sep s) as [|first others] eqn:S.
      * destruct H as [<-|[]]. cbn [occurs]. rewrite Hc'. reflexivity.
      * destruct H as [<-|H].
        -- cbn [occurs]. rewrite Hc'. apply IH; [exact Hc | left; reflexivity].
        -- apply IH; [exact Hc | right; exact H].
Qed.

Lemma trimStart_keeps_out (c : ascii) (s : string) :
  occurs c s = false -> occurs c (trimStart s) = false.
Proof.
  induction s as [|c' s IH]; cbn [trimStart occurs]; intros H; [reflexivity|].
  apply orb_false_elim in H. destruct H as [H1 H2].
  destruct (is_white_space c'); [apply IH; exact H2|].
  cbn [occurs]. rewrite H1, H2. reflexivity.
Qed.

Lemma trimEnd_keeps_out (c : ascii) (s : string) :
  occurs c s = false -> occurs c (trimEnd s) = false.
Proof.
  induction s as [|c' s IH]; cbn [trimEnd occurs]; intros H; [reflexivity|].
  apply orb_false_elim in H. destruct H as [H1 H2]. specialize (IH H2).
  destruct (trimEnd s) as [|k kept].
  - destruct (is_white_space c'); [reflexivity|]. cbn [occurs]. rewrite H1. reflexivity.
  - cbn [occurs] in IH |- *. rewrite H1. exact IH.
Qed.

Lemma trim_keeps_out (c : ascii) (s : string) :
  occurs c s = false -> occurs c (trim s) = false.
Proof. intros H. apply trimEnd_keeps_out, trimStart_keeps_out, H. Qed.

Lemma remove_quotes_keeps_out (c : ascii) (s : string) :
  occurs c s = false -> occurs c (remove_quotes s) = false.
Proof.
  induction s as [|c' s IH]; cbn [remove_quotes occurs]; intros H; [reflexivity|].
  apply orb_false_elim in H. destruct H as [H1 H2].
  destruct (Ascii.eqb c' quote); [apply IH; exact H2|].
  cbn [occurs]. rewrite H1. apply IH. exact H2.
Qed.

Lemma remove_quotes_no_quote (s : string) : occurs quote (remove_quotes s) = false.
Proof.
  induction s as [|c s IH]; cbn [remove_quotes]; [reflexivity|].
  destruct (Ascii.eqb c quote) eqn:E; [exact IH|]. cbn [occurs]. rewrite E. exact IH.
Qed.

(** A cleaned piece of a line holds no quote, no comma and no line feed. *)
Lemma clean_pieces (line piece : string) :
  occurs line_feed line = false ->
  In piece (map clean (split comma line)) ->
  occurs quote piece = false /\ occurs comma piece = false /\
  occurs line_feed piece = false.
Proof.
  intros Hl H. apply in_map_iff in H. destruct H as (raw & <- & Hraw). unfold clean.
  split; [apply remove_quotes_no_quote|]. split.
  - apply remove_quotes_keeps_out, trim_keeps_out. apply (split_pieces comma line). exact Hraw.
  - apply remove_quotes_keeps_out, trim_keeps_out.
    apply (split_keeps_out comma line_feed line); assumption.
Qed.

(** *** Assignments to an ordinary object *)

Lemma has_key_In (row : record) (key : string) :
  has_key row key = true <-> In key (Object_keys row).
Proof.
  induction row as [|[k w] row IH]; cbn [has_key Object_keys map In fst].
  - split; [discriminate | intros []].
  - rewrite orb_true_iff, IH, String.eqb_eq. reflexivity.
Qed.

Lemma update_keys (row : record) (key : string) (v : any) :
  Object_keys (update row key v) = Object_keys row.
Proof.
  induction row as [|[k w] row IH]; cbn [update]; [reflexivity|].
  destruct (String.eqb k key); cbn [Object_keys map fst]; [reflexivity|].
  f_equal. exact IH.
Qed.

Lemma insert_index_keys (row : record) (n : N) (key : string) (v : any) :
  forall k, In k (Object_keys (insert_index row n key v)) <-> k = key \/ In k (Object_keys row).
Proof.
  induction row as [|[k' w] row IH]; intros k; cbn [insert_index].
  - cbn. intuition.
  - destruct (array_index k') as [n'|]; [destruct (n <? n')%N|].
    + cbn. intuition.
    + cbn [Object_keys map fst In]. fold (Object_keys (insert_index row n key v)).
      fold (Object_keys row). rewrite IH. intuition.
    + cbn. intuition.
Qed.

Lemma Object_set_keys (row : record) (key : string) (v : any) (k : string) :
  In k (Object_keys (Object_set row key v)) <->
  In k (Object_keys row) \/ (k = key /\ key <> "__proto__").
Proof.
  unfold Object_set. destruct (String.eqb key "__proto__") eqn:P.
  - apply String.eqb_eq in P. intuition.
  - apply String.eqb_neq in P. destruct (has_key row key) eqn:H.
    + rewrite update_keys. apply has_key_In in H. split; [tauto|].
      intros [?|[-> _]]; assumption.
    + destruct (array_index key) as [n|].
      * rewrite insert_index_keys. intuition (subst; auto).
      * unfold Object_keys. rewrite map_app, in_app_iff. cbn. intuition (subst; auto).
Qed.

Lemma insert_index_NoDup (row : record) (n : N) (key : string) (v : any) :
  ~ In key (Object_keys row) -> NoDup (Object_keys row) ->
  NoDup (Object_keys (insert_index row n key v)).
Proof.
  induction row as [|[k' w] row IH]; intros Hn Hd; cbn [insert_index].
  - cbn. constructor; [intros [] | constructor].
  - destruct (array_index k') as [n'|]; [destruct (n <? n')%N|].
    + cbn [Object_keys map fst]. constructor; assumption.
    + cbn [Object_keys map fst] in *. fold (Object_keys row) in *.
      fold (Object_keys (insert_index row n key v)).
      inversion Hd as [|? ? Hk Hd']; subst. constructor.
      * rewrite insert_index_keys. cbn [In] in Hn. intros [->|H]; tauto.
      * apply IH; [cbn [In] in Hn; tauto | exact Hd'].
    + cbn [Object_keys map fst]. constructor; assumption.
Qed.

Lemma Object_set_NoDup (row : record) (key : string) (v : any) :
  NoDup (Object_keys row) -> NoDup (Object_keys (Object_set row key v)).
Proof.
  intros Hd. unfold Object_set. destruct (String.eqb key "__proto__"); [exact Hd|].
  destruct (has_key row key) eqn:H.
  - rewrite update_keys. exact Hd.
  - assert (Hn : ~ In key (Object_keys row)).
    { intros Hin. apply has_key_In in Hin. congruence. }
    destruct (array_index key) as [n|].
    + apply insert_index_NoDup; assumption.
    + unfold Object_keys in *. rewrite map_app. cbn [map fst].
      apply NoDup_app; [exact Hd | constructor; [intros [] | constructor] |].
      intros k Hk [<-|[]]. exact (Hn Hk).
Qed.

(** The keys after an assignment depend on the keys before, not on the
    values. *)
Lemma insert_index_same_keys (row row' : record) (n : N) (key : string) (v v' : any) :
  Object_keys row = Object_keys row' ->
  Object_keys (insert_index row n key v) = Object_keys (insert_index row' n key v').
Proof.
  revert row'. induction row as [|[k w] row IH]; intros [|[k' w'] row'] E;
    try discriminate E; [reflexivity|].
  cbn [Object_keys map fst] in E. injection E as <- E. cbn [insert_index].
  destruct (array_index k) as [n'|]; [destruct (n <? n')%N|].
  - cbn [Object_keys map fst]. f_equal. f_equal. exact E.
  - cbn [Object_keys map fst]. f_equal. apply IH. exact E.
  - cbn [Object_keys map fst]. f_equal. f_equal. exact E.
Qed.

Lemma has_key_same_keys (row row' : record) (key : string) :
  Object_keys row = Object_keys row' -> has_key row key = has_key row' key.
Proof.
  intros E. destruct (has_key row key) eqn:H; symmetry.
  - apply has_key_In. rewrite <- E. apply has_key_In. exact H.
  - destruct (has_key row' key) eqn:H'; [|reflexivity].
    apply has_key_In in H'. rewrite <- E in H'. apply has_key_In in H'. congruence.
Qed.

Lemma Object_set_same_keys (row row' : record) (key : string) (v v' : any) :
  Object_keys row = Object_keys row' ->
  Object_keys (Object_set row key v) = Object_keys (Object_set row' key v').
Proof.
  intros E. unfold Object_set. destruct (String.eqb key "__proto__"); [exact E|].
  rewrite (has_key_same_keys row row' key E).
  destruct (has_key row' key).
  - rewrite !update_keys. exact E.
  - destruct (array_index key) as [n|].
    + apply insert_index_same_keys. exact E.
    + unfold Object_keys in *. rewrite !map_app, E. reflexivity.
Qed.

Lemma assign_from_same_keys (headers : list string) (i i' : nat) (values values' : list string)
  (row row' : record) :
  Object_keys row = Object_keys row' ->
  Object_keys (assign_from headers i values row)
  = Object_keys (assign_from headers i' values' row').
Proof.
  revert i i' row row'. induction headers as [|h headers IH]; intros i i' row row' E;
    cbn [assign_from]; [exact E|].
  apply IH. apply Object_set_same_keys. exact E.
Qed.

Lemma assign_from_keys (headers : list string) (i : nat) (values : list string)
  (row : record) (k : string) :
  In k (Object_keys (assign_from headers i values row)) <->
  In k (Object_keys row) \/ (In k headers /\ k <> "__proto__").
Proof.
  revert i row. induction headers as [|h headers IH]; intros i row; cbn [assign_from].
  - cbn. tauto.
  - rewrite IH, Object_set_keys. cbn [In]. intuition (subst; auto).
Qed.

Lemma assign_from_NoDup (headers : list string) (i : nat) (values : list string)
  (row : record) :
  NoDup (Object_keys row) -> NoDup (Object_keys (assign_from headers i values row)).
Proof.
  revert i row. induction headers as [|h headers IH]; intros i row H; cbn [assign_from];
    [exact H|].
  apply IH. apply Object_set_NoDup. exact H.
Qed.

(** *** What the properties hold *)

Lemma update_values (row : record) (key : string) (v : any) (k : string) (w : any) :
  In (k, w) (update row key v) -> In (k, w) row \/ w = v.
Proof.
  induction row as [|[k' w'] row IH]; cbn [update]; [intros []|].
  destruct (String.eqb k' key).
  - intros [E|H]; [injection E as _ <-; right; reflexivity | left; right; exact H].
  - intros [E|H]; [left; left; exact E|]. destruct (IH H); [left; right; assumption | auto].
Qed.

Lemma insert_index_values (row : record) (n : N) (key : string) (v : any)
  (k : string) (w : any) :
  In (k, w) (insert_index row n key v) -> In (k, w) row \/ w = v.
Proof.
  induction row as [|[k' w'] row IH]; cbn [insert_index].
  - intros [E|[]]. injection E as _ <-. auto.
  - destruct (array_index k') as [n'|]; [destruct (n <? n')%N|].
    + intros [E|H]; [injection E as _ <-; auto | auto].
    + intros [E|H]; [left; left; exact E|]. destruct (IH H); [left; right; assumption | auto].
    + intros [E|H]; [injection E as _ <-; auto | auto].
Qed.

Lemma Object_set_values (row : record) (key : string) (v : any) (k : string) (w : any) :
  In (k, w) (Object_set row key v) -> In (k, w) row \/ w = v.
Proof.
  unfold Object_set. destruct (String.eqb key "__proto__"); [auto|].
  destruct (has_key row key); [apply update_values|].
  destruct (array_index key); [apply insert_index_values|].
  intros H. apply in_app_or in H. destruct H as [H|[E|[]]]; [auto|].
  injection E as _ <-. auto.
Qed.

Lemma assign_from_values (headers : list string) (i : nat) (values : list string)
  (row : record) (k : string) (w : any) :
  In (k, w) (assign_from headers i values row) ->
  In (k, w) row \/ exists j, w = VString (nth j values "").
Proof.
  revert i row. induction headers as [|h headers IH]; intros i row; cbn [assign_from]; [auto|].
  intros H. apply IH in H. destruct H as [H|H]; [|auto].
  apply Object_set_values in H. destruct H as [H| ->]; eauto.
Qed.

Lemma get_In (row : record) (key : string) :
  In key (Object_keys row) -> In (key, get row key) row.
Proof.
  induction row as [|[k w] row IH]; cbn [Object_keys map fst In get]; [intros []|].
  destruct (String.eqb k key) eqn:E.
  - apply String.eqb_eq in E. subst k. auto.
  - apply String.eqb_neq in E. intros [H|H]; [contradiction | right; apply IH; exact H].
Qed.

Lemma get_absent (row : record) (key : string) :
  has_key row key = false -> get row key = VUndefined.
Proof.
  induction row as [|[k w] row IH]; cbn [has_key get]; [reflexivity|].
  destruct (String.eqb k key); cbn [orb]; [discriminate | exact IH].
Qed.

Lemma get_update (row : record) (key : string) (v : any) (k : string) :
  has_key row key = true ->
  get (update row key v) k = if String.eqb key k then v else get row k.
Proof.
  induction row as [|[k' w] row IH]; cbn [has_key update get]; [discriminate|].
  destruct (String.eqb k' key) eqn:E.
  - apply String.eqb_eq in E. subst k'. intros _. cbn [get].
    destruct (String.eqb key k); reflexivity.
  - cbn [orb]. intros H. cbn [get]. destruct (String.eqb k' k) eqn:E'.
    + apply String.eqb_eq in E'. subst k'. rewrite String.eqb_sym, E. reflexivity.
    + apply IH. exact H.
Qed.

Lemma get_insert_index (row : record) (n : N) (key : string) (v : any) (k : string) :
  has_key row key = false ->
  get (insert_index row n key v) k = if String.eqb key k then v else get row k.
Proof.
  induction row as [|[k' w] row IH]; cbn [has_key insert_index]; intros H.
  - cbn [get]. reflexivity.
  - apply orb_false_elim in H. destruct H as [E H].
    destruct (array_index k') as [n'|]; [destruct (n <? n')%N|]; cbn [get]; try reflexivity.
    destruct (String.eqb k' k) eqn:E'.
    + apply String.eqb_eq in E'. subst k'. rewrite String.eqb_sym, E. reflexivity.
    + apply IH. exact H.
Qed.

Lemma get_app_new (row : record) (key : string) (v : any) (k : string) :
  has_key row key = false ->
  get (row ++ [(key, v)])%list k = if String.eqb key k then v else get row k.
Proof.
  induction row as [|[k' w] row IH]; cbn [has_key app get]; intros H; [reflexivity|].
  apply orb_false_elim in H. destruct H as [E H].
  destruct (String.eqb k' k) eqn:E'.
  - apply String.eqb_eq in E'. subst k'. rewrite String.eqb_sym, E. reflexivity.
  - apply IH. exact H.
Qed.

(** Reading after writing: the value written, unless the key is
    [__proto__]. *)
Lemma get_Object_set (row : record) (key : string) (v : any) (k : string) :
  get (Object_set row key v) k
  = if String.eqb key k && negb (String.eqb key "__proto__") then v else get row k.
Proof.
  unfold Object_set. destruct (String.eqb key "__proto__"); cbn [negb].
  - rewrite andb_false_r. reflexivity.
  - rewrite andb_true_r. destruct (has_key row key) eqn:H.
    + apply get_update. exact H.
    + destruct (array_index key); [apply get_insert_index | apply get_app_new]; exact H.
Qed.

Lemma get_assign_from_other (headers : list string) (i : nat) (values : list string)
  (row : record) (k : string) :
  ~ In k headers -> get (assign_from headers i values row) k = get row k.
Proof.
  revert i row. induction headers as [|h headers IH]; intros i row Hn; cbn [assign_from];
    [reflexivity|].
  rewrite IH by (intros H; apply Hn; right; exact H).
  rewrite get_Object_set.
  replace (String.eqb h k) with false; [reflexivity|].
  symmetry. apply String.eqb_neq. intros ->. apply Hn. left. reflexivity.
Qed.

(** The cell under a header: the value at the header's last position. *)
Lemma get_assign_from (headers : list string) (i : nat) (values : list string)
  (row : record) (j : nat) :
  (j < length headers)%nat -> nth j headers "" <> "__proto__" ->
  (forall j', (j < j' < length headers)%nat -> nth j' headers "" <> nth j headers "") ->
  get (assign_from headers i values row) (nth j headers "") = VString (nth (i + j) values "").
Proof.
  revert i row j. induction headers as [|h headers IH]; intros i row j Hj Hp Hlast;
    cbn [length] in Hj; [lia|].
  cbn [assign_from]. destruct j as [|j].
  - cbn [nth] in *. rewrite get_assign_from_other.
    + rewrite get_Object_set, String.eqb_refl.
      replace (String.eqb h "__proto__") with false
        by (symmetry; apply String.eqb_neq; exact Hp).
      cbn. rewrite Nat.add_0_r. reflexivity.
    + intros Hin. apply (In_nth _ _ "") in Hin. destruct Hin as (j' & Hj' & E).
      apply (Hlast (S j')); [cbn [length]; lia | exact E].
  - cbn [nth] in *. rewrite IH.
    + f_equal. f_equal. lia.
    + lia.
    + exact Hp.
    + intros j' Hj'. apply (Hlast (S j')). cbn [length]. lia.
Qed.

(** The loop over the lines: one record for each line that is not blank. *)
Lemma read_lines_map (headers lines : list string) (results : dataset) :
  read_lines headers lines results
  = (results ++ map (fun l => assign_from headers 0 (map clean (split comma (trim l))) [])
                    (filter not_blank lines))%list.
Proof.
  revert results. induction lines as [|l lines IH]; intros results; cbn [read_lines filter].
  - cbn. rewrite app_nil_r. reflexivity.
  - cbv zeta. unfold not_blank at 1.
    destruct (negb (String.eqb (trim l) "")).
    + rewrite IH. cbn [map]. rewrite <- app_assoc. reflexivity.
    + apply IH.
Qed.

End CsvFacts.

(** X15. [parseCsvContent] never rejects: the "Empty CSV content" branch
    cannot be reached, and the empty text gives no record.  It returns one
    record for each line after the first that is not blank.  Every record
    has the same keys, in the same order, without repetition: the cleaned
    headers, [__proto__] apart.  Every cell is a String that holds no double
    quote, no comma and no line feed. *)
Theorem parseCsvContent_table (content : string) :
  let lines := Csv.split Csv.line_feed content in
  let headers := map Csv.clean (Csv.split Csv.comma (nth 0 lines ""%string)) in
  exists rows,
    Csv.parseCsvContent content = Normal rows /\
    length rows = length (filter Csv.not_blank (tl lines)) /\
    (content = ""%string -> rows = []) /\
    forall row, In row rows ->
      (forall key, In key (Object_keys row) <->
                   In key headers /\ key <> "__proto__"%string) /\
      NoDup (Object_keys row) /\
      (forall row', In row' rows -> Object_keys row' = Object_keys row) /\
      (forall key, In key (Object_keys row) ->
         exists cell, get row key = VString cell /\
                      Csv.occurs Csv.quote cell = false /\
                      Csv.occurs Csv.comma cell = false /\
                      Csv.occurs Csv.line_feed cell = false).
Proof.
  intros lines headers.
  pose proof (split_not_nil Csv.line_feed content) as Hne.
  pose proof (split_pieces Csv.line_feed content) as Hpieces.
  assert (Hempty : content = ""%string -> tl lines = []) by (intros ->; reflexivity).
  unfold Csv.parseCsvContent. cbv zeta.
  change (Csv.split Csv.line_feed content) with lines in Hne, Hpieces |- *.
  change (map Csv.clean (Csv.split Csv.comma (nth 0 lines ""%string))) with headers.
  clearbody headers. clearbody lines.
  destruct lines as [|first others]; [contradiction|].
  cbn [length Nat.eqb tl] in *. eexists. split; [reflexivity|].
  rewrite read_lines_map. cbn [app]. split; [apply length_map|].
  split; [intros E; rewrite (Hempty E); reflexivity|].
  intros row Hrow. apply in_map_iff in Hrow. destruct Hrow as (l & <- & Hl).
  apply filter_In in Hl. destruct Hl as [Hl _].
  split; [|split; [|split]].
  - intros key. rewrite assign_from_keys. cbn. tauto.
  - apply assign_from_NoDup. constructor.
  - intros row' Hrow'. apply in_map_iff in Hrow'. destruct Hrow' as (l' & <- & _).
    apply assign_from_same_keys. reflexivity.
  - intros key Hkey. apply get_In in Hkey. apply assign_from_values in Hkey.
    destruct Hkey as [[]|(j & E)].
    exists (nth j (map Csv.clean (Csv.split Csv.comma (Csv.trim l))) ""%string).
    split; [exact E|].
    destruct (nth_in_or_default j (map Csv.clean (Csv.split Csv.comma (Csv.trim l))) ""%string)
      as [Hin|Hd].
    + apply (clean_pieces (Csv.trim l)); [|exact Hin].
      apply trim_keeps_out. apply Hpieces. right. exact Hl.
    + rewrite Hd. repeat split.
Qed.

Section CsvOrder.

Import Csv.

Local Open Scope string_scope.

Lemma insert_index_order (row : record) (n : N) (key : string) (v : any)
  (indices names : list string) :
  Object_keys row = (indices ++ names)%list ->
  Forall (fun k => array_index k <> None) indices ->
  StronglySorted index_le indices ->
  Forall (fun k => array_index k = None) names ->
  array_index key = Some n ->
  exists indices',
    Object_keys (insert_index row n key v) = (indices' ++ names)%list /\
    Forall (fun k => array_index k <> None) indices' /\
    StronglySorted index_le indices' /\
    (forall k, In k indices' -> k = key \/ In k indices).
Proof.
  intros E Hi Hs Hn Hk. revert row E.
  induction indices as [|a indices IH]; intros row E.
  - (* the first key, if any, is no array index *)
    exists [key]. cbn [app] in E |- *.
    assert (Hrow : Object_keys (insert_index row n key v) = key :: names).
    { destruct row as [|[k' w] row]; cbn [insert_index].
      - cbn in E. subst names. reflexivity.
      - cbn [Object_keys map fst] in E. subst names.
        inversion Hn as [|? ? Hk' _]; subst. rewrite Hk'. reflexivity. }
    rewrite Hrow. split; [reflexivity|]. split; [constructor; [congruence | constructor]|].
    split; [constructor; constructor|]. intros k [<-|[]]. auto.
  - destruct row as [|[k' w] row]; [discriminate E|].
    cbn [Object_keys map fst app] in E. injection E as -> E. fold (Object_keys row) in E.
    inversion Hi as [|? ? Ha Hi']; subst. inversion Hs as [|? ? Hs' Hle]; subst.
    cbn [insert_index]. destruct (array_index a) as [n'|] eqn:Ea; [|congruence].
    destruct (n <? n')%N eqn:L.
    + apply N.ltb_lt in L. exists (key :: a :: indices).
      split; [cbn [Object_keys map fst app]; fold (Object_keys row); rewrite E; reflexivity|].
      split; [constructor; [congruence | exact Hi]|].
      split.
      * constructor; [exact Hs|]. constructor.
        -- unfold index_le. rewrite Hk, Ea. lia.
        -- rewrite Forall_forall in Hle |- *. intros b Hb. specialize (Hle b Hb).
           unfold index_le in *. rewrite Hk. rewrite Ea in Hle.
           destruct (array_index b); [lia | exact Hle].
      * intros k [<-|H]; auto.
    + apply N.ltb_ge in L. destruct (IH Hi' Hs' row E) as (indices' & E' & Hi'' & Hs'' & Hin).
      exists (a :: indices').
      split; [cbn [Object_keys map fst app];
              fold (Object_keys (insert_index row n key v)); rewrite E'; reflexivity|].
      split; [constructor; [congruence | exact Hi'']|].
      split.
      * constructor; [exact Hs''|]. rewrite Forall_forall in Hle |- *.
        intros b Hb. destruct (Hin b Hb) as [->|Hb'].
        -- unfold index_le. rewrite Ea, Hk. exact L.
        -- apply Hle. exact Hb'.
      * intros k [<-|H]; [right; left; reflexivity|].
        destruct (Hin k H); [auto | right; right; assumption].
Qed.

Lemma Object_set_order (row : record) (key : string) (v : any) :
  ordinary_order (Object_keys row) -> ordinary_order (Object_keys (Object_set row key v)).
Proof.
  intros (indices & names & E & Hi & Hs & Hn). unfold Object_set.
  destruct (String.eqb key "__proto__"); [exists indices, names; auto|].
  destruct (has_key row key).
  - rewrite update_keys. exists indices, names. auto.
  - destruct (array_index key) as [n|] eqn:Hk.
    + destruct (insert_index_order row n key v indices names E Hi Hs Hn Hk)
        as (indices' & E' & Hi' & Hs' & _).
      exists indices', names. auto.
    + exists indices, (names ++ [key])%list. unfold Object_keys in *.
      rewrite map_app, E, <- app_assoc. cbn [map fst].
      split; [reflexivity|]. split; [exact Hi|]. split; [exact Hs|].
      apply Forall_app. split; [exact Hn | constructor; [exact Hk | constructor]].
Qed.

Lemma assign_from_order (headers : list string) (i : nat) (values : list string)
  (row : record) :
  ordinary_order (Object_keys row) ->
  ordinary_order (Object_keys (assign_from headers i values row)).
Proof.
  revert i row. induction headers as [|h headers IH]; intros i row H; cbn [assign_from];
    [exact H|].
  apply IH, Object_set_order, H.
Qed.

End CsvOrder.

(** X16. The record of a line.  The [n]-th record comes from the [n]-th
    line after the first that is not blank.  Under the header at position
    [j] it holds the [j]-th field of the trimmed line, trimmed and without
    its double quotes, and the empty String when the line has no such
    field; of two equal headers the later one gives the value; fields
    beyond the headers are dropped.  The keys of the record are listed as an
    object lists them: the headers that are array indices first, in
    ascending order, then the others. *)
Theorem parseCsvContent_cells (content : string) :
  let lines := Csv.split Csv.line_feed content in
  let headers := map Csv.clean (Csv.split Csv.comma (nth 0 lines ""%string)) in
  let kept := filter Csv.not_blank (tl lines) in
  exists rows,
    Csv.parseCsvContent content = Normal rows /\
    length rows = length kept /\
    forall n line, nth_error kept n = Some line ->
      exists row,
        nth_error rows n = Some row /\
        Csv.ordinary_order (Object_keys row) /\
        let values := map Csv.clean (Csv.split Csv.comma (Csv.trim line)) in
        forall j,
          (j < length headers)%nat ->
          nth j headers ""%string <> "__proto__"%string ->
          (forall j', (j < j' < length headers)%nat ->
                      nth j' headers ""%string <> nth j headers ""%string) ->
          get row (nth j headers ""%string) = VString (nth j values ""%string).
Proof.
  intros lines headers kept.
  pose proof (split_not_nil Csv.line_feed content) as Hne.
  unfold Csv.parseCsvContent. cbv zeta.
  change (Csv.split Csv.line_feed content) with lines in Hne |- *.
  change (map Csv.clean (Csv.split Csv.comma (nth 0 lines ""%string))) with headers.
  destruct (length lines =? 0)%nat eqn:L.
  { apply Nat.eqb_eq in L. apply length_zero_iff_nil in L. contradiction. }
  eexists. split; [reflexivity|]. rewrite read_lines_map. cbn [app]. fold kept.
  split; [apply length_map|].
  intros n line Hn. eexists. split; [apply map_nth_error; exact Hn|].
  split.
  - apply assign_from_order. exists [], []. repeat split; constructor.
  - intros j Hj Hp Hlast.
    exact (get_assign_from headers 0 _ [] j Hj Hp Hlast).
Qed.

(** A header line [name,2024,"2023"], a full line, a blank line and a line
    with one field missing: the years are listed first, the quotes are
    gone, the blank line gives no record and the missing field is empty. *)
Example parseCsvContent_sample :
  let quoted := fun s => String Csv.quote (String.append s (String Csv.quote EmptyString)) in
  let newline := String Csv.line_feed EmptyString in
  Csv.parseCsvContent
    (String.append "name,2024,"
       (String.append (quoted "2023"%string)
          (String.append newline
             (String.append "ann, 5 ,7"
                (String.append newline
                   (String.append "   " (String.append newline "bob,6")))))))
  = Normal [ [("2023"%string, VString "7"); ("2024"%string, VString "5");
              ("name"%string, VString "ann")];
             [("2023"%string, VString ""); ("2024"%string, VString "6");
              ("name"%string, VString "bob")] ].
Proof. vm_compute. reflexivity. Qed.

(* ================================================================== *)
(** * Part 12. The regression on a line with integer coefficients       *)
(* ================================================================== *)

(** ** Arithmetic that does not round

    A Number holds every integer below [2^53] in magnitude, and every such
    integer divided by a small power of two.  On Numbers of this kind the
    four operations return the exact result whenever that result is again
    of this kind. *)

Section ExactFacts.

Import Num NumFacts.

Lemma iter_shr_1_exact (k : positive) (c : positive) :
  iter_pos shr_1 k {| shr_m := Zpos (Pos.iter xO c k); shr_r := false; shr_s := false |}
  = {| shr_m := Zpos c; shr_r := false; shr_s := false |}.
Proof.
  revert c. induction k as [k IH|k IH|]; intros c; cbn [iter_pos Pos.iter].
  - cbn [shr_1 orb]. rewrite IH, IH. reflexivity.
  - rewrite IH, IH. reflexivity.
  - reflexivity.
Qed.

Lemma digits2_53 (c : positive) :
  (2 ^ 52 <= Zpos c < 2 ^ 53)%Z -> Zpos (digits2_pos c) = 53%Z.
Proof.
  intros [Hlo Hhi]. pose proof (digits2_bounds c) as [Dlo Dhi].
  set (d := Zpos (digits2_pos c)) in *.
  assert (Hd : (0 < d)%Z) by (subst d; lia).
  destruct (Z_lt_le_dec d 53) as [H|H].
  - assert (2 ^ d <= 2 ^ 52)%Z by (apply Z.pow_le_mono_r; lia). lia.
  - destruct (Z_lt_le_dec 53 d) as [H'|H']; [|lia].
    assert (2 ^ 53 <= 2 ^ (d - 1))%Z by (apply Z.pow_le_mono_r; lia). lia.
Qed.

(** A mantissa of 53 bits followed by [k] zero bits rounds to itself. *)
Lemma binary_round_aux_exact (s : bool) (c : positive) (g k : Z) :
  (2 ^ 52 <= Zpos c < 2 ^ 53)%Z -> (-1074 <= g <= 971)%Z -> (0 <= k)%Z ->
  binary_round_aux prec emax s (Zpos c * 2 ^ k) (g - k) loc_Exact = S754_finite s c g.
Proof.
  intros Hc Hg Hk. pose proof (digits2_53 c Hc) as Hd.
  assert (Second : forall e, e = g ->
            shr_fexp prec emax (Zpos c) e loc_Exact
            = ({| shr_m := Zpos c; shr_r := false; shr_s := false |}, g)).
  { intros e ->. unfold shr_fexp. cbn [Zdigits2]. rewrite Hd.
    replace (fexp prec emax (53 + g) - g)%Z with 0%Z
      by (unfold fexp, SpecFloat.emin, prec, emax; lia).
    reflexivity. }
  unfold binary_round_aux.
  assert (First : shr_fexp prec emax (Zpos c * 2 ^ k) (g - k) loc_Exact
                  = ({| shr_m := Zpos c; shr_r := false; shr_s := false |}, g)).
  { destruct k as [|p|p]; [| |lia].
    - change (2 ^ 0)%Z with 1%Z. rewrite Z.mul_1_r, Z.sub_0_r. apply Second. reflexivity.
    - rewrite <- iter_xO. unfold shr_fexp. cbn [Zdigits2].
      rewrite digits2_iter_xO, Hd.
      replace (fexp prec emax (53 + Zpos p + (g - Zpos p)) - (g - Zpos p))%Z with (Zpos p)
        by (unfold fexp, SpecFloat.emin, prec, emax; lia).
      cbn [shr shr_record_of_loc]. rewrite iter_shr_1_exact. f_equal. lia. }
  rewrite First. cbn [shr_m loc_of_shr_record round_nearest_even].
  rewrite (Second g eq_refl). cbn [shr_m].
  unfold emax, prec. replace (g <=? 1024 - 53)%Z with true by (symmetry; apply Z.leb_le; lia).
  reflexivity.
Qed.

(** The same for [binary_round], whose mantissa may also be shorter than
    53 bits. *)
Lemma binary_round_exact (s : bool) (m : positive) (e : Z) (c : positive) (g : Z) :
  (2 ^ 52 <= Zpos c < 2 ^ 53)%Z -> (-1074 <= g <= 971)%Z ->
  (Zpos m * 2 ^ (e - Z.min e g) = Zpos c * 2 ^ (g - Z.min e g))%Z ->
  binary_round prec emax s m e = S754_finite s c g.
Proof.
  intros Hc Hg Hv. unfold binary_round.
  pose proof (digits2_53 c Hc) as Hd.
  pose proof (digits2_bounds m) as [Dlo Dhi].
  set (d := Zpos (digits2_pos m)) in *.
  assert (Hd0 : (0 < d)%Z) by (subst d; lia).
  (* the digits of [m] and the exponents *)
  assert (Hde : (d + e = 53 + g)%Z).
  { destruct (Z_le_gt_dec e g) as [L|L].
    - replace (Z.min e g) with e in Hv by lia. rewrite Z.sub_diag, Z.mul_1_r in Hv.
      assert (P : (0 < 2 ^ (g - e))%Z) by (apply Z.pow_pos_nonneg; lia).
      destruct (Z_lt_le_dec (d + e) (53 + g)) as [A|A].
      + exfalso. assert (2 ^ d <= 2 ^ (52 + (g - e)))%Z by (apply Z.pow_le_mono_r; lia).
        rewrite Z.pow_add_r in H by lia. nia.
      + destruct (Z_lt_le_dec (53 + g) (d + e)) as [B|B]; [exfalso|lia].
        assert (2 ^ (53 + (g - e)) <= 2 ^ (d - 1))%Z by (apply Z.pow_le_mono_r; lia).
        rewrite Z.pow_add_r in H by lia. nia.
    - replace (Z.min e g) with g in Hv by lia. rewrite Z.sub_diag, Z.mul_1_r in Hv.
      assert (P : (0 < 2 ^ (e - g))%Z) by (apply Z.pow_pos_nonneg; lia).
      destruct (Z_lt_le_dec (d + e) (53 + g)) as [A|A].
      + exfalso. assert (2 ^ (d + (e - g)) <= 2 ^ 52)%Z by (apply Z.pow_le_mono_r; lia).
        rewrite Z.pow_add_r in H by lia. nia.
      + destruct (Z_lt_le_dec (53 + g) (d + e)) as [B|B]; [exfalso|lia].
        assert (2 ^ 53 <= 2 ^ (d - 1 + (e - g)))%Z by (apply Z.pow_le_mono_r; lia).
        rewrite Z.pow_add_r in H by lia. nia. }
  assert (Hf : fexp prec emax (d + e) = g).
  { rewrite Hde. unfold fexp, SpecFloat.emin, prec, emax. lia. }
  rewrite Hf.
  pose proof (shl_align_min m e g) as (A1 & A2 & _).
  destruct (shl_align m e g) as [mz ez]. cbn [fst snd] in A1, A2. subst ez.
  rewrite A2, Hv.
  replace (Z.min e g) with (g - (g - Z.min e g))%Z at 2 by lia.
  apply binary_round_aux_exact; [exact Hc | exact Hg | lia].
Qed.


(** A Number that holds a non-zero [z / 2^j] is normal. *)
Lemma exactly_normal (x : spec_float) (z j : Z) :
  valid_binary x = true -> exactly x z j -> z <> 0%Z -> (0 <= j <= 100)%Z ->
  exists m e, x = S754_finite (z <? 0)%Z m e /\
              (2 ^ 52 <= Zpos m < 2 ^ 53)%Z /\ (-1074 < e)%Z /\ (e + j <= 0)%Z /\
              Zpos m = (Z.abs z * 2 ^ (- (e + j)))%Z /\ (Z.abs z < 2 ^ 53)%Z.
Proof.
  intros V H Hz Hj.
  assert (G : exists m e, x = S754_finite (z <? 0)%Z m e /\
                     (e + j <= 0)%Z /\ Zpos m = (Z.abs z * 2 ^ (- (e + j)))%Z).
  { destruct z; [congruence | exact H | exact H]. }
  destruct G as (m & e & -> & Hej & Hm).
  apply valid_finite in V. destruct V as (He & Mhi & Mlo). change two53 with (2 ^ 53)%Z in Mhi.
  assert (Hp : (0 < 2 ^ (- (e + j)))%Z) by (apply Z.pow_pos_nonneg; lia).
  assert (Habs : (1 <= Z.abs z)%Z) by lia.
  assert (He' : (-1074 < e)%Z).
  { destruct (Z_lt_le_dec (-1074) e) as [|L]; [assumption|exfalso].
    assert (2 ^ 53 <= 2 ^ (- (e + j)))%Z by (apply Z.pow_le_mono_r; lia). nia. }
  exists m, e. split; [reflexivity|].
  split; [split; [apply Mlo; exact He' | exact Mhi]|].
  repeat split; try assumption. nia.
Qed.

(** The normal form of a positive integer below [2^53], at scale [j]. *)
Lemma canonical_exists (w : positive) (j : Z) :
  (Zpos w < 2 ^ 53)%Z -> (0 <= j <= 100)%Z ->
  exists c g, (2 ^ 52 <= Zpos c < 2 ^ 53)%Z /\ (-1074 <= g <= 971)%Z /\ (g + j <= 0)%Z /\
              Zpos c = (Zpos w * 2 ^ (- (g + j)))%Z.
Proof.
  intros Hw Hj. pose proof (digits2_bounds w) as [Dlo Dhi].
  set (d := Zpos (digits2_pos w)) in *.
  assert (Hd0 : (0 < d)%Z) by (subst d; lia).
  assert (Hd : (d <= 53)%Z).
  { destruct (Z_le_gt_dec d 53) as [|G]; [assumption|exfalso].
    assert (2 ^ 53 <= 2 ^ (d - 1))%Z by (apply Z.pow_le_mono_r; lia). lia. }
  assert (Hp : (0 < 2 ^ (53 - d))%Z) by (apply Z.pow_pos_nonneg; lia).
  exists (Z.to_pos (Zpos w * 2 ^ (53 - d))), (d - 53 - j)%Z.
  rewrite Z2Pos.id by nia.
  replace (- (d - 53 - j + j))%Z with (53 - d)%Z by lia.
  split; [|split; [lia | split; [lia | reflexivity]]].
  split.
  - replace 52%Z with (d - 1 + (53 - d))%Z by lia. rewrite Z.pow_add_r by lia. nia.
  - replace 53%Z with (d + (53 - d))%Z at 2 by lia. rewrite Z.pow_add_r by lia. nia.
Qed.

Lemma binary_round_exactly (s : bool) (m : positive) (e : Z) (w : positive) (j : Z) :
  (0 <= j <= 100)%Z -> (Zpos w < 2 ^ 53)%Z -> (e + j <= 0)%Z ->
  Zpos m = (Zpos w * 2 ^ (- (e + j)))%Z ->
  exists c g, binary_round prec emax s m e = S754_finite s c g /\
              (g + j <= 0)%Z /\ Zpos c = (Zpos w * 2 ^ (- (g + j)))%Z.
Proof.
  intros Hj Hw He Hm.
  destruct (canonical_exists w j Hw Hj) as (c & g & Hc & Hg & Hgj & Hcw).
  exists c, g. split; [|split; assumption].
  apply binary_round_exact; [exact Hc | exact Hg |].
  rewrite Hm, Hcw. rewrite <- !Z.mul_assoc, <- !Z.pow_add_r by lia.
  f_equal. f_equal. lia.
Qed.

(** [binary_normalize] of an integer mantissa whose value is [z / 2^j]. *)
Lemma binary_normalize_exactly (M E z j : Z) :
  (0 <= j <= 100)%Z -> (Z.abs z < 2 ^ 53)%Z -> (E + j <= 0)%Z ->
  M = (z * 2 ^ (- (E + j)))%Z ->
  exactly (binary_normalize prec emax M E false) z j.
Proof.
  intros Hj Hz HE HM.
  assert (Hp : (0 < 2 ^ (- (E + j)))%Z) by (apply Z.pow_pos_nonneg; lia).
  destruct z as [|w|w].
  - subst M. cbn. exists false. reflexivity.
  - destruct M as [|m|m]; try nia.
    cbn [binary_normalize exactly].
    destruct (binary_round_exactly false m E w j Hj ltac:(lia) HE HM) as (c & g & R & G1 & G2).
    exists c, g. rewrite R. repeat split; assumption.
  - destruct M as [|m|m]; try nia.
    cbn [binary_normalize exactly].
    destruct (binary_round_exactly true m E w j Hj ltac:(lia) HE ltac:(lia)) as (c & g & R & G1 & G2).
    exists c, g. rewrite R. repeat split; assumption.
Qed.


Lemma exactly_finite (z j : Z) (s : bool) (m : positive) (e : Z) :
  z <> 0%Z -> s = (z <? 0)%Z -> (e + j <= 0)%Z -> Zpos m = (Z.abs z * 2 ^ (- (e + j)))%Z ->
  exactly (S754_finite s m e) z j.
Proof.
  intros Hz -> He Hm. destruct z; [congruence | |]; exists m, e; repeat split; assumption.
Qed.

Lemma exactly_unique (x y : spec_float) (z j : Z) :
  valid_binary x = true -> valid_binary y = true -> (0 <= j <= 100)%Z -> z <> 0%Z ->
  exactly x z j -> exactly y z j -> x = y.
Proof.
  intros Vx Vy Hj Hz Hx Hy.
  destruct (exactly_normal x z j Vx Hx Hz Hj) as (m1 & e1 & -> & M1 & _ & E1 & V1 & _).
  destruct (exactly_normal y z j Vy Hy Hz Hj) as (m2 & e2 & -> & M2 & _ & E2 & V2 & _).
  assert (Habs : (1 <= Z.abs z)%Z) by lia.
  assert (e1 = e2).
  { destruct (Z.lt_trichotomy e1 e2) as [L|[E|L]]; [exfalso|exact E|exfalso].
    - replace (- (e1 + j))%Z with (- (e2 + j) + (e2 - e1))%Z in V1 by lia.
      rewrite Z.pow_add_r, Z.mul_assoc, <- V2 in V1 by lia.
      assert (2 ^ 1 <= 2 ^ (e2 - e1))%Z by (apply Z.pow_le_mono_r; lia).
      change (2 ^ 1)%Z with 2%Z in H. nia.
    - replace (- (e2 + j))%Z with (- (e1 + j) + (e1 - e2))%Z in V2 by lia.
      rewrite Z.pow_add_r, Z.mul_assoc, <- V1 in V2 by lia.
      assert (2 ^ 1 <= 2 ^ (e1 - e2))%Z by (apply Z.pow_le_mono_r; lia).
      change (2 ^ 1)%Z with 2%Z in H. nia. }
  subst e2. f_equal. apply Pos2Z.inj. rewrite V1, V2. reflexivity.
Qed.

Lemma aligned_exact (a : Z) (m : positive) (e ez j : Z) :
  (e + j <= 0)%Z -> (ez <= e)%Z -> Zpos m = (Z.abs a * 2 ^ (- (e + j)))%Z ->
  cond_Zopp (a <? 0)%Z (Zpos (fst (shl_align m e ez))) = (a * 2 ^ (- (ez + j)))%Z.
Proof.
  intros He Hz Hm. destruct (shl_align_min m e ez) as (_ & A & _). rewrite A.
  replace (Z.min e ez) with ez by lia. rewrite Hm, <- Z.mul_assoc, <- Z.pow_add_r by lia.
  replace (- (e + j) + (e - ez))%Z with (- (ez + j))%Z by lia.
  destruct a; cbn [Z.ltb Z.compare cond_Zopp Z.abs]; lia.
Qed.

Lemma exactly_add (x y : spec_float) (a b j : Z) :
  valid_binary x = true -> valid_binary y = true -> (0 <= j <= 100)%Z ->
  exactly x a j -> exactly y b j -> (Z.abs (a + b) < 2 ^ 53)%Z ->
  exactly (SF64add x y) (a + b) j.
Proof.
  intros Vx Vy Hj Hx Hy Hab.
  destruct (Z.eq_dec a 0) as [->|Na].
  - destruct Hx as [sx ->]. cbn [Z.add].
    destruct (Z.eq_dec b 0) as [->|Nb].
    + destruct Hy as [sy ->]. destruct sx, sy; cbn; eexists; reflexivity.
    + destruct (exactly_normal y b j Vy Hy Nb Hj) as (m & e & E & _).
      rewrite E. cbn. rewrite <- E. exact Hy.
  - destruct (Z.eq_dec b 0) as [->|Nb].
    + destruct Hy as [sy ->]. rewrite Z.add_0_r.
      destruct (exactly_normal x a j Vx Hx Na Hj) as (m & e & E & _).
      rewrite E. cbn. rewrite <- E. exact Hx.
    + destruct (exactly_normal x a j Vx Hx Na Hj) as (mx & ex & -> & Mx & Ex & Ejx & Hmx & Ax).
      destruct (exactly_normal y b j Vy Hy Nb Hj) as (my & ey & -> & My & Ey & Ejy & Hmy & Ay).
      unfold SF64add. cbn [SFadd]. cbv zeta.
      apply binary_normalize_exactly; [exact Hj | exact Hab | lia |].
      rewrite (aligned_exact a mx ex (Z.min ex ey) j) by (lia || assumption).
      rewrite (aligned_exact b my ey (Z.min ex ey) j) by (lia || assumption).
      lia.
Qed.

Lemma exactly_sub (x y : spec_float) (a b j : Z) :
  valid_binary x = true -> valid_binary y = true -> (0 <= j <= 100)%Z ->
  exactly x a j -> exactly y b j -> (Z.abs (a - b) < 2 ^ 53)%Z ->
  exactly (SF64sub x y) (a - b) j.
Proof.
  intros Vx Vy Hj Hx Hy Hab.
  destruct (Z.eq_dec a 0) as [->|Na].
  - destruct Hx as [sx ->]. cbn [Z.sub Z.add].
    destruct (Z.eq_dec b 0) as [->|Nb].
    + destruct Hy as [sy ->]. destruct sx, sy; cbn; eexists; reflexivity.
    + destruct (exactly_normal y b j Vy Hy Nb Hj) as (m & e & -> & _ & _ & Ej & Hm & _).
      cbn [SF64sub SFsub]. unfold SF64sub. cbn [SFsub].
      apply exactly_finite; [lia | | exact Ej | rewrite Z.abs_opp; exact Hm].
      destruct b; cbn; congruence.
  - destruct (Z.eq_dec b 0) as [->|Nb].
    + destruct Hy as [sy ->]. rewrite Z.sub_0_r.
      destruct (exactly_normal x a j Vx Hx Na Hj) as (m & e & E & _).
      rewrite E. cbn. rewrite <- E. exact Hx.
    + destruct (exactly_normal x a j Vx Hx Na Hj) as (mx & ex & -> & Mx & Ex & Ejx & Hmx & Ax).
      destruct (exactly_normal y b j Vy Hy Nb Hj) as (my & ey & -> & My & Ey & Ejy & Hmy & Ay).
      unfold SF64sub. cbn [SFsub]. cbv zeta.
      apply binary_normalize_exactly; [exact Hj | exact Hab | lia |].
      rewrite (aligned_exact a mx ex (Z.min ex ey) j) by (lia || assumption).
      rewrite (aligned_exact b my ey (Z.min ex ey) j) by (lia || assumption).
      lia.
Qed.

Lemma sign_of_product (a b : Z) :
  a <> 0%Z -> b <> 0%Z -> xorb (a <? 0)%Z (b <? 0)%Z = (a * b <? 0)%Z.
Proof. intros Ha Hb. destruct a, b; try congruence; reflexivity. Qed.

Lemma exactly_mul (x y : spec_float) (a b j1 j2 : Z) :
  valid_binary x = true -> valid_binary y = true ->
  (0 <= j1)%Z -> (0 <= j2)%Z -> (j1 + j2 <= 100)%Z ->
  exactly x a j1 -> exactly y b j2 -> (Z.abs (a * b) < 2 ^ 53)%Z ->
  exactly (SF64mul x y) (a * b) (j1 + j2).
Proof.
  intros Vx Vy Hj1 Hj2 Hj Hx Hy Hab.
  destruct (Z.eq_dec a 0) as [->|Na].
  - destruct Hx as [sx ->]. cbn [Z.mul].
    destruct (Z.eq_dec b 0) as [->|Nb].
    + destruct Hy as [sy ->]. cbn. eexists; reflexivity.
    + destruct (exactly_normal y b j2 Vy Hy Nb ltac:(lia)) as (m & e & -> & _).
      cbn. eexists; reflexivity.
  - destruct (exactly_normal x a j1 Vx Hx Na ltac:(lia))
      as (mx & ex & -> & Mx & Ex & Ejx & Hmx & Ax).
    destruct (Z.eq_dec b 0) as [->|Nb].
    + destruct Hy as [sy ->]. rewrite Z.mul_0_r. cbn. eexists; reflexivity.
    + destruct (exactly_normal y b j2 Vy Hy Nb ltac:(lia))
        as (my & ey & -> & My & Ey & Ejy & Hmy & Ay).
      unfold SF64mul. cbn [SFmul].
      assert (Nab : (a * b)%Z <> 0%Z) by nia.
      destruct (canonical_exists (Z.to_pos (Z.abs (a * b))) (j1 + j2)) as (c & g & Hc & Hg & Hgj & Hcw).
      { rewrite Z2Pos.id by lia. exact Hab. }
      { lia. }
      rewrite Z2Pos.id in Hcw by lia.
      set (A := (- (ex + j1) + - (ey + j2))%Z).
      assert (HA : (Zpos (mx * my) = Z.abs (a * b) * 2 ^ A)%Z).
      { rewrite Pos2Z.inj_mul, Hmx, Hmy, Z.abs_mul. unfold A. rewrite Z.pow_add_r by lia. ring. }
      set (B := (- (g + (j1 + j2)))%Z) in *.
      assert (HAB : (B <= A)%Z).
      { destruct (Z_le_gt_dec B A) as [|G]; [assumption|exfalso].
        replace B with (A + (B - A))%Z in Hcw by lia.
        rewrite Z.pow_add_r, Z.mul_assoc, <- HA in Hcw by lia.
        assert (2 ^ 1 <= 2 ^ (B - A))%Z by (apply Z.pow_le_mono_r; lia).
        change (2 ^ 1)%Z with 2%Z in H.
        assert (2 ^ 52 * 2 ^ 52 <= Zpos (mx * my))%Z by (rewrite Pos2Z.inj_mul; nia).
        change (2 ^ 52 * 2 ^ 52)%Z with (2 ^ 104)%Z in H0.
        assert (2 * 2 ^ 104 <= Zpos c)%Z by nia.
        clear - H1 Hc. lia. }
      assert (HM : (Zpos (mx * my) = Zpos c * 2 ^ (A - B))%Z).
      { rewrite HA, Hcw, <- Z.mul_assoc, <- Z.pow_add_r by lia. f_equal. f_equal. lia. }
      rewrite HM. replace (ex + ey)%Z with (g - (A - B))%Z by (unfold A, B; lia).
      rewrite binary_round_aux_exact by (assumption || lia).
      apply exactly_finite; [exact Nab | apply sign_of_product; assumption | exact Hgj | exact Hcw].
Qed.

Lemma div_eucl_exact (Q d : Z) : d <> 0%Z -> Z.div_eucl (Q * d) d = (Q, 0%Z).
Proof.
  intros Hd. rewrite (surjective_pairing (Z.div_eucl (Q * d) d)).
  change (fst (Z.div_eucl (Q * d) d)) with (Q * d / d)%Z.
  change (snd (Z.div_eucl (Q * d) d)) with ((Q * d) mod d)%Z.
  rewrite Z.div_mul, Z.mod_mul by exact Hd. reflexivity.
Qed.

Lemma new_location_exact (n : Z) : new_location n 0 = loc_Exact.
Proof. unfold new_location. destruct (Z.even n); reflexivity. Qed.

Lemma sign_of_quotient (q b : Z) :
  q <> 0%Z -> b <> 0%Z -> xorb (q * b <? 0)%Z (b <? 0)%Z = (q <? 0)%Z.
Proof. intros Hq Hb. destruct q, b; try congruence; reflexivity. Qed.

(** A quotient that is itself one of these rationals is computed exactly. *)
Lemma exactly_div (x y : spec_float) (a b q j1 j2 : Z) :
  valid_binary x = true -> valid_binary y = true ->
  (0 <= j2 <= j1)%Z -> (j1 <= 100)%Z ->
  exactly x a j1 -> exactly y b j2 -> b <> 0%Z -> a = (q * b)%Z -> (Z.abs q < 2 ^ 53)%Z ->
  exactly (SF64div x y) q (j1 - j2).
Proof.
  intros Vx Vy Hj2 Hj1 Hx Hy Nb -> Hq.
  destruct (exactly_normal y b j2 Vy Hy Nb ltac:(lia))
    as (my & ey & -> & My & Ey & Ejy & Hmy & Ay).
  destruct (Z.eq_dec q 0) as [->|Nq].
  - cbn [Z.mul] in Hx. destruct Hx as [sx ->]. cbn. eexists; reflexivity.
  - assert (Na : (q * b)%Z <> 0%Z) by nia.
    destruct (exactly_normal x (q * b) j1 Vx Hx Na ltac:(lia))
      as (mx & ex & -> & Mx & Ex & Ejx & Hmx & Ax).
    unfold SF64div. cbn [SFdiv]. unfold SFdiv_core_binary. cbn [Zdigits2].
    rewrite (digits2_53 mx Mx), (digits2_53 my My).
    set (u := (- (ex + j1))%Z) in *. set (v := (- (ey + j2))%Z) in *.
    assert (Hu : (0 <= u)%Z) by (unfold u; lia).
    assert (Hv : (0 <= v)%Z) by (unfold v; lia).
    assert (Pu : (0 < 2 ^ u)%Z) by (apply Z.pow_pos_nonneg; lia).
    assert (Pv : (0 < 2 ^ v)%Z) by (apply Z.pow_pos_nonneg; lia).
    assert (Hu53 : (u < 53)%Z).
    { destruct (Z_lt_le_dec u 53) as [|G]; [assumption|exfalso].
      assert (2 ^ 53 <= 2 ^ u)%Z by (apply Z.pow_le_mono_r; lia). nia. }
    assert (Hv53 : (v < 53)%Z).
    { destruct (Z_lt_le_dec v 53) as [|G]; [assumption|exfalso].
      assert (2 ^ 53 <= 2 ^ v)%Z by (apply Z.pow_le_mono_r; lia). nia. }
    replace (Z.min (fexp prec emax (53 + ex - (53 + ey))) (ex - ey))%Z with (ex - ey - 53)%Z
      by (unfold fexp, SpecFloat.emin, prec, emax, u, v in *; lia).
    replace (ex - ey - (ex - ey - 53))%Z with 53%Z by lia.
    rewrite Z.shiftl_mul_pow2 by lia.
    set (t := (53 + u - v)%Z).
    assert (Ht : (0 <= t)%Z) by (unfold t; lia).
    assert (HQ : (Zpos mx * 2 ^ 53 = (Z.abs q * 2 ^ t) * Zpos my)%Z).
    { rewrite Hmx, Hmy, Z.abs_mul.
      transitivity (Z.abs q * Z.abs b * (2 ^ u * 2 ^ 53))%Z; [ring|].
      rewrite <- Z.pow_add_r by lia. replace (u + 53)%Z with (t + v)%Z by (unfold t; lia).
      rewrite Z.pow_add_r by lia. ring. }
    rewrite HQ, div_eucl_exact by lia. rewrite new_location_exact.
    destruct (canonical_exists (Z.to_pos (Z.abs q)) (j1 - j2)) as (c & g & Hc & Hg & Hgj & Hcw).
    { rewrite Z2Pos.id by lia. exact Hq. }
    { lia. }
    rewrite Z2Pos.id in Hcw by lia.
    set (B := (- (g + (j1 - j2)))%Z) in *.
    assert (HB : (B <= t)%Z).
    { destruct (Z_le_gt_dec B t) as [|G]; [assumption|exfalso].
      replace B with (t + (B - t))%Z in Hcw by lia.
      rewrite Z.pow_add_r, Z.mul_assoc in Hcw by lia.
      assert (2 ^ 1 <= 2 ^ (B - t))%Z by (apply Z.pow_le_mono_r; lia).
      change (2 ^ 1)%Z with 2%Z in H.
      assert (2 ^ 52 < Z.abs q * 2 ^ t)%Z.
      { assert (2 ^ 52 * 2 ^ 53 <= Z.abs q * 2 ^ t * Zpos my)%Z by (rewrite <- HQ; nia).
        assert (0 <= Z.abs q * 2 ^ t)%Z by (apply Z.mul_nonneg_nonneg; [lia|apply Z.pow_nonneg; lia]).
        clear - H0 H1 My. nia. }
      clear - H H0 Hcw Hc. nia. }
    replace (Z.abs q * 2 ^ t)%Z with (Zpos c * 2 ^ (t - B))%Z.
    2:{ rewrite Hcw, <- Z.mul_assoc, <- Z.pow_add_r by lia. f_equal. f_equal. lia. }
    replace (ex - ey - 53)%Z with (g - (t - B))%Z by (unfold t, B, u, v; lia).
    rewrite binary_round_aux_exact by (assumption || lia).
    apply exactly_finite; [exact Nq | apply sign_of_quotient; assumption | exact Hgj | exact Hcw].
Qed.

End ExactFacts.

(** The same facts on Numbers. *)

Section HoldsFacts.

Import Num NumFacts.
Local Open Scope float_scope.

Lemma holds_add (x y : float) (a b j : Z) :
  (0 <= j <= 100)%Z -> holds x a j -> holds y b j -> (Z.abs (a + b) < 2 ^ 53)%Z ->
  holds (x + y) (a + b) j.
Proof.
  intros. unfold holds. rewrite add_spec. apply exactly_add; auto using Prim2SF_valid.
Qed.

Lemma holds_sub (x y : float) (a b j : Z) :
  (0 <= j <= 100)%Z -> holds x a j -> holds y b j -> (Z.abs (a - b) < 2 ^ 53)%Z ->
  holds (x - y) (a - b) j.
Proof.
  intros. unfold holds. rewrite sub_spec. apply exactly_sub; auto using Prim2SF_valid.
Qed.

Lemma holds_mul (x y : float) (a b j1 j2 : Z) :
  (0 <= j1)%Z -> (0 <= j2)%Z -> (j1 + j2 <= 100)%Z ->
  holds x a j1 -> holds y b j2 -> (Z.abs (a * b) < 2 ^ 53)%Z ->
  holds (x * y) (a * b) (j1 + j2).
Proof.
  intros. unfold holds. rewrite mul_spec. apply exactly_mul; auto using Prim2SF_valid.
Qed.

Lemma holds_div (x y : float) (a b q j1 j2 : Z) :
  (0 <= j2 <= j1)%Z -> (j1 <= 100)%Z ->
  holds x a j1 -> holds y b j2 -> b <> 0%Z -> a = (q * b)%Z -> (Z.abs q < 2 ^ 53)%Z ->
  holds (x / y) q (j1 - j2).
Proof.
  intros. unfold holds. rewrite div_spec. eapply exactly_div; eauto using Prim2SF_valid.
Qed.

(** The same Number read at twice the scale. *)
Lemma holds_rescale (x : float) (z j : Z) :
  (0 <= j)%Z -> (j + 1 <= 100)%Z -> holds x z j -> (Z.abs (2 * z) < 2 ^ 53)%Z ->
  holds x (2 * z) (j + 1).
Proof.
  intros Hj Hj' H Hz. unfold holds in *.
  destruct (Z.eq_dec z 0) as [->|Nz]; [exact H|].
  destruct (exactly_normal _ z j (Prim2SF_valid x) H Nz ltac:(lia))
    as (m & e & -> & M & E & Ej & Hm & A).
  assert (Ej' : (e + j < 0)%Z).
  { destruct (Z_lt_le_dec (e + j) 0) as [|G]; [assumption|exfalso].
    replace (e + j)%Z with 0%Z in Hm by lia. cbn in Hm. lia. }
  apply exactly_finite; [lia | | lia |].
  - destruct z; reflexivity.
  - rewrite Hm. replace (- (e + j))%Z with (1 + - (e + (j + 1)))%Z by lia.
    rewrite Z.pow_add_r by lia. change (2 ^ 1)%Z with 2%Z. lia.
Qed.

Lemma holds_of_uint63 (z : Z) :
  (0 <= z < 2 ^ 53)%Z -> holds (of_uint63 (Uint63.of_Z z)) z 0.
Proof.
  intros Hz. unfold holds. rewrite of_uint63_spec, Uint63.of_Z_spec.
  rewrite Z.mod_small by (change Uint63.wB with (2 ^ 63)%Z; lia).
  apply binary_normalize_exactly; [lia | lia | lia |]. cbn. lia.
Qed.

Lemma holds_of_nat (k : nat) : (Z.of_nat k < 2 ^ 53)%Z -> holds (of_nat k) (Z.of_nat k) 0.
Proof. intros H. apply holds_of_uint63. lia. Qed.

Lemma holds_of_Z (z : Z) : (Z.abs z < 2 ^ 53)%Z -> holds (of_Z z) z 0.
Proof.
  intros Hz. destruct z as [|p|p].
  - exists false. reflexivity.
  - apply holds_of_uint63. lia.
  - pose proof (holds_of_uint63 (Zpos p) ltac:(lia)) as H.
    unfold holds in *. cbn [of_Z]. rewrite opp_spec.
    destruct H as (m & e & -> & He & Hm). cbn [SFopp]. exists m, e. auto.
Qed.

Lemma holds_unique (x y : float) (z j : Z) :
  (0 <= j <= 100)%Z -> z <> 0%Z -> holds x z j -> holds y z j -> x = y.
Proof.
  intros Hj Hz Hx Hy. apply Prim2SF_inj.
  apply (exactly_unique _ _ z j); auto using Prim2SF_valid.
Qed.

Lemma holds_not_nan (x : float) (z j : Z) : holds x z j -> is_nan x = false.
Proof.
  intros H. rewrite is_nan_spec. unfold holds in H.
  destruct z; [destruct H as [s ->] | destruct H as (m & e & -> & _) ..]; reflexivity.
Qed.

(** Two Numbers that hold the same rational are equal, as [===] sees it. *)
Lemma holds_eqb (x y : float) (z j : Z) :
  (0 <= j <= 100)%Z -> holds x z j -> holds y z j -> (x =? y) = true.
Proof.
  intros Hj Hx Hy.
  rewrite eqb_frank by (eapply holds_not_nan; eassumption).
  apply Z.eqb_eq.
  destruct (Z.eq_dec z 0) as [->|Nz].
  - unfold frank. destruct Hx as [s ->], Hy as [s' ->]. reflexivity.
  - rewrite (holds_unique x y z j Hj Nz Hx Hy). reflexivity.
Qed.

Lemma total_bound (g : nat -> Z) (K : Z) (k : nat) :
  (forall i, (i < k)%nat -> (Z.abs (g i) <= K)%Z) ->
  (Z.abs (total g k) <= Z.of_nat k * K)%Z.
Proof.
  induction k as [|k IH]; intros H; cbn [total]; [lia|].
  specialize (IH ltac:(intros; apply H; lia)). specialize (H k ltac:(lia)). lia.
Qed.

Lemma total_ext (g g' : nat -> Z) (k : nat) :
  (forall i, (i < k)%nat -> g i = g' i) -> total g k = total g' k.
Proof.
  induction k as [|k IH]; intros H; cbn [total]; [reflexivity|].
  rewrite IH, (H k) by (intros; try apply H; lia). reflexivity.
Qed.

(** A sum of Numbers that hold [g 0], [g 1], ... holds their sum, when no
    partial sum leaves the range of the exact integers. *)
Lemma sum_holds (f : nat -> float) (g : nat -> Z) (j : Z) (k : nat) :
  (0 <= j <= 100)%Z ->
  (forall i, (i < k)%nat -> holds (f i) (g i) j) ->
  (forall i, (i <= k)%nat -> (Z.abs (total g i) < 2 ^ 53)%Z) ->
  holds (LeastSquares.sum (map f (seq 0 k))) (total g k) j.
Proof.
  intros Hj. induction k as [|k IH]; intros Hf Hb.
  - exists false. reflexivity.
  - rewrite seq_S, map_app. unfold LeastSquares.sum. rewrite fold_left_app.
    cbn [map fold_left total Nat.add].
    apply holds_add; [exact Hj | | apply Hf; lia | apply (Hb (S k)); lia].
    apply IH; intros; [apply Hf | apply Hb]; lia.
Qed.

End HoldsFacts.

(** ** Sums of integers *)

Section TotalFacts.

Lemma total_indices (k : nat) :
  (2 * total Z.of_nat k = Z.of_nat k * (Z.of_nat k - 1))%Z.
Proof.
  induction k as [|k IH]; [reflexivity|].
  cbn [total]. rewrite Nat2Z.inj_succ. lia.
Qed.

Lemma total_squares (k : nat) :
  (6 * total (fun i => Z.of_nat i * Z.of_nat i) k
   = (Z.of_nat k - 1) * Z.of_nat k * (2 * Z.of_nat k - 1))%Z.
Proof.
  induction k as [|k IH]; [reflexivity|].
  cbn [total]. rewrite Nat2Z.inj_succ. lia.
Qed.

Lemma total_line (a b : Z) (k : nat) :
  total (line a b) k = (Z.of_nat k * a + b * total Z.of_nat k)%Z.
Proof.
  induction k as [|k IH]; [cbn; lia|].
  cbn [total]. rewrite IH, Nat2Z.inj_succ. unfold line. lia.
Qed.

Lemma total_products (a b : Z) (k : nat) :
  total (fun i => (Z.of_nat i * line a b i)%Z) k
  = (a * total Z.of_nat k + b * total (fun i => Z.of_nat i * Z.of_nat i) k)%Z.
Proof.
  induction k as [|k IH]; [cbn; lia|].
  cbn [total]. rewrite IH. unfold line. lia.
Qed.

Lemma total_nonneg (g : nat -> Z) (k : nat) :
  (forall i, (0 <= g i)%Z) -> (0 <= total g k)%Z.
Proof.
  intros H. induction k as [|k IH]; cbn [total]; [lia|]. specialize (H k). lia.
Qed.

Lemma total_first (g : nat -> Z) (k : nat) :
  (forall i, (0 <= g i)%Z) -> (0 < k)%nat -> (g 0%nat <= total g k)%Z.
Proof.
  intros H Hk. induction k as [|k IH]; [lia|]. cbn [total].
  destruct k as [|k]; [cbn; lia|]. specialize (IH ltac:(lia)). specialize (H (S k)). lia.
Qed.

End TotalFacts.

(** ** The sums of [fit] and [score] on the points of a line *)

Lemma combine_maps {A B C : Type} (f : A -> B) (g : A -> C) (l : list A) :
  combine (map f l) (map g l) = map (fun i => (f i, g i)) l.
Proof. induction l as [|i l IH]; cbn; [reflexivity | rewrite IH; reflexivity]. Qed.

Lemma indices_from_seq (i k : nat) :
  LeastSquares.indices_from i k = map Num.of_nat (seq i k).
Proof.
  revert i. induction k as [|k IH]; intros i; cbn; [reflexivity | rewrite IH; reflexivity].
Qed.

Section LineFacts.

Import Num NumFacts.
Local Open Scope float_scope.

Variables (n : nat) (a b : Z).
Hypothesis Hn : (2 <= n)%nat.
Hypothesis Hbound :
  (Z.of_nat n ^ 3 * (Z.of_nat n + Z.abs a + Z.abs b * (Z.of_nat n + Z.abs b)) < 2 ^ 53)%Z.

Let N : Z := Z.of_nat n.
Let Y : Z := (Z.abs a + Z.abs b * N)%Z.
Let SX : Z := total Z.of_nat n.
Let SXX : Z := total (fun i => (Z.of_nat i * Z.of_nat i)%Z) n.
Let SY : Z := total (line a b) n.
Let SXY : Z := total (fun i => (Z.of_nat i * line a b i)%Z) n.
Let x : list float := LeastSquares.indices n.
Let y : list float := line_values a b n.

Lemma at_least_two_points : (2 <= N)%Z.
Proof. unfold N. lia. Qed.

Lemma bounds_of_line :
  (N * N * N * N < 2 ^ 53 /\ N * N * N * Y < 2 ^ 53 /\
   N * N * N * (Z.abs b * Z.abs b) < 2 ^ 53)%Z.
Proof.
  pose proof at_least_two_points as H2. pose proof Hbound as H. fold N in H.
  replace (N ^ 3)%Z with (N * N * N)%Z in H by ring.
  assert (H3 : (0 <= N * N * N)%Z) by nia.
  assert (Ha : (0 <= N * N * N * Z.abs a)%Z) by (apply Z.mul_nonneg_nonneg; lia).
  assert (Hb : (0 <= N * N * N * (Z.abs b * N))%Z)
    by (apply Z.mul_nonneg_nonneg; [lia | apply Z.mul_nonneg_nonneg; lia]).
  assert (Hbb : (0 <= N * N * N * (Z.abs b * Z.abs b))%Z)
    by (apply Z.mul_nonneg_nonneg; [lia | apply Z.mul_nonneg_nonneg; lia]).
  unfold Y. lia.
Qed.

Lemma small_powers :
  (N <= N * N /\ N * N <= N * N * N /\ 8 <= N * N * N /\ 2 * N <= N * N * N)%Z.
Proof. pose proof at_least_two_points. nia. Qed.

Lemma line_bound (i : nat) : (i <= n)%nat -> (Z.abs (line a b i) <= Y)%Z.
Proof.
  intros Hi. unfold line, Y, N.
  assert (Z.abs (b * Z.of_nat i) <= Z.abs b * Z.of_nat n)%Z.
  { rewrite Z.abs_mul. apply Z.mul_le_mono_nonneg_l; lia. }
  lia.
Qed.

Lemma Y_nonneg : (0 <= Y)%Z.
Proof. unfold Y, N. apply Z.add_nonneg_nonneg; [lia | apply Z.mul_nonneg_nonneg; lia]. Qed.

(** Every quantity below [N^3 * K] for a [K] among [N], [Y] and [b^2] is an
    exact integer. *)
Lemma within_exact_range (z c K : Z) :
  (Z.abs z <= c * K)%Z -> (0 <= c <= N * N * N)%Z ->
  (K = N \/ K = Y \/ K = Z.abs b * Z.abs b)%Z ->
  (Z.abs z < 2 ^ 53)%Z.
Proof.
  intros Hz Hc HK. destruct bounds_of_line as (B1 & B2 & B3).
  pose proof at_least_two_points. pose proof Y_nonneg.
  assert (0 <= K)%Z by (destruct HK as [->|[->| ->]]; nia).
  assert (c * K <= N * N * N * K)%Z by (apply Z.mul_le_mono_nonneg_r; lia).
  destruct HK as [->|[->| ->]]; lia.
Qed.

Lemma holds_index (i : nat) : (i <= n)%nat -> holds (of_nat i) (Z.of_nat i) 0.
Proof.
  intros Hi. apply holds_of_nat.
  assert (Z.abs (Z.of_nat i) < 2 ^ 53)%Z; [|lia].
  apply (within_exact_range _ 1 N); [fold N; lia | pose proof small_powers; lia | auto].
Qed.

Lemma holds_value (i : nat) : (i <= n)%nat -> holds (of_Z (line a b i)) (line a b i) 0.
Proof.
  intros Hi. apply holds_of_Z.
  apply (within_exact_range _ 1 Y); [pose proof (line_bound i Hi); lia | pose proof small_powers; lia | auto].
Qed.

Lemma indices_are : x = map of_nat (seq 0 n).
Proof. apply indices_from_seq. Qed.

Lemma length_of_indices : length x = n.
Proof. rewrite indices_are, length_map, length_seq. reflexivity. Qed.

Lemma length_of_values : length y = n.
Proof. unfold y, line_values. rewrite length_map, length_seq. reflexivity. Qed.

Lemma sum_x : holds (LeastSquares.sum x) SX 0.
Proof.
  rewrite indices_are. apply sum_holds; [lia | intros; apply holds_index; lia |].
  intros i Hi. apply (within_exact_range _ N N); [| pose proof small_powers; pose proof at_least_two_points; lia | auto].
  etransitivity; [apply (total_bound _ N); intros; fold N; lia|].
  apply Z.mul_le_mono_nonneg_r; unfold N; lia.
Qed.

Lemma sum_y : holds (LeastSquares.sum y) SY 0.
Proof.
  apply sum_holds; [lia | intros; apply holds_value; lia |].
  intros i Hi. apply (within_exact_range _ N Y); [| pose proof small_powers; pose proof at_least_two_points; lia | auto].
  etransitivity; [apply (total_bound _ Y); intros; apply line_bound; lia|].
  apply Z.mul_le_mono_nonneg_r; [apply Y_nonneg | unfold N; lia].
Qed.

Lemma product_bound (i : nat) :
  (i <= n)%nat -> (Z.abs (Z.of_nat i * line a b i) <= N * Y)%Z.
Proof.
  intros Hi. rewrite Z.abs_mul. pose proof (line_bound i Hi). pose proof Y_nonneg.
  apply Z.mul_le_mono_nonneg; unfold N; lia.
Qed.

Lemma sum_xy : holds (LeastSquares.sum (LeastSquares.products x y)) SXY 0.
Proof.
  unfold LeastSquares.products. rewrite indices_are. unfold y, line_values.
  rewrite combine_maps, map_map. cbn [fst snd].
  apply (sum_holds (fun i => of_nat i * of_Z (line a b i))
                   (fun i => (Z.of_nat i * line a b i)%Z)); [lia | |].
  - intros i Hi. apply (holds_mul _ _ _ _ 0 0); try lia;
      [apply holds_index; lia | apply holds_value; lia |].
    apply (within_exact_range _ N Y); [apply product_bound; lia | pose proof small_powers; pose proof at_least_two_points; lia | auto].
  - intros i Hi. apply (within_exact_range _ (N * N) Y);
      [| pose proof small_powers; pose proof at_least_two_points; nia | auto].
    etransitivity; [apply (total_bound _ (N * Y)); intros; apply product_bound; lia|].
    pose proof Y_nonneg. assert (Z.of_nat i <= N)%Z by (unfold N; lia).
    rewrite <- Z.mul_assoc. apply Z.mul_le_mono_nonneg_r; [pose proof at_least_two_points; nia | lia].
Qed.

Lemma square_bound (i : nat) :
  (i <= n)%nat -> (Z.abs (Z.of_nat i * Z.of_nat i) <= N * N)%Z.
Proof. intros Hi. rewrite Z.abs_mul. apply Z.mul_le_mono_nonneg; unfold N; lia. Qed.

Lemma sum_xx : holds (LeastSquares.sum (LeastSquares.products x x)) SXX 0.
Proof.
  unfold LeastSquares.products. rewrite indices_are.
  rewrite combine_maps, map_map. cbn [fst snd].
  apply (sum_holds (fun i => of_nat i * of_nat i)
                   (fun i => (Z.of_nat i * Z.of_nat i)%Z)); [lia | |].
  - intros i Hi. apply (holds_mul _ _ _ _ 0 0); try lia; try (apply holds_index; lia).
    apply (within_exact_range _ N N); [apply square_bound; lia | pose proof small_powers; pose proof at_least_two_points; lia | auto].
  - intros i Hi. apply (within_exact_range _ (N * N) N);
      [| pose proof small_powers; pose proof at_least_two_points; nia | auto].
    etransitivity; [apply (total_bound _ (N * N)); intros; apply square_bound; lia|].
    assert (Z.of_nat i <= N)%Z by (unfold N; lia).
    rewrite <- Z.mul_assoc. apply Z.mul_le_mono_nonneg_r; [pose proof at_least_two_points; nia | lia].
Qed.


Let D : Z := (N * SXX - SX * SX)%Z.
Let h : Z := (2 * a + b * (N - 1))%Z.

Lemma integer_facts :
  (Z.abs SX <= N * N /\ Z.abs SXX <= N * N * N /\ Z.abs SY <= N * Y /\
   Z.abs SXY <= N * N * Y /\ 0 < D <= N * N * N * N /\
   N * SXY - SX * SY = b * D /\ SY - b * SX = a * N /\ 2 * SY = h * N)%Z.
Proof.
  pose proof at_least_two_points as H2. pose proof Y_nonneg as HY.
  assert (B1 : (Z.abs SX <= N * N)%Z).
  { apply (total_bound _ N). intros. fold N. lia. }
  assert (B2 : (Z.abs SXX <= N * (N * N))%Z).
  { apply (total_bound _ (N * N)%Z). intros. apply square_bound. lia. }
  assert (B3 : (Z.abs SY <= N * Y)%Z).
  { apply (total_bound _ Y). intros. apply line_bound. lia. }
  assert (B4 : (Z.abs SXY <= N * (N * Y))%Z).
  { apply (total_bound _ (N * Y)%Z). intros. apply product_bound. lia. }
  pose proof (total_indices n) as E1. pose proof (total_squares n) as E2.
  pose proof (total_line a b n) as E3. pose proof (total_products a b n) as E4.
  fold SX N in E1. fold SXX N in E2. fold SY SX N in E3. fold SXY SX SXX in E4.
  assert (P0 : (0 <= SXX)%Z) by (apply total_nonneg; intros; apply Z.mul_nonneg_nonneg; lia).
  assert (E12 : (12 * D = N * N * ((N - 1) * (N + 1)))%Z).
  { unfold D.
    replace (12 * (N * SXX - SX * SX))%Z
      with (2 * N * (6 * SXX) - 3 * ((2 * SX) * (2 * SX)))%Z by ring.
    rewrite E1, E2. ring. }
  assert (P1 : (0 < D)%Z).
  { assert (0 < N * N * ((N - 1) * (N + 1)))%Z by (repeat apply Z.mul_pos_pos; lia). lia. }
  assert (P2 : (D <= N * N * N * N)%Z).
  { unfold D. assert (0 <= SX * SX)%Z by apply Z.square_nonneg.
    assert (N * SXX <= N * (N * (N * N)))%Z by (apply Z.mul_le_mono_nonneg_l; lia). lia. }
  assert (E5 : (N * SXY - SX * SY = b * D)%Z) by (unfold D; rewrite E3, E4; ring).
  assert (E6 : (SY - b * SX = a * N)%Z) by (rewrite E3; ring).
  assert (E7 : (2 * SY = h * N)%Z).
  { unfold h. rewrite E3.
    replace (2 * (N * a + b * SX))%Z with (2 * N * a + b * (2 * SX))%Z by ring.
    rewrite E1. ring. }
  clear E1 E2 E3 E4 E12.
  repeat split; try assumption; lia.
Qed.

Lemma holds_count : holds (of_nat n) N 0.
Proof. apply holds_index. lia. Qed.

Lemma numerator_holds :
  holds (of_nat n * LeastSquares.sum (LeastSquares.products x y)
         - LeastSquares.sum x * LeastSquares.sum y) (b * D) 0.
Proof.
  destruct integer_facts as (B1 & B2 & B3 & B4 & [P1 P2] & E1 & E2 & E3).
  pose proof at_least_two_points as H2. pose proof Y_nonneg as HY. pose proof small_powers as SP.
  rewrite <- E1.
  apply holds_sub; [lia | | |].
  - apply (holds_mul _ _ _ _ 0 0); try lia; [apply holds_count | apply sum_xy |].
    apply (within_exact_range _ (N * N * N) Y); [| lia | auto].
    rewrite Z.abs_mul, (Z.abs_eq N) by lia.
    replace (N * N * N * Y)%Z with (N * (N * N * Y))%Z by ring.
    apply Z.mul_le_mono_nonneg_l; lia.
  - apply (holds_mul _ _ _ _ 0 0); try lia; [apply sum_x | apply sum_y |].
    apply (within_exact_range _ (N * N * N) Y); [| lia | auto].
    rewrite Z.abs_mul.
    replace (N * N * N * Y)%Z with ((N * N) * (N * Y))%Z by ring.
    apply Z.mul_le_mono_nonneg; lia.
  - rewrite E1. apply (within_exact_range _ (N * N * N) Y); [| lia | auto].
    rewrite Z.abs_mul, (Z.abs_eq D) by lia.
    assert (Z.abs b * D <= Z.abs b * (N * N * N * N))%Z by (apply Z.mul_le_mono_nonneg_l; lia).
    assert (N * N * N * (Z.abs b * N) <= N * N * N * Y)%Z
      by (apply Z.mul_le_mono_nonneg_l; unfold Y; lia).
    lia.
Qed.

Lemma denominator_holds :
  holds (of_nat n * LeastSquares.sum (LeastSquares.products x x)
         - LeastSquares.sum x * LeastSquares.sum x) D 0.
Proof.
  destruct integer_facts as (B1 & B2 & B3 & B4 & [P1 P2] & E1 & E2 & E3).
  pose proof at_least_two_points as H2. pose proof small_powers as SP.
  unfold D.
  apply holds_sub; [lia | | |].
  - apply (holds_mul _ _ _ _ 0 0); try lia; [apply holds_count | apply sum_xx |].
    apply (within_exact_range _ (N * N * N) N); [| lia | auto].
    rewrite Z.abs_mul, (Z.abs_eq N) by lia.
    replace (N * N * N * N)%Z with (N * (N * N * N))%Z by ring.
    apply Z.mul_le_mono_nonneg_l; lia.
  - apply (holds_mul _ _ _ _ 0 0); try lia; [apply sum_x | apply sum_x |].
    apply (within_exact_range _ (N * N * N) N); [| lia | auto].
    rewrite Z.abs_mul.
    replace (N * N * N * N)%Z with ((N * N) * (N * N))%Z by ring.
    apply Z.mul_le_mono_nonneg; lia.
  - fold D. apply (within_exact_range _ (N * N * N) N); [lia | lia | auto].
Qed.

Lemma b_in_range : (Z.abs b < 2 ^ 53)%Z.
Proof.
  pose proof at_least_two_points. pose proof small_powers.
  apply (within_exact_range _ 1 Y); [| lia | auto].
  unfold Y. assert (Z.abs b * 1 <= Z.abs b * N)%Z by (apply Z.mul_le_mono_nonneg_l; lia). lia.
Qed.

Lemma a_in_range : (Z.abs a < 2 ^ 53)%Z.
Proof.
  pose proof at_least_two_points. pose proof small_powers.
  apply (within_exact_range _ 1 Y); [| lia | auto].
  unfold Y. assert (0 <= Z.abs b * N)%Z by (apply Z.mul_nonneg_nonneg; lia). lia.
Qed.

Lemma slope_holds : holds (LeastSquares.slope x y) b 0.
Proof.
  destruct integer_facts as (_ & _ & _ & _ & [P1 _] & _).
  unfold LeastSquares.slope. rewrite length_of_indices.
  apply (holds_div _ _ (b * D) D b 0 0);
    [lia | lia | apply numerator_holds | apply denominator_holds | lia | lia | apply b_in_range].
Qed.

Lemma intercept_holds : holds (LeastSquares.intercept x y) a 0.
Proof.
  destruct integer_facts as (B1 & B2 & B3 & B4 & [P1 P2] & E1 & E2 & E3).
  pose proof at_least_two_points as H2. pose proof Y_nonneg as HY. pose proof small_powers as SP.
  unfold LeastSquares.intercept. rewrite length_of_indices.
  apply (holds_div _ _ (a * N) N a 0 0);
    [lia | lia | | apply holds_count | lia | lia | apply a_in_range].
  rewrite <- E2.
  apply holds_sub; [lia | apply sum_y | |].
  - apply (holds_mul _ _ _ _ 0 0); try lia; [apply slope_holds | apply sum_x |].
    apply (within_exact_range _ N Y); [| lia | auto].
    rewrite Z.abs_mul.
    assert (Z.abs b * Z.abs SX <= Z.abs b * (N * N))%Z by (apply Z.mul_le_mono_nonneg_l; lia).
    unfold Y. assert (0 <= N * Z.abs a)%Z by (apply Z.mul_nonneg_nonneg; lia). lia.
  - rewrite E2. apply (within_exact_range _ N Y); [| lia | auto].
    rewrite Z.abs_mul, (Z.abs_eq N) by lia.
    unfold Y. assert (0 <= N * (Z.abs b * N))%Z by (repeat apply Z.mul_nonneg_nonneg; lia). lia.
Qed.

(** The fitted line passes through the points it was given, and through
    the next one. *)
Lemma predicted_holds (k : nat) :
  (k <= n)%nat -> holds (LeastSquares.predicted x y (of_nat k)) (line a b k) 0.
Proof.
  intros Hk. pose proof small_powers as SP. pose proof at_least_two_points as H2.
  unfold LeastSquares.predicted.
  replace (line a b k) with (b * Z.of_nat k + a)%Z by (unfold line; lia).
  apply holds_add; [lia | | apply intercept_holds |].
  - apply (holds_mul _ _ _ _ 0 0); try lia; [apply slope_holds | apply holds_index; exact Hk |].
    apply (within_exact_range _ 1 Y); [| lia | auto].
    rewrite Z.abs_mul, Z.mul_1_l, (Z.abs_eq (Z.of_nat k)) by lia.
    unfold Y. assert (Z.abs b * Z.of_nat k <= Z.abs b * N)%Z
      by (apply Z.mul_le_mono_nonneg_l; unfold N; lia). lia.
  - replace (b * Z.of_nat k + a)%Z with (line a b k) by (unfold line; lia).
    apply (within_exact_range _ 1 Y); [pose proof (line_bound k Hk); lia | lia | auto].
Qed.


Let T : Z := total (fun i => ((2 * line a b i - h) * (2 * line a b i - h))%Z) n.

Lemma mean_holds : holds (LeastSquares.sum y / of_nat n) h 1.
Proof.
  destruct integer_facts as (B1 & B2 & B3 & B4 & [P1 P2] & E1 & E2 & E3).
  pose proof at_least_two_points as H2. pose proof Y_nonneg as HY. pose proof small_powers as SP.
  apply (holds_div _ _ (2 * SY) N h 1 0);
    [lia | lia | | apply holds_count | lia | exact E3 |].
  - apply (holds_rescale _ SY 0); [lia | lia | apply sum_y |].
    apply (within_exact_range _ (2 * N) Y); [| lia | auto].
    rewrite Z.abs_mul. change (Z.abs 2) with 2%Z. lia.
  - apply (within_exact_range _ 2 Y); [| lia | auto].
    unfold h, Y. assert (Z.abs (b * (N - 1)) <= Z.abs b * N)%Z.
    { rewrite Z.abs_mul. apply Z.mul_le_mono_nonneg_l; lia. }
    lia.
Qed.

Lemma deviation_is (i : nat) :
  (2 * line a b i - h = b * (2 * Z.of_nat i - N + 1))%Z.
Proof. unfold line, h. ring. Qed.

Lemma deviation_bound (i : nat) :
  (i < n)%nat -> (Z.abs (2 * line a b i - h) <= Z.abs b * N)%Z.
Proof.
  intros Hi. rewrite deviation_is, Z.abs_mul.
  apply Z.mul_le_mono_nonneg_l; unfold N; lia.
Qed.

Lemma squared_deviation_bound (i : nat) :
  (i < n)%nat ->
  (Z.abs ((2 * line a b i - h) * (2 * line a b i - h)) <= N * N * (Z.abs b * Z.abs b))%Z.
Proof.
  intros Hi. rewrite Z.abs_mul. pose proof (deviation_bound i Hi) as B.
  replace (N * N * (Z.abs b * Z.abs b))%Z with ((Z.abs b * N) * (Z.abs b * N))%Z by ring.
  apply Z.mul_le_mono_nonneg; lia.
Qed.

Lemma deviation_holds (i : nat) :
  (i < n)%nat ->
  holds (of_Z (line a b i) - LeastSquares.sum y / of_nat n) (2 * line a b i - h) 1.
Proof.
  intros Hi. pose proof small_powers as SP. pose proof at_least_two_points as H2.
  pose proof (line_bound i ltac:(lia)) as L.
  apply holds_sub; [lia | | apply mean_holds |].
  - apply (holds_rescale _ _ 0); [lia | lia | apply holds_value; lia |].
    apply (within_exact_range _ 2 Y); [| lia | auto].
    rewrite Z.abs_mul. change (Z.abs 2) with 2%Z. lia.
  - apply (within_exact_range _ 1 Y); [| lia | auto].
    pose proof (deviation_bound i Hi). unfold Y.
    assert (0 <= Z.abs a)%Z by lia. lia.
Qed.

Lemma ssTot_holds :
  holds (LeastSquares.sum (LeastSquares.squares
           (map (fun yi => yi - LeastSquares.sum y / of_nat n) y))) T 2.
Proof.
  pose proof small_powers as SP. pose proof at_least_two_points as H2.
  set (m := LeastSquares.sum y / of_nat n).
  assert (Hm : m = LeastSquares.sum y / of_nat n) by reflexivity. clearbody m.
  unfold LeastSquares.squares, y, line_values. rewrite !map_map. fold (line_values a b n) in Hm.
  fold y in Hm. subst m.
  apply (sum_holds (fun i => (of_Z (line a b i) - LeastSquares.sum y / of_nat n)
                             * (of_Z (line a b i) - LeastSquares.sum y / of_nat n))
                   (fun i => ((2 * line a b i - h) * (2 * line a b i - h))%Z)); [lia | |].
  - intros i Hi. apply (holds_mul _ _ _ _ 1 1); try lia; try (apply deviation_holds; exact Hi).
    apply (within_exact_range _ (N * N) (Z.abs b * Z.abs b)%Z);
      [apply squared_deviation_bound; exact Hi | lia | auto].
  - intros i Hi. apply (within_exact_range _ (N * N * N) (Z.abs b * Z.abs b)%Z); [| lia | auto].
    etransitivity;
      [apply (total_bound _ (N * N * (Z.abs b * Z.abs b))%Z);
       intros; apply squared_deviation_bound; lia|].
    assert (Z.of_nat i <= N)%Z by (unfold N; lia).
    replace (N * N * N * (Z.abs b * Z.abs b))%Z
      with (N * (N * N * (Z.abs b * Z.abs b)))%Z by ring.
    apply Z.mul_le_mono_nonneg_r; [|lia].
    apply Z.mul_nonneg_nonneg; [lia | apply Z.mul_nonneg_nonneg; lia].
Qed.

Lemma ssRes_holds :
  holds (LeastSquares.sum (LeastSquares.squares
           (map (fun p => snd p - LeastSquares.predicted x y (fst p)) (combine x y)))) 0 0.
Proof.
  set (p := LeastSquares.predicted x y).
  assert (Hp : p = LeastSquares.predicted x y) by reflexivity. clearbody p.
  unfold LeastSquares.squares. rewrite indices_are. unfold y, line_values.
  rewrite combine_maps, !map_map. cbn [fst snd]. subst p.
  assert (E0 : total (fun _ => 0%Z) n = 0%Z).
  { clear. induction n as [|k IH]; cbn [total]; lia. }
  rewrite <- E0 at 1.
  apply (sum_holds (fun i => (of_Z (line a b i) - LeastSquares.predicted x y (of_nat i))
                             * (of_Z (line a b i) - LeastSquares.predicted x y (of_nat i)))
                   (fun _ => 0%Z)); [lia | |].
  - intros i Hi.
    assert (R : holds (of_Z (line a b i) - LeastSquares.predicted x y (of_nat i)) 0 0).
    { replace 0%Z with (line a b i - line a b i)%Z at 1 by lia.
      apply holds_sub; [lia | apply holds_value; lia | apply predicted_holds; lia |].
      rewrite Z.sub_diag. reflexivity. }
    apply (holds_mul _ _ 0 0 0 0); try lia; exact R.
  - intros i Hi. replace (total (fun _ => 0%Z) i) with 0%Z; [reflexivity|].
    clear. induction i as [|k IH]; cbn [total]; lia.
Qed.

Lemma deviations_sign : (b <> 0%Z -> 0 < T)%Z /\ (b = 0%Z -> T = 0%Z).
Proof.
  pose proof at_least_two_points as H2. split.
  - intros Hb.
    assert (G : ((2 * line a b 0 - h) * (2 * line a b 0 - h) <= T)%Z).
    { apply (total_first (fun i => ((2 * line a b i - h) * (2 * line a b i - h))%Z));
        [intros; apply Z.square_nonneg | lia]. }
    rewrite deviation_is in G. cbn [Z.of_nat] in G.
    assert (0 < (b * (2 * 0 - N + 1)) * (b * (2 * 0 - N + 1)))%Z; [|lia].
    assert (Hz : (b * (2 * 0 - N + 1) <> 0)%Z) by (apply Z.neq_mul_0; lia).
    destruct (Z_lt_le_dec (b * (2 * 0 - N + 1)) 0);
      [apply Z.mul_neg_neg | apply Z.mul_pos_pos]; lia.
  - intros Hb. unfold T.
    rewrite (total_ext _ (fun _ => 0%Z)).
    + clear. induction n as [|k IH]; cbn [total]; lia.
    + intros i _. rewrite deviation_is, Hb. ring.
Qed.

(** On a line that is not flat the fit is perfect. *)
Lemma rSquared_one : b <> 0%Z -> LeastSquares.rSquared x y = 1.
Proof.
  intros Hb. destruct deviations_sign as [TP _]. specialize (TP Hb).
  unfold LeastSquares.rSquared. rewrite length_of_values. cbv zeta.
  assert (Q : holds (LeastSquares.sum (LeastSquares.squares
                 (map (fun p => snd p - LeastSquares.predicted x y (fst p)) (combine x y)))
               / LeastSquares.sum (LeastSquares.squares
                 (map (fun yi => yi - LeastSquares.sum y / of_nat n) y))) 0 0).
  { apply (holds_div _ _ 0 T 0 2 2);
      [lia | lia | apply ssRes_holds | apply ssTot_holds | lia | lia | reflexivity]. }
  assert (One : holds 1 1 0).
  { exists 4503599627370496%positive, (-52)%Z. split; [reflexivity | split; [lia | reflexivity]]. }
  apply (holds_unique _ _ 1 0); [lia | lia | | exact One].
  change 1%Z with (1 - 0)%Z at 1.
  apply holds_sub; [lia | exact One | exact Q | reflexivity].
Qed.

(** On a flat line the score is [0 / 0]. *)
Lemma rSquared_nan : b = 0%Z -> is_nan (LeastSquares.rSquared x y) = true.
Proof.
  intros Hb. destruct deviations_sign as [_ TZ]. specialize (TZ Hb).
  unfold LeastSquares.rSquared. rewrite length_of_values. cbv zeta.
  pose proof ssRes_holds as R. pose proof ssTot_holds as S. rewrite TZ in S.
  destruct R as [s1 R], S as [s2 S].
  rewrite is_nan_spec, sub_spec, div_spec, R, S. reflexivity.
Qed.

End LineFacts.

(** ** What the analyzers make of such a series *)

Section LineInsights.

Import Num NumFacts.
Local Open Scope float_scope.

Lemma holds_positive (x : float) (z j : Z) : holds x z j -> (0 <? x) = (0 <? z)%Z.
Proof.
  intros H. rewrite ltb_frank by (reflexivity || (eapply holds_not_nan; exact H)).
  change (frank 0) with 0%Z. unfold frank. pose proof (Prim2SF_valid x) as V.
  unfold holds in H. destruct z as [|p|p].
  - destruct H as [s ->]. reflexivity.
  - destruct H as (m & e & E & _). rewrite E in V |- *.
    pose proof (rank_finite_pos _ _ _ V). cbn [rank Z.ltb Z.compare]. cbv zeta.
    apply Z.ltb_lt. lia.
  - destruct H as (m & e & E & _). rewrite E in V |- *.
    pose proof (rank_finite_pos _ _ _ V). cbn [rank Z.ltb Z.compare]. cbv zeta.
    apply Z.ltb_ge. lia.
Qed.

Lemma holds_far_from_zero (x : float) (z : Z) :
  holds x z 0 -> z <> 0%Z -> (0.01 <? Math_abs x) = true.
Proof.
  intros H Hz. pose proof (holds_not_nan x z 0 H) as Nx.
  unfold Math_abs. rewrite ltb_frank by (reflexivity || (rewrite abs_not_nan; exact Nx)).
  rewrite frank_abs. apply Z.ltb_lt.
  assert (C : (frank 0.01 < 1023 * 2 ^ 53)%Z) by (vm_compute; reflexivity).
  destruct (exactly_normal _ z 0 (Prim2SF_valid x) H Hz ltac:(lia))
    as (m & e & E & M & E1 & E2 & Hm & A).
  assert (He : (-52 <= e)%Z).
  { destruct (Z_le_gt_dec (-52) e) as [|G]; [assumption|exfalso].
    assert (2 ^ 53 <= 2 ^ (- (e + 0)))%Z by (apply Z.pow_le_mono_r; lia). nia. }
  unfold frank in *. rewrite E. cbn [rank]. cbv zeta. unfold two53.
  change (2 ^ 53)%Z with 9007199254740992%Z in *.
  change (2 ^ 52)%Z with 4503599627370496%Z in *.
  clear - C M He. destruct (z <? 0)%Z; lia.
Qed.


Lemma holds_close_to_zero (x : float) (j : Z) :
  holds x 0 j -> (0.01 <? Math_abs x) = false.
Proof.
  intros H. pose proof (holds_not_nan x 0 j H) as Nx.
  unfold Math_abs. rewrite ltb_frank by (reflexivity || (rewrite abs_not_nan; exact Nx)).
  rewrite frank_abs. destruct H as [s H]. unfold frank at 2. rewrite H. reflexivity.
Qed.

Lemma ltb_nan (t x : float) : is_nan x = true -> (t <? x) = false.
Proof.
  intros H. destruct (t <? x) eqn:E; [|reflexivity].
  apply ltb_not_nan in E. destruct E as [_ E]. congruence.
Qed.

End LineInsights.

(** X18.  On the points [(0, a), (1, a + b), ..., (n - 1, a + b (n - 1))] of
    a line with integer intercept and slope, [fit] finds the slope [b] and
    the intercept [a] exactly, [predict] returns [a + b k] at every index up
    to [n], and [score] is exactly 1 unless the line is flat, when it is
    [NaN].  The bound keeps every sum of the computation among the integers
    a Number holds exactly. *)
Theorem regression_recovers_integer_line (n : nat) (a b : Z) :
  (2 <= n)%nat ->
  (Z.of_nat n ^ 3 * (Z.of_nat n + Z.abs a + Z.abs b * (Z.of_nat n + Z.abs b)) < 2 ^ 53)%Z ->
  let x := LeastSquares.indices n in
  let y := line_values a b n in
  let regression := Regression.new x y in
  (_slope regression =? Num.of_Z b)%float = true /\
  (_intercept regression =? Num.of_Z a)%float = true /\
  (forall k, (k <= n)%nat ->
     (Regression.predict regression (Num.of_nat k) =? Num.of_Z (line a b k))%float = true) /\
  (b <> 0%Z -> Regression.score regression x y = 1%float) /\
  (b = 0%Z -> is_nan (Regression.score regression x y) = true).
Proof.
  intros Hn Hb x y regression.
  assert (Hlen : length x = length y).
  { unfold x, y, line_values, LeastSquares.indices.
    rewrite indices_length, length_map, length_seq. reflexivity. }
  destruct (fit_closed_form x y Hlen) as [Hs Hi]. fold regression in Hs, Hi.
  pose proof (score_closed_form x y Hlen) as Hr. fold regression in Hr.
  rewrite Hs, Hi, Hr.
  split; [|split; [|split; [|split]]].
  - apply (holds_eqb _ _ b 0); [lia | apply slope_holds; assumption |].
    apply holds_of_Z. apply (b_in_range n a b); assumption.
  - apply (holds_eqb _ _ a 0); [lia | apply intercept_holds; assumption |].
    apply holds_of_Z. apply (a_in_range n a b); assumption.
  - intros k Hk. unfold Regression.predict. rewrite Hs, Hi.
    apply (holds_eqb _ _ (line a b k) 0); [lia | apply predicted_holds; assumption |].
    apply (holds_value n a b); assumption.
  - apply rSquared_one; assumption.
  - apply rSquared_nan; assumption.
Qed.

Lemma regression_recovers_integer_line_witness :
  Regression.score (Regression.new (LeastSquares.indices 5) (line_values 10 10 5))
                   (LeastSquares.indices 5) (line_values 10 10 5) = 1%float.
Proof.
  apply (regression_recovers_integer_line 5 10 10); [lia | vm_compute; reflexivity | discriminate].
Defined.

(** X19.  When the series of a column is an integer line
    [a, a + b, a + 2 b, ...], [identifyTrends] reports it exactly when it
    has 3 points and [b] is not 0, with slope [b], R^2 = 1 and confidence 95,
    Upward for a positive [b] and Downward for a negative one; and
    [generatePredictions] reports it exactly when it has 5 points and [b]
    is not 0, with R^2 = 1, confidence 85 and the next point of the line,
    [a + b n], as the predicted value.  A flat series gives neither. *)
Theorem integer_line_insights (host : Host) (rows : dataset) (dateColumn column : string)
  (n : nat) (a b : Z) (trends predictions : list AnalysisInsight) :
  getDateColumn host rows = Some dateColumn -> dateColumn <> ""%string ->
  In column (getNumericColumns host rows) ->
  identifyTrends host rows = Normal trends ->
  generatePredictions host rows = Normal predictions ->
  map (fun point => value point) (prepareTimeSeriesData host rows dateColumn column)
  = line_values a b n ->
  (Z.of_nat n ^ 3 * (Z.of_nat n + Z.abs a + Z.abs b * (Z.of_nat n + Z.abs b)) < 2 ^ 53)%Z ->
  ((exists i, In i trends /\ insight_column i = Some column) <-> (3 <= n)%nat /\ b <> 0%Z) /\
  (forall i, In i trends -> insight_column i = Some column ->
     i = {| type := trend;
            title := String.append (if (0 <? b)%Z then "Upward"%string else "Downward"%string)
                                   (String.append " Trend in " column);
            confidence := 95%float;
            data := TrendData column (Num.of_Z b) 1%float
                              (prepareTimeSeriesData host rows dateColumn column) |}) /\
  ((exists i, In i predictions /\ insight_column i = Some column)
   <-> (5 <= n)%nat /\ b <> 0%Z) /\
  (forall i, In i predictions -> insight_column i = Some column ->
     exists nextValue intercept,
       i = {| type := prediction;
              title := String.append "Predicted Next Value for " column;
              confidence := 85%float;
              data := PredictionData column nextValue 1%float (Num.of_Z b) intercept |} /\
       (nextValue =? Num.of_Z (line a b n))%float = true /\
       (intercept =? Num.of_Z a)%float = true).
Proof.
  intros Hd Hname Hcol Ht Hp Hline Hbound.
  pose proof (trend_emission host rows dateColumn column trends Hd Hname Hcol Ht) as T.
  pose proof (prediction_emission host rows dateColumn column predictions Hd Hname Hcol Hp) as P.
  cbv zeta in T, P. rewrite Hline in T, P.
  set (series := prepareTimeSeriesData host rows dateColumn column) in *.
  assert (Hlen : length series = n).
  { rewrite <- (length_map (fun point => value point)), Hline.
    unfold line_values. rewrite length_map, length_seq. reflexivity. }
  rewrite Hlen in T, P.
  destruct (le_lt_dec 2 n) as [Hn|Hn].
  - pose proof (slope_holds n a b Hn Hbound) as Hs.
    pose proof (intercept_holds n a b Hn Hbound) as Hi.
    pose proof (predicted_holds n a b Hn Hbound n (le_n n)) as Hv.
    destruct (Z.eq_dec b 0) as [Hb|Hb].
    + pose proof (rSquared_nan n a b Hn Hbound Hb) as Hr.
      assert (Hz : (0.01 <? Num.Math_abs
                       (LeastSquares.slope (LeastSquares.indices n) (line_values a b n)))%float
                   = false).
      { apply (holds_close_to_zero _ 0).
        exact (eq_rect b (fun z => Num.holds _ z 0) Hs 0%Z Hb). }
      pose proof (ltb_nan 0.3%float _ Hr) as Hq.
      rewrite Hz in T. rewrite Hq in P.
      split; [|split; [|split]].
      * split; [intros (i & Hi') | intros [_ C]; congruence].
        apply T in Hi'. destruct Hi' as [[_ C] _]. discriminate.
      * intros i H1 H2. destruct (proj1 (T i) (conj H1 H2)) as [[_ C] _]. discriminate.
      * split; [intros (i & Hi') | intros [_ C]; congruence].
        apply P in Hi'. destruct Hi' as [[_ C] _]. discriminate.
      * intros i H1 H2. destruct (proj1 (P i) (conj H1 H2)) as [[_ C] _]. discriminate.
    + pose proof (rSquared_one n a b Hn Hbound Hb) as Hr.
      assert (Es : LeastSquares.slope (LeastSquares.indices n) (line_values a b n)
                   = Num.of_Z b).
      { apply (holds_unique _ _ b 0); [lia | exact Hb | exact Hs |].
        apply holds_of_Z. apply (b_in_range n a b); assumption. }
      assert (Hz : (0.01 <? Num.Math_abs (Num.of_Z b))%float = true).
      { apply (holds_far_from_zero _ b); [|exact Hb]. rewrite <- Es. exact Hs. }
      assert (Hdir : (0 <? Num.of_Z b)%float = (0 <? b)%Z).
      { apply (holds_positive _ b 0). rewrite <- Es. exact Hs. }
      rewrite Hr, Es in T. rewrite Hr, Es in P. rewrite Hz, Hdir in T.
      change (0.3 <? 1)%float with true in P.
      change (Num.Math_min (1 * 100) 95)%float with 95%float in T.
      change (Num.Math_min (1 * 100) 85)%float with 85%float in P.
      split; [|split; [|split]].
      * split.
        -- intros (i & Hi'). apply T in Hi'. destruct Hi' as [[L _] _]. split; assumption.
        -- intros [L _]. eexists. apply T. split; [split; [exact L | reflexivity] | reflexivity].
      * intros i H1 H2. destruct (proj1 (T i) (conj H1 H2)) as [_ ->]. reflexivity.
      * split.
        -- intros (i & Hi'). apply P in Hi'. destruct Hi' as [[L _] _]. split; assumption.
        -- intros [L _]. eexists. apply P. split; [split; [exact L | reflexivity] | reflexivity].
      * intros i H1 H2. destruct (proj1 (P i) (conj H1 H2)) as [_ ->].
        eexists _, _. split; [reflexivity|]. split.
        -- apply (holds_eqb _ _ (line a b n) 0); [lia | exact Hv |].
           apply (holds_value n a b Hn Hbound n). lia.
        -- apply (holds_eqb _ _ a 0); [lia | exact Hi |].
           apply holds_of_Z. apply (a_in_range n a b); assumption.
  - split; [|split; [|split]].
    + split; [intros (i & Hi') | intros [L _]; lia].
      apply T in Hi'. destruct Hi' as [[L _] _]. lia.
    + intros i H1 H2. destruct (proj1 (T i) (conj H1 H2)) as [[L _] _]. lia.
    + split; [intros (i & Hi') | intros [L _]; lia].
      apply P in Hi'. destruct Hi' as [[L _] _]. lia.
    + intros i H1 H2. destruct (proj1 (P i) (conj H1 H2)) as [[L _] _]. lia.
Qed.

Lemma integer_line_insights_witness :
  exists i, In i (predictions_of Reference.host Examples.named_header) /\
            insight_column i = Some "v"%string.
Proof.
  destruct (integer_line_insights Reference.host Examples.named_header "t" "v" 5 10 10
              (trends_of Reference.host Examples.named_header)
              (predictions_of Reference.host Examples.named_header))
    as (_ & _ & [_ H] & _).
  - vm_compute. reflexivity.
  - discriminate.
  - vm_compute. auto.
  - apply identifyTrends_returns.
  - apply generatePredictions_returns.
  - vm_compute. reflexivity.
  - vm_compute. reflexivity.
  - apply H. split; [lia | discriminate].
Defined.

(* ================================================================== *)
(** * Part 13. Cleaning the records                                     *)
(* ================================================================== *)

Section CleaningFacts.

Variable host : Host.

Import Csv.
Local Open Scope string_scope.

Lemma trimEnd_cons (c : ascii) (rest : string) :
  trimEnd (String c rest)
  = match trimEnd rest with
    | EmptyString => if is_white_space c then EmptyString else String c EmptyString
    | kept => String c kept
    end.
Proof. reflexivity. Qed.

Lemma trimEnd_idempotent (s : string) : trimEnd (trimEnd s) = trimEnd s.
Proof.
  induction s as [|c s IH]; [reflexivity|].
  rewrite trimEnd_cons.
  destruct (trimEnd s) as [|k kept] eqn:E.
  - destruct (is_white_space c) eqn:W; [reflexivity|].
    rewrite trimEnd_cons. cbn [trimEnd]. rewrite W. reflexivity.
  - rewrite trimEnd_cons, IH. reflexivity.
Qed.

Lemma trimStart_fixed (s : string) :
  match s with
  | EmptyString => True
  | String c _ => is_white_space c = false
  end -> trimStart s = s.
Proof. destruct s as [|c s]; cbn [trimStart]; [reflexivity|]. intros ->. reflexivity. Qed.

Lemma trimStart_head (s : string) :
  match trimStart s with
  | EmptyString => True
  | String c _ => is_white_space c = false
  end.
Proof.
  induction s as [|c s IH]; cbn [trimStart]; [exact I|].
  destruct (is_white_space c) eqn:W; [exact IH | exact W].
Qed.

Lemma trimEnd_head (s : string) :
  match s with
  | EmptyString => True
  | String c _ => is_white_space c = false
  end ->
  match trimEnd s with
  | EmptyString => True
  | String c _ => is_white_space c = false
  end.
Proof.
  destruct s as [|c s]; cbn [trimEnd]; [auto|]. intros W.
  destruct (trimEnd s); [rewrite W|]; exact W.
Qed.

Lemma trim_idempotent (s : string) : trim (trim s) = trim s.
Proof.
  unfold trim.
  rewrite (trimStart_fixed (trimEnd (trimStart s))).
  - apply trimEnd_idempotent.
  - apply trimEnd_head, trimStart_head.
Qed.


(** *** Cells *)

Lemma cleaned_value_clean (v : any) : clean_cell host (cleaned_value host v).
Proof.
  destruct v as [| |b|x|s]; try exact I.
  unfold cleaned_value. cbv zeta.
  destruct (String.eqb (trim s) "") eqn:E; [exact I|].
  rewrite E. cbn [negb]. rewrite andb_true_r.
  destruct (isNaN (Number_string host (trim s))) eqn:N; cbn [negb]; [|exact I].
  cbn [clean_cell]. apply String.eqb_neq in E. auto using trim_idempotent.
Qed.

Lemma clean_cell_fixed (v : any) : clean_cell host v -> cleaned_value host v = v.
Proof.
  destruct v as [| |b|x|s]; try reflexivity; [intros []|].
  intros (Hs & Ht & Hn). unfold cleaned_value. cbv zeta.
  rewrite Ht. apply String.eqb_neq in Hs. rewrite Hs, Hn. reflexivity.
Qed.

Lemma cleaned_value_null (v : any) : cleaned_value host v = VNull <-> blank v = true.
Proof.
  destruct v as [| |b|x|s];
    try (split; [reflexivity || discriminate | reflexivity || discriminate]).
  unfold cleaned_value, blank. cbv zeta.
  destruct (String.eqb (trim s) "") eqn:E; [split; reflexivity|].
  rewrite ?E. cbn [negb]. rewrite andb_true_r. destruct (isNaN (Number_string host (trim s))); cbn [negb];
    split; discriminate.
Qed.

Lemma clean_cell_not_empty (v : any) :
  clean_cell host v -> not_empty v = negb (blank v).
Proof.
  destruct v as [| |b|x|s]; try reflexivity; [intros []|].
  intros (Hs & Ht & _). cbn [not_empty blank]. rewrite Ht. reflexivity.
Qed.

(** *** Rows *)

Lemma get_app_skip (pre rest : record) (k : string) :
  ~ In k (Object_keys pre) -> get (pre ++ rest)%list k = get rest k.
Proof.
  induction pre as [|[k' w] pre IH]; cbn [app get Object_keys map fst In]; [reflexivity|].
  intros H. destruct (String.eqb k' k) eqn:E.
  - apply String.eqb_eq in E. exfalso. apply H. left. exact E.
  - apply IH. intros H'. apply H. right. exact H'.
Qed.

(** What the loop over the keys builds, from any record [acc]. *)
Lemma cleaned_fold (row : record) (keys : list string) (acc : record) :
  let out := fold_left (fun cleanedRow key =>
                          Object_set cleanedRow key (cleaned_value host (get row key)))
                       keys acc in
  (NoDup (Object_keys acc) -> NoDup (Object_keys out)) /\
  (ordinary_order (Object_keys acc) -> ordinary_order (Object_keys out)) /\
  (forall k, In k (Object_keys out) <->
             In k (Object_keys acc) \/ (In k keys /\ k <> "__proto__")) /\
  (forall k w, In (k, w) out -> In (k, w) acc \/ exists key, w = cleaned_value host (get row key)) /\
  (forall k, ~ In k keys -> get out k = get acc k) /\
  (forall k, In k keys -> k <> "__proto__" -> get out k = cleaned_value host (get row k)).
Proof.
  revert acc. induction keys as [|key keys IH]; intros acc; cbn [fold_left].
  - cbv zeta. split; [auto|]. split; [auto|]. split; [intros k; cbn [In]; tauto|].
    split; [auto|]. split; [auto|]. intros k [].
  - specialize (IH (Object_set acc key (cleaned_value host (get row key)))).
    cbv zeta in IH |- *.
    destruct IH as (I1 & I2 & I3 & I4 & I5 & I6).
    split; [|split; [|split; [|split; [|split]]]].
    + intros H. apply I1, Object_set_NoDup, H.
    + intros H. apply I2, Object_set_order, H.
    + intros k. rewrite I3, Object_set_keys. cbn [In].
      split.
      * intros [[H|[-> H]]|[H1 H2]]; auto.
      * intros [H|[[->|H] Hp]]; auto.
    + intros k w H. apply I4 in H. destruct H as [H|H]; [|auto].
      apply Object_set_values in H. destruct H as [H|H]; [auto | right; eauto].
    + intros k Hk. rewrite I5 by (intros H; apply Hk; right; exact H).
      rewrite get_Object_set.
      destruct (String.eqb key k) eqn:E; [|reflexivity].
      apply String.eqb_eq in E. exfalso. apply Hk. left. exact E.
    + intros k Hk Hp. destruct (in_dec string_dec k keys) as [Hin|Hout].
      * apply I6; assumption.
      * rewrite I5 by exact Hout. rewrite get_Object_set.
        destruct Hk as [->|Hk]; [|contradiction].
        rewrite String.eqb_refl. apply String.eqb_neq in Hp. rewrite Hp. reflexivity.
Qed.

Lemma ordinary_order_nil : ordinary_order [].
Proof. exists [], []. repeat split; constructor. Qed.

(** The record [cleanData] builds from [row]. *)
Lemma cleaned_row_spec (row : record) :
  NoDup (Object_keys (cleaned_row host row)) /\
  ordinary_order (Object_keys (cleaned_row host row)) /\
  (forall k, In k (Object_keys (cleaned_row host row)) <->
             In k (Object_keys row) /\ k <> "__proto__") /\
  (forall k v, In (k, v) (cleaned_row host row) -> clean_cell host v) /\
  (forall k, In k (Object_keys (cleaned_row host row)) ->
             get (cleaned_row host row) k = cleaned_value host (get row k)).
Proof.
  destruct (cleaned_fold row (Object_keys row) []) as (I1 & I2 & I3 & I4 & I5 & I6).
  fold (cleaned_row host row) in I1, I2, I3, I4, I5, I6.
  assert (K : forall k, In k (Object_keys (cleaned_row host row)) <->
                        In k (Object_keys row) /\ k <> "__proto__").
  { intros k. rewrite I3. cbn [Object_keys map In]. tauto. }
  split; [apply I1; constructor|]. split; [apply I2, ordinary_order_nil|].
  split; [exact K|]. split.
  - intros k v H. apply I4 in H. destruct H as [[]|[key ->]]. apply cleaned_value_clean.
  - intros k H. apply K in H. destruct H as [H1 H2]. apply I6; assumption.
Qed.


Lemma blank_cleaned_value (v : any) : blank (cleaned_value host v) = blank v.
Proof.
  pose proof (cleaned_value_clean v) as C. pose proof (cleaned_value_null v) as N.
  destruct (blank v) eqn:B.
  - rewrite (proj2 N eq_refl). reflexivity.
  - destruct (cleaned_value host v) as [| |b|x|s] eqn:E; try reflexivity.
    + destruct C.
    + discriminate (proj1 N eq_refl).
    + cbn [blank clean_cell] in *. destruct C as (Hs & Ht & _). rewrite Ht.
      apply String.eqb_neq. exact Hs.
Qed.

Lemma get_NoDup (row : record) (k : string) (v : any) :
  NoDup (Object_keys row) -> In (k, v) row -> get row k = v.
Proof.
  induction row as [|[k' w] row IH]; cbn [Object_keys map fst get In]; [intros _ []|].
  intros Hd H. inversion Hd as [|? ? Hn Hd']; subst.
  destruct H as [H|H].
  - injection H as -> ->. rewrite String.eqb_refl. reflexivity.
  - destruct (String.eqb k' k) eqn:E; [|apply IH; assumption].
    apply String.eqb_eq in E. subst k'. exfalso. apply Hn.
    change k with (fst (k, v)). apply in_map. exact H.
Qed.

(** A cleaned record is kept exactly when the record it comes from has a
    cell that is not blank, under a key other than [__proto__]. *)
Lemma kept_iff (row : record) :
  existsb not_empty (Object_values (cleaned_row host row))
  = existsb (fun k => negb (String.eqb k "__proto__") && negb (blank (get row k)))
            (Object_keys row).
Proof.
  destruct (cleaned_row_spec row) as (Hd & _ & Hk & Hc & Hg).
  apply Bool.eq_iff_eq_true. rewrite !existsb_exists. split.
  - intros (v & Hv & Hne). unfold Object_values in Hv. apply in_map_iff in Hv.
    destruct Hv as ([k w] & <- & Hin). cbn [snd] in Hne.
    assert (Hkin : In k (Object_keys (cleaned_row host row))).
    { change k with (fst (k, w)). apply in_map. exact Hin. }
    exists k. destruct (proj1 (Hk k) Hkin) as [H1 H2]. split; [exact H1|].
    apply String.eqb_neq in H2. rewrite H2. cbn [negb andb].
    rewrite (clean_cell_not_empty w (Hc k w Hin)) in Hne.
    rewrite <- (get_NoDup _ k w Hd Hin), (Hg k Hkin), blank_cleaned_value in Hne. exact Hne.
  - intros (k & H1 & H2). apply andb_prop in H2. destruct H2 as [H2 H3].
    apply negb_true_iff, String.eqb_neq in H2.
    assert (Hkin : In k (Object_keys (cleaned_row host row))) by (apply Hk; auto).
    exists (get (cleaned_row host row) k). split.
    + unfold Object_values. change (get (cleaned_row host row) k)
        with (snd (k, get (cleaned_row host row) k)). apply in_map, get_In, Hkin.
    + rewrite clean_cell_not_empty by (apply (Hc k), get_In, Hkin).
      rewrite (Hg k Hkin), blank_cleaned_value. exact H3.
Qed.

(** *** Cleaning what is clean *)

Lemma insert_index_last (row : record) (n : N) (key : string) (v : any) :
  Forall (fun k' => exists n', array_index k' = Some n' /\ (n' <= n)%N) (Object_keys row) ->
  insert_index row n key v = (row ++ [(key, v)])%list.
Proof.
  induction row as [|[k' w] row IH]; cbn [insert_index Object_keys map fst app]; intros H;
    [reflexivity|].
  inversion H as [|? ? (n' & E & L) H']; subst. rewrite E.
  replace (n <? n')%N with false by (symmetry; apply N.ltb_ge; exact L).
  f_equal. apply IH, H'.
Qed.

Lemma ordinary_order_before (pre suf : list string) (k : string) (n : N) :
  ordinary_order (pre ++ k :: suf) -> array_index k = Some n ->
  Forall (fun k' => exists n', array_index k' = Some n' /\ (n' <= n)%N) pre.
Proof.
  intros (indices & names & E & Hi & Hs & Hn) Hk. revert indices E Hi Hs.
  induction pre as [|p pre IH]; intros indices E Hi Hs; [constructor|].
  assert (Hnames : ~ In k names).
  { intros H. rewrite Forall_forall in Hn. specialize (Hn k H). congruence. }
  destruct indices as [|i0 indices].
  - cbn [app] in E. exfalso. apply Hnames. rewrite <- E. apply (in_elt k (p :: pre) suf).
  - cbn [app] in E. injection E as <- E.
    inversion Hi as [|? ? Hp Hi']; subst. inversion Hs as [|? ? Hs' Hle]; subst.
    constructor; [|apply (IH indices); assumption].
    assert (Hin : In k indices).
    { assert (H : In k (indices ++ names)) by (rewrite <- E; apply in_elt).
      apply in_app_or in H. destruct H; [assumption | contradiction]. }
    rewrite Forall_forall in Hle. specialize (Hle k Hin). unfold index_le in Hle.
    destruct (array_index p) as [n'|]; [|contradiction]. rewrite Hk in Hle. eauto.
Qed.

Lemma cleaned_row_fixed (r : record) :
  NoDup (Object_keys r) -> ordinary_order (Object_keys r) ->
  ~ In "__proto__" (Object_keys r) ->
  (forall k v, In (k, v) r -> clean_cell host v) ->
  cleaned_row host r = r.
Proof.
  intros Hd Ho Hp Hc. unfold cleaned_row.
  assert (G : forall suf pre, r = (pre ++ suf)%list ->
              fold_left (fun cleanedRow key =>
                           Object_set cleanedRow key (cleaned_value host (get r key)))
                        (Object_keys suf) pre = r).
  { induction suf as [|[k v] suf IH]; intros pre E.
    - cbn. rewrite app_nil_r in E. auto.
    - cbn [Object_keys map fst fold_left].
      assert (Ek : Object_keys r = (Object_keys pre ++ k :: Object_keys suf)%list).
      { rewrite E. unfold Object_keys. rewrite map_app. reflexivity. }
      assert (Hk : ~ In k (Object_keys pre)).
      { rewrite Ek in Hd. apply NoDup_remove_2 in Hd. intros H. apply Hd.
        apply in_or_app. left. exact H. }
      assert (Hv : get r k = v).
      { rewrite E, get_app_skip by exact Hk. cbn [get]. rewrite String.eqb_refl. reflexivity. }
      rewrite Hv, clean_cell_fixed by (apply (Hc k); rewrite E; apply in_elt).
      assert (Hs : Object_set pre k v = (pre ++ [(k, v)])%list).
      { unfold Object_set.
        assert (P : String.eqb k "__proto__" = false).
        { apply String.eqb_neq. intros ->. apply Hp. rewrite Ek. apply in_elt. }
        rewrite P.
        assert (Hh : has_key pre k = false).
        { destruct (has_key pre k) eqn:H; [|reflexivity]. apply has_key_In in H. contradiction. }
        rewrite Hh. destruct (array_index k) as [n|] eqn:A; [|reflexivity].
        apply insert_index_last.
        apply (ordinary_order_before _ (Object_keys suf) k); [|exact A].
        rewrite <- Ek. exact Ho. }
      rewrite Hs. apply IH. rewrite <- app_assoc. exact E. }
  apply (G r []). reflexivity.
Qed.

Lemma filter_of_map {A B : Type} (f : A -> B) (p : B -> bool) (l : list A) :
  filter p (map f l) = map f (filter (fun a => p (f a)) l).
Proof.
  induction l as [|a l IH]; cbn [map filter]; [reflexivity|].
  destruct (p (f a)); cbn [map]; rewrite IH; reflexivity.
Qed.

End CleaningFacts.

(** X20.  [cleanData] rejects what is no array.  From an array of records
    it keeps, in their order, the records that have a cell that is not
    blank (not [null], [undefined] or a String of white space) under a key
    other than [__proto__].  A record it returns has the keys of the record
    it comes from, except [__proto__], each once and in the order of an
    ordinary object; a blank cell has become [null], and every other cell is
    a Boolean or a Number, or a String that is trimmed, not empty and that
    [Number] does not read as a number. *)
Theorem cleanData_records (host : Host) :
  (forall v, cleanData host (NotAnArray v) = Throw "Data must be an array") /\
  forall rows, exists out,
    cleanData host (RecordArray rows) = Normal out /\
    out = map (cleaned_row host)
              (filter (fun row =>
                         existsb (fun k => negb (String.eqb k "__proto__")
                                           && negb (blank (get row k)))
                                 (Object_keys row))
                      rows) /\
    forall row, In row rows ->
      let cleaned := cleaned_row host row in
      NoDup (Object_keys cleaned) /\
      Csv.ordinary_order (Object_keys cleaned) /\
      (forall k, In k (Object_keys cleaned) <->
                 In k (Object_keys row) /\ k <> "__proto__"%string) /\
      (forall k, In k (Object_keys cleaned) ->
         (blank (get row k) = true -> get cleaned k = VNull) /\
         (blank (get row k) = false -> get cleaned k <> VNull) /\
         clean_cell host (get cleaned k)).
Proof.
  split; [reflexivity|]. intros rows. eexists. split; [reflexivity|]. split.
  - rewrite filter_of_map. f_equal. apply filter_ext. intros row. apply kept_iff.
  - intros row _ cleaned.
    destruct (cleaned_row_spec host row) as (Hd & Ho & Hk & Hc & Hg).
    fold cleaned in Hd, Ho, Hk, Hc, Hg.
    split; [exact Hd|]. split; [exact Ho|]. split; [exact Hk|].
    intros k Hin. rewrite (Hg k Hin). split; [|split].
    + apply cleaned_value_null.
    + intros B N. apply cleaned_value_null in N. congruence.
    + apply cleaned_value_clean.
Qed.

(** X21.  Cleaning is idempotent: [cleanData] returns what it is given when
    that is itself a result of [cleanData]. *)
Theorem cleanData_idempotent (host : Host) (rows : dataset) :
  exists out, cleanData host (RecordArray rows) = Normal out /\
              cleanData host (RecordArray out) = Normal out.
Proof.
  eexists. split; [reflexivity|]. cbn [cleanData]. f_equal.
  set (kept := fun row => existsb not_empty (Object_values row)).
  set (out := filter kept (map (cleaned_row host) rows)).
  assert (Hfix : map (cleaned_row host) out = out).
  { rewrite <- (map_id out) at 2. apply map_ext_in. intros r Hr.
    apply filter_In in Hr. destruct Hr as [Hr _]. apply in_map_iff in Hr.
    destruct Hr as (row & <- & _).
    destruct (cleaned_row_spec host row) as (Hd & Ho & Hk & Hc & _).
    apply cleaned_row_fixed; try assumption.
    intros H. apply Hk in H. destruct H as [_ H]. apply H. reflexivity. }
  rewrite Hfix. apply filter_all. intros r Hr. apply filter_In in Hr. apply Hr.
Qed.

(** Two records of text: the cells of the first are trimmed and read as
    numbers where they are numbers, its empty cell becomes [null]; the
    second holds nothing and is dropped. *)
Example cleanData_sample :
  cleanData Reference.host
    (RecordArray [ [("a"%string, VString " 12 "); ("b"%string, VString "");
                    ("c"%string, VString " x ")];
                   [("a"%string, VString "  "); ("b"%string, VNull);
                    ("c"%string, VUndefined)] ])
  = Normal [ [("a"%string, VNumber 12); ("b"%string, VNull); ("c"%string, VString "x")] ].
Proof. vm_compute. reflexivity. Qed.
